(* ===== verification/_CoqProject ===== *)
-Q . S2P
Prelude.v
FixedString.v
Chainbase.v
ChainbaseSpec.v
Fc.v
Config.v
Asset.v
AssetText.v
Names.v
Objects.v
Authorities.v
Protocol.v
BlockHeader.v
Database.v
Supply.v
Votes.v
Ledger.v
Rewards.v
Comments.v
Cashout.v
Genesis.v
Transfers.v
Market.v
Inflation.v
Escrow.v
EscrowSpec.v
Vesting.v
Frames.v
Proxies.v
Delegations.v
Accounts.v
WitnessSchedule.v
Soundness.v
Hardforks.v
SignState.v
Mining.v
Operations.v
Transactions.v
Block.v
BlockSafety.v
AccountNames.v
Frontier.v
BlockRules.v
ForkDatabase.v
BlockLog.v
Node.v
NodeSafety.v
Startup.v
WitnessPlugin.v
Sync.v
Follow.v
MarketHistory.v
KeyLookup.v
AccountHistory.v
