(* ===== verification/Prelude.v ===== *)
(** * calibrd: a verification development

    calibrd is the node of a delegated-proof-of-stake blockchain, derived from
    Steem.  Its core is the chain library (src/libraries/chain): a database of
    objects with undo sessions (src/libraries/chainbase), changed by the
    evaluators of the operations of the protocol (src/libraries/protocol), by the
    steps of each block, and driven by a node that follows the highest block of a
    tree of forks.  This development models that core as executable definitions
    with the names of the source and proves what makes it correct.

    ** Conventions

    A computation that may throw is a [result]; one that also changes the chain
    state is in the monad [DB] ([M database]), which drops the state when it
    throws, as the enclosing undo session does; the node has a monad [N] of its
    own, which keeps what was changed before the exception.  Integers are [Z];
    [safe_add] and the like throw on overflow as fc's [safe<int64_t>] does, and
    where the source uses plain machine integers the wrap-around is written out
    ([to_uint32], [to_int64], [u128_mul]).  Tables of objects are finite maps by
    id, with the unique keys of the source; strings are [string], hashes and keys
    too.  Loops are recursions on lists, or have fuel: the fuel is the number of
    items the loop can visit, and a theorem shows that it is enough
    ([Cashout.cashout_terminates], [Hardforks.hardforks_in_order],
    [ForkDatabase.fetch_branch_total], [Startup.reindex_replays],
    [BlockRules.merkle_root_is_tree]).

    What the sources only call is a parameter with the laws they rely on: the
    128-bit and elliptic-curve arithmetic, hashes and packing of fc ([Fc],
    [Crypto], [Packing], [FcText]), the 256-bit integers of Boost ([Boost]),
    diff_match_patch ([DiffMatchPatch]), the check of equihash proofs
    ([Equihash]) and the plugins ([Plugins], [PluginLaws]).  Each has a concrete
    instance with which the theorems are applied to small chains.

    ** Files

    The first group is the ground: [Prelude] (monads, tactics, sums over maps),
    [Chainbase] (chainbase.hpp: [generic_index] with its undo stack) and
    [ChainbaseSpec] (a stack of snapshots that it implements), [Fc] and [Config]
    (arithmetic, config.hpp), [Asset] and [AssetText] (asset.hpp, asset.cpp),
    [FixedString] and [Names] (fixed_string.hpp, account names), [Objects] (the
    objects of the chain, and the record [database] of their tables),
    [Authorities] (authority.hpp), [Protocol] (the operations and their
    validation) and [BlockHeader].

    The second is the chain state: [Database] (lookups, slots, changes of
    objects, from database.cpp), [Supply] and [Ledger] (balances, supplies,
    interest, [validate_invariants]), [Votes], [Rewards] (util/reward.cpp,
    compound.hpp), [Comments], [Cashout], [Genesis], [Transfers], [Market],
    [Inflation], [Escrow], [Vesting], [Delegations], [Proxies], [Accounts],
    [WitnessSchedule] (witness_schedule.cpp), [Hardforks] (hardfork.d), [Mining]:
    the evaluators of steem_evaluator.cpp with the functions of database.cpp that
    they call.  [Operations] is the variant of all operations and
    [apply_operation]; [SignState] and [Transactions] are the check of
    signatures; [Block] is the application of a transaction and of a block.

    The third is the node: [ForkDatabase] (fork_database.cpp), [BlockLog]
    (block_log.cpp), [Node] (pushing and popping blocks, switching forks, pending
    transactions, generating blocks; database.cpp, db_with.hpp), [Startup]
    (opening, closing, reindexing) and [Sync] (app/application.cpp: what the
    network asks of the chain, the synopsis and its answer; of net/node.cpp the
    check of the answer).

    The fourth is plugins, which are called around operations and blocks and keep
    tables of their own: [WitnessPlugin] (plugins/witness: the bandwidth of the
    accounts, the checks on user transactions and the production of blocks),
    [Follow] (plugins/follow: relations, feeds, blogs, reputations),
    [MarketHistory] (plugins/market_history), [KeyLookup]
    (plugins/account_by_key) and [AccountHistory] (plugins/account_history,
    app/impacted.cpp).

    [EscrowSpec], [Frames], [Soundness], [BlockSafety], [AccountNames],
    [Frontier], [BlockRules] and [NodeSafety] hold specifications and proofs:
    what each step leaves unchanged, and the theorems over whole blocks and over
    the node.

    ** Theorems

    - Money: an operation, a block and genesis keep the five supply equations
      balanced ([Operations.apply_operation_conserves],
      [BlockSafety.apply_block_safe], [Genesis.genesis_balanced]), which
      [validate_invariants] checks soundly; trades, conversions and rewards keep
      within their bounds ([Market.trade_terms], [Asset.conversion_rounds_down],
      [Rewards.fund_not_overdrawn]).
    - Authority: [verify_authority] accepts only what the keys back, and accepts
      what they back within the recursion limit.
    - Blocks: what a block must be to apply and what it does to the head, the
      participation record and the irreversible block; the merkle root.
    - Undo: [generic_index] implements a stack of snapshots; undo restores a
      session whose modifications keep the unique keys, squash merges, and where
      they do not keep them undo throws exactly when the keys of a row were taken
      over ([ChainbaseSpec.undo_fails_iff_taken_over]).
    - The node: the states it holds are a history of blocks above a final state
      that only moves forward, whatever fails ([NodeSafety.node_finality]); it
      adopts exactly the blocks that are higher than its head; its pending session
      is its pending transactions; restarting comes back at the final state, and
      replaying the log is applying its blocks; the fork database finds branches
      and keeps the highest head; the log is a list of blocks; a peer that is asked
      with a synopsis answers from a block that both have ([Sync.sync_finds_fork]).
    - The names of accounts: all are of the documented grammar after every block,
      and the two words that hold a name stand for it
      ([AccountNames.account_names_valid]).
    - The plugins: a node produces only in its own slots, with its keys, and keeps
      the bandwidth of an account within its stake; the counts of followers, the
      buckets of trades and the rows of keys agree with what they summarise
      ([Follow.follow_counts_exact], [MarketHistory.buckets_summarise],
      [KeyLookup.keys_indexed], in every run from genesis on); the history of an
      account is the list of the operations that concern it
      ([AccountHistory.operations_recorded]).
    - Components with a contract of their own: escrow as a life of deals, the
      order book, the rounds and medians of the witness schedule, the hardforks in
      order, the payout loop, account names, prices, amounts as text.

    ** Not modelled

    The rest of the network (src/libraries/net) is sockets, threads and timers
    around the questions of [Sync]; database_api.cpp and api.cpp are queries without effect;
    the wallet, the programs and the debugging plugins are clients or tools; the
    plugins for tags and statistics are indices that the chain does not read;
    words.cpp is a word list.  Of the plugins that are modelled: the options
    of the command line, the API, the timer of the production loop and the
    interpreter of [custom_json_operation], which is a parameter.

    Of the chain library: the notifications, the locks and the memory-mapped
    segment of chainbase (a session is the state it was opened on, which
    [ChainbaseSpec] justifies index by index), the 65536 empty block summaries of
    genesis, the conversions to and from JSON (with the text of versions), and
    [set_hardfork], which only the debugging plugin and tests call: it changes the
    times of the hardforks, which are constants here.  The block log is modelled
    without the caching of its streams. *)
From Stdlib Require Export ZArith Lia.
From stdpp Require Export pretty sorting base gmap strings fin_maps numbers list.

#[global] Open Scope Z_scope.
Set Default Proof Using "Type".

(** ** Results and state

    The C++ code signals failure with exceptions that unwind to the undo
    session of the enclosing transaction or block.  [result] is the outcome of
    a computation that may throw; [M S A] is one that also reads and writes a
    state [S].  The state of a throwing computation is dropped: the enclosing
    session restores the state it was opened on (see [Chainbase.v]). *)

Inductive fc_exception : Type :=
| assert_exception (msg : string)
| overflow_exception
| divide_by_zero_exception
| logic_error (msg : string)
| out_of_range
(** [protocol/exceptions.hpp] and [chain/database_exceptions.hpp] *)
| tx_missing_active_auth
| tx_missing_owner_auth
| tx_missing_posting_auth
| tx_missing_other_auth
| tx_irrelevant_sig
| tx_duplicate_sig
| transaction_tapos_exception
| transaction_expiration_exception
| undo_database_exception
| unlinkable_block_exception
| pop_empty_chain
| unknown_hardfork_exception
| block_log_exception
| plugin_exception
(** [net/exceptions.hpp] *)
| net_unlinkable_block_exception
| peer_is_on_an_unreachable_fork
| block_older_than_undo_history.

#[export] Instance fc_exception_eq_dec : EqDecision fc_exception.
Proof. solve_decision. Defined.

Inductive result (A : Type) : Type :=
| Ok (a : A)
| Throw (e : fc_exception).
Arguments Ok {A} a.
Arguments Throw {A} e.

#[export] Instance result_eq_dec {A} `{EqDecision A} : EqDecision (result A).
Proof. solve_decision. Defined.

#[export] Instance result_ret : MRet result := λ A a, Ok a.
#[export] Instance result_bind : MBind result := λ A B f r,
  match r with Ok a => f a | Throw e => Throw e end.

Definition is_ok {A} (r : result A) : bool := match r with Ok _ => true | Throw _ => false end.

(** [FC_ASSERT(b, msg)]. *)
Definition FC_ASSERT (b : bool) (msg : string) : result unit :=
  if b then Ok tt else Throw (assert_exception msg).

(** A loop that accumulates, without state. *)
Fixpoint rfoldl {A B} (f : B → A → result B) (l : list A) (b : B) : result B :=
  match l with
  | [] => Ok b
  | x :: l' => match f b x with Ok b' => rfoldl f l' b' | Throw e => Throw e end
  end.

Definition M (S A : Type) : Type := S → result (A * S).

#[export] Instance M_ret {S} : MRet (M S) := λ A a s, Ok (a, s).
#[export] Instance M_bind {S} : MBind (M S) := λ A B f m s,
  match m s with Ok (a, s') => f a s' | Throw e => Throw e end.

(** A computation without state effects, run in [M]. *)
Definition lift {S A} (r : result A) : M S A := λ s,
  match r with Ok a => Ok (a, s) | Throw e => Throw e end.

Definition throw {S A} (e : fc_exception) : M S A := λ _, Throw e.
Definition gets {S A} (f : S → A) : M S A := λ s, Ok (f s, s).
Definition assert {S} (b : bool) (msg : string) : M S unit := lift (FC_ASSERT b msg).

Definition update {S} (f : S → S) : M S unit := λ s, Ok (tt, f s).

(** [if (b) m] *)
Definition when {S} (b : bool) (m : M S unit) : M S unit := if b then m else mret tt.

(** A range-based [for] loop over a list fixed before the loop starts. *)
Fixpoint for_each {S A} (l : list A) (f : A → M S unit) : M S unit :=
  match l with
  | [] => mret tt
  | x :: l' => f x ;; for_each l' f
  end.

(** A [for] loop that threads a local accumulator. *)
Fixpoint fold_m {S A B} (l : list A) (f : B → A → M S B) (acc : B) : M S B :=
  match l with
  | [] => mret acc
  | x :: l' => acc' ← f acc x; fold_m l' f acc'
  end.

(** A loop without a bound, as the source has it: [step] either goes on from a
    new state or returns.  A definition that bounds the rounds with fuel is
    compared with [loop_runs]; a loop that never ends has no outcome. *)
Inductive loop_runs {X R} (step : X → result (X + R)) : X → result R → Prop :=
| loop_returns x r : step x = Ok (inr r) → loop_runs step x (Ok r)
| loop_throws x e : step x = Throw e → loop_runs step x (Throw e)
| loop_again x x' out : step x = Ok (inl x') → loop_runs step x' out → loop_runs step x out.

(** ** Inversion of successful runs *)

Section inversion.
Context {S : Type}.

Lemma bind_ok {A B} (m : M S A) (f : A → M S B) s b s' :
  (m ≫= f) s = Ok (b, s') ↔ ∃ a s1, m s = Ok (a, s1) ∧ f a s1 = Ok (b, s').
Proof.
  unfold mbind, M_bind. destruct (m s) as [[a s1]|e]; naive_solver.
Qed.

Lemma ret_ok {A} (a b : A) (s s' : S) :
  (mret a : M S A) s = Ok (b, s') ↔ b = a ∧ s' = s.
Proof. unfold mret, M_ret. naive_solver. Qed.

Lemma lift_ok {A} (r : result A) (s : S) a s' :
  lift r s = Ok (a, s') ↔ r = Ok a ∧ s' = s.
Proof. unfold lift. destruct r; naive_solver. Qed.

Lemma throw_ok {A} e (s : S) (a : A) s' : throw e s = Ok (a, s') ↔ False.
Proof. unfold throw. naive_solver. Qed.

Lemma gets_ok {A} (f : S → A) s a s' : gets f s = Ok (a, s') ↔ a = f s ∧ s' = s.
Proof. unfold gets. naive_solver. Qed.

Lemma assert_ok b msg (s : S) u s' :
  assert b msg s = Ok (u, s') ↔ b = true ∧ s' = s.
Proof. unfold assert. rewrite lift_ok. unfold FC_ASSERT. destruct b, u; naive_solver. Qed.

Lemma when_ok b (m : M S unit) s u s' :
  when b m s = Ok (u, s') ↔
  (b = true ∧ m s = Ok (u, s')) ∨ (b = false ∧ s' = s).
Proof. unfold when. destruct b, u; rewrite ?ret_ok; naive_solver. Qed.
End inversion.

Lemma m_bind_run {S A X} (m : M S A) (f : A → M S X) s :
  (m ≫= f) s = match m s with Ok (a, s') => f a s' | Throw e => Throw e end.
Proof. unfold mbind, M_bind. by destruct (m s) as [[]|]. Qed.

Lemma rbind_ok {A B} (r : result A) (f : A → result B) b :
  r ≫= f = Ok b ↔ ∃ a, r = Ok a ∧ f a = Ok b.
Proof. destruct r; naive_solver. Qed.

Lemma rret_ok {A} (a b : A) : (mret a : result A) = Ok b → b = a.
Proof. unfold mret, result_ret. naive_solver. Qed.

Lemma FC_ASSERT_ok b msg u : FC_ASSERT b msg = Ok u ↔ b = true.
Proof. unfold FC_ASSERT. destruct b, u; naive_solver. Qed.

(** [inv_ok] decomposes the hypotheses that say a computation succeeded into
    the successful steps it is made of. *)
Ltac inv_ok1 :=
  match goal with
  | H : (_ ≫= _) _ = Ok _ |- _ =>
      apply bind_ok in H;
      let a := fresh "a" in let s := fresh "s" in
      let H1 := fresh "Hm" in let H2 := fresh "Hk" in
      destruct H as (a & s & H1 & H2)
  | H : _ ≫= _ = Ok _ |- _ =>
      apply rbind_ok in H;
      let a := fresh "a" in let H1 := fresh "Hm" in let H2 := fresh "Hk" in
      destruct H as (a & H1 & H2)
  | H : mret _ _ = Ok _ |- _ => apply ret_ok in H; destruct H as [? ?]; subst
  | H : lift _ _ = Ok _ |- _ => apply lift_ok in H; destruct H as [? ?]; subst
  | H : throw _ _ = Ok _ |- _ => apply throw_ok in H; destruct H
  | H : gets _ _ = Ok _ |- _ => apply gets_ok in H; destruct H as [? ?]; subst
  | H : assert _ _ _ = Ok _ |- _ => apply assert_ok in H; destruct H as [? ?]; subst
  | H : when _ _ _ = Ok _ |- _ =>
      apply when_ok in H; destruct H as [[? ?]|[? ?]]; subst
  | H : mret _ = Ok _ |- _ => apply rret_ok in H; subst
  | H : FC_ASSERT _ _ = Ok _ |- _ => apply FC_ASSERT_ok in H
  | H : Throw _ = Ok _ |- _ => discriminate H
  | H : Ok _ = Ok _ |- _ => injection H as; subst
  | H : (λ _, _) _ = Ok _ |- _ => cbv beta in H
  | x : unit |- _ => destruct x
  end.
Ltac inv_ok := repeat inv_ok1.

(** Runs the binds of computations whose outcome is known. *)
Ltac rsimpl :=
  cbn [mbind mret result_bind result_ret M_bind M_ret FC_ASSERT lift assert gets when throw].

(** Turns the boolean tests of the source into propositions. *)
Ltac bool_simpl :=
  repeat match goal with
  | H : andb _ _ = true |- _ => apply andb_true_iff in H; destruct H
  | H : orb _ _ = false |- _ => apply orb_false_iff in H; destruct H
  | H : negb _ = true |- _ => apply negb_true_iff in H
  | H : negb _ = false |- _ => apply negb_false_iff in H
  | H : bool_decide _ = true |- _ => apply bool_decide_eq_true in H
  | H : bool_decide _ = false |- _ => apply bool_decide_eq_false in H
  | H : (_ <? _) = true |- _ => apply Z.ltb_lt in H
  | H : (_ <? _) = false |- _ => apply Z.ltb_ge in H
  | H : (_ <=? _) = true |- _ => apply Z.leb_le in H
  | H : (_ <=? _) = false |- _ => apply Z.leb_gt in H
  | H : (_ =? _) = true |- _ => apply Z.eqb_eq in H
  | H : (_ =? _) = false |- _ => apply Z.eqb_neq in H
  end.

Ltac inv_okb := inv_ok; bool_simpl; simplify_eq.

(** ** Record update

    [setter eta p] builds the update function of field [p] of a record, where
    [eta] lists the record's fields in order. *)
Ltac setter eta p :=
  let v := fresh "v" in
  let r := fresh "r" in
  intros v r;
  let b := eval unfold eta in (eta r) in
  let f := eval pattern (p r) in b in
  match f with
  | ?F _ => let t := eval cbv beta in (F v) in exact t
  end.

(** ** Machine integers *)

Definition INT64_MIN : Z := - 2 ^ 63.
Definition INT64_MAX : Z := 2 ^ 63 - 1.
Definition in_int64 (x : Z) : bool := (INT64_MIN <=? x) && (x <=? INT64_MAX).
Definition U128 : Z := 2 ^ 128.
Definition U64 : Z := 2 ^ 64.
Definition U32 : Z := 2 ^ 32.
Definition U16 : Z := 2 ^ 16.
Definition U8 : Z := 2 ^ 8.

Lemma in_int64_spec x : in_int64 x = true ↔ INT64_MIN ≤ x ≤ INT64_MAX.
Proof. unfold in_int64. rewrite andb_true_iff, !Z.leb_le. done. Qed.

(** The quotient used by the code on non-negative operands. *)
Lemma quot_div_nonneg a b : 0 ≤ a → 0 < b → Z.quot a b = a / b.
Proof. intros. by apply Z.quot_div_nonneg. Qed.

(** ** Sums over finite maps *)

Section msum.
Context {K : Type} `{Countable K} {A : Type}.
Implicit Types (m : gmap K A) (f g : A → Z).

(** The sum of [f] over the values of a map: a loop over an index. *)
Definition msum f m : Z := map_fold (λ _ x acc, f x + acc) 0 m.

Lemma msum_empty f : msum f ∅ = 0.
Proof. apply map_fold_empty. Qed.

Lemma msum_insert f m i x :
  m !! i = None → msum f (<[i:=x]> m) = f x + msum f m.
Proof.
  intros Hi. unfold msum. rewrite map_fold_insert_L; [done| |done].
  intros; lia.
Qed.

Lemma msum_delete f m i x :
  m !! i = Some x → msum f (delete i m) = msum f m - f x.
Proof.
  intros Hi. rewrite <- (insert_delete_id m i x) at 2 by done.
  rewrite msum_insert by apply lookup_delete_eq. lia.
Qed.

Lemma msum_update f m i x y :
  m !! i = Some x → msum f (<[i:=y]> m) = msum f m - f x + f y.
Proof.
  intros Hi. rewrite <- insert_delete_eq.
  rewrite msum_insert by apply lookup_delete_eq.
  rewrite (msum_delete _ _ _ x) by done. lia.
Qed.

Lemma msum_ext f g m :
  (∀ i x, m !! i = Some x → f x = g x) → msum f m = msum g m.
Proof.
  induction m as [|i x m Hi IH] using map_ind; intros Hfg; [done|].
  rewrite !msum_insert by done. rewrite (Hfg i x) by apply lookup_insert_eq.
  f_equal. apply IH. intros j y Hj. apply (Hfg j).
  rewrite lookup_insert_ne; [done|]. intros ->. congruence.
Qed.

Lemma msum_add f g m : msum (λ x, f x + g x) m = msum f m + msum g m.
Proof.
  induction m as [|i x m Hi IH] using map_ind; [by rewrite !msum_empty|].
  rewrite !msum_insert by done. lia.
Qed.

Lemma msum_nonneg f m :
  (∀ i x, m !! i = Some x → 0 ≤ f x) → 0 ≤ msum f m.
Proof.
  induction m as [|i x m Hi IH] using map_ind; intros Hf; [by rewrite msum_empty|].
  rewrite msum_insert by done.
  assert (0 ≤ f x) by (apply (Hf i); apply lookup_insert_eq).
  assert (0 ≤ msum f m); [|lia]. apply IH. intros j y Hj. apply (Hf j).
  rewrite lookup_insert_ne; [done|]. intros ->. congruence.
Qed.

Lemma msum_elem_le f m i x :
  (∀ j y, m !! j = Some y → 0 ≤ f y) → m !! i = Some x → f x ≤ msum f m.
Proof.
  intros Hf Hi. rewrite <- (insert_delete_id m i x) by done.
  rewrite msum_insert by apply lookup_delete_eq.
  assert (0 ≤ msum f (delete i m)); [|lia].
  apply msum_nonneg. intros j y Hj. apply (Hf j).
  by apply lookup_delete_Some in Hj as [_ ?].
Qed.

Lemma msum_zero f m : (∀ i x, m !! i = Some x → f x = 0) → msum f m = 0.
Proof.
  intros Hf. rewrite (msum_ext f (λ _, 0)) by done.
  induction m as [|i x m Hi IH] using map_ind; [done|].
  rewrite msum_insert by done. rewrite IH; [lia|].
  intros j y Hj. apply (Hf j). rewrite lookup_insert_ne; [done|]. congruence.
Qed.
End msum.

(** ** Ordered indices

    A boolean comparison as a decidable relation, and the rows of an index in
    its order. *)
Definition brel {A} (leb : A → A → bool) : relation A := λ x y, Is_true (leb x y).
#[export] Instance brel_dec {A} (leb : A → A → bool) : RelDecision (brel leb).
Proof. intros x y. unfold brel. apply _. Defined.

Definition sort_by {A} (leb : A → A → bool) (l : list A) : list A := merge_sort (brel leb) l.

Lemma sort_by_perm {A} (leb : A → A → bool) l : sort_by leb l ≡ₚ l.
Proof. apply merge_sort_Permutation. Qed.

Lemma sort_by_elem {A} (leb : A → A → bool) l x : x ∈ sort_by leb l ↔ x ∈ l.
Proof. by rewrite sort_by_perm. Qed.

Lemma sort_by_sorted {A} (leb : A → A → bool) l :
  (∀ x y, leb x y = true ∨ leb y x = true) → Sorted (brel leb) (sort_by leb l).
Proof.
  intros Htot. apply Sorted_merge_sort. intros x y. unfold brel.
  destruct (Htot x y) as [-> | ->]; [left|right]; done.
Qed.

(** The greatest number of a list. *)
Lemma foldr_max_ge (i : Z) l : i ≤ foldr Z.max i l ∧ ∀ x, x ∈ l → x ≤ foldr Z.max i l.
Proof.
  induction l as [|y l [IH1 IH2]]; cbn [foldr]; [split; [lia|by intros ? []%elem_of_nil]|]. split; [lia|].
  intros x [->|Hx]%elem_of_cons; [lia|]. specialize (IH2 x Hx). lia.
Qed.
Lemma foldr_max_in (i : Z) l : foldr Z.max i l = i ∨ foldr Z.max i l ∈ l.
Proof.
  induction l as [|y l IH]; cbn [foldr]; [by left|]. destruct (Z.max_spec y (foldr Z.max i l)) as [[_ ->]|[_ ->]]; set_solver.
Qed.
