(* ===== verification/FixedString.v ===== *)
(** * Names of fixed length

    [fixed_string] (protocol/fixed_string.hpp) keeps a string in two, three or
    four words of 64 bits; account names are in two of them.  The rest of the
    development takes names as strings in the order of strings; the theorems here
    say when that is the same.

    The words of a [uint128] of fc are in memory the high one first, and the
    machine is little-endian. *)
From Stdlib Require Import Ascii String.
From S2P Require Import Prelude.

Definition word_size : nat := 8.
(** A word that is read from memory and brought into the order of the machine. *)
Definition big_to_native (bytes : list Z) : Z := foldl (λ v b, 256 * v + b) 0 bytes.
Fixpoint native_to_big (n : nat) (x : Z) : list Z :=
  match n with O => [] | S n' => x / 256 ^ Z.of_nat n' mod 256 :: native_to_big n' x end.

Definition string_bytes (s : string) : list Z := (λ c, Z.of_N (N_of_ascii c)) <$> list_ascii_of_string s.
Definition bytes_string (l : list Z) : string := string_of_list_ascii ((λ b, ascii_of_N (Z.to_N b)) <$> l).

(** The constructor copies what fits over zeros. *)
Definition copy_over (n : nat) (l : list Z) : list Z := take n l ++ replicate (n - length l) 0.
Fixpoint read_words (n : nat) (bytes : list Z) : list Z :=
  match n with O => [] | S n' => big_to_native (take word_size bytes) :: read_words n' (drop word_size bytes) end.
(** A string in [n] words. *)
Definition fixed_string (n : nat) (s : string) : list Z := read_words n (copy_over (n * word_size) (string_bytes s)).
Definition fixed_bytes (data : list Z) : list Z := concat (native_to_big word_size <$> data).
(** [strnlen], unless the last byte is in use. *)
Fixpoint strnlen (l : list Z) : nat := match l with [] => 0 | b :: l' => if b =? 0 then 0 else S (strnlen l') end.
Definition fixed_size (data : list Z) : nat :=
  let d := fixed_bytes data in
  match last d with
  | Some b => if b =? 0 then strnlen d else length d
  | None => 0
  end.
Definition to_string (data : list Z) : string := bytes_string (take (fixed_size data) (fixed_bytes data)).
(** [operator <] and [operator ==] of the storage: the words in order. *)
Fixpoint data_compare (a b : list Z) : comparison :=
  match a, b with
  | x :: a', y :: b' => match Z.compare x y with Eq => data_compare a' b' | c => c end
  | [], [] => Eq
  | [], _ => Lt
  | _, [] => Gt
  end.

(** ** The words and their bytes *)
Definition is_byte (b : Z) : Prop := 0 ≤ b < 256.

Lemma big_to_native_app l b : big_to_native (l ++ [b]) = 256 * big_to_native l + b.
Proof. unfold big_to_native. by rewrite foldl_snoc. Qed.
Lemma big_to_native_cons b l :
  big_to_native (b :: l) = b * 256 ^ Z.of_nat (length l) + big_to_native l.
Proof.
  induction l as [|c l IH] using rev_ind; [cbn; lia|].
  change (b :: l ++ [c]) with ((b :: l) ++ [c]). rewrite !big_to_native_app, IH, length_app. cbn [length].
  replace (Z.of_nat (length l + 1)) with (Z.of_nat (length l) + 1) by lia. rewrite Z.pow_add_r by lia. lia.
Qed.
Lemma big_to_native_range l : Forall is_byte l → 0 ≤ big_to_native l < 256 ^ Z.of_nat (length l).
Proof.
  induction 1 as [|b l Hb Hl IH]; [cbn; lia|]. rewrite big_to_native_cons. cbn [length].
  rewrite Nat2Z.inj_succ, Z.pow_succ_r by lia. unfold is_byte in Hb. nia.
Qed.
Lemma native_to_big_read n l : Forall is_byte l → length l = n → native_to_big n (big_to_native l) = l.
Proof.
  intros Hl. revert n. assert (∀ k n, 0 ≤ k → length l = n → native_to_big n (k * 256 ^ Z.of_nat n + big_to_native l) = l) as H.
  { induction Hl as [|b l Hb Hl IH]; intros k n Hk <-; cbn [length native_to_big]; [done|].
    pose proof (big_to_native_range _ Hl). set (p := 256 ^ Z.of_nat (length l)) in *.
    assert (0 < p) by (apply Z.pow_pos_nonneg; lia).
    rewrite Nat2Z.inj_succ, Z.pow_succ_r, big_to_native_cons by lia. fold p. f_equal.
    - replace (k * (256 * p) + (b * p + big_to_native l)) with ((k * 256 + b) * p + big_to_native l) by lia.
      rewrite Z.div_add_l by lia. rewrite (Z.div_small (big_to_native l)) by lia. rewrite Z.add_0_r, Z.add_comm, Z_mod_plus_full.
      by apply Z.mod_small.
    - replace (k * (256 * p) + (b * p + big_to_native l)) with ((k * 256 + b) * p + big_to_native l) by lia.
      apply IH; [unfold is_byte in Hb; lia|done]. }
  intros n Hn. specialize (H 0 n ltac:(lia) Hn). by rewrite Z.mul_0_l in H.
Qed.

Lemma native_words n bytes :
  Forall is_byte bytes → length bytes = (n * word_size)%nat → fixed_bytes (read_words n bytes) = bytes.
Proof.
  unfold fixed_bytes. revert bytes. induction n as [|n IH]; intros bytes Hb Hlen; cbn [read_words fmap list_fmap concat].
  - by destruct bytes.
  - cbn [Nat.mul] in Hlen. rewrite native_to_big_read; [|by apply Forall_take|rewrite length_take; lia].
    rewrite IH; [apply take_drop|by apply Forall_drop|rewrite length_drop; lia].
Qed.

(** ** The order *)
Lemma data_compare_app a1 a2 b1 b2 :
  length a1 = length b1 →
  data_compare (a1 ++ a2) (b1 ++ b2) = match data_compare a1 b1 with Eq => data_compare a2 b2 | c => c end.
Proof.
  revert b1. induction a1 as [|x a1 IH]; intros [|y b1] H; try done. cbn. destruct (x ?= y); [|done..]. apply IH. by injection H.
Qed.
Lemma word_compare a b :
  Forall is_byte a → Forall is_byte b → length a = length b →
  Z.compare (big_to_native a) (big_to_native b) = data_compare a b.
Proof.
  intros Ha. revert b. induction Ha as [|x a Hx Ha IH]; intros [|y b] Hb Hlen; try done.
  apply Forall_cons in Hb as [Hy Hb]. injection Hlen as Hlen. cbn [data_compare]. rewrite <- IH by done.
  rewrite !big_to_native_cons, Hlen. pose proof (big_to_native_range _ Ha) as Ra. pose proof (big_to_native_range _ Hb) as Rb.
  rewrite Hlen in Ra. set (p := 256 ^ Z.of_nat (length b)) in *. unfold is_byte in *.
  destruct (Z.compare_spec x y) as [->|H|H].
  - by rewrite Z.add_compare_mono_l.
  - apply Z.compare_lt_iff. nia.
  - apply Z.compare_gt_iff. nia.
Qed.
Lemma words_compare n a b :
  Forall is_byte a → Forall is_byte b → length a = (n * word_size)%nat → length b = (n * word_size)%nat →
  data_compare (read_words n a) (read_words n b) = data_compare a b.
Proof.
  revert a b. induction n as [|n IH]; intros a b Ha Hb La Lb; cbn [read_words data_compare].
  - by destruct a, b.
  - cbn [Nat.mul] in La, Lb.
    rewrite <- (take_drop word_size a) at 3. rewrite <- (take_drop word_size b) at 3.
    rewrite data_compare_app by (rewrite !length_take; lia).
    rewrite word_compare by (rewrite ?length_take; lia || by apply Forall_take).
    rewrite IH by (rewrite ?length_drop; lia || by apply Forall_drop). done.
Qed.

(** ** Strings without NUL characters *)
Definition no_nul (s : string) : Prop := Forall (λ b, b ≠ 0) (string_bytes s).

Lemma string_bytes_cons c s : string_bytes (String c s) = Z.of_N (N_of_ascii c) :: string_bytes s.
Proof. done. Qed.
Lemma string_bytes_range s : Forall is_byte (string_bytes s).
Proof.
  induction s as [|c s IH]; [constructor|]. rewrite string_bytes_cons. constructor; [|done].
  unfold is_byte. pose proof (N_ascii_bounded c). lia.
Qed.
Lemma bytes_string_bytes s : bytes_string (string_bytes s) = s.
Proof.
  induction s as [|c s IH]; [done|]. rewrite string_bytes_cons. unfold bytes_string in *. cbn [fmap list_fmap string_of_list_ascii].
  by rewrite N2Z.id, ascii_N_embedding, IH.
Qed.
Lemma string_compare_bytes a b : String.compare a b = data_compare (string_bytes a) (string_bytes b).
Proof.
  revert b. induction a as [|c a IH]; intros [|d b]; try done. rewrite !string_bytes_cons. cbn [String.compare data_compare].
  rewrite N2Z.inj_compare. unfold Ascii.compare. destruct (N.compare _ _) eqn:E; [|done..]. apply IH.
Qed.
Lemma copy_over_length n l : length (copy_over n l) = n.
Proof. unfold copy_over. rewrite length_app, length_take, length_replicate. lia. Qed.
Lemma copy_over_range n l : Forall is_byte l → Forall is_byte (copy_over n l).
Proof. intros H. apply Forall_app. split; [by apply Forall_take|]. apply Forall_replicate. unfold is_byte. lia. Qed.
Lemma copy_over_compare n a b :
  Forall (λ b, 0 < b) a → Forall (λ b, 0 < b) b → (length a ≤ n)%nat → (length b ≤ n)%nat →
  data_compare (copy_over n a) (copy_over n b) = data_compare a b.
Proof.
  unfold copy_over. revert a b. induction n as [|n IH]; intros a b Ha Hb La Lb.
  - destruct a, b; cbn in *; lia || done.
  - destruct Ha as [|x a Hx Ha], Hb as [|y b Hy Hb]; cbn [take length Nat.sub app replicate data_compare].
    + rewrite Z.compare_refl. clear. induction n as [|n IH]; [done|exact IH].
    + by rewrite (proj2 (Z.compare_lt_iff _ _)).
    + by rewrite (proj2 (Z.compare_gt_iff _ _)).
    + destruct (Z.compare x y); [|done..]. apply IH; [done..|cbn in *; lia|cbn in *; lia].
Qed.
Lemma strnlen_padded l k : Forall (λ b, b ≠ 0) l → strnlen (l ++ replicate k 0) = length l.
Proof.
  induction 1 as [|b l Hb Hl IH]; cbn; [by destruct k|]. by rewrite (proj2 (Z.eqb_neq _ _)), IH.
Qed.
Lemma fixed_bytes_ok n s : fixed_bytes (fixed_string n s) = copy_over (n * word_size) (string_bytes s).
Proof. unfold fixed_string. rewrite native_words; [done|apply copy_over_range, string_bytes_range|apply copy_over_length]. Qed.
Lemma fixed_size_ok n s : no_nul s → fixed_size (fixed_string n s) = Nat.min (n * word_size) (length (string_bytes s)).
Proof.
  intros Hs. unfold fixed_size. rewrite fixed_bytes_ok. set (N := (n * word_size)%nat). set (l := string_bytes s) in *.
  assert (strnlen (copy_over N l) = Nat.min N (length l)) as Hn.
  { unfold copy_over. rewrite strnlen_padded by (by apply Forall_take). apply length_take. }
  destruct (last (copy_over N l)) as [b|] eqn:El.
  - destruct (b =? 0) eqn:Eb; [done|]. apply Z.eqb_neq in Eb. rewrite copy_over_length.
    destruct (decide (N ≤ length l)%nat); [lia|]. exfalso. apply Eb.
    unfold copy_over in El. destruct (N - length l)%nat as [|k] eqn:Ek; [lia|].
    replace (S k) with (k + 1)%nat in El by lia. rewrite replicate_add in El. cbn [replicate] in El.
    rewrite app_assoc, last_snoc in El. by injection El.
  - apply last_None in El. pose proof (copy_over_length N l) as Hl. rewrite El in Hl. cbn in Hl. lia.
Qed.

(** A string without NUL characters is read back from the words, cut to what
    fits in them, and two such strings that fit are compared by their words as
    strings are: the order of names is the order of strings, and names of up to
    16 characters are equal exactly when their two words are. *)
Theorem fixed_string_faithful n a b :
  no_nul a → no_nul b →
  to_string (fixed_string n a) = bytes_string (take (n * word_size) (string_bytes a)) ∧
  ((length (string_bytes a) ≤ n * word_size)%nat → (length (string_bytes b) ≤ n * word_size)%nat →
   to_string (fixed_string n a) = a ∧ data_compare (fixed_string n a) (fixed_string n b) = String.compare a b).
Proof.
  intros Ha Hb. assert (to_string (fixed_string n a) = bytes_string (take (n * word_size) (string_bytes a))) as E.
  { unfold to_string. rewrite fixed_size_ok, fixed_bytes_ok by done. f_equal. unfold copy_over.
    generalize (n * word_size)%nat. intros N. rewrite take_app_le by (rewrite length_take; lia). rewrite take_take.
    destruct (decide (length (string_bytes a) ≤ N)%nat).
    - rewrite !take_ge by lia. done.
    - f_equal. lia. }
  split; [done|]. intros La Lb. split.
  - rewrite E, take_ge by done. apply bytes_string_bytes.
  - unfold fixed_string. rewrite words_compare; try apply copy_over_length; try (apply copy_over_range, string_bytes_range).
    rewrite string_compare_bytes. apply copy_over_compare; [| |done..].
    all: eapply Forall_impl; [apply Forall_and; split; [eassumption|apply string_bytes_range]|].
    all: unfold is_byte; cbn; intros x [H1 H2]; lia.
Qed.
Lemma fixed_string_faithful_witness :
  to_string (fixed_string 2 "calibrae") = "calibrae"%string ∧
  data_compare (fixed_string 2 "calibrae") (fixed_string 2 "calibrae.witness") = Lt.
Proof.
  refine (proj2 (fixed_string_faithful 2 "calibrae" "calibrae.witness" _ _) _ _).
  - apply (bool_decide_unpack _). vm_compute. exact I.
  - apply (bool_decide_unpack _). vm_compute. exact I.
  - apply (bool_decide_unpack _). vm_compute. exact I.
  - apply (bool_decide_unpack _). vm_compute. exact I.
Defined.
(** Longer names are cut: two of them can be the same. *)
Example long_names_meet : fixed_string 2 "a.very.long.name.1" = fixed_string 2 "a.very.long.name.2".
Proof. vm_compute. reflexivity. Qed.
