(* ===== verification/ChainbaseSpec.v ===== *)
(** * Chainbase: the undo history implements a stack of snapshots

    [Module Abs] is the specification of [generic_index]: the rows and the next
    id, and one saved copy of them per open session.  [sim] relates an index to
    the abstract state it implements.  The theorems show that [emplace],
    [modify] and [remove] leave every saved copy untouched, that [undo] never
    throws and brings the last saved copy back, that [squash] forgets the last
    saved copy and keeps the one before it, and that [commit] forgets the
    oldest ones.  They ask that modifications keep the unique keys of an object;
    [undo_fails_iff_taken_over] says which sessions [undo] cannot restore where
    they do not. *)
From S2P Require Import Prelude Chainbase.

Module Abs.
(** The rows of a table and its next id. *)
Record snap (A : Type) := Snap { rows : gmap Z A; next : Z }.
Arguments Snap {A}.
Arguments rows {A}.
Arguments next {A}.

(** The current table, the saved tables with their revisions (last one
    first), and the revision counter. *)
Record state (A : Type) := State {
  cur : snap A;
  saved : list (snap A * Z);
  rev : Z;
}.
Arguments State {A}.
Arguments cur {A}.
Arguments saved {A}.
Arguments rev {A}.

Section ops.
Context {A : Type}.
Implicit Types (a : state A) (s : snap A).

Definition start a : state A := State (cur a) ((cur a, rev a + 1) :: saved a) (rev a + 1).
Definition undo a : state A :=
  match saved a with
  | [] => a
  | (s, _) :: ss => State s ss (rev a - 1)
  end.
(** The last session is merged into the one before it. *)
Definition squash a : state A :=
  match saved a with
  | [] => a
  | [_] => State (cur a) [] (rev a)
  | _ :: ss => State (cur a) ss (rev a - 1)
  end.
Fixpoint drop_front (r : Z) (l : list (snap A * Z)) : list (snap A * Z) :=
  match l with
  | [] => []
  | p :: l' => if p.2 <=? r then drop_front r l' else l
  end.
Definition commit (r : Z) a : state A :=
  State (cur a) (reverse (drop_front r (reverse (saved a)))) (rev a).
Definition set_cur s a : state A := State s (saved a) (rev a).
End ops.
End Abs.

Section lists.
(** Folds whose steps each change one key, seen through a view. *)
Lemma foldl_view {S B V} (view : Z → S → V) (f : S → B → S) (key : B → Z)
    (g : B → V → V) (l : list B) s :
  NoDup (key <$> l) →
  (∀ s b, b ∈ l → view (key b) (f s b) = g b (view (key b) s)) →
  (∀ s b j, b ∈ l → j ≠ key b → view j (f s b) = view j s) →
  (∀ b, b ∈ l → view (key b) (foldl f s l) = g b (view (key b) s)) ∧
  (∀ j, j ∉ key <$> l → view j (foldl f s l) = view j s).
Proof.
  revert s. induction l as [|b l IH]; intros s Hnd Hsame Hother; simpl.
  { split; [intros b Hb; by apply not_elem_of_nil in Hb|done]. }
  apply NoDup_cons in Hnd as [Hb Hnd].
  destruct (IH (f s b)) as [IH1 IH2]; [done| | |].
  { intros; apply Hsame; by right. } { intros; apply Hother; [by right|done]. }
  split.
  - intros b' [->|Hin]%elem_of_cons.
    + rewrite IH2 by done. apply Hsame. by left.
    + rewrite IH1 by done. f_equal. apply Hother; [by left|].
      intros E. apply Hb. rewrite <- E. apply list_elem_of_fmap. eauto.
  - intros j Hj. apply not_elem_of_cons in Hj as [Hj1 Hj2].
    rewrite IH2 by done. apply Hother; [by left|done].
Qed.

Lemma ascending_keys {A} (m : gmap Z A) : NoDup ((ascending m).*1).
Proof. rewrite ascending_perm. apply NoDup_fst_map_to_list. Qed.

Lemma elem_of_ascending {A} (m : gmap Z A) i x : (i, x) ∈ ascending m ↔ m !! i = Some x.
Proof. rewrite ascending_perm. apply elem_of_map_to_list. Qed.

Lemma elem_of_ascending_key {A} (m : gmap Z A) i : i ∈ (ascending m).*1 ↔ is_Some (m !! i).
Proof.
  rewrite list_elem_of_fmap. split.
  - intros ([j x] & -> & Hx). apply elem_of_ascending in Hx. eauto.
  - intros [x Hx]. exists (i, x). by rewrite elem_of_ascending.
Qed.

Lemma elem_of_ascending_set s i : i ∈ ascending_set s ↔ i ∈ s.
Proof. rewrite ascending_set_perm. apply elem_of_elements. Qed.

Lemma ascending_set_NoDup s : NoDup (ascending_set s).
Proof. rewrite ascending_set_perm. apply NoDup_elements. Qed.
End lists.

Section refinement.
Context {A : Type} `{MultiIndexLaws A}.
Implicit Types (g : generic_index A) (u : undo_state A) (x y : A) (m : gmap Z A).
Implicit Types (s : Abs.snap A) (a : Abs.state A).

(** Two versions of an object with the same unique keys. *)
Definition same_keys x y : Prop := ∀ z, obj_clash x z = obj_clash y z.
#[local] Instance same_keys_trans : Transitive same_keys.
Proof. intros x y z H1 H2 w. by rewrite H1. Qed.
(** Any two versions of an object. *)
Definition any_keys x y : Prop := True.
#[local] Instance any_keys_trans : Transitive any_keys.
Proof. done. Qed.

(** What a modification may make of an object: [same_keys], or [any_keys]. *)
Section versions.
Context (version : A → A → Prop) `{!Transitive version}.

(** The rows an undo state stands for, given the current ones. *)
Definition revert_at u m (i : Z) : option A :=
  match removed_values u !! i with
  | Some x => Some x
  | None => match old_values u !! i with
            | Some x => Some x
            | None => if bool_decide (i ∈ new_ids u) then None else m !! i
            end
  end.

(** The undo state is in step with the current rows. *)
Record undo_ok u m : Prop := {
  ok_old : ∀ i x, old_values u !! i = Some x →
    obj_id x = i ∧ i ∉ new_ids u ∧ ∃ y, m !! i = Some y ∧ version x y;
  ok_removed : ∀ i x, removed_values u !! i = Some x → obj_id x = i ∧ m !! i = None;
  ok_new : ∀ i, i ∈ new_ids u → is_Some (m !! i) ∧ old_next_id u ≤ i;
}.

Definition snap_wf s : Prop :=
  container_wf (Abs.rows s) ∧ ∀ i x, Abs.rows s !! i = Some x → i < Abs.next s.

(** The stack of undo states stands for the saved tables. *)
Fixpoint chain s (us : list (undo_state A)) (ss : list (Abs.snap A * Z)) : Prop :=
  match us, ss with
  | [], [] => True
  | u :: us', (s', r) :: ss' =>
      undo_ok u (Abs.rows s) ∧
      (∀ i, Abs.rows s' !! i = revert_at u (Abs.rows s) i) ∧
      old_next_id u = Abs.next s' ∧ us_revision u = r ∧
      Abs.next s' ≤ Abs.next s ∧ snap_wf s' ∧ chain s' us' ss'
  | _, _ => False
  end.

(** [g] implements [a]. *)
Definition sim g a : Prop :=
  _indices g = Abs.rows (Abs.cur a) ∧ _next_id g = Abs.next (Abs.cur a) ∧
  _revision g = Abs.rev a ∧ snap_wf (Abs.cur a) ∧
  chain (Abs.cur a) (_stack g) (Abs.saved a).

Lemma sim_init : sim (GenericIndex [] 0 0 ∅) (Abs.State (Abs.Snap ∅ 0) [] 0).
Proof.
  split_and!; done.
Qed.

(** Changing the table at the top: the frame of the three data operations. *)
Lemma sim_change g a (f : undo_state A → undo_state A) s' :
  sim g a →
  snap_wf s' → Abs.next (Abs.cur a) ≤ Abs.next s' →
  (∀ u, undo_ok u (Abs.rows (Abs.cur a)) →
        (∀ i x, revert_at u (Abs.rows (Abs.cur a)) i = Some x → i < old_next_id u) →
        old_next_id u ≤ Abs.next (Abs.cur a) →
        undo_ok (f u) (Abs.rows s') ∧
        (∀ i, revert_at (f u) (Abs.rows s') i = revert_at u (Abs.rows (Abs.cur a)) i) ∧
        old_next_id (f u) = old_next_id u ∧ us_revision (f u) = us_revision u) →
  sim (on_head f (GenericIndex (_stack g) (_revision g) (Abs.next s') (Abs.rows s')))
      (Abs.set_cur s' a).
Proof.
  intros (Hi & Hn & Hr & Hwf & Hch) Hwf' Hle Hf. unfold on_head. simpl.
  destruct (_stack g) as [|u us] eqn:Es, (Abs.saved a) as [|[s r] ss] eqn:Ea; try done.
  { split_and!; try done. simpl. rewrite Ea. done. }
  simpl in Hch. destruct Hch as (Hok & Hrev & Hon & Hur & Hle2 & Hswf & Hch).
  destruct (Hf u) as (Hok' & Hrev' & Hon' & Hur'); [done| |lia|].
  { intros i x E. rewrite <- Hrev in E. rewrite Hon. by eapply Hswf. }
  split_and!; try done. simpl. rewrite Ea. simpl.
  split_and!; try done; try congruence. lia.
Qed.

Lemma revert_removed_None u m i x :
  undo_ok u m → m !! i = Some x → removed_values u !! i = None.
Proof.
  intros Hok Hi. destruct (removed_values u !! i) eqn:E; [|done].
  destruct (ok_removed _ _ Hok _ _ E). congruence.
Qed.

Lemma set_indices_on_head f m g : set_indices m (on_head f g) = on_head f (set_indices m g).
Proof. unfold set_indices, on_head. simpl. destruct (_stack g) eqn:E; simpl; by rewrite ?E. Qed.

(** Overwriting a live row with another version of it. *)
Lemma undo_ok_update u m i x y :
  undo_ok u m → m !! i = Some x → version x y → undo_ok u (<[i := y]> m).
Proof.
  intros Hok Hi Hk. split.
  - intros j z Hz. destruct (ok_old _ _ Hok _ _ Hz) as (? & ? & w & Hw & Hzw).
    split_and!; [done..|]. destruct (decide (i = j)) as [<-|].
    + rewrite lookup_insert_eq. exists y. split; [done|]. simplify_eq.
      by etrans.
    + exists w. by rewrite lookup_insert_ne.
  - intros j z Hz. destruct (ok_removed _ _ Hok _ _ Hz). split; [done|].
    rewrite lookup_insert_ne; [done|congruence].
  - intros j Hj. destruct (ok_new _ _ Hok _ Hj) as [[w Hw] ?]. split; [|done].
    rewrite lookup_insert_is_Some. destruct (decide (i = j)); eauto.
Qed.

Lemma emplace_sim g a v0 c g' :
  sim g a → (∀ v x, c v = Ok x → obj_id x = obj_id v) →
  emplace v0 c g = Ok g' →
  ∃ x, c (set_obj_id (Abs.next (Abs.cur a)) v0) = Ok x ∧
    sim g' (Abs.set_cur (Abs.Snap (<[Abs.next (Abs.cur a) := x]> (Abs.rows (Abs.cur a)))
                                  (Abs.next (Abs.cur a) + 1)) a).
Proof.
  intros Hsim Hc He. pose proof Hsim as (Hi & Hn & Hr & [Hwf Hlt] & Hch).
  unfold emplace in He. apply rbind_ok in He as (x & Hx & He).
  pose proof (Hc _ _ Hx) as Hidx. rewrite obj_id_set, Hn in Hidx. rewrite Hn in Hx.
  exists x. split; [done|].
  destruct (container_emplace _ _) as [m|] eqn:Em; [|done]. injection He as <-.
  rewrite Hi in Em. pose proof (container_emplace_wf _ _ _ Hwf Em) as Hwf'.
  apply container_emplace_Some in Em as (Hnone & Hcl & ->).
  rewrite Hidx in *. rewrite Hn.
  unfold on_create.
  refine (sim_change g a _ (Abs.Snap (<[Abs.next (Abs.cur a) := x]> (Abs.rows (Abs.cur a)))
                                     (Abs.next (Abs.cur a) + 1)) Hsim _ _ _); cbn [Abs.rows Abs.next].
  - split; [done|]. simpl. intros i y [[<- <-]|[? Hy]]%lookup_insert_Some; [lia|].
    apply Hlt in Hy. lia.
  - lia.
  - intros u Hok Hlt' Hle. rewrite Hidx. split_and!; try done.
    + split; simpl.
      * intros i y Hy. destruct (ok_old _ _ Hok _ _ Hy) as (? & ? & z & Hz & ?).
        split_and!; [done| |].
        { intros [->%elem_of_singleton|?]%elem_of_union; [congruence|done]. }
        exists z. rewrite lookup_insert_ne by congruence. done.
      * intros i y Hy. destruct (ok_removed _ _ Hok _ _ Hy). split; [done|].
        rewrite lookup_insert_ne; [done|]. intros <-.
        assert (revert_at u (Abs.rows (Abs.cur a)) (Abs.next (Abs.cur a)) = Some y) as E
          by (unfold revert_at; by rewrite Hy).
        apply Hlt' in E. lia.
      * intros i [->%elem_of_singleton|Hin]%elem_of_union.
        { rewrite lookup_insert_eq. eauto. }
        destruct (ok_new _ _ Hok _ Hin) as [[z Hz] ?]. split; [|done].
        rewrite lookup_insert_ne by congruence. eauto.
    + intros i. unfold revert_at. simpl.
      destruct (removed_values u !! i) eqn:Er; [done|].
      destruct (old_values u !! i) eqn:Eo; [done|].
      destruct (decide (i = Abs.next (Abs.cur a))) as [->|Hne].
      * rewrite bool_decide_true by set_solver. rewrite Hnone. by case_bool_decide.
      * rewrite lookup_insert_ne by done.
        rewrite (bool_decide_ext (i ∈ _ ∪ _) (i ∈ new_ids u)) by set_solver. done.
Qed.

Lemma modify_sim g a i f g' :
  sim g a → (∀ x y, f x = Ok y → obj_id y = obj_id x ∧ version x y) →
  modify i f g = Ok g' →
  ∃ x y, Abs.rows (Abs.cur a) !! i = Some x ∧ f x = Ok y ∧
    sim g' (Abs.set_cur (Abs.Snap (<[i := y]> (Abs.rows (Abs.cur a)))
                                  (Abs.next (Abs.cur a))) a).
Proof.
  intros Hsim Hf Hm. pose proof Hsim as (Hi & Hn & Hr & [Hwf Hlt] & Hch).
  unfold modify in Hm. rewrite Hi in Hm.
  destruct (Abs.rows (Abs.cur a) !! i) as [x|] eqn:Ei; [|done].
  apply rbind_ok in Hm as (y & Hy & Hm). exists x, y. split_and!; [done..|].
  destruct (Hf _ _ Hy) as [Hidy Hk]. pose proof (proj1 Hwf _ _ Ei) as Hidx.
  assert (_indices (on_modify x g) = Abs.rows (Abs.cur a)) as Eidx.
  { unfold on_modify, on_head. destruct (_stack g); simpl; done. }
  rewrite Eidx in Hm.
  destruct (container_modify _ _ _) as [m|] eqn:Em; [|done]. injection Hm as <-.
  apply container_modify_Some in Em as (Hcl & ->); [|congruence].
  unfold on_modify. rewrite set_indices_on_head. unfold set_indices. rewrite Hn.
  refine (sim_change g a _ (Abs.Snap (<[i := y]> (Abs.rows (Abs.cur a)))
                                     (Abs.next (Abs.cur a))) Hsim _ _ _); cbn [Abs.rows Abs.next]; [|lia|].
  - split; simpl.
    + split.
      * intros j z [[<- <-]|[? ?]]%lookup_insert_Some; [congruence|by apply Hwf].
      * intros j k z w Hj Hk' Hjk.
        apply lookup_insert_Some in Hj as [[<- <-]|[? Hj]];
        apply lookup_insert_Some in Hk' as [[<- <-]|[? Hk']]; try done.
        { by eapply Hcl. } { rewrite obj_clash_sym. by eapply Hcl. }
        by eapply Hwf.
    + intros j z [[<- <-]|[? ?]]%lookup_insert_Some; eauto.
  - intros u Hok Hlt' Hle. rewrite Hidx.
    pose proof (undo_ok_update _ _ _ _ _ Hok Ei Hk) as Hok'.
    pose proof (revert_removed_None _ _ _ _ Hok Ei) as Hrm.
    case_bool_decide as Hin; [|destruct (old_values u !! i) as [x0|] eqn:Eo].
    + split_and!; try done. intros j. unfold revert_at.
      destruct (decide (j = i)) as [->|]; [by rewrite (bool_decide_true _ Hin)|].
      by rewrite lookup_insert_ne.
    + split_and!; try done. intros j. unfold revert_at.
      destruct (decide (j = i)) as [->|]; [by rewrite Hrm, Eo|].
      by rewrite lookup_insert_ne.
    + split_and!; try done.
      * split; simpl; [|apply Hok'..].
        intros j z [[<- <-]|[? Hz]]%lookup_insert_Some; [|by apply Hok'].
        split_and!; [done..|]. rewrite lookup_insert_eq. eauto.
      * intros j. unfold revert_at. simpl. destruct (decide (j = i)) as [->|].
        { rewrite Hrm, Eo, lookup_insert_eq. by rewrite bool_decide_false. }
        { by rewrite !lookup_insert_ne. }
Qed.

(** Two undo states that differ at most in what they say of object [i]. *)
Definition agree_off (i : Z) u u' : Prop := ∀ j, j ≠ i →
  old_values u' !! j = old_values u !! j ∧
  removed_values u' !! j = removed_values u !! j ∧
  (j ∈ new_ids u' ↔ j ∈ new_ids u).

Lemma revert_off i u u' m m' j :
  agree_off i u u' → j ≠ i → m' !! j = m !! j → revert_at u' m' j = revert_at u m j.
Proof.
  intros Hag Hj Hm. destruct (Hag j Hj) as (Ho & Hr & Hn). unfold revert_at.
  rewrite Ho, Hr, Hm. by rewrite (bool_decide_ext _ _ Hn).
Qed.

Lemma undo_ok_remove i u u' m :
  undo_ok u m → agree_off i u u' → old_next_id u' = old_next_id u →
  old_values u' !! i = None → i ∉ new_ids u' →
  (∀ x, removed_values u' !! i = Some x → obj_id x = i) →
  undo_ok u' (delete i m).
Proof.
  intros Hok Hag Hnx Ho Hn Hr. split.
  - intros j z Hz. assert (j ≠ i) as Hj by congruence.
    destruct (Hag j Hj) as (Eo & Er & En). rewrite Eo in Hz.
    destruct (ok_old _ _ Hok _ _ Hz) as (? & ? & w & ? & ?). rewrite En.
    split_and!; [done..|]. exists w. by rewrite lookup_delete_ne.
  - intros j z Hz. destruct (decide (j = i)) as [->|Hj].
    { rewrite lookup_delete_eq. eauto. }
    destruct (Hag j Hj) as (Eo & Er & En). rewrite Er in Hz.
    rewrite lookup_delete_ne by done. by apply Hok.
  - intros j Hj. assert (j ≠ i) as Hji by congruence.
    destruct (Hag j Hji) as (Eo & Er & En). rewrite lookup_delete_ne, Hnx by done.
    apply Hok. by apply En.
Qed.

Lemma remove_sim g a i g' :
  sim g a → remove i g = Ok g' →
  is_Some (Abs.rows (Abs.cur a) !! i) ∧
  sim g' (Abs.set_cur (Abs.Snap (delete i (Abs.rows (Abs.cur a)))
                                (Abs.next (Abs.cur a))) a).
Proof.
  intros Hsim Hm. pose proof Hsim as (Hi & Hn & Hr & [Hwf Hlt] & Hch).
  unfold remove in Hm. rewrite Hi in Hm.
  destruct (Abs.rows (Abs.cur a) !! i) as [x|] eqn:Ei; [|done]. injection Hm as <-.
  split; [done|]. pose proof (proj1 Hwf _ _ Ei) as Hidx.
  assert (_indices (on_remove x g) = Abs.rows (Abs.cur a)) as ->.
  { unfold on_remove, on_head. destruct (_stack g); simpl; done. }
  unfold on_remove. rewrite set_indices_on_head. unfold set_indices. rewrite Hn.
  refine (sim_change g a _ (Abs.Snap (delete i (Abs.rows (Abs.cur a)))
                                     (Abs.next (Abs.cur a))) Hsim _ _ _); cbn [Abs.rows Abs.next]; [|lia|].
  { split; [by apply container_wf_delete|]. simpl.
    intros j z [? Hz]%lookup_delete_Some. by eapply Hlt. }
  intros u Hok Hlt' Hle. rewrite Hidx.
  pose proof (revert_removed_None _ _ _ _ Hok Ei) as Hrm.
  assert (i ∈ new_ids u → old_values u !! i = None) as Hno.
  { intros Hin. destruct (old_values u !! i) eqn:E; [|done].
    by destruct (ok_old _ _ Hok _ _ E) as (? & ? & ?). }
  match goal with |- undo_ok ?v _ ∧ _ => assert (agree_off i u v ∧
    old_next_id v = old_next_id u ∧ us_revision v = us_revision u ∧
    old_values v !! i = None ∧ i ∉ new_ids v ∧
    (∀ x, removed_values v !! i = Some x → obj_id x = i) ∧
    revert_at v (delete i (Abs.rows (Abs.cur a))) i =
    revert_at u (Abs.rows (Abs.cur a)) i)
    as (Hag & Hnx & Hrv & Ho' & Hn' & Hr' & Hat) end.
  { unfold revert_at. case_bool_decide as Hin; [|destruct (old_values u !! i) eqn:Eo].
    - simpl. rewrite Hrm, Hno, lookup_delete_eq by done.
      split_and!; try done; [intros j Hj; set_solver|set_solver|]. by case_bool_decide.
    - simpl. rewrite Hrm, !lookup_insert_eq, lookup_delete_eq.
      split_and!; try done; [|intros; simplify_eq; by apply (ok_old _ _ Hok)].
      intros j Hj. simpl. by rewrite lookup_delete_ne, lookup_insert_ne.
    - rewrite Hrm. simpl. rewrite lookup_insert_eq, Ei.
      split_and!; try done; [|congruence].
      intros j Hj. simpl. by rewrite lookup_insert_ne. }
  split_and!; [by eapply undo_ok_remove| |done..].
  intros j. destruct (decide (j = i)) as [->|Hj]; [done|].
  apply (revert_off i u _ _ _ j Hag Hj).
  exact (lookup_delete_ne (Abs.rows (Abs.cur a)) i j (not_eq_sym Hj)).
Qed.

(** *** [undo] *)

(** The loop goes through the old versions by ascending id.  It throws when one of
    them collides with a row that has a greater id, and then only when the rows
    with smaller ids are those of a table [t] without collisions. *)
Lemma ascending_sorted (o : gmap Z A) : StronglySorted (λ p q : Z * A, p.1 < q.1) (ascending o).
Proof.
  pose proof (ascending_keys o) as Hnd.
  assert (StronglySorted (brel (λ p q : Z * A, p.1 <=? q.1)) (ascending o)) as Hs.
  { apply Sorted_StronglySorted, sort_by_sorted; unfold brel.
    - intros p q r. rewrite !Is_true_true, !Z.leb_le. lia.
    - intros p q. rewrite !Z.leb_le. lia. }
  induction Hs as [|p l Hs IH Hp]; [constructor|]. apply NoDup_cons in Hnd as [Hn Hnd]. constructor; [by apply IH|].
  rewrite Forall_forall in Hp |- *. intros q Hq. specialize (Hp _ Hq). unfold brel in Hp.
  rewrite Is_true_true, Z.leb_le in Hp.
  assert (p.1 ≠ q.1) by (intros E; apply Hn; rewrite E; by apply list_elem_of_fmap_2). lia.
Qed.
Lemma restore_old_ok m i x : obj_id x = i → is_Some (m !! i) →
  restore_old m (i, x) = match container_modify m i x with Some m' => Ok m' | None => Throw uniqueness_error end.
Proof. intros Hid [y Hy]. unfold restore_old. cbn [snd]. by rewrite Hid, Hy. Qed.
Lemma restore_old_throws l m :
  StronglySorted (λ p q : Z * A, p.1 < q.1) l → (∀ i x, (i, x) ∈ l → obj_id x = i ∧ is_Some (m !! i)) →
  (∃ i x j y, (i, x) ∈ l ∧ m !! j = Some y ∧ i < j ∧ obj_clash x y = true) →
  rfold restore_old l m = Throw uniqueness_error.
Proof.
  intros Hs. revert m. induction Hs as [|[i x] l Hs IH Hl]; intros m Hm (i' & x' & j & y & Hin & Hj & Hij & Hc).
  { by apply not_elem_of_nil in Hin. }
  rewrite Forall_forall in Hl. destruct (Hm i x) as [Hid Hi]; [by left|]. cbn [rfold].
  rewrite restore_old_ok by done. destruct (container_modify m i x) as [m'|] eqn:E; [|done].
  apply container_modify_Some in E as [Hx ->]; [|done]. cbn [mbind result_bind].
  apply elem_of_cons in Hin as [[= -> ->]|Hin].
  { rewrite (Hx j y) in Hc; [done|done|lia]. }
  pose proof (Hl _ Hin) as Hlt. cbn [fst] in Hlt. apply IH.
  - intros k z Hk. destruct (Hm k z) as [Hidk Hsk]; [by right|]. split; [done|].
    pose proof (Hl _ Hk) as Hik. cbn [fst] in Hik. by rewrite lookup_insert_ne by lia.
  - exists i', x', j, y. by rewrite lookup_insert_ne by lia.
Qed.
Lemma rfold_restore_old l m (t : gmap Z A) :
  StronglySorted (λ p q : Z * A, p.1 < q.1) l → container_wf t →
  (∀ i x, (i, x) ∈ l → obj_id x = i ∧ t !! i = Some x ∧ is_Some (m !! i)) →
  (∀ i x j y, (i, x) ∈ l → m !! j = Some y → j < i → j ∈ l.*1 ∨ t !! j = Some y) →
  (∀ i x j y, (i, x) ∈ l → m !! j = Some y → i < j → obj_clash x y = false) →
  ∃ m', rfold restore_old l m = Ok m' ∧
    (∀ i x, (i, x) ∈ l → m' !! i = Some x) ∧ (∀ i, i ∉ l.*1 → m' !! i = m !! i).
Proof.
  intros Hs Ht. revert m. induction Hs as [|[i x] l Hs IH Hl]; intros m Hm Hlow Hhigh.
  { exists m. split_and!; try done. intros i x Hin. by apply not_elem_of_nil in Hin. }
  rewrite Forall_forall in Hl. destruct (Hm i x) as (Hid & Hti & Hi); [by left|].
  assert (∀ j, j ∈ l.*1 → i < j) as Hkey.
  { intros j ([k z] & -> & Hk)%list_elem_of_fmap. exact (Hl _ Hk). }
  assert (restore_old m (i, x) = Ok (<[i := x]> m)) as E.
  { rewrite restore_old_ok by done. assert (container_modify m i x = Some (<[i := x]> m)) as ->; [|done].
    apply container_modify_Some; [done|]. split; [|done]. intros j y Hj Hne.
    destruct (Z.lt_total i j) as [Hij|[Hij|Hij]]; [|lia|].
    - apply (Hhigh i x j y); [by left|done|done].
    - destruct (Hlow i x j y) as [Hin|Htj]; [by left|done|done| |].
      + apply elem_of_cons in Hin as [Hin|Hin%Hkey]; cbn [fst] in *; lia.
      + by apply (proj2 Ht i j). }
  destruct (IH (<[i := x]> m)) as (m' & Hf & H1 & H2).
  - intros j z Hj. destruct (Hm j z) as (? & ? & ?); [by right|]. split_and!; [done..|].
    pose proof (Hl _ Hj) as Hij. cbn [fst] in Hij. by rewrite lookup_insert_ne by lia.
  - intros k z j y Hk [[<- <-]|[Hne Hj]]%lookup_insert_Some Hjk; [by right|].
    destruct (Hlow k z j y) as [Hin|Htj]; [by right|done|done| |by right].
    apply elem_of_cons in Hin as [Hin|Hin]; [cbn [fst] in Hin; congruence|by left].
  - intros k z j y Hk Hj Hkj. pose proof (Hl _ Hk) as Hik. cbn [fst] in Hik.
    rewrite lookup_insert_ne in Hj by lia. apply (Hhigh k z j y); [by right|done|done].
  - exists m'. split_and!; [cbn [rfold]; by rewrite E| |].
    + intros j z [[= -> ->]|Hin]%elem_of_cons; [|by apply H1]. rewrite H2, lookup_insert_eq; [done|].
      intros Hin%Hkey. lia.
    + intros j Hj. apply not_elem_of_cons in Hj as [Hji Hj]. rewrite H2 by done. by apply lookup_insert_ne.
Qed.

Lemma rfold_erase_new l m :
  NoDup l → (∀ i, i ∈ l → is_Some (m !! i)) →
  ∃ m', rfold erase_new l m = Ok m' ∧
    ∀ i, m' !! i = if bool_decide (i ∈ l) then None else m !! i.
Proof.
  revert m. induction l as [|i l IH]; intros m Hnd Hl.
  { exists m. split; [done|]. intros i. rewrite bool_decide_false; [done|apply not_elem_of_nil]. }
  apply NoDup_cons in Hnd as [Hi Hnd]. destruct (Hl i) as [x Hx]; [by left|].
  destruct (IH (delete i m)) as (m' & Hf & Hm'); [done| |].
  { intros j Hj. rewrite lookup_delete_ne by congruence. apply Hl. by right. }
  assert (erase_new m i = Ok (delete i m)) as E by (unfold erase_new; by rewrite Hx).
  exists m'. split; [cbn [rfold]; by rewrite E|].
  intros j. rewrite Hm'. destruct (decide (j = i)) as [->|Hj].
  - rewrite bool_decide_false by done. rewrite bool_decide_true by by left.
    apply lookup_delete_eq.
  - rewrite lookup_delete_ne by done.
    rewrite (bool_decide_ext (j ∈ i :: l) (j ∈ l)); [done|]. rewrite elem_of_cons. naive_solver.
Qed.

(** Re-inserting rows of a table without collisions never collides. *)
Lemma rfold_restore_removed l m t :
  NoDup (l.*1) → container_wf t → m ⊆ t →
  (∀ i x, (i, x) ∈ l → obj_id x = i ∧ m !! i = None ∧ t !! i = Some x) →
  ∃ m', rfold restore_removed l m = Ok m' ∧
    (∀ i x, (i, x) ∈ l → m' !! i = Some x) ∧ (∀ i, i ∉ l.*1 → m' !! i = m !! i).
Proof.
  revert m. induction l as [|[i x] l IH]; intros m Hnd Hwf Hsub Hl.
  { exists m. split_and!; try done. intros i x Hin. by apply not_elem_of_nil in Hin. }
  apply NoDup_cons in Hnd as [Hi Hnd].
  destruct (Hl i x) as (Hid & Hn & Ht); [by left|].
  assert (container_emplace m x = Some (<[i:=x]> m)) as Hemp.
  { apply container_emplace_Some. rewrite Hid. split_and!; [done| |done].
    intros j z Hj. eapply (proj2 Hwf i j); [done| |congruence].
    by eapply lookup_weaken. }
  destruct (IH (<[i:=x]> m)) as (m' & Hf & H1 & H2); [done|done| | |].
  { by apply insert_subseteq_l. }
  { intros j z Hjz. destruct (Hl j z) as (? & ? & ?); [by right|]. split_and!; [done| |done].
    rewrite lookup_insert_ne; [done|]. intros ->. apply Hi.
    apply list_elem_of_fmap. by exists (j, z). }
  exists m'. split_and!.
  - assert (restore_removed m (i, x) = Ok (<[i:=x]> m)) as E.
    { unfold restore_removed. cbn [snd]. by rewrite Hemp. }
    cbn [rfold]. by rewrite E.
  - intros j z [[= -> ->]|Hin]%elem_of_cons; [|by apply H1].
    rewrite H2 by done. apply lookup_insert_eq.
  - intros j Hj. apply not_elem_of_cons in Hj as [Hji Hj]. rewrite H2 by done.
    by apply lookup_insert_ne.
Qed.

(** Of the rows [m] at the end of a session that began with the rows [t]: the unique
    keys that a row had are those of a row with a greater id. *)
Definition taken_over (t m : gmap Z A) : Prop :=
  ∃ i x j y, t !! i = Some x ∧ is_Some (m !! i) ∧ m !! j = Some y ∧ i < j ∧ obj_clash x y = true.

Lemma old_value_reverts u m (t : gmap Z A) i x :
  undo_ok u m → (∀ i, t !! i = revert_at u m i) → old_values u !! i = Some x →
  obj_id x = i ∧ t !! i = Some x ∧ is_Some (m !! i).
Proof.
  intros Hok Ht Hx. destruct (ok_old _ _ Hok _ _ Hx) as (Hid & _ & y & Hy & _). split_and!; [done| |eauto].
  rewrite Ht. unfold revert_at. destruct (removed_values u !! i) eqn:Er; [|by rewrite Hx].
  destruct (ok_removed _ _ Hok _ _ Er). congruence.
Qed.
(** With the keys taken over, the first loop of [undo] throws. *)
Lemma undo_rows_throw u m (t : gmap Z A) :
  undo_ok u m → container_wf m → (∀ i, t !! i = revert_at u m i) → taken_over t m →
  rfold restore_old (ascending (old_values u)) m = Throw uniqueness_error.
Proof.
  intros Hok Hwf Ht (i & x & j & y & Hi & [z Hz] & Hj & Hij & Hc).
  apply restore_old_throws; [apply ascending_sorted| |].
  - intros k w Hk%elem_of_ascending. by destruct (old_value_reverts _ _ _ _ _ Hok Ht Hk) as (? & _ & ?).
  - exists i, x, j, y. split_and!; try done. apply elem_of_ascending. rewrite Ht in Hi. unfold revert_at in Hi.
    destruct (removed_values u !! i) eqn:Er; [destruct (ok_removed _ _ Hok _ _ Er); congruence|].
    destruct (old_values u !! i) eqn:Eo; [congruence|]. case_bool_decide; [done|].
    rewrite (proj2 Hwf i j x y) in Hc; [done|done|done|lia].
Qed.

Lemma undo_rows u m (t : gmap Z A) :
  undo_ok u m → container_wf t → (∀ i x, t !! i = Some x → i < old_next_id u) →
  (∀ i, t !! i = revert_at u m i) → ¬ taken_over t m →
  (m1 ← rfold restore_old (ascending (old_values u)) m;
   m2 ← rfold erase_new (ascending_set (new_ids u)) m1;
   rfold restore_removed (ascending (removed_values u)) m2) = Ok t.
Proof.
  intros Hok Hwft Hlt Ht Hfree.
  destruct (rfold_restore_old (ascending (old_values u)) m t)
    as (m1 & -> & Hm1 & Hm1'); [apply ascending_sorted|done|..].
  { intros i x Hx%elem_of_ascending. by apply (old_value_reverts u). }
  { intros i x j y Hx%elem_of_ascending Hj Hji. destruct (old_value_reverts u m t i x) as (_ & Hti & _); [done..|].
    rewrite elem_of_ascending_key, Ht. unfold revert_at. rewrite (revert_removed_None _ _ _ _ Hok Hj).
    destruct (old_values u !! j); [by left; eauto|]. right. case_bool_decide as Hnew; [|done].
    apply (ok_new _ _ Hok) in Hnew as [_ ?]. apply Hlt in Hti. lia. }
  { intros i x j y Hx%elem_of_ascending Hj Hij. destruct (old_value_reverts u m t i x) as (_ & Hti & Hmi); [done..|].
    apply not_true_iff_false. intros Hc. apply Hfree. by exists i, x, j, y. }
  assert (∀ i, m1 !! i = match old_values u !! i with Some x => Some x | None => m !! i end) as E1.
  { intros i. destruct (old_values u !! i) as [x|] eqn:Ex.
    - apply Hm1. by apply elem_of_ascending.
    - apply Hm1'. rewrite elem_of_ascending_key, Ex. by intros [? ?]. }
  simpl. destruct (rfold_erase_new (ascending_set (new_ids u)) m1) as (m2 & -> & Hm2).
  { apply ascending_set_NoDup. }
  { intros i Hi%elem_of_ascending_set. rewrite E1. destruct (old_values u !! i); [done|].
    by apply (ok_new _ _ Hok). }
  simpl. setoid_rewrite (bool_decide_ext _ _ (elem_of_ascending_set _ _)) in Hm2.
  assert (∀ i, removed_values u !! i = None → m2 !! i = t !! i) as E2.
  { intros i Hr. rewrite Ht, Hm2, E1. unfold revert_at. rewrite Hr.
    destruct (old_values u !! i) eqn:Eo; [|done].
    rewrite bool_decide_false; [done|]. by destruct (ok_old _ _ Hok _ _ Eo) as (? & ? & ?). }
  assert (∀ i x, removed_values u !! i = Some x → m2 !! i = None) as E3.
  { intros i x Hr. destruct (ok_removed _ _ Hok _ _ Hr) as [? Hm]. rewrite Hm2, E1.
    destruct (old_values u !! i) eqn:Eo; [|by destruct (bool_decide _)].
    destruct (ok_old _ _ Hok _ _ Eo) as (? & ? & ? & ? & ?). congruence. }
  destruct (rfold_restore_removed (ascending (removed_values u)) m2 t)
    as (m3 & -> & Hm3 & Hm3'); [apply ascending_keys|done| | |].
  { apply map_subseteq_spec. intros i x Hx. rewrite <- E2; [done|].
    destruct (removed_values u !! i) eqn:E; [|done]. apply E3 in E. congruence. }
  { intros i x Hx%elem_of_ascending. destruct (ok_removed _ _ Hok _ _ Hx). split_and!; [done|eauto|].
    rewrite Ht. unfold revert_at. by rewrite Hx. }
  f_equal. apply map_eq. intros i. destruct (removed_values u !! i) as [x|] eqn:Er.
  - rewrite (Hm3 i x) by by apply elem_of_ascending. rewrite Ht. unfold revert_at. by rewrite Er.
  - rewrite Hm3'; [by apply E2|]. rewrite elem_of_ascending_key, Er. by intros [? ?].
Qed.

(** The rows the current session began with. *)
Definition session_rows a : gmap Z A :=
  match Abs.saved a with [] => ∅ | (s, _) :: _ => Abs.rows s end.
Lemma undo_sim g a :
  sim g a → ¬ taken_over (session_rows a) (_indices g) → ∃ g', undo g = Ok g' ∧ sim g' (Abs.undo a).
Proof.
  intros (Hi & Hn & Hr & [Hwf Hlt] & Hch) Hfree. unfold undo, Abs.undo. unfold session_rows in Hfree.
  destruct (_stack g) as [|u us] eqn:Es, (Abs.saved a) as [|[s r] ss] eqn:Ea; try done.
  { exists g. split; [done|]. split_and!; try done. by rewrite Es, Ea. }
  destruct Hch as (Hok & Hrev & Hnx & Hur & Hle & [Hswf Hslt] & Hch). rewrite Hi in Hfree. rewrite <- Hnx in Hslt.
  pose proof (undo_rows _ _ _ Hok Hswf Hslt Hrev Hfree) as Hu. rewrite Hi.
  apply rbind_ok in Hu as (m1 & -> & Hu). simpl.
  apply rbind_ok in Hu as (m2 & -> & Hu). simpl. rewrite Hu. simpl.
  eexists. split; [done|]. split_and!; try done; simpl; [congruence|].
  split; [done|]. intros i x Hx. apply Hslt in Hx. lia.
Qed.
Lemma undo_sim_throws g a :
  sim g a → taken_over (session_rows a) (_indices g) → undo g = Throw uniqueness_error.
Proof.
  intros (Hi & Hn & Hr & [Hwf Hlt] & Hch) Htaken. unfold undo. unfold session_rows in Htaken.
  destruct (_stack g) as [|u us] eqn:Es, (Abs.saved a) as [|[s r] ss] eqn:Ea; try done.
  { by destruct Htaken as (? & ? & ? & ? & ? & _). }
  destruct Hch as (Hok & Hrev & _). rewrite Hi in *. by rewrite (undo_rows_throw _ _ _ Hok Hwf Hrev Htaken).
Qed.

(** *** [squash] *)

(** What an undo state says of object [j]: its old value, its removed value,
    and whether it is new. *)
Definition entry (j : Z) u : option A * option A * bool :=
  (old_values u !! j, removed_values u !! j, bool_decide (j ∈ new_ids u)).

(** One cell of the composition table in the comment of [squash()], for the
    old value, the new flag and the removed value of the later state. *)
Definition cell_old (x : A) (e : option A * option A * bool) :=
  match e with
  | (None, r, false) => (Some x, r, false)
  | _ => e
  end.
Definition cell_removed (x : A) (e : option A * option A * bool) :=
  match e with
  | (o, r, true) => (o, r, false)
  | (Some v, r, false) => (None, Some v, false)
  | (None, r, false) => (None, Some x, false)
  end.

Lemma entry_squash_old u (p : Z * A) j :
  obj_id p.2 = p.1 →
  entry j (squash_old u p) = if bool_decide (j = p.1) then cell_old p.2 (entry j u) else entry j u.
Proof.
  destruct p as [i x]. simpl. intros Hid. unfold squash_old, entry. simpl. rewrite Hid.
  destruct (bool_decide_reflect (i ∈ new_ids u)) as [Hn|Hn];
    [|destruct (old_values u !! i) eqn:Eo];
    destruct (bool_decide_reflect (j = i)) as [->|Hj]; try done; simpl.
  - rewrite bool_decide_true by done. by destruct (old_values u !! i).
  - by rewrite Eo.
  - rewrite lookup_insert_eq, Eo. by rewrite bool_decide_false.
  - by rewrite lookup_insert_ne.
Qed.

Lemma entry_squash_new u i j :
  entry j (squash_new u i) =
  if bool_decide (j = i) then (old_values u !! j, removed_values u !! j, true) else entry j u.
Proof.
  unfold squash_new, entry. cbn [old_values removed_values new_ids].
  destruct (bool_decide_reflect (j = i)) as [->|Hj]; f_equal.
  - apply bool_decide_true. set_solver.
  - apply bool_decide_ext. set_solver.
Qed.

Lemma entry_squash_removed u (p : Z * A) j :
  obj_id p.2 = p.1 →
  entry j (squash_removed u p) =
  if bool_decide (j = p.1) then cell_removed p.2 (entry j u) else entry j u.
Proof.
  destruct p as [i x]. simpl. intros Hid. unfold squash_removed, entry. simpl. rewrite Hid.
  destruct (bool_decide_reflect (i ∈ new_ids u)) as [Hn|Hn];
    [|destruct (old_values u !! i) eqn:Eo];
    destruct (bool_decide_reflect (j = i)) as [->|Hj]; cbn [old_values removed_values new_ids].
  - rewrite (bool_decide_true (i ∈ new_ids u)) by done. rewrite bool_decide_false by set_solver.
    by destruct (old_values u !! i).
  - f_equal. apply bool_decide_ext. set_solver.
  - rewrite lookup_delete_eq, lookup_insert_eq, Eo. by rewrite bool_decide_false.
  - by rewrite lookup_delete_ne, lookup_insert_ne.
  - rewrite lookup_insert_eq, Eo. by rewrite bool_decide_false.
  - by rewrite lookup_insert_ne.
Qed.

(** The value a keyed fold leaves at [j]. *)
Lemma entry_foldl {B} (f : undo_state A → B → undo_state A) (key : B → Z)
    (c : B → option A * option A * bool → option A * option A * bool) l u :
  NoDup (key <$> l) →
  (∀ u b j, b ∈ l → entry j (f u b) =
     if bool_decide (j = key b) then c b (entry j u) else entry j u) →
  (∀ b, b ∈ l → entry (key b) (foldl f u l) = c b (entry (key b) u)) ∧
  (∀ j, j ∉ key <$> l → entry j (foldl f u l) = entry j u).
Proof.
  intros Hnd Hf. apply (foldl_view entry f key c); [done| |].
  - intros u' b Hb. rewrite Hf by done. by rewrite bool_decide_true.
  - intros u' b j Hb Hj. rewrite Hf by done. by rewrite bool_decide_false.
Qed.

Lemma entry_foldl_map f c (m : gmap Z A) u j :
  (∀ u p k, p ∈ ascending m → entry k (f u p) =
     if bool_decide (k = p.1) then c p.2 (entry k u) else entry k u) →
  entry j (foldl f u (ascending m)) =
  match m !! j with Some x => c x (entry j u) | None => entry j u end.
Proof.
  intros Hf. destruct (entry_foldl f fst (λ p, c p.2) (ascending m) u) as [H1 H2].
  { apply ascending_keys. } { intros. by apply Hf. }
  destruct (m !! j) as [x|] eqn:E.
  - apply elem_of_ascending in E. apply (H1 _ E).
  - apply H2. rewrite elem_of_ascending_key, E. by intros [? ?].
Qed.

Lemma entry_merge state prev j m :
  undo_ok state m →
  entry j (merge_states state prev) =
  let e1 := match old_values state !! j with
            | Some x => cell_old x (entry j prev) | None => entry j prev end in
  let e2 := if bool_decide (j ∈ new_ids state) then (e1.1.1, e1.1.2, true) else e1 in
  match removed_values state !! j with Some x => cell_removed x e2 | None => e2 end.
Proof.
  intros Hok. unfold merge_states. rewrite (entry_foldl_map _ cell_removed); last first.
  { intros u [i x] k Hp%elem_of_ascending. apply entry_squash_removed.
    by apply (ok_removed _ _ Hok). }
  set (p1 := foldl squash_old _ _).
  assert (entry j (foldl squash_new p1 (ascending_set (new_ids state))) =
    if bool_decide (j ∈ new_ids state) then ((entry j p1).1.1, (entry j p1).1.2, true)
    else entry j p1) as ->.
  { destruct (entry_foldl squash_new id (λ _ e, (e.1.1, e.1.2, true))
      (ascending_set (new_ids state)) p1) as [H1 H2].
    { rewrite list_fmap_id. apply ascending_set_NoDup. } { intros. apply entry_squash_new. }
    rewrite list_fmap_id in H2. setoid_rewrite elem_of_ascending_set in H1.
    setoid_rewrite elem_of_ascending_set in H2.
    case_bool_decide as Hj; [by apply (H1 j)|by apply H2]. }
  unfold p1. rewrite (entry_foldl_map _ cell_old); [done|].
  intros u [i x] k Hp%elem_of_ascending. apply entry_squash_old. by apply (ok_old _ _ Hok).
Qed.

Lemma merge_next state prev :
  old_next_id (merge_states state prev) = old_next_id prev ∧
  us_revision (merge_states state prev) = us_revision prev.
Proof.
  assert (∀ B (f : undo_state A → B → undo_state A) l u,
    (∀ u b, old_next_id (f u b) = old_next_id u ∧ us_revision (f u b) = us_revision u) →
    old_next_id (foldl f u l) = old_next_id u ∧ us_revision (foldl f u l) = us_revision u) as Hfold.
  { intros B f l. induction l as [|b l IH]; intros u Hf; simpl; [done|].
    destruct (IH (f u b) Hf), (Hf u b). split; congruence. }
  unfold merge_states.
  destruct (Hfold _ squash_removed (ascending (removed_values state))
    (foldl squash_new (foldl squash_old prev (ascending (old_values state)))
      (ascending_set (new_ids state)))) as [-> ->].
  { intros u b. unfold squash_removed. by repeat case_match. }
  destruct (Hfold _ squash_new (ascending_set (new_ids state))
    (foldl squash_old prev (ascending (old_values state)))) as [-> ->]; [done|].
  apply Hfold. intros u b. unfold squash_old. by repeat case_match.
Qed.

Lemma entry_eq j u o r n :
  entry j u = (o, r, n) →
  old_values u !! j = o ∧ removed_values u !! j = r ∧ bool_decide (j ∈ new_ids u) = n.
Proof. unfold entry. naive_solver. Qed.

(** The kinds of change an undo state can record for an object. *)
Inductive change u m (j : Z) : Prop :=
| ch_new v : entry j u = (None, None, true) → m !! j = Some v → old_next_id u ≤ j → change u m j
| ch_upd x v : entry j u = (Some x, None, false) → obj_id x = j → m !! j = Some v →
    version x v → change u m j
| ch_del x : entry j u = (None, Some x, false) → obj_id x = j → m !! j = None → change u m j
| ch_nop : entry j u = (None, None, false) → change u m j.

Lemma undo_ok_change u m j : undo_ok u m → change u m j.
Proof.
  intros Hok. destruct (entry j u) as [[o r] n] eqn:E.
  pose proof (entry_eq _ _ _ _ _ E) as (Eo & Er & En). destruct n.
  - apply bool_decide_eq_true in En. destruct (ok_new _ _ Hok _ En) as [[v Hv] ?].
    destruct o as [x|]; [by destruct (ok_old _ _ Hok _ _ Eo) as (? & ? & ?)|].
    destruct r as [x|]; [destruct (ok_removed _ _ Hok _ _ Er); congruence|].
    by eapply ch_new.
  - destruct o as [x|].
    + destruct (ok_old _ _ Hok _ _ Eo) as (? & ? & v & ? & ?).
      destruct r as [y|]; [destruct (ok_removed _ _ Hok _ _ Er); congruence|].
      by eapply ch_upd.
    + destruct r as [x|]; [|by apply ch_nop].
      destruct (ok_removed _ _ Hok _ _ Er). by eapply ch_del.
Qed.

Lemma change_undo_ok u m : (∀ j, change u m j) → undo_ok u m.
Proof.
  intros Hch. split; intros j; [intros x Hx|intros x Hx|intros Hj%(bool_decide_eq_true_2 _)];
    destruct (Hch j) as [v E|y v E|y E|E]; apply entry_eq in E as (? & ? & ?);
    simplify_eq; try congruence; eauto.
  split_and!; [done|by eapply bool_decide_eq_false_1|eauto].
Qed.

Lemma revert_entry u m j :
  revert_at u m j =
  match entry j u with
  | (_, Some x, _) => Some x
  | (Some x, None, _) => Some x
  | (None, None, n) => if n then None else m !! j
  end.
Proof. unfold revert_at, entry. by repeat case_match. Qed.

(** The composition table of [squash()], entry by entry. *)
Lemma merge_pointwise state prev m (t : gmap Z A) j :
  undo_ok state m → (∀ i, t !! i = revert_at state m i) → undo_ok prev t →
  (j ∈ new_ids state → revert_at prev t j = None ∧ old_next_id prev ≤ j) →
  change (merge_states state prev) m j ∧
  revert_at (merge_states state prev) m j = revert_at prev t j.
Proof.
  intros Hst Ht Hpr Hnew. specialize (Ht j). rewrite !revert_entry in *.
  destruct (merge_next state prev) as [Hnx _].
  pose proof (entry_merge state prev j m Hst) as He.
  destruct (undo_ok_change _ _ j Hst) as [v E1 ? ?|x v E1 ? ? ?|x E1 ? ?|E1];
    destruct (undo_ok_change _ _ j Hpr) as [v' E2 ? ?|x' v' E2 ? ? ?|x' E2 ? ?|E2];
    rewrite E1 in Ht; rewrite E2 in Hnew |- *;
    pose proof (entry_eq _ _ _ _ _ E1) as (Eo & Er & En); rewrite Eo, Er, En, E2 in He;
    simpl in He; rewrite He; try congruence.
  all: split; [|congruence].
  - apply bool_decide_eq_true in En. by destruct (Hnew En).
  - apply bool_decide_eq_true in En. destruct (Hnew En). eapply ch_new; eauto. lia.
  - eapply ch_new; eauto. lia.
  - eapply ch_upd; eauto. simplify_eq. etrans; eauto.
  - eapply ch_upd; eauto.
  - by apply ch_nop.
  - eapply ch_del; eauto.
  - eapply ch_del; eauto.
  - eapply ch_new; [done|by rewrite <- Ht|lia].
  - eapply ch_upd; eauto. by rewrite <- Ht.
  - eapply ch_del; eauto. by rewrite <- Ht.
  - by apply ch_nop.
Qed.

Lemma squash_sim g a : sim g a → sim (squash g) (Abs.squash a).
Proof.
  intros (Hi & Hn & Hr & Hwf & Hch). unfold squash, Abs.squash.
  destruct (_stack g) as [|u us] eqn:Es, (Abs.saved a) as [|[s r] ss] eqn:Ea; try done.
  { split_and!; try done. by rewrite Es, Ea. }
  destruct Hch as (Hok & Hrev & Hnx & Hur & Hle & Hswf & Hch).
  destruct us as [|u' us], ss as [|[s' r'] ss]; try done.
  destruct Hch as (Hok' & Hrev' & Hnx' & Hur' & Hle' & Hswf' & Hch).
  assert (∀ j, change (merge_states u u') (Abs.rows (Abs.cur a)) j ∧
    revert_at (merge_states u u') (Abs.rows (Abs.cur a)) j = revert_at u' (Abs.rows s) j) as Hm.
  { intros j. apply merge_pointwise; try done. intros Hj.
    destruct (ok_new _ _ Hok _ Hj) as [_ Hlt]. split; [|lia]. rewrite <- Hrev'.
    destruct (Abs.rows s' !! j) eqn:E; [|done]. apply Hswf' in E. lia. }
  destruct (merge_next u u') as [E1 E2]. split_and!; simpl; try done; [congruence|].
  split_and!; try done; try congruence; try lia.
  - apply change_undo_ok. apply Hm.
  - intros j. rewrite (proj2 (Hm j)). apply Hrev'.
Qed.

Lemma start_sim g a : sim g a → sim (start_undo_session true g) (Abs.start a).
Proof.
  intros (Hi & Hn & Hr & Hwf & Hch). split_and!; simpl; try done; [congruence|].
  split_and!; try done; congruence.
Qed.

(** *** [commit] *)
Lemma chain_length s us ss : chain s us ss → length us = length ss.
Proof.
  revert s ss. induction us as [|u us IH]; intros s [|[s' r] ss] Hc; simpl; try done.
  f_equal. by eapply IH, Hc.
Qed.

Lemma chain_revisions s us ss : chain s us ss → us_revision <$> us = ss.*2.
Proof.
  revert s ss. induction us as [|u us IH]; intros s [|[s' r] ss] Hc; simpl; try done.
  destruct Hc as (? & ? & ? & ? & ? & ? & ?). f_equal; eauto.
Qed.

Lemma chain_take s us ss n : chain s us ss → chain s (take n us) (take n ss).
Proof.
  revert s ss n. induction us as [|u us IH]; intros s [|[s' r] ss] [|n] Hc; simpl; try done.
  destruct Hc as (? & ? & ? & ? & ? & ? & ?). split_and!; eauto.
Qed.

(** Both sides of [commit] keep a prefix of the stack, of the same length. *)
Lemma drop_front_take r (us : list (undo_state A)) (ss : list (Abs.snap A * Z)) :
  us_revision <$> us = ss.*2 →
  ∃ n, drop_front r us = drop n us ∧ Abs.drop_front r ss = drop n ss.
Proof.
  revert ss. induction us as [|u us IH]; intros [|[s q] ss] E; simplify_eq/=.
  { by exists 0%nat. }
  destruct (us_revision u <=? r); [|by exists 0%nat].
  destruct (IH ss) as (n & -> & ->); [done|]. by exists (S n).
Qed.

Lemma commit_sim g a r : sim g a → sim (commit r g) (Abs.commit r a).
Proof.
  intros (Hi & Hn & Hr & Hwf & Hch). unfold commit, Abs.commit. split_and!; simpl; try done.
  pose proof (chain_length _ _ _ Hch) as Hlen.
  destruct (drop_front_take r (reverse (_stack g)) (reverse (Abs.saved a))) as (n & -> & ->).
  { rewrite !fmap_reverse. f_equal. by eapply chain_revisions. }
  rewrite !reverse_drop, !reverse_involutive, !length_reverse, Hlen. by apply chain_take.
Qed.

(** *** Sequences of operations *)

Inductive index_op : Type :=
| OpEmplace (v0 : A) (c : A → result A)
| OpModify (i : Z) (f : A → result A)
| OpRemove (i : Z)
| OpStart | OpUndo | OpSquash | OpCommit (r : Z).

Definition exec (op : index_op) g : result (generic_index A) :=
  match op with
  | OpEmplace v0 c => emplace v0 c g
  | OpModify i f => modify i f g
  | OpRemove i => remove i g
  | OpStart => Ok (start_undo_session true g)
  | OpUndo => undo g
  | OpSquash => Ok (squash g)
  | OpCommit r => Ok (commit r g)
  end.

(** The specification: what an operation may do to the abstract state. *)
Inductive abs_step : index_op → Abs.state A → Abs.state A → Prop :=
| abs_emplace v0 c a x :
    c (set_obj_id (Abs.next (Abs.cur a)) v0) = Ok x →
    abs_step (OpEmplace v0 c) a
      (Abs.set_cur (Abs.Snap (<[Abs.next (Abs.cur a) := x]> (Abs.rows (Abs.cur a)))
                             (Abs.next (Abs.cur a) + 1)) a)
| abs_modify i f a x y :
    Abs.rows (Abs.cur a) !! i = Some x → f x = Ok y →
    abs_step (OpModify i f) a
      (Abs.set_cur (Abs.Snap (<[i := y]> (Abs.rows (Abs.cur a))) (Abs.next (Abs.cur a))) a)
| abs_remove i a :
    is_Some (Abs.rows (Abs.cur a) !! i) →
    abs_step (OpRemove i) a
      (Abs.set_cur (Abs.Snap (delete i (Abs.rows (Abs.cur a))) (Abs.next (Abs.cur a))) a)
| abs_start a : abs_step OpStart a (Abs.start a)
| abs_undo a : abs_step OpUndo a (Abs.undo a)
| abs_squash a : abs_step OpSquash a (Abs.squash a)
| abs_commit r a : abs_step (OpCommit r) a (Abs.commit r a).

(** A constructor keeps the id it is given, and a modification keeps the id and
    makes a [version] of the object. *)
Definition behaved (op : index_op) : Prop :=
  match op with
  | OpEmplace _ c => ∀ v x, c v = Ok x → obj_id x = obj_id v
  | OpModify _ f => ∀ x y, f x = Ok y → obj_id y = obj_id x ∧ version x y
  | _ => True
  end.

(** The data operations: those an evaluator uses inside a session. *)
Definition is_data_op (op : index_op) : bool :=
  match op with OpEmplace _ _ | OpModify _ _ | OpRemove _ => true | _ => false end.

(** [undo] takes part when no keys can be taken over. *)
Definition undoable : Prop := ∀ g a, sim g a → ¬ taken_over (session_rows a) (_indices g).
Lemma exec_sim op g a g' :
  is_data_op op = true ∨ undoable →
  sim g a → behaved op → exec op g = Ok g' → ∃ a', abs_step op a a' ∧ sim g' a'.
Proof.
  intros Hop Hsim Hwb He. destruct op; simpl in *.
  - destruct (emplace_sim _ _ _ _ _ Hsim Hwb He) as (x & ? & ?). eauto using abs_step.
  - destruct (modify_sim _ _ _ _ _ Hsim Hwb He) as (x & y & ? & ? & ?). eauto using abs_step.
  - destruct (remove_sim _ _ _ _ Hsim He) as (? & ?). eauto using abs_step.
  - injection He as <-. eexists; split; [constructor|by apply start_sim].
  - destruct Hop as [|Hop]; [done|]. destruct (undo_sim _ _ Hsim (Hop _ _ Hsim)) as (g1 & E & ?). rewrite E in He. injection He as <-.
    eexists; split; [apply abs_undo|done].
  - injection He as <-. eexists; split; [constructor|by apply squash_sim].
  - injection He as <-. eexists; split; [constructor|by apply commit_sim].
Qed.

Fixpoint run (ops : list index_op) g : result (generic_index A) :=
  match ops with
  | [] => Ok g
  | op :: ops' => g' ← exec op g; run ops' g'
  end.

Inductive abs_run : list index_op → Abs.state A → Abs.state A → Prop :=
| abs_run_nil a : abs_run [] a a
| abs_run_cons op ops a a' a'' :
    abs_step op a a' → abs_run ops a' a'' → abs_run (op :: ops) a a''.

Lemma run_sim ops g a g' :
  forallb is_data_op ops = true ∨ undoable →
  sim g a → Forall behaved ops → run ops g = Ok g' →
  ∃ a', abs_run ops a a' ∧ sim g' a'.
Proof.
  revert g a. induction ops as [|op ops IH]; intros g a Hops Hsim Hwb Hr.
  - injection Hr as <-. eauto using abs_run.
  - apply Forall_cons in Hwb as [? ?]. simpl in Hr. apply rbind_ok in Hr as (g1 & He & Hr). simpl in Hops.
    assert (is_data_op op = true ∨ undoable) as Hop by (rewrite andb_true_iff in Hops; tauto).
    assert (forallb is_data_op ops = true ∨ undoable) as Hops' by (rewrite andb_true_iff in Hops; tauto).
    destruct (exec_sim _ _ _ _ Hop Hsim ltac:(done) He) as (a1 & ? & Hsim1).
    destruct (IH _ _ Hops' Hsim1 ltac:(done) Hr) as (a2 & ? & ?). eauto using abs_run.
Qed.

Lemma abs_run_data_saved ops a a' :
  abs_run ops a a' → forallb is_data_op ops = true →
  Abs.saved a' = Abs.saved a ∧ Abs.rev a' = Abs.rev a.
Proof.
  induction 1 as [|op ops a a' a'' Hst _ IH]; [done|]. simpl. intros [Hd ?]%andb_true_iff.
  destruct IH as [-> ->]; [done|]. by inversion Hst; subst.
Qed.

End versions.

(** What chainbase asks of its callers: a modification keeps the id and the unique
    keys. *)
Definition well_behaved : index_op → Prop := behaved same_keys.
(** Less than that: a modification keeps the id, and may change the unique keys. *)
Definition keeps_ids : index_op → Prop := behaved any_keys.

(** No keys are taken over by well-behaved operations. *)
Lemma well_behaved_undoable : undoable same_keys.
Proof.
  intros g a (Hi & _ & _ & [Hwf _] & Hch) (i & x & j & y & Hx & [z Hz] & Hy & Hij & Hc).
  rewrite Hi in Hz, Hy. unfold session_rows in Hx. destruct (Abs.saved a) as [|[s r] ss]; [done|].
  destruct (_stack g) as [|u us]; [done|]. destruct Hch as (Hok & Hrev & _). rewrite Hrev in Hx. unfold revert_at in Hx.
  rewrite (revert_removed_None _ _ _ _ _ Hok Hz) in Hx.
  assert (obj_clash z y = false) as Hzy by (apply (proj2 Hwf i j); [done..|lia]).
  destruct (old_values u !! i) as [x'|] eqn:Eo.
  - injection Hx as ->. destruct (ok_old _ _ _ Hok _ _ Eo) as (_ & _ & z' & Hz' & Hk). rewrite Hk in Hc. congruence.
  - case_bool_decide; congruence.
Qed.
Lemma sim_any g a : sim same_keys g a → sim any_keys g a.
Proof.
  intros (Hi & Hn & Hr & Hwf & Hch). split_and!; try done. revert Hch. clear.
  generalize (Abs.cur a), (_stack g), (Abs.saved a). intros s us. revert s.
  induction us as [|u us IH]; intros s [|[s' r] ss]; try done. intros (Hok & ? & ? & ? & ? & ? & Hch).
  split_and!; try done; [|by apply IH]. destruct Hok as [Hold ? ?]. split; [|done..].
  intros i x Hx. destruct (Hold i x Hx) as (? & ? & y & ? & _). split_and!; [done..|by exists y].
Qed.
(** A session of data operations, opened on an index that well-behaved operations
    made. *)
Lemma session_sim (version : A → A → Prop) `{!Transitive version} ops g a g1 :
  sim version g a → Forall (behaved version) ops → forallb is_data_op ops = true →
  run ops (start_undo_session true g) = Ok g1 →
  ∃ a1, sim version g1 a1 ∧ session_rows a1 = _indices g ∧
    Abs.saved a1 = (Abs.cur a, Abs.rev a + 1) :: Abs.saved a ∧ Abs.rev a1 = Abs.rev a + 1.
Proof.
  intros Hsim Hwb Hd Hr.
  destruct (run_sim _ _ _ _ _ (or_introl Hd) (start_sim _ _ _ Hsim) Hwb Hr) as (a1 & Hrun & Hsim1).
  destruct (abs_run_data_saved _ _ _ Hrun Hd) as [Hs Hrv]. exists a1. unfold session_rows. rewrite Hs.
  split_and!; try done. symmetry. apply Hsim.
Qed.

(** The rows, next id and revision of an index. *)
Definition observe g : gmap Z A * Z * Z := (_indices g, _next_id g, _revision g).

Lemma observe_eq g1 g2 :
  _indices g1 = _indices g2 → _next_id g1 = _next_id g2 → _revision g1 = _revision g2 →
  observe g1 = observe g2.
Proof. unfold observe. by intros -> -> ->. Qed.

(** A freshly constructed index. *)
Definition empty_index : generic_index A := GenericIndex [] 0 0 ∅.
Definition empty_state : Abs.state A := Abs.State (Abs.Snap ∅ 0) [] 0.

(** C26: an index driven by any sequence of well-behaved operations implements
    the snapshot stack: its rows, next id and revision are those of an
    abstract run of the same operations, and it stays in simulation with
    it. *)
Theorem index_refines_snapshots ops g :
  Forall well_behaved ops → run ops empty_index = Ok g →
  ∃ a, abs_run ops empty_state a ∧ sim same_keys g a ∧
       _indices g = Abs.rows (Abs.cur a) ∧ length (_stack g) = length (Abs.saved a).
Proof.
  intros Hwb Hr. destruct (run_sim _ _ _ _ _ (or_intror well_behaved_undoable) (sim_init _) Hwb Hr) as (a & ? & Hsim).
  exists a. split_and!; try done; [apply Hsim|].
  by eapply chain_length, Hsim.
Qed.

(** The state that [undo] brings back is the one the session was opened in. *)
Lemma undo_session (version : A → A → Prop) g a g1 a1 :
  sim version g a → sim version g1 a1 → Abs.saved a1 = (Abs.cur a, Abs.rev a + 1) :: Abs.saved a →
  Abs.rev a1 = Abs.rev a + 1 → ¬ taken_over (session_rows a1) (_indices g1) →
  ∃ g2, undo g1 = Ok g2 ∧ observe g2 = observe g.
Proof.
  intros Hsim Hsim1 Hs Hrv Hfree. destruct (undo_sim _ _ _ Hsim1 Hfree) as (g2 & Hu & Hsim2). exists g2. split; [done|].
  unfold Abs.undo in Hsim2. rewrite Hs, Hrv in Hsim2. simpl in Hsim2.
  destruct Hsim2 as (? & ? & ? & _), Hsim as (? & ? & ? & _).
  apply observe_eq; simpl in *; [congruence..|lia].
Qed.

(** C27: undoing a session of well-behaved operations, those whose modifications
    keep the id and the unique keys of the object, never throws and restores the
    rows, the next id and the revision the index had when the session was
    opened, whatever objects were created, modified and removed in it. *)
Theorem undo_restores_session ops0 ops g g1 :
  Forall well_behaved ops0 → Forall well_behaved ops → forallb is_data_op ops = true →
  run ops0 empty_index = Ok g →
  run ops (start_undo_session true g) = Ok g1 →
  ∃ g2, undo g1 = Ok g2 ∧ observe g2 = observe g.
Proof.
  intros Hwb0 Hwb Hd Hr0 Hr.
  destruct (run_sim _ _ _ _ _ (or_intror well_behaved_undoable) (sim_init _) Hwb0 Hr0) as (a & _ & Hsim).
  destruct (session_sim _ _ _ _ _ Hsim Hwb Hd Hr) as (a1 & Hsim1 & _ & Hs & Hrv).
  by eapply undo_session, well_behaved_undoable.
Qed.

(** C34: which sessions [undo] cannot restore, where modifications may change unique
    keys.  It throws when a row that is still there began the session with keys
    that a row with a greater id, one that was created in the session or existed
    before, has at the end: the first loop of [undo] goes through the changed
    rows by ascending id and would bring the old keys back beside that row,
    before it erases the new rows.  In every other case it restores the rows,
    the next id and the revision, as it does for well-behaved operations. *)
Theorem undo_fails_iff_taken_over ops0 ops g g1 :
  Forall well_behaved ops0 → Forall keeps_ids ops → forallb is_data_op ops = true →
  run ops0 empty_index = Ok g →
  run ops (start_undo_session true g) = Ok g1 →
  (taken_over (_indices g) (_indices g1) → undo g1 = Throw uniqueness_error) ∧
  (¬ taken_over (_indices g) (_indices g1) → ∃ g2, undo g1 = Ok g2 ∧ observe g2 = observe g).
Proof.
  intros Hwb0 Hwb Hd Hr0 Hr.
  destruct (run_sim _ _ _ _ _ (or_intror well_behaved_undoable) (sim_init _) Hwb0 Hr0) as (a & _ & Hsim%sim_any).
  destruct (session_sim _ _ _ _ _ Hsim Hwb Hd Hr) as (a1 & Hsim1 & Hrows & Hs & Hrv). rewrite <- Hrows. split.
  - by eapply undo_sim_throws.
  - by eapply undo_session.
Qed.

(** A session squashed into the session around it is undone with it: after
    an outer session with changes, an inner session with changes and a
    [squash], one [undo] brings back the state before the outer session. *)
Theorem squash_merges_sessions ops0 ops1 ops2 g g1 g2 :
  Forall well_behaved ops0 → Forall well_behaved ops1 → Forall well_behaved ops2 →
  forallb is_data_op ops1 = true → forallb is_data_op ops2 = true →
  run ops0 empty_index = Ok g →
  run ops1 (start_undo_session true g) = Ok g1 →
  run ops2 (start_undo_session true g1) = Ok g2 →
  _indices (squash g2) = _indices g2 ∧
  ∃ g3, undo (squash g2) = Ok g3 ∧ observe g3 = observe g.
Proof.
  intros Hwb0 Hwb1 Hwb2 Hd1 Hd2 Hr0 Hr1 Hr2. split.
  { unfold squash. by repeat case_match. }
  destruct (run_sim _ _ _ _ _ (or_intror well_behaved_undoable) (sim_init _) Hwb0 Hr0) as (a & _ & Hsim).
  destruct (session_sim _ _ _ _ _ Hsim Hwb1 Hd1 Hr1) as (a1 & Hsim1 & _ & Hs1 & Hrv1).
  destruct (session_sim _ _ _ _ _ Hsim1 Hwb2 Hd2 Hr2) as (a2 & Hsim2 & _ & Hs2 & Hrv2).
  pose proof (squash_sim _ _ _ Hsim2) as Hsq.
  destruct (undo_sim _ _ _ Hsq (well_behaved_undoable _ _ Hsq)) as (g3 & Hu & Hsim3).
  exists g3. split; [done|]. unfold Abs.squash, Abs.undo in Hsim3.
  rewrite Hs2, Hrv2 in Hsim3. simpl in Hsim3. rewrite Hs1, Hrv1 in Hsim3. simpl in Hsim3.
  destruct Hsim3 as (? & ? & ? & _), Hsim as (? & ? & ? & _).
  apply observe_eq; simpl in *; [congruence..|lia].
Qed.
End refinement.

(** ** A small object type, for the concrete runs *)
Module Demo.
(** An object with a unique key and a payload. *)
Record row := Row { row_id : Z; row_key : Z; row_val : Z }.

#[export] Instance row_index : MultiIndex row := {|
  obj_id := row_id;
  set_obj_id := λ i r, Row i (row_key r) (row_val r);
  obj_clash := λ r r', row_key r =? row_key r';
|}.
#[export] Instance row_laws : MultiIndexLaws row.
Proof. split; [done|]. intros x y. simpl. apply Z.eqb_sym. Qed.

Definition mk (k v : Z) : index_op := OpEmplace (Row 0 0 0) (λ r, Ok (Row (row_id r) k v)).
Definition put (i v : Z) : index_op := OpModify i (λ r, Ok (Row (row_id r) (row_key r) v)).
Definition rekey (i k : Z) : index_op := OpModify i (λ r, Ok (Row (row_id r) k (row_val r))).

Lemma mk_ok k v : well_behaved (mk k v).
Proof. intros x y [= <-]. done. Qed.
Lemma put_ok i v : well_behaved (put i v).
Proof. intros x y [= <-]. done. Qed.

Definition before : list index_op := [mk 10 1; mk 20 2; OpRemove 0; mk 30 3].
Definition during : list index_op := [put 1 7; OpRemove 2; mk 40 4; put 1 8; OpRemove 1; mk 20 5].
End Demo.
Import Demo.

Definition ok_or {A} (d : A) (r : result A) : A := match r with Ok a => a | Throw _ => d end.

Definition demo_base : generic_index Demo.row := ok_or empty_index (run Demo.before empty_index).
Definition demo_during : generic_index Demo.row :=
  ok_or empty_index (run Demo.during (start_undo_session true demo_base)).

#[local] Ltac demo_ops :=
  repeat (apply Forall_cons; split; [first [apply Demo.mk_ok | apply Demo.put_ok | done]|]);
  apply Forall_nil; done.

Lemma index_refines_snapshots_witness :
  ∃ a, abs_run (Demo.before ++ OpStart :: Demo.during) empty_state a ∧ sim same_keys demo_during a ∧
       _indices demo_during = Abs.rows (Abs.cur a) ∧
       length (_stack demo_during) = length (Abs.saved a).
Proof.
  apply (index_refines_snapshots (Demo.before ++ OpStart :: Demo.during)).
  - unfold Demo.before, Demo.during. simpl. demo_ops.
  - vm_compute. reflexivity.
Defined.

Lemma undo_restores_session_witness :
  ∃ g2, undo demo_during = Ok g2 ∧ observe g2 = observe demo_base.
Proof.
  apply (undo_restores_session Demo.before Demo.during demo_base demo_during).
  - unfold Demo.before. demo_ops.
  - unfold Demo.during. demo_ops.
  - reflexivity.
  - vm_compute. reflexivity.
  - vm_compute. reflexivity.
Defined.

Definition demo_inner : generic_index Demo.row :=
  ok_or empty_index (run [Demo.mk 50 9; OpRemove 3; Demo.put 4 0]
    (start_undo_session true demo_during)).

Lemma squash_merges_sessions_witness :
  _indices (squash demo_inner) = _indices demo_inner ∧
  ∃ g3, undo (squash demo_inner) = Ok g3 ∧ observe g3 = observe demo_base.
Proof.
  apply (squash_merges_sessions Demo.before Demo.during
    [Demo.mk 50 9; OpRemove 3; Demo.put 4 0] demo_base demo_during demo_inner).
  - unfold Demo.before. demo_ops.
  - unfold Demo.during. demo_ops.
  - demo_ops.
  - reflexivity.
  - reflexivity.
  - vm_compute. reflexivity.
  - vm_compute. reflexivity.
  - vm_compute. reflexivity.
Defined.

(** The key of an object is changed in a session, and a new object takes over the
    old key. *)
Definition demo_rekeyed : generic_index Demo.row :=
  ok_or empty_index (run [Demo.rekey 1 50; Demo.mk 20 2] (start_undo_session true demo_base)).
Lemma undo_fails_iff_taken_over_witness : undo demo_rekeyed = Throw uniqueness_error.
Proof.
  apply (undo_fails_iff_taken_over Demo.before [Demo.rekey 1 50; Demo.mk 20 2] demo_base demo_rekeyed).
  - unfold Demo.before. demo_ops.
  - repeat (apply Forall_cons; split; [by intros x y [= <-]|]). apply Forall_nil. done.
  - reflexivity.
  - vm_compute. reflexivity.
  - vm_compute. reflexivity.
  - exists 1, (Demo.Row 1 20 2), 3, (Demo.Row 3 20 2). split_and!; vm_compute; try reflexivity. eexists. reflexivity.
Defined.
