(* ===== verification/Fc.v ===== *)
(** * The libraries fc and Boost: checked and wide integers, times

    [share_type] is [fc::safe<int64_t>], intermediate products are
    [fc::uint128], and times are [fc::time_point_sec].  The fc library is a
    submodule whose code is not part of the repository, so its operations are
    parameters here: the class [Fc] has the operations the sources use and, as
    laws, the behaviour fc documents for them.  [fc_model] is an instance; the
    concrete runs of the development use it. *)
From S2P Require Import Prelude.

(** [safe<int64_t>] values and [uint128] values are represented by the integers
    they stand for, times by their seconds since the epoch. *)
Class Fc := {
  (** [fc::safe]: "automatic checks for integer overflow"; throws when the
      result does not fit, and on a division by zero. *)
  safe_add : Z → Z → result Z;
  safe_sub : Z → Z → result Z;
  safe_mul : Z → Z → result Z;
  safe_div : Z → Z → result Z;
  safe_mod : Z → Z → result Z;
  safe_neg : Z → result Z;
  safe_add_spec : ∀ a b, safe_add a b = if in_int64 (a + b) then Ok (a + b) else Throw overflow_exception;
  safe_sub_spec : ∀ a b, safe_sub a b = if in_int64 (a - b) then Ok (a - b) else Throw overflow_exception;
  safe_mul_spec : ∀ a b, safe_mul a b = if in_int64 (a * b) then Ok (a * b) else Throw overflow_exception;
  safe_neg_spec : ∀ a, safe_neg a = if in_int64 (- a) then Ok (- a) else Throw overflow_exception;
  safe_div_spec : ∀ a b, safe_div a b =
    if b =? 0 then Throw divide_by_zero_exception
    else if in_int64 (Z.quot a b) then Ok (Z.quot a b) else Throw overflow_exception;
  safe_mod_spec : ∀ a b, safe_mod a b =
    if b =? 0 then Throw divide_by_zero_exception
    else if in_int64 (Z.quot a b) then Ok (Z.rem a b) else Throw overflow_exception;

  (** [fc::uint128]: an unsigned integer of 128 bits. *)
  u128_of_int64 : Z → Z;
  u128_add : Z → Z → Z;
  u128_sub : Z → Z → Z;
  u128_mul : Z → Z → Z;
  u128_div : Z → Z → result Z;
  u128_to_uint64 : Z → result Z;
  u128_of_int64_spec : ∀ a, u128_of_int64 a = a mod U128;
  u128_add_spec : ∀ a b, u128_add a b = (a + b) mod U128;
  u128_sub_spec : ∀ a b, u128_sub a b = (a - b) mod U128;
  u128_mul_spec : ∀ a b, u128_mul a b = (a * b) mod U128;
  u128_div_spec : ∀ a b, b ≠ 0 → u128_div a b = Ok (a / b);
  u128_to_uint64_spec : ∀ a, 0 ≤ a < U64 → u128_to_uint64 a = Ok a;
  u128_to_uint64_hi : ∀ a, U64 ≤ a → is_ok (u128_to_uint64 a) = false;
  u128_shl : Z → Z → Z;
  u128_shr : Z → Z → Z;
  u128_and : Z → Z → Z;
  u128_shl_spec : ∀ a n, 0 ≤ n < 128 → u128_shl a n = Z.shiftl a n mod U128;
  u128_shr_spec : ∀ a n, 0 ≤ n < 128 → u128_shr a n = Z.shiftr a n;
  u128_and_spec : ∀ a b, u128_and a b = Z.land a b;

  (** [time_point_sec + seconds], exact as long as the sum is a time. *)
  time_add : Z → Z → Z;
  time_add_spec : ∀ t d, 0 ≤ t + d < U32 → time_add t d = t + d;

  (** [fc::is_utf8] and [fc::json::is_valid]. *)
  is_utf8 : string → bool;
  json_is_valid : string → bool;
}.

(** [time_point_sec::maximum()] and [time_point_sec::min()]. *)
Definition time_max : Z := U32 - 1.
Definition time_min : Z := 0.

(** Conversions of the C++ language between integer types. *)
Definition to_int64 (x : Z) : Z := (x + 2 ^ 63) mod U64 - 2 ^ 63.
Definition to_uint64 (x : Z) : Z := x mod U64.
Definition to_uint32 (x : Z) : Z := x mod U32.
Definition to_uint16 (x : Z) : Z := x mod U16.
Definition to_uint8 (x : Z) : Z := x mod U8.

Lemma to_int64_id x : INT64_MIN ≤ x ≤ INT64_MAX → to_int64 x = x.
Proof.
  unfold to_int64, INT64_MIN, INT64_MAX, U64. intros. rewrite Z.mod_small; lia.
Qed.

(** The members [hi] and [lo] of a [uint128], and the constructor from them. *)
Definition u128_hi (x : Z) : Z := x / U64.
Definition u128_lo (x : Z) : Z := x mod U64.
Definition u128_make (hi lo : Z) : Z := hi * U64 + lo.

(** [boost::multiprecision]: unsigned integers of 256 and 512 bits without
    checks, and the position of the highest bit of a 64-bit word. *)
Class Boost := {
  u256_mul : Z → Z → Z;
  u256_div : Z → Z → result Z;
  u512_mul : Z → Z → Z;
  u512_div : Z → Z → result Z;
  find_msb64 : Z → Z;
  u256_mul_spec : ∀ a b, u256_mul a b = (a * b) mod 2 ^ 256;
  u256_div_spec : ∀ a b, b ≠ 0 → u256_div a b = Ok (a / b);
  u512_mul_spec : ∀ a b, u512_mul a b = (a * b) mod 2 ^ 512;
  u512_div_spec : ∀ a b, b ≠ 0 → u512_div a b = Ok (a / b);
  find_msb64_spec : ∀ x, 0 < x < U64 → find_msb64 x = Z.log2 x;
}.

Section laws.
Context {F : Fc}.

Lemma safe_add_ok a b c : safe_add a b = Ok c → c = a + b ∧ in_int64 c = true.
Proof. rewrite safe_add_spec. case_match; naive_solver. Qed.
Lemma safe_sub_ok a b c : safe_sub a b = Ok c → c = a - b ∧ in_int64 c = true.
Proof. rewrite safe_sub_spec. case_match; naive_solver. Qed.
Lemma safe_mul_ok a b c : safe_mul a b = Ok c → c = a * b ∧ in_int64 c = true.
Proof. rewrite safe_mul_spec. case_match; naive_solver. Qed.
Lemma safe_neg_ok a c : safe_neg a = Ok c → c = - a ∧ in_int64 c = true.
Proof. rewrite safe_neg_spec. case_match; naive_solver. Qed.
Lemma safe_div_ok a b c :
  safe_div a b = Ok c → b ≠ 0 ∧ c = Z.quot a b ∧ in_int64 c = true.
Proof. rewrite safe_div_spec. repeat case_match; bool_simpl; naive_solver. Qed.
Lemma safe_mod_ok a b c : safe_mod a b = Ok c → b ≠ 0 ∧ c = Z.rem a b.
Proof. rewrite safe_mod_spec. repeat case_match; bool_simpl; naive_solver. Qed.

(** Products of 64-bit values do not wrap. *)
Lemma u128_mul_int64 a b :
  0 ≤ a ≤ INT64_MAX → 0 ≤ b ≤ INT64_MAX →
  u128_mul (u128_of_int64 a) (u128_of_int64 b) = a * b.
Proof.
  intros Ha Hb. rewrite u128_mul_spec, !u128_of_int64_spec.
  assert (INT64_MAX < 2 ^ 63) by done.
  rewrite (Z.mod_small a), (Z.mod_small b) by (unfold U128; lia).
  apply Z.mod_small. split; [nia|].
  apply Z.le_lt_trans with (INT64_MAX * INT64_MAX); [nia|]. by vm_compute.
Qed.

Lemma u128_of_nonneg a : 0 ≤ a ≤ INT64_MAX → u128_of_int64 a = a.
Proof.
  intros. rewrite u128_of_int64_spec. apply Z.mod_small.
  assert (INT64_MAX < U128) by done. lia.
Qed.

Lemma u128_to_uint64_ok a b : 0 ≤ a → u128_to_uint64 a = Ok b → b = a ∧ a < U64.
Proof.
  intros Ha Hb. destruct (decide (a < U64)) as [Hlt|Hge].
  - rewrite u128_to_uint64_spec in Hb by lia. naive_solver.
  - pose proof (u128_to_uint64_hi a ltac:(lia)) as Hh. by rewrite Hb in Hh.
Qed.
End laws.

(** Inverts the successful checked operations in the context. *)
Ltac inv_safe :=
  repeat match goal with
  | H : safe_add _ _ = Ok _ |- _ => apply safe_add_ok in H; destruct H
  | H : safe_sub _ _ = Ok _ |- _ => apply safe_sub_ok in H; destruct H
  | H : safe_mul _ _ = Ok _ |- _ => apply safe_mul_ok in H; destruct H
  | H : safe_neg _ = Ok _ |- _ => apply safe_neg_ok in H; destruct H
  | H : safe_div _ _ = Ok _ |- _ => apply safe_div_ok in H; destruct H as (? & ? & ?)
  | H : safe_mod _ _ = Ok _ |- _ => apply safe_mod_ok in H; destruct H
  end.

(** An instance of the interface. *)
#[refine] Definition fc_model : Fc := {|
  safe_add a b := if in_int64 (a + b) then Ok (a + b) else Throw overflow_exception;
  safe_sub a b := if in_int64 (a - b) then Ok (a - b) else Throw overflow_exception;
  safe_mul a b := if in_int64 (a * b) then Ok (a * b) else Throw overflow_exception;
  safe_neg a := if in_int64 (- a) then Ok (- a) else Throw overflow_exception;
  safe_div a b := if b =? 0 then Throw divide_by_zero_exception
    else if in_int64 (Z.quot a b) then Ok (Z.quot a b) else Throw overflow_exception;
  safe_mod a b := if b =? 0 then Throw divide_by_zero_exception
    else if in_int64 (Z.quot a b) then Ok (Z.rem a b) else Throw overflow_exception;
  u128_of_int64 a := a mod U128;
  u128_add a b := (a + b) mod U128;
  u128_sub a b := (a - b) mod U128;
  u128_mul a b := (a * b) mod U128;
  u128_div a b := if b =? 0 then Throw divide_by_zero_exception else Ok (a / b);
  u128_to_uint64 a := if (0 <=? a) && (a <? U64) then Ok a
    else Throw (assert_exception "hi == 0");
  u128_shl a n := Z.shiftl a n mod U128;
  u128_shr a n := Z.shiftr a n;
  u128_and a b := Z.land a b;
  time_add t d := (t + d) mod U32;
  is_utf8 _ := true;
  json_is_valid _ := true;
|}.
Proof.
  all: try done.
  - intros a b Hb. by rewrite (proj2 (Z.eqb_neq b 0) Hb).
  - intros a [H1 H2]. by rewrite (proj2 (Z.leb_le 0 a) H1), (proj2 (Z.ltb_lt a U64) H2).
  - intros a Ha. rewrite (proj2 (Z.ltb_ge a U64) Ha). by destruct (0 <=? a).
  - intros t d Htd. by apply Z.mod_small.
Defined.
#[refine] Definition boost_model : Boost := {|
  u256_mul a b := (a * b) mod 2 ^ 256;
  u256_div a b := if b =? 0 then Throw divide_by_zero_exception else Ok (a / b);
  u512_mul a b := (a * b) mod 2 ^ 512;
  u512_div a b := if b =? 0 then Throw divide_by_zero_exception else Ok (a / b);
  find_msb64 := Z.log2;
|}.
Proof.
  all: try done. all: intros a b Hb; by rewrite (proj2 (Z.eqb_neq b 0) Hb).
Defined.
