(* ===== verification/Config.v ===== *)
(** * Protocol constants

    [libraries/protocol/include/steemit/protocol/config.hpp], for the live
    network (neither [IS_TEST_NET] nor [IS_LOW_MEM] is defined).  Durations are
    in seconds. *)
From S2P Require Import Prelude.

(** A byte of an asset symbol at position [i]. *)
Definition sym_byte (c : Z) (i : Z) : Z := Z.shiftl c (8 * i).

Definition VESTS_SYMBOL : Z :=
  Z.lor 6 (Z.lor (sym_byte 86 1) (Z.lor (sym_byte 69 2) (Z.lor (sym_byte 83 3)
    (Z.lor (sym_byte 84 4) (sym_byte 83 5))))).
Definition STEEM_SYMBOL : Z :=
  Z.lor 3 (Z.lor (sym_byte 83 1) (Z.lor (sym_byte 84 2) (Z.lor (sym_byte 69 3)
    (Z.lor (sym_byte 69 4) (sym_byte 77 5))))).
Definition SBD_SYMBOL : Z :=
  Z.lor 3 (Z.lor (sym_byte 83 1) (Z.lor (sym_byte 66 2) (sym_byte 68 3))).

#[global] Arguments VESTS_SYMBOL : simpl never.
#[global] Arguments STEEM_SYMBOL : simpl never.
#[global] Arguments SBD_SYMBOL : simpl never.

Definition STEEMIT_GENESIS_TIME : Z := 1458835200.
Definition STEEMIT_CASHOUT_WINDOW_SECONDS : Z := 60 * 60 * 24 * 7.
Definition STEEMIT_SECOND_CASHOUT_WINDOW : Z := 60 * 60 * 24 * 30.
Definition STEEMIT_UPVOTE_LOCKOUT_HF17 : Z := 60 * 60 * 12.
Definition STEEMIT_OWNER_AUTH_RECOVERY_PERIOD : Z := 60 * 60 * 24 * 30.
Definition STEEMIT_ACCOUNT_RECOVERY_REQUEST_EXPIRATION_PERIOD : Z := 60 * 60 * 24.
Definition STEEMIT_OWNER_UPDATE_LIMIT : Z := 60 * 60.
Definition STEEMIT_OWNER_AUTH_HISTORY_TRACKING_START_BLOCK_NUM : Z := 3186477.
Definition STEEMIT_MIN_ACCOUNT_CREATION_FEE : Z := 1.

Definition STEEMIT_BLOCK_INTERVAL : Z := 3.
Definition STEEMIT_BLOCKS_PER_YEAR : Z := 365 * 24 * 60 * 60 / STEEMIT_BLOCK_INTERVAL.
Definition STEEMIT_BLOCKS_PER_DAY : Z := 24 * 60 * 60 / STEEMIT_BLOCK_INTERVAL.
Definition STEEMIT_START_VESTING_BLOCK : Z := STEEMIT_BLOCKS_PER_DAY * 7.
Definition STEEMIT_START_MINER_VOTING_BLOCK : Z := STEEMIT_BLOCKS_PER_DAY * 30.
Definition STEEMIT_MAX_WITNESSES : Z := 21.
Definition STEEMIT_MAX_MEMO_SIZE : Z := 2048.
Definition STEEMIT_MAX_PROXY_RECURSION_DEPTH : nat := 4.
Definition STEEMIT_VESTING_WITHDRAW_INTERVALS_PRE_HF_16 : Z := 104.
Definition STEEMIT_VESTING_WITHDRAW_INTERVALS : Z := 13.
Definition STEEMIT_VESTING_WITHDRAW_INTERVAL_SECONDS : Z := 60 * 60 * 24 * 7.
Definition STEEMIT_MAX_WITHDRAW_ROUTES : Z := 10.
Definition STEEMIT_SAVINGS_WITHDRAW_TIME : Z := 60 * 60 * 24 * 3.
Definition STEEMIT_SAVINGS_WITHDRAW_REQUEST_LIMIT : Z := 100.
Definition STEEMIT_VOTE_REGENERATION_SECONDS : Z := 5 * 60 * 60 * 24.
Definition STEEMIT_MAX_VOTE_CHANGES : Z := 5.
Definition STEEMIT_REVERSE_AUCTION_WINDOW_SECONDS : Z := 60 * 30.
Definition STEEMIT_MIN_VOTE_INTERVAL_SEC : Z := 3.
Definition STEEMIT_VOTE_DUST_THRESHOLD : Z := 50000000.
Definition STEEMIT_MIN_ROOT_COMMENT_INTERVAL : Z := 60 * 5.
Definition STEEMIT_POST_AVERAGE_WINDOW : Z := 60 * 60 * 24.
Definition STEEMIT_POST_MAX_BANDWIDTH : Z := 4 * 10000.
Definition STEEMIT_POST_WEIGHT_CONSTANT : Z :=
  STEEMIT_POST_MAX_BANDWIDTH * STEEMIT_POST_MAX_BANDWIDTH.
Definition STEEMIT_MAX_COMMENT_DEPTH : Z := 65535.
Definition STEEMIT_MAX_ACCOUNT_WITNESS_VOTES : Z := 30.
Definition STEEMIT_100_PERCENT : Z := 10000.
Definition STEEMIT_1_PERCENT : Z := STEEMIT_100_PERCENT / 100.

Definition STEEMIT_INFLATION_RATE_START_PERCENT : Z := 978.
Definition STEEMIT_INFLATION_RATE_STOP_PERCENT : Z := 95.
Definition STEEMIT_INFLATION_NARROWING_PERIOD : Z := 250000.
Definition STEEMIT_CONTENT_REWARD_PERCENT : Z := 75 * STEEMIT_1_PERCENT.
Definition STEEMIT_VESTING_FUND_PERCENT : Z := 15 * STEEMIT_1_PERCENT.

Definition STEEMIT_CREATE_ACCOUNT_WITH_STEEM_MODIFIER : Z := 30.
Definition STEEMIT_CREATE_ACCOUNT_DELEGATION_RATIO : Z := 5.
Definition STEEMIT_CREATE_ACCOUNT_DELEGATION_TIME : Z := 60 * 60 * 24 * 30.

Definition STEEMIT_POST_REWARD_FUND_NAME : string := "post".
Definition STEEMIT_RECENT_RSHARES_DECAY_RATE_HF17 : Z := 60 * 60 * 24 * 30.
Definition STEEMIT_RECENT_RSHARES_DECAY_RATE_HF19 : Z := 60 * 60 * 24 * 15.
Definition STEEMIT_CONTENT_CONSTANT_HF0 : Z := 2000000000000.

Definition STEEMIT_APR_PERCENT_MULTIPLY_PER_BLOCK : Z := 102035135585887.
Definition STEEMIT_APR_PERCENT_SHIFT_PER_BLOCK : Z := 87.
Definition STEEMIT_APR_PERCENT_MULTIPLY_PER_ROUND : Z := 133921203762304.
Definition STEEMIT_APR_PERCENT_SHIFT_PER_ROUND : Z := 83.
Definition STEEMIT_APR_PERCENT_MULTIPLY_PER_HOUR : Z := 119577151364285.
Definition STEEMIT_APR_PERCENT_SHIFT_PER_HOUR : Z := 77.
Definition STEEMIT_CURATE_APR_PERCENT : Z := 3875.
Definition STEEMIT_CONTENT_APR_PERCENT : Z := 3875.
Definition STEEMIT_LIQUIDITY_APR_PERCENT : Z := 750.
Definition STEEMIT_PRODUCER_APR_PERCENT : Z := 750.
Definition STEEMIT_POW_APR_PERCENT : Z := 750.
Definition STEEMIT_EQUIHASH_N : Z := 140.
Definition STEEMIT_EQUIHASH_K : Z := 6.
Definition STEEMIT_MAX_SIG_CHECK_DEPTH : nat := 2.

(** The amounts of the minimal rewards, which are assets in STEEM. *)
Definition STEEMIT_MINING_REWARD : Z := 1000.
Definition STEEMIT_LIQUIDITY_REWARD_PERIOD_SEC : Z := 60 * 60.
Definition STEEMIT_LIQUIDITY_REWARD_BLOCKS : Z :=
  STEEMIT_LIQUIDITY_REWARD_PERIOD_SEC / STEEMIT_BLOCK_INTERVAL.
Definition STEEMIT_MIN_LIQUIDITY_REWARD : Z := 1000 * STEEMIT_LIQUIDITY_REWARD_BLOCKS.

Definition STEEMIT_MIN_CONTENT_REWARD : Z := STEEMIT_MINING_REWARD.
Definition STEEMIT_MIN_CURATE_REWARD : Z := STEEMIT_MINING_REWARD.
Definition STEEMIT_MIN_PRODUCER_REWARD : Z := STEEMIT_MINING_REWARD.
Definition STEEMIT_MIN_POW_REWARD : Z := STEEMIT_MINING_REWARD.
Definition STEEMIT_MAX_TIME_UNTIL_EXPIRATION : Z := 60 * 60.

Definition STEEMIT_SBD_STOP_PERCENT : Z := 5 * STEEMIT_1_PERCENT.
Definition STEEMIT_SBD_START_PERCENT : Z := 2 * STEEMIT_1_PERCENT.
Definition STEEMIT_MIN_PAYOUT_SBD : Z := 20.

Definition STEEMIT_MIN_PERMLINK_LENGTH : Z := 0.
Definition STEEMIT_MAX_PERMLINK_LENGTH : Z := 256.
Definition STEEMIT_MAX_WITNESS_URL_LENGTH : Z := 2048.
Definition STEEMIT_MAX_SHARE_SUPPLY : Z := 1000000000000000.
Definition STEEMIT_MIN_LIQUIDITY_REWARD_PERIOD_SEC : Z := 60.
Definition STEEMIT_LIQUIDITY_TIMEOUT_SEC : Z := 60 * 60 * 24 * 7.
Definition STEEMIT_SECONDS_PER_YEAR : Z := 60 * 60 * 24 * 365.
Definition STEEMIT_SBD_INTEREST_COMPOUND_INTERVAL_SEC : Z := 60 * 60 * 24 * 30.
Definition STEEMIT_MIN_BLOCK_SIZE_LIMIT : Z := 1024 * 64.
Definition STEEMIT_BLOCKS_PER_HOUR : Z := 60 * 60 / STEEMIT_BLOCK_INTERVAL.
Definition STEEMIT_FEED_INTERVAL_BLOCKS : Z := STEEMIT_BLOCKS_PER_HOUR.
Definition STEEMIT_FEED_HISTORY_WINDOW_PRE_HF_16 : Z := 24 * 7.
Definition STEEMIT_MAX_FEED_AGE_SECONDS : Z := 60 * 60 * 24 * 7.
Definition STEEMIT_MIN_FEEDS : Z := STEEMIT_MAX_WITNESSES / 3.
Definition STEEMIT_MAX_UNDO_HISTORY : Z := 10000.
Definition STEEMIT_IRREVERSIBLE_THRESHOLD : Z := 75 * STEEMIT_1_PERCENT.
Definition STEEMIT_FEED_HISTORY_WINDOW : Z := 12 * 7.
Definition STEEMIT_CONVERSION_DELAY : Z := 60 * 60 * STEEMIT_FEED_HISTORY_WINDOW.

Definition VIRTUAL_SCHEDULE_LAP_LENGTH : Z := U64 - 1.
Definition VIRTUAL_SCHEDULE_LAP_LENGTH2 : Z := U128 - 1.

Definition STEEMIT_INIT_PUBLIC_KEY : string :=
  "STM8GC13uCZbP44HzMLV6zPZGwVQ8Nt4Kji8PapsPiNq1BK153XTX".
Definition STEEMIT_INIT_MINER_NAME : string := "initminer".
Definition STEEMIT_NUM_INIT_MINERS : nat := 1.
Definition STEEMIT_MAX_TRANSACTION_SIZE : Z := 1024 * 64.
Definition STEEMIT_MAX_BLOCK_SIZE : Z :=
  STEEMIT_MAX_TRANSACTION_SIZE * STEEMIT_BLOCK_INTERVAL * 2000.
Definition STEEMIT_MINER_ACCOUNT : string := "miners".
Definition STEEMIT_NULL_ACCOUNT : string := "null".
Definition STEEMIT_TEMP_ACCOUNT : string := "temp".
Definition STEEMIT_PROXY_TO_SELF_ACCOUNT : string := EmptyString.
Definition STEEMIT_ROOT_POST_PARENT : string := EmptyString.

(** The three symbols are different and fit in 64 bits. *)
Lemma symbols_distinct :
  STEEM_SYMBOL ≠ SBD_SYMBOL ∧ STEEM_SYMBOL ≠ VESTS_SYMBOL ∧ SBD_SYMBOL ≠ VESTS_SYMBOL.
Proof. by vm_compute. Qed.

(** chain/hardfork.d/0_10.hf *)
Definition STEEMIT_MIN_LIQUIDITY_REWARD_PERIOD_SEC_HF10 : Z := 60 * 30.

(** chain/hardfork.d/0_6.hf, 0_7.hf and 0_19.hf *)
Definition STEEMIT_HARDFORK_0_6_REVERSE_AUCTION_TIME : Z := 1467295200 - 60 * 60 * 24 * 6.
Definition STEEMIT_FIRST_CASHOUT_TIME : Z := 7.
Definition STEEMIT_HARDFORK_0_19_ACTUAL_TIME : Z := 1497970809.
Definition STEEMIT_HF_19_SQRT_PRE_CALC : Z :=
  STEEMIT_HARDFORK_0_19_ACTUAL_TIME - STEEMIT_CASHOUT_WINDOW_SECONDS.

(** chain/hardfork.d/0-preamble.hf, 0_17.hf and 0_19.hf *)
Definition STEEMIT_NUM_HARDFORKS : Z := 19.
Definition STEEMIT_HF_17_RECENT_CLAIMS : Z := 808638359297 * U64 + 13744269167557038121.
Definition STEEMIT_HF_19_RECENT_CLAIMS : Z := 140797515942543623.
Definition STEEMIT_CASHOUT_WINDOW_SECONDS_PRE_HF17 : Z := 60 * 60 * 12.
Definition STEEMIT_MAX_VOTED_WITNESSES_HF17 : Z := 20.
Definition STEEMIT_MAX_MINER_WITNESSES_HF17 : Z := 0.
Definition STEEMIT_MAX_RUNNER_WITNESSES_HF17 : Z := 1.
