(* ===== verification/Asset.v ===== *)
(** * Assets and prices

    [libraries/protocol/include/steemit/protocol/asset.hpp] and
    [libraries/protocol/asset.cpp]: amounts with a symbol, exchange rates
    between two symbols, their comparisons and the conversion of an amount by a
    rate.  Comparisons and arithmetic between different symbols throw. *)
From S2P Require Import Prelude Fc Config.

Record asset := Asset { amount : Z; symbol : Z }.
#[export] Instance asset_eq_dec : EqDecision asset.
Proof. solve_decision. Defined.

Record price := Price { base : asset; quote : asset }.
#[export] Instance price_eq_dec : EqDecision price.
Proof. solve_decision. Defined.

(** [asset()] *)
Definition asset_default : asset := Asset 0 STEEM_SYMBOL.

(** Byte [i] of the symbol in memory (little endian). *)
Definition symbol_byte (s i : Z) : Z := Z.land (Z.shiftr s (8 * i)) 255.

(** A C string: the bytes before the first NUL. *)
Fixpoint c_str (l : list Z) : list Z :=
  match l with
  | [] => []
  | b :: l' => if b =? 0 then [] else b :: c_str l'
  end.

(** [asset::symbol_name()] *)
Definition symbol_name (a : asset) : result (list Z) :=
  FC_ASSERT (symbol_byte (symbol a) 7 =? 0) "a[7] == 0";;
  mret (c_str (symbol_byte (symbol a) <$> [1; 2; 3; 4; 5; 6; 7])).

(** [asset::decimals()], [asset::precision()], [asset::set_decimals()] *)
Definition decimals (a : asset) : result Z :=
  let result := symbol_byte (symbol a) 0 in
  FC_ASSERT (result <? 15) "result < 15";; mret result.

Definition precision (a : asset) : result Z :=
  d ← decimals a; mret (10 ^ d).

Definition set_decimals (d : Z) (a : asset) : result asset :=
  FC_ASSERT (d <? 15) "d < 15";;
  mret (Asset (amount a) (Z.lor (Z.shiftl (Z.shiftr (symbol a) 8) 8) d)).

Section asset.
Context {F : Fc}.

Definition asset_eq (a b : asset) : bool :=
  (symbol a =? symbol b) && (amount a =? amount b).

Definition asset_lt (a b : asset) : result bool :=
  FC_ASSERT (symbol a =? symbol b) "a.symbol == b.symbol";;
  mret (amount a <? amount b).

Definition asset_le (a b : asset) : result bool :=
  if asset_eq a b then Ok true else asset_lt a b.

Definition asset_gt (a b : asset) : result bool := r ← asset_le a b; mret (negb r).
Definition asset_ge (a b : asset) : result bool := r ← asset_lt a b; mret (negb r).

(** [operator +=] and [operator +], [operator -=] and [operator -] *)
Definition asset_add (a b : asset) : result asset :=
  FC_ASSERT (symbol a =? symbol b) "symbol == o.symbol";;
  x ← safe_add (amount a) (amount b); mret (Asset x (symbol a)).

Definition asset_sub (a b : asset) : result asset :=
  FC_ASSERT (symbol a =? symbol b) "symbol == o.symbol";;
  x ← safe_sub (amount a) (amount b); mret (Asset x (symbol a)).

(** Unary [operator -] *)
Definition asset_neg (a : asset) : result asset :=
  x ← safe_neg (amount a); mret (Asset x (symbol a)).

(** [amult] and [bmult] of the price comparisons. *)
Definition cross (q b : asset) : Z :=
  u128_mul (u128_of_int64 (amount q)) (u128_of_int64 (amount b)).

Definition price_eq (a b : price) : bool :=
  if negb ((symbol (base a) =? symbol (base b)) && (symbol (quote a) =? symbol (quote b)))
  then false
  else cross (quote b) (base a) =? cross (quote a) (base b).

Definition price_lt (a b : price) : bool :=
  if symbol (base a) <? symbol (base b) then true
  else if symbol (base b) <? symbol (base a) then false
  else if symbol (quote a) <? symbol (quote b) then true
  else if symbol (quote b) <? symbol (quote a) then false
  else cross (quote b) (base a) <? cross (quote a) (base b).

Definition price_le (a b : price) : bool := price_eq a b || price_lt a b.
Definition price_gt (a b : price) : bool := negb (price_le a b).
Definition price_ge (a b : price) : bool := negb (price_lt a b).

(** One branch of [operator *(asset, price)]. *)
Definition convert_amount (a num den : asset) : result asset :=
  FC_ASSERT (0 <? amount den) "amount.value > 0";;
  r ← u128_div (u128_mul (u128_of_int64 (amount a)) (u128_of_int64 (amount num)))
               (u128_of_int64 (amount den));
  FC_ASSERT (r <? U64) "result.hi == 0";;
  x ← u128_to_uint64 r;
  mret (Asset (to_int64 x) (symbol num)).

(** [operator *(asset, price)] *)
Definition asset_mul (a : asset) (b : price) : result asset :=
  na ← symbol_name a; nb ← symbol_name (base b);
  if bool_decide (na = nb) then convert_amount a (quote b) (base b)
  else
    nq ← symbol_name (quote b);
    if bool_decide (na = nq) then convert_amount a (base b) (quote b)
    else Throw (assert_exception "invalid asset * price").

(** [operator /(asset, asset)] *)
Definition asset_div (b q : asset) : result price :=
  nb ← symbol_name b; nq ← symbol_name q;
  FC_ASSERT (negb (bool_decide (nb = nq))) "base.symbol_name() != quote.symbol_name()";;
  mret (Price b q).

(** [operator ~] *)
Definition price_inv (p : price) : price := Price (quote p) (base p).

(** [price::max] and [price::min] *)
Definition price_max (b q : Z) : result price :=
  asset_div (Asset STEEMIT_MAX_SHARE_SUPPLY b) (Asset 1 q).
Definition price_min (b q : Z) : result price :=
  asset_div (Asset 1 b) (Asset STEEMIT_MAX_SHARE_SUPPLY q).

Definition price_is_null (p : price) : bool := price_eq p (Price asset_default asset_default).

Definition price_validate (p : price) : result unit :=
  FC_ASSERT (0 <? amount (base p)) "base.amount > share_type(0)";;
  FC_ASSERT (0 <? amount (quote p)) "quote.amount > share_type(0)";;
  nb ← symbol_name (base p); nq ← symbol_name (quote p);
  FC_ASSERT (negb (bool_decide (nb = nq))) "base.symbol_name() != quote.symbol_name()".
End asset.

(** ** Inversion lemmas *)
Section asset_inv.
Context {F : Fc}.

Lemma asset_eq_true a b : asset_eq a b = true ↔ a = b.
Proof.
  unfold asset_eq. destruct a, b. simpl. rewrite andb_true_iff, !Z.eqb_eq. naive_solver.
Qed.

Lemma asset_lt_ok a b r :
  asset_lt a b = Ok r → symbol a = symbol b ∧ r = (amount a <? amount b).
Proof. unfold asset_lt. intros. inv_okb. done. Qed.

Lemma asset_ge_ok a b :
  asset_ge a b = Ok true → symbol a = symbol b ∧ amount b ≤ amount a.
Proof.
  unfold asset_ge. intros H. apply rbind_ok in H as (r & Hlt & Hr). injection Hr as Hr.
  apply asset_lt_ok in Hlt as [? ->]. bool_simpl. done.
Qed.

Lemma asset_le_ok a b :
  asset_le a b = Ok true → symbol a = symbol b ∧ amount a ≤ amount b.
Proof.
  unfold asset_le. destruct (asset_eq a b) eqn:E.
  - apply asset_eq_true in E as ->. intros _. done.
  - intros [? Hr]%asset_lt_ok. symmetry in Hr. bool_simpl. split; [done|lia].
Qed.

Lemma asset_gt_ok a b :
  asset_gt a b = Ok true → symbol a = symbol b ∧ amount b < amount a.
Proof.
  unfold asset_gt. intros H. apply rbind_ok in H as (r & Hle & Hr). injection Hr as Hr.
  apply negb_true_iff in Hr as ->. unfold asset_le in Hle.
  destruct (asset_eq a b) eqn:E; [done|]. apply asset_lt_ok in Hle as [Hs Hr].
  symmetry in Hr. bool_simpl. split; [done|].
  assert (amount a ≠ amount b); [|lia]. intros Ha. apply not_true_iff_false in E.
  apply E, asset_eq_true. destruct a, b; simpl in *; congruence.
Qed.

Lemma asset_add_ok a b c :
  asset_add a b = Ok c → symbol a = symbol b ∧ c = Asset (amount a + amount b) (symbol a).
Proof. unfold asset_add. intros. inv_ok. inv_safe. bool_simpl. subst. done. Qed.

Lemma asset_sub_ok a b c :
  asset_sub a b = Ok c → symbol a = symbol b ∧ c = Asset (amount a - amount b) (symbol a).
Proof. unfold asset_sub. intros. inv_ok. inv_safe. bool_simpl. subst. done. Qed.

(** Results of checked arithmetic are 64-bit values. *)
Lemma asset_add_int64 a b c : asset_add a b = Ok c → in_int64 (amount c) = true.
Proof. unfold asset_add. intros. inv_ok. inv_safe. by subst. Qed.
Lemma asset_sub_int64 a b c : asset_sub a b = Ok c → in_int64 (amount c) = true.
Proof. unfold asset_sub. intros. inv_ok. inv_safe. by subst. Qed.

Lemma asset_neg_ok a c : asset_neg a = Ok c → c = Asset (- amount a) (symbol a).
Proof. unfold asset_neg. intros. inv_ok. inv_safe. subst. done. Qed.
End asset_inv.

Ltac inv_asset :=
  repeat match goal with
  | H : asset_lt _ _ = Ok _ |- _ => apply asset_lt_ok in H; destruct H
  | H : asset_ge _ _ = Ok true |- _ => apply asset_ge_ok in H; destruct H
  | H : asset_le _ _ = Ok true |- _ => apply asset_le_ok in H; destruct H
  | H : asset_gt _ _ = Ok true |- _ => apply asset_gt_ok in H; destruct H
  | H : asset_add _ _ = Ok _ |- _ => apply asset_add_ok in H; destruct H
  | H : asset_sub _ _ = Ok _ |- _ => apply asset_sub_ok in H; destruct H
  | H : asset_neg _ = Ok _ |- _ => apply asset_neg_ok in H
  end.

(** ** Prices in range *)

(** An amount that a positive [share_type] can hold. *)
Definition pos_amount (a : asset) : Prop := 0 < amount a ≤ INT64_MAX.
Definition price_ok (p : price) : Prop := pos_amount (base p) ∧ pos_amount (quote p).

(** Two prices for the same pair of symbols. *)
Definition same_market (p q : price) : Prop :=
  symbol (base p) = symbol (base q) ∧ symbol (quote p) = symbol (quote q).

Section price_order.
Context {F : Fc}.

Lemma cross_ok q b :
  0 ≤ amount q ≤ INT64_MAX → 0 ≤ amount b ≤ INT64_MAX →
  cross q b = amount q * amount b.
Proof. intros. unfold cross. by apply u128_mul_int64. Qed.

Lemma price_eq_spec p q :
  price_ok p → price_ok q →
  price_eq p q = true ↔
  same_market p q ∧ amount (base p) * amount (quote q) = amount (base q) * amount (quote p).
Proof.
  unfold price_ok, pos_amount, price_eq, same_market. intros [? ?] [? ?].
  rewrite !cross_ok by lia.
  destruct (symbol (base p) =? symbol (base q)) eqn:E1;
    destruct (symbol (quote p) =? symbol (quote q)) eqn:E2; simpl; bool_simpl;
    rewrite ?Z.eqb_eq; naive_solver lia.
Qed.

Lemma price_lt_spec p q :
  price_ok p → price_ok q →
  price_lt p q = true ↔
  symbol (base p) < symbol (base q) ∨
  symbol (base p) = symbol (base q) ∧ symbol (quote p) < symbol (quote q) ∨
  same_market p q ∧ amount (base p) * amount (quote q) < amount (base q) * amount (quote p).
Proof.
  unfold price_ok, pos_amount, price_lt, same_market. intros [? ?] [? ?].
  rewrite !cross_ok by lia.
  repeat match goal with |- context [if ?a <? ?b then _ else _] => destruct (Z.ltb_spec a b) end;
    rewrite ?Z.ltb_lt; lia || naive_solver lia.
Qed.

(** Cross products compare like the fractions they come from. *)
Lemma cross_trans b1 q1 b2 q2 b3 q3 :
  0 < q1 → 0 < q2 → 0 < q3 →
  b1 * q2 < b2 * q1 → b2 * q3 ≤ b3 * q2 → b1 * q3 < b3 * q1.
Proof.
  intros. apply (Z.mul_lt_mono_pos_r q2); [done|].
  apply Z.lt_le_trans with (b2 * q1 * q3); nia.
Qed.

(** The order of the order book is a strict weak order on prices with
    positive amounts: [<] is irreflexive and transitive, and of two prices
    exactly one of [a < b], [a == b], [b < a] holds. *)
Theorem price_order a b c :
  price_ok a → price_ok b → price_ok c →
  price_lt a a = false ∧
  (price_lt a b = true → price_lt b c = true → price_lt a c = true) ∧
  (price_lt a b = true ↔ price_eq a b = false ∧ price_lt b a = false) ∧
  (price_eq a b = true → price_lt a c = price_lt b c).
Proof.
  intros Ha Hb Hc. pose proof Ha as [[? ?] [? ?]]. pose proof Hb as [[? ?] [? ?]].
  pose proof Hc as [[? ?] [? ?]]. split_and!.
  - apply not_true_iff_false. rewrite price_lt_spec by done. unfold same_market. lia.
  - rewrite !price_lt_spec by done. unfold same_market. intros L1 L2.
    destruct L1 as [?|[[? ?]|[[? ?] L1]]], L2 as [?|[[? ?]|[[? ?] L2]]]; try lia.
    right; right. split; [split; congruence|].
    eapply (cross_trans _ _ (amount (base b)) (amount (quote b))); lia.
  - rewrite <- !not_true_iff_false, !price_lt_spec, price_eq_spec by done.
    unfold same_market. lia.
  - rewrite price_eq_spec by done. intros [[E1 E2] E]. apply eq_true_iff_eq.
    rewrite !price_lt_spec by done. unfold same_market. rewrite E1, E2. split.
    + intros [?|[?|[? L]]]; auto. right; right. split; [done|].
      apply (Z.mul_lt_mono_pos_r (amount (quote a))); [done|].
      nia.
    + intros [?|[?|[? L]]]; auto. right; right. split; [done|].
      apply (Z.mul_lt_mono_pos_r (amount (quote b))); [done|]. nia.
Qed.
End price_order.

(** ** Conversions *)
Section conversion.
Context {F : Fc}.

Lemma convert_amount_spec a num den :
  0 ≤ amount a ≤ INT64_MAX → 0 ≤ amount num ≤ INT64_MAX → pos_amount den →
  amount a * amount num / amount den ≤ INT64_MAX →
  convert_amount a num den = Ok (Asset (amount a * amount num / amount den) (symbol num)).
Proof.
  unfold pos_amount, convert_amount. intros Ha Hn [Hd Hd'] Hq.
  rewrite u128_mul_int64 by done. rewrite (u128_of_nonneg (amount den)) by lia.
  assert (0 ≤ amount a * amount num / amount den) by (apply Z.div_pos; nia).
  assert (INT64_MAX < U64) by done.
  rewrite (proj2 (Z.ltb_lt 0 _)) by lia. simpl. rewrite u128_div_spec by lia. simpl.
  rewrite (proj2 (Z.ltb_lt _ U64)) by lia. simpl. rewrite u128_to_uint64_spec by lia. simpl.
  assert (INT64_MIN < 0) by done. rewrite to_int64_id by lia. done.
Qed.

Lemma convert_amount_ok a num den r :
  0 ≤ amount a ≤ INT64_MAX → 0 ≤ amount num ≤ INT64_MAX → amount den ≤ INT64_MAX →
  convert_amount a num den = Ok r →
  symbol r = symbol num ∧ amount r = to_int64 (amount a * amount num / amount den) ∧
  0 < amount den ∧ 0 ≤ amount a * amount num / amount den < U64.
Proof.
  unfold convert_amount. intros Ha Hn Hd H. inv_ok. bool_simpl.
  rewrite u128_mul_int64, (u128_of_nonneg (amount den)), u128_div_spec in Hm0 by lia.
  simplify_eq. assert (0 ≤ amount a * amount num / amount den) by (apply Z.div_pos; nia).
  apply u128_to_uint64_ok in Hm2 as [-> ?]; [|done]. done.
Qed.

(** The branch of [operator *] is decided by the symbol names. *)
Lemma asset_mul_base a p na :
  symbol_name a = Ok na → symbol_name (base p) = Ok na →
  asset_mul a p = convert_amount a (quote p) (base p).
Proof.
  unfold asset_mul. intros -> ->. rsimpl. by rewrite bool_decide_true.
Qed.

Lemma asset_mul_quote a p na nb :
  symbol_name a = Ok na → symbol_name (base p) = Ok nb → na ≠ nb →
  symbol_name (quote p) = Ok na →
  asset_mul a p = convert_amount a (base p) (quote p).
Proof.
  unfold asset_mul. intros -> -> Hne ->. rsimpl.
  rewrite bool_decide_false by done. rsimpl. by rewrite bool_decide_true.
Qed.

Lemma symbol_name_sym a b : symbol a = symbol b → symbol_name a = symbol_name b.
Proof. unfold symbol_name. by intros ->. Qed.

(** Converting an amount by a valid price rounds down, in either
    direction, and converting the result back never yields more than was
    given. *)
Theorem conversion_rounds_down a p na nq :
  price_ok p → symbol (base p) = symbol a →
  symbol_name a = Ok na → symbol_name (quote p) = Ok nq → na ≠ nq →
  0 ≤ amount a ≤ INT64_MAX →
  amount a * amount (quote p) / amount (base p) ≤ INT64_MAX →
  ∃ r a', asset_mul a p = Ok r ∧ asset_mul r p = Ok a' ∧
    symbol r = symbol (quote p) ∧ symbol a' = symbol a ∧
    amount r * amount (base p) ≤ amount a * amount (quote p) < (amount r + 1) * amount (base p) ∧
    0 ≤ amount a' ≤ amount a.
Proof.
  intros [[Hb Hb'] [Hq Hq']] Hsym Hna Hnq Hne Ha Hfit.
  set (x := amount a * amount (quote p) / amount (base p)) in *.
  assert (0 ≤ x) by (apply Z.div_pos; nia).
  assert (amount (base p) * x ≤ amount a * amount (quote p)) by (apply Z.mul_div_le; lia).
  assert (amount a * amount (quote p) < amount (base p) * Z.succ x)
    by (apply Z.mul_succ_div_gt; lia).
  assert (x * amount (base p) / amount (quote p) ≤ amount a).
  { apply Z.div_le_upper_bound; lia. }
  assert (0 ≤ x * amount (base p) / amount (quote p)) by (apply Z.div_pos; nia).
  exists (Asset x (symbol (quote p))),
    (Asset (x * amount (base p) / amount (quote p)) (symbol (base p))).
  rewrite (asset_mul_base a p na); [|done|by rewrite (symbol_name_sym _ a)].
  rewrite convert_amount_spec by (unfold pos_amount; lia).
  rewrite (asset_mul_quote _ p nq na);
    [|by rewrite (symbol_name_sym _ (quote p))|by rewrite (symbol_name_sym _ a)|done|done].
  rewrite convert_amount_spec by (unfold pos_amount; simpl; lia).
  split_and!; simpl; try done; lia.
Qed.
End conversion.

Lemma price_order_witness :
  price_lt (F := fc_model) (Price (Asset 1 STEEM_SYMBOL) (Asset 3 SBD_SYMBOL))
    (Price (Asset 2 STEEM_SYMBOL) (Asset 5 SBD_SYMBOL)) = true ∧
  price_lt (F := fc_model) (Price (Asset 1 STEEM_SYMBOL) (Asset 3 SBD_SYMBOL))
    (Price (Asset 1 STEEM_SYMBOL) (Asset 2 SBD_SYMBOL)) = true.
Proof.
  split; [reflexivity|].
  refine (proj1 (proj2 (price_order (F := fc_model)
    (Price (Asset 1 STEEM_SYMBOL) (Asset 3 SBD_SYMBOL))
    (Price (Asset 2 STEEM_SYMBOL) (Asset 5 SBD_SYMBOL))
    (Price (Asset 1 STEEM_SYMBOL) (Asset 2 SBD_SYMBOL)) _ _ _)) _ _);
    try reflexivity; unfold price_ok, pos_amount, INT64_MAX; simpl; lia.
Defined.

Lemma conversion_rounds_down_witness :
  ∃ r a', asset_mul (F := fc_model) (Asset 10 STEEM_SYMBOL)
      (Price (Asset 3 STEEM_SYMBOL) (Asset 7 SBD_SYMBOL)) = Ok r ∧
    asset_mul (F := fc_model) r (Price (Asset 3 STEEM_SYMBOL) (Asset 7 SBD_SYMBOL)) = Ok a' ∧
    symbol r = SBD_SYMBOL ∧ symbol a' = STEEM_SYMBOL ∧
    amount r * 3 ≤ 10 * 7 < (amount r + 1) * 3 ∧ 0 ≤ amount a' ≤ 10.
Proof.
  refine (conversion_rounds_down (F := fc_model) (Asset 10 STEEM_SYMBOL)
    (Price (Asset 3 STEEM_SYMBOL) (Asset 7 SBD_SYMBOL)) [83;84;69;69;77] [83;66;68]
    _ _ _ _ _ _ _); try reflexivity; try done;
    unfold price_ok, pos_amount, INT64_MAX; simpl; try lia.
Defined.

(** [operator *] checks that the quotient fits in 64 bits, not in 63: a
    quotient of [2^63] or more comes back as a negative amount. *)
Theorem conversion_can_go_negative :
  ∃ a p r, pos_amount a ∧ price_ok p ∧
    asset_mul (F := fc_model) a p = Ok r ∧ amount r < 0.
Proof.
  exists (Asset (2 ^ 62) STEEM_SYMBOL),
    (Price (Asset 1 STEEM_SYMBOL) (Asset 3 SBD_SYMBOL)), (Asset (- 2 ^ 62) SBD_SYMBOL).
  unfold pos_amount, price_ok, pos_amount, INT64_MAX. split_and!; simpl; try lia.
  reflexivity.
Qed.
