(* ===== verification/AssetText.v ===== *)
(** * Assets as text

    [asset::to_string] and [asset::from_string] of protocol/asset.cpp, the form in
    which amounts are shown and entered.  A text is a list of character codes.

    The conversions between integers and text, and the trimming, are fc's: the
    class [FcText] has them, with the laws that a number is written in decimal
    and read back, and that a text without spaces at its ends is not trimmed. *)
From S2P Require Import Prelude Fc Config Asset.

(** ** Decimal numbers *)
Fixpoint decimal_digits (fuel : nat) (x : Z) : list Z :=
  match fuel with
  | O => []
  | S fuel' => if x <? 10 then [48 + x] else decimal_digits fuel' (x / 10) ++ [48 + x mod 10]
  end.
(** Twenty digits are enough for 64 bits. *)
Definition decimal (x : Z) : list Z := decimal_digits 20 x.

Definition space : Z := 32.
Definition dot : Z := 46.
Definition is_space (c : Z) : bool := (c =? 32) || ((9 <=? c) && (c <=? 13)).

Class FcText := {
  fc_to_string : Z → list Z;
  fc_to_int64 : list Z → result Z;
  fc_trim : list Z → list Z;
  to_string_decimal : ∀ x, 0 ≤ x ≤ INT64_MAX → fc_to_string x = decimal x;
  to_int64_decimal : ∀ x, 0 ≤ x ≤ INT64_MAX → fc_to_int64 (decimal x) = Ok x;
  trim_none : ∀ c s d, is_space c = false → is_space d = false → fc_trim (c :: s ++ [d]) = c :: s ++ [d];
}.

Section text.
Context {X : FcText}.

Definition asset_to_string (a : asset) : result (list Z) :=
  prec ← precision a;
  let whole := fc_to_string (Z.quot (amount a) prec) in
  let text := if 1 <? prec
              then whole ++ [dot] ++ drop 1 (fc_to_string (prec + Z.rem (amount a) prec))
              else whole in
  name ← symbol_name a;
  mret (text ++ [space] ++ name).

(** [s.find( c )] *)
Fixpoint find_char (c : Z) (s : list Z) : option nat :=
  match s with [] => None | x :: s' => if x =? c then Some 0%nat else S <$> find_char c s' end.
(** [memcpy( sy + 1, symbol.c_str(), size )] onto bytes that are zero. *)
Fixpoint bytes_value (l : list Z) : Z := match l with [] => 0 | b :: l' => b + 256 * bytes_value l' end.
Definition write_name (name : list Z) (s : Z) : Z := Z.lor s (Z.shiftl (bytes_value name) 8).

(** The amount before and after the dot; the products and sums of the source are
    those of plain 64-bit integers. *)
Definition read_amount (s : list Z) (space_pos : nat) : result asset :=
  let result := Asset 0 0 in
  match find_char dot s with
  | Some dot_pos =>
      FC_ASSERT (dot_pos <? space_pos)%nat "space_pos > dot_pos";;
      let intpart := take dot_pos s in
      let fractpart := 49 :: take (space_pos - dot_pos - 1) (drop (dot_pos + 1) s) in
      result ← set_decimals (to_uint8 (Z.of_nat (length fractpart) - 1)) result;
      prec ← precision result;
      i ← fc_to_int64 intpart;
      f ← fc_to_int64 fractpart;
      mret (Asset (to_int64 (to_int64 (to_int64 (i * prec) + f) - prec)) (symbol result))
  | None =>
      i ← fc_to_int64 (take space_pos s);
      r ← set_decimals 0 (Asset i 0);
      mret r
  end.
Definition asset_from_string (from : list Z) : result asset :=
  let s := fc_trim from in
  match find_char space s with
  | None => FC_ASSERT false "space_pos != std::string::npos";; Throw out_of_range
  | Some space_pos =>
      r ← read_amount s space_pos;
      let name := drop (space_pos + 1) s in
      FC_ASSERT (length name <=? 6)%nat "symbol_size <= 6";;
      mret (Asset (amount r) (write_name name (symbol r)))
  end.
End text.

(** ** Digits *)
Fixpoint padded (k : nat) (r : Z) : list Z :=
  match k with O => [] | S k' => padded k' (r / 10) ++ [48 + r mod 10] end.
Lemma length_padded k r : length (padded k r) = k.
Proof. revert r. induction k as [|k IH]; intros r; cbn; [done|]. rewrite length_app, IH. cbn. lia. Qed.
(** A power of ten and less than it: a one and then as many digits. *)
Lemma decimal_one fuel k r : (k < fuel)%nat → 0 ≤ r < 10 ^ Z.of_nat k →
  decimal_digits fuel (10 ^ Z.of_nat k + r) = 49 :: padded k r.
Proof.
  revert k r. induction fuel as [|fuel IH]; intros k r Hk Hr; [lia|]. cbn [decimal_digits].
  destruct k as [|k].
  - change (10 ^ Z.of_nat 0) with 1 in *. replace r with 0 by lia. done.
  - rewrite Nat2Z.inj_succ, Z.pow_succ_r in * by lia. assert (0 < 10 ^ Z.of_nat k) by (apply Z.pow_pos_nonneg; lia).
    rewrite (proj2 (Z.ltb_ge _ _)) by lia.
    replace ((10 * 10 ^ Z.of_nat k + r) / 10) with (10 ^ Z.of_nat k + r / 10) by (rewrite (Z.mul_comm 10), Z.div_add_l by lia; done).
    rewrite IH by (split; [apply Z.div_pos; lia|apply Z.div_lt_upper_bound; lia] || lia).
    cbn [padded app]. do 3 f_equal. replace (10 * 10 ^ Z.of_nat k + r) with (r + 10 ^ Z.of_nat k * 10) by lia. by rewrite Z.mod_add.
Qed.
Definition is_digit (c : Z) : Prop := 48 ≤ c ≤ 57.
Lemma padded_digits k r : Forall is_digit (padded k r).
Proof.
  revert r. induction k as [|k IH]; intros r; cbn; [done|]. apply Forall_app. split; [apply IH|].
  constructor; [|done]. unfold is_digit. pose proof (Z.mod_pos_bound r 10). lia.
Qed.
Lemma decimal_is_digits fuel x : 0 ≤ x → Forall is_digit (decimal_digits fuel x).
Proof.
  revert x. induction fuel as [|fuel IH]; intros x Hx; cbn [decimal_digits]; [done|]. destruct (x <? 10) eqn:Ex.
  - constructor; [unfold is_digit; lia|done].
  - apply Forall_app. split; [apply IH, Z.div_pos; lia|]. constructor; [|done].
    unfold is_digit. pose proof (Z.mod_pos_bound x 10). lia.
Qed.
Lemma decimal_nonempty x : decimal x ≠ [].
Proof. unfold decimal. cbn [decimal_digits]. destruct (x <? 10); [done|]. by intros []%app_nil. Qed.

(** ** Symbols *)
Lemma symbol_byte_div s i : 0 ≤ i → symbol_byte s i = s / 2 ^ (8 * i) mod 256.
Proof.
  intros Hi. unfold symbol_byte. change 255 with (Z.ones 8). rewrite Z.land_ones by lia.
  by rewrite Z.shiftr_div_pow2 by lia.
Qed.
Definition byte_ok (b : Z) : Prop := 0 ≤ b < 256.
Lemma symbol_byte_bytes l i : Forall byte_ok l → symbol_byte (bytes_value l) (Z.of_nat i) = default 0 (l !! i).
Proof.
  rewrite symbol_byte_div by lia. intros Hl. revert i. induction Hl as [|b l Hb Hl IH]; intros i; cbn [bytes_value].
  - rewrite Z.div_0_l by (apply Z.pow_nonzero; lia). done.
  - unfold byte_ok in Hb. destruct i as [|i]; cbn [lookup list_lookup].
    + change (2 ^ (8 * Z.of_nat 0)) with 1. rewrite Z.div_1_r. cbn.
      replace (b + 256 * bytes_value l) with (b + bytes_value l * 256) by lia. rewrite Z.mod_add by lia. by apply Z.mod_small.
    + rewrite <- IH. replace (8 * Z.of_nat (S i)) with (8 + 8 * Z.of_nat i) by lia. rewrite Z.pow_add_r by lia.
      rewrite <- Z.div_div by (done || (apply Z.pow_pos_nonneg; lia)). do 2 f_equal. change (2 ^ 8) with 256.
      replace (b + 256 * bytes_value l) with (b + bytes_value l * 256) by lia. rewrite Z.div_add by lia.
      rewrite Z.div_small by lia. done.
Qed.
(** The names that a text can have: up to six characters, no spaces or dots. *)
Definition name_ok (name : list Z) : Prop :=
  name ≠ [] ∧ (length name ≤ 6)%nat ∧ Forall (λ c, 33 ≤ c < 127 ∧ c ≠ dot) name.
Lemma symbol_name_of x d name : byte_ok d → name_ok name → symbol_name (Asset x (bytes_value (d :: name))) = Ok name.
Proof.
  intros Hd (_ & Hlen & Hn). unfold symbol_name. cbn [symbol].
  assert (Forall byte_ok (d :: name)) as Hb.
  { constructor; [done|]. eapply Forall_impl; [exact Hn|]. unfold byte_ok. cbn. lia. }
  assert (∀ i, symbol_byte (bytes_value (d :: name)) (Z.of_nat i) = default 0 ((d :: name) !! i)) as Hs
    by (intros i; by apply symbol_byte_bytes).
  pose proof (Hs 7%nat) as H7. rewrite lookup_ge_None_2 in H7 by (cbn; lia). change (Z.of_nat 7) with 7 in H7. rewrite H7. rsimpl. cbn [default Z.eqb FC_ASSERT].
  rsimpl. f_equal. change [1; 2; 3; 4; 5; 6; 7] with (Z.of_nat <$> seq 1 7). rewrite <- list_fmap_compose.
  rewrite (list_fmap_ext _ (λ i, default 0 ((d :: name) !! i))) by (intros i j _; apply Hs). clear Hs Hb H7.
  do 7 (destruct name as [|? name]; [repeat (apply Forall_cons in Hn as [? Hn]); cbn;
    repeat match goal with |- context [?c =? 0] => rewrite (proj2 (Z.eqb_neq c 0)) by lia end; done|]).
  cbn in Hlen. lia.
Qed.
Lemma decimals_of x d name : (d < 15)%nat → Forall byte_ok name →
  precision (Asset x (bytes_value (Z.of_nat d :: name))) = Ok (10 ^ Z.of_nat d).
Proof.
  intros Hd Hn. unfold precision, decimals. cbn [symbol].
  pose proof (symbol_byte_bytes (Z.of_nat d :: name) 0) as Hs. change (Z.of_nat 0) with 0 in Hs.
  change (default 0 ((Z.of_nat d :: name) !! 0%nat)) with (Z.of_nat d) in Hs.
  rewrite Hs by (constructor; [unfold byte_ok; lia|done]).
  rewrite (proj2 (Z.ltb_lt _ _)) by lia. done.
Qed.
Lemma set_decimals_zero x d : (d < 15)%nat → set_decimals (Z.of_nat d) (Asset x 0) = Ok (Asset x (Z.of_nat d)).
Proof. intros Hd. unfold set_decimals. rewrite (proj2 (Z.ltb_lt _ _)) by lia. done. Qed.
Lemma precision_small x d : (d < 15)%nat → precision (Asset x (Z.of_nat d)) = Ok (10 ^ Z.of_nat d).
Proof.
  intros Hd. rewrite <- (decimals_of x d []) by done. do 2 f_equal. cbn. lia.
Qed.
Lemma write_name_of d name : byte_ok d → write_name name d = bytes_value (d :: name).
Proof.
  intros Hd. unfold write_name. cbn [bytes_value]. unfold byte_ok in Hd.
  assert (Z.land d (Z.shiftl (bytes_value name) 8) = 0) as Hland.
  { apply Z.bits_inj'. intros n Hn. rewrite Z.land_spec, Z.bits_0. destruct (Z.lt_ge_cases n 8).
    - rewrite Z.shiftl_spec_low by done. apply andb_false_r.
    - assert (Z.testbit d n = false) as ->; [|done]. destruct (Z.eq_dec d 0) as [->|]; [apply Z.testbit_0_l|].
      apply Z.bits_above_log2; [lia|]. apply Z.log2_lt_pow2; [lia|]. apply Z.lt_le_trans with (2 ^ 8); [lia|].
      apply Z.pow_le_mono_r; lia. }
  pose proof (Z.add_lor_land d (Z.shiftl (bytes_value name) 8)) as Hadd. rewrite Hland in Hadd.
  rewrite Z.shiftl_mul_pow2 in * by lia. change (2 ^ 8) with 256 in *. lia.
Qed.

(** ** Searching *)
Lemma find_char_app c l rest : c ∉ l → find_char c (l ++ c :: rest) = Some (length l).
Proof.
  induction l as [|x l IH]; cbn; [by rewrite Z.eqb_refl|]. rewrite not_elem_of_cons. intros [Hx Hl].
  rewrite (proj2 (Z.eqb_neq _ _)) by congruence. by rewrite IH.
Qed.
Lemma find_char_none c l : c ∉ l → find_char c l = None.
Proof.
  induction l as [|x l IH]; cbn; [done|]. rewrite not_elem_of_cons. intros [Hx Hl].
  rewrite (proj2 (Z.eqb_neq _ _)) by congruence. by rewrite IH.
Qed.
Lemma digits_without c l : Forall is_digit l → ¬ is_digit c → c ∉ l.
Proof. intros Hl Hc Hin. rewrite Forall_forall in Hl. by apply Hc, Hl. Qed.

Section roundtrip.
Context {X : FcText}.

(** The text of an amount. *)
Definition amount_text (x : Z) (d : nat) : list Z :=
  decimal (x / 10 ^ Z.of_nat d) ++ (if (0 <? d)%nat then dot :: padded d (x mod 10 ^ Z.of_nat d) else []).
Lemma to_string_of x d name :
  0 ≤ x → x + 10 ^ Z.of_nat d ≤ INT64_MAX → (d < 15)%nat → name_ok name →
  asset_to_string (Asset x (bytes_value (Z.of_nat d :: name))) = Ok (amount_text x d ++ space :: name).
Proof.
  intros Hx Hmax Hd Hname. pose proof Hname as (_ & _ & Hn). unfold asset_to_string.
  assert (Forall byte_ok name) as Hb by (eapply Forall_impl; [exact Hn|unfold byte_ok; cbn; lia]).
  rewrite decimals_of by done. rsimpl. rewrite symbol_name_of by (done || unfold byte_ok; lia). rsimpl. cbn [amount].
  f_equal. unfold amount_text.
  assert (0 < 10 ^ Z.of_nat d) as Hp by (apply Z.pow_pos_nonneg; lia).
  pose proof (Z.mod_pos_bound x _ Hp) as Hm. pose proof (Z.mod_le x _ Hx Hp). pose proof (Z.div_pos x _ Hx Hp). pose proof (Z.mul_div_le x _ Hp).
  rewrite Z.quot_div_nonneg, Z.rem_mod_nonneg by lia. rewrite to_string_decimal by nia. rewrite <- !app_assoc.
  destruct d as [|d]; [done|]. cbn [Nat.ltb Nat.leb]. rewrite (proj2 (Z.ltb_lt 1 _)).
  - rewrite to_string_decimal by lia. unfold decimal at 2. rewrite decimal_one by lia. cbn [drop app]. by rewrite <- app_assoc.
  - rewrite Nat2Z.inj_succ, Z.pow_succ_r by lia. assert (0 < 10 ^ Z.of_nat d) by (apply Z.pow_pos_nonneg; lia). lia.
Qed.
Lemma read_amount_of x d rest :
  0 ≤ x → x + 10 ^ Z.of_nat d ≤ INT64_MAX → (d < 15)%nat → dot ∉ rest →
  read_amount (amount_text x d ++ space :: rest) (length (amount_text x d)) = Ok (Asset x (Z.of_nat d)).
Proof.
  intros Hx Hmax Hd Hrest. unfold read_amount, amount_text.
  assert (0 < 10 ^ Z.of_nat d) as Hp by (apply Z.pow_pos_nonneg; lia).
  pose proof (Z.mod_pos_bound x _ Hp) as Hm. pose proof (Z.mod_le x _ Hx Hp). pose proof (Z.div_pos x _ Hx Hp). pose proof (Z.mul_div_le x _ Hp).
  assert (∀ l, Forall is_digit l → dot ∉ l) as Hdot by (intros l Hl; apply digits_without; [done|unfold is_digit, dot; lia]).
  assert (0 ≤ x / 10 ^ Z.of_nat d ≤ INT64_MAX) as Hq by nia.
  destruct (0 <? d)%nat eqn:E0.
  - set (q := decimal (x / _)) in *. set (f := padded d (x mod _)) in *.
    assert (length f = d) as Hf by apply length_padded.
    assert (take d (drop (length q + 1) (q ++ dot :: f ++ space :: rest)) = f) as Efract.
    { change (q ++ dot :: f ++ space :: rest) with (q ++ [dot] ++ f ++ space :: rest). rewrite app_assoc.
      rewrite drop_app_length' by (rewrite length_app; done). by apply take_app_length'. }
    rewrite <- app_assoc. cbn [app]. rewrite find_char_app by (apply Hdot, decimal_is_digits; lia).
    rewrite length_app. cbn [length]. rewrite (proj2 (Nat.ltb_lt _ _)) by lia. cbn [FC_ASSERT]. rsimpl.
    rewrite take_app_length, Hf. replace (length q + S d - length q - 1)%nat with d by lia. rewrite Efract.
    assert (49 :: f = decimal (10 ^ Z.of_nat d + x mod 10 ^ Z.of_nat d)) as -> by (unfold decimal; by rewrite decimal_one by lia).
    rewrite to_int64_decimal by lia. unfold q. rewrite to_int64_decimal by lia.
    replace (to_uint8 (Z.of_nat (S (length f)) - 1)) with (Z.of_nat d) by (unfold to_uint8, U8; rewrite Z.mod_small; change (2 ^ 8) with 256; lia).
    rewrite set_decimals_zero by done. rsimpl. rewrite precision_small by done. rsimpl. do 2 f_equal.
    pose proof (Z.div_mod x (10 ^ Z.of_nat d) ltac:(lia)) as Hdm. assert (INT64_MIN ≤ 0) by done.
    rewrite (Z.mul_comm (x / _)). rewrite (to_int64_id (_ * _)) by lia.
    rewrite (to_int64_id (_ * _ + _)) by lia. rewrite to_int64_id by lia. lia.
  - apply Nat.ltb_ge in E0. assert (d = 0%nat) as -> by lia. rewrite app_nil_r. change (10 ^ Z.of_nat 0) with 1 in *.
    rewrite Z.div_1_r in *. rewrite find_char_none, take_app_length, to_int64_decimal by
      (lia || (rewrite elem_of_app, elem_of_cons; intros [Hin|[Hin|Hin]]; [by eapply Hdot, Hin; apply decimal_is_digits|done|done])).
    rsimpl. pose proof (set_decimals_zero x 0 ltac:(lia)) as Hs. change (Z.of_nat 0) with 0 in Hs. by rewrite Hs.
Qed.
Lemma amount_text_no_space x d : 0 ≤ x → space ∉ amount_text x d.
Proof.
  intros Hx. assert (∀ l, Forall is_digit l → space ∉ l) as Hsp by (intros l Hl; apply digits_without; [done|unfold is_digit, space; lia]).
  unfold amount_text. rewrite elem_of_app. intros [Hin|Hin].
  - apply (Hsp _ (decimal_is_digits 20 _ (Z.div_pos x (10 ^ Z.of_nat d) Hx ltac:(apply Z.pow_pos_nonneg; lia))) Hin).
  - destruct (0 <? d)%nat; [|by apply elem_of_nil in Hin]. apply elem_of_cons in Hin as [Hin|Hin]; [done|].
    exact (Hsp _ (padded_digits _ _) Hin).
Qed.
Lemma trim_text x d name : 0 ≤ x → name_ok name → fc_trim (amount_text x d ++ space :: name) = amount_text x d ++ space :: name.
Proof.
  intros Hx (Hne & _ & Hn). unfold amount_text.
  pose proof (decimal_is_digits 20 _ (Z.div_pos x (10 ^ Z.of_nat d) Hx ltac:(apply Z.pow_pos_nonneg; lia))) as Hq.
  fold (decimal (x / 10 ^ Z.of_nat d)) in Hq. pose proof (decimal_nonempty (x / 10 ^ Z.of_nat d)) as Hq0.
  destruct (decimal (x / 10 ^ Z.of_nat d)) as [|c q]; [done|]. apply Forall_cons in Hq as [Hc _].
  destruct (exists_last Hne) as (name' & e & ->). apply Forall_app in Hn as [_ He]. apply Forall_cons in He as [He _].
  cbn [app]. rewrite <- !app_assoc. cbn [app].
  match goal with |- fc_trim (c :: q ++ ?a ++ space :: name' ++ [e]) = _ =>
    replace (q ++ a ++ space :: name' ++ [e]) with ((q ++ a ++ space :: name') ++ [e]) by (by rewrite <- !app_assoc) end.
  apply trim_none; unfold is_space, is_digit in *; lia.
Qed.
End roundtrip.

Section theorems.
Context {X : FcText}.

(** C33: what [to_string] prints for an amount that is not negative is read back
    by [from_string] as the same asset, for each number of decimals and each name
    of up to six printable characters. *)
Theorem asset_text_roundtrip x d name :
  0 ≤ x → x + 10 ^ Z.of_nat d ≤ INT64_MAX → (d < 15)%nat → name_ok name →
  let a := Asset x (bytes_value (Z.of_nat d :: name)) in
  ∃ text, asset_to_string a = Ok text ∧ asset_from_string text = Ok a.
Proof.
  intros Hx Hmax Hd Hname. cbn zeta. exists (amount_text x d ++ space :: name). split; [by apply to_string_of|].
  unfold asset_from_string. rewrite trim_text by done. pose proof Hname as (Hne & Hlen & Hn).
  rewrite find_char_app by by apply amount_text_no_space.
  assert (dot ∉ name) as Hdot by (intros Hin; rewrite Forall_forall in Hn; by destruct (Hn _ Hin)).
  rewrite read_amount_of by done. rsimpl.
  assert (drop (length (amount_text x d) + 1) (amount_text x d ++ space :: name) = name) as ->.
  { change (space :: name) with ([space] ++ name). rewrite app_assoc. apply drop_app_length'. by rewrite length_app. }
  rewrite (proj2 (Nat.leb_le _ _)) by done. cbn [FC_ASSERT amount symbol]. rsimpl.
  by rewrite write_name_of by (unfold byte_ok; lia).
Qed.
End theorems.

(** ** An instance, and the theorem at one of its inputs *)
Fixpoint number (l : list Z) (acc : Z) : result Z :=
  match l with
  | [] => Ok acc
  | c :: l' => if (48 <=? c) && (c <=? 57) then number l' (10 * acc + (c - 48)) else Throw (logic_error "bad cast")
  end.
Definition parse (l : list Z) : result Z :=
  match l with
  | c :: l' => if c =? 45 then x ← number l' 0; mret (- x) else number l 0
  | [] => Throw (logic_error "bad cast")
  end.
Definition print (x : Z) : list Z := if x <? 0 then 45 :: decimal (- x) else decimal x.
Fixpoint skip_spaces (l : list Z) : list Z :=
  match l with [] => [] | c :: l' => if is_space c then skip_spaces l' else l end.
Definition trim (l : list Z) : list Z := reverse (skip_spaces (reverse (skip_spaces l))).

Lemma number_app l l' acc : number (l ++ l') acc = x ← number l acc; number l' x.
Proof. revert acc. induction l as [|c l IH]; intros acc; cbn [number app]; [done|]. case_match; [apply IH|done]. Qed.
Lemma number_decimal fuel x : 0 ≤ x < 10 ^ Z.of_nat fuel → number (decimal_digits fuel x) 0 = Ok x.
Proof.
  revert x. induction fuel as [|fuel IH]; intros x Hx.
  { change (10 ^ Z.of_nat 0) with 1 in Hx. cbn. f_equal. lia. }
  rewrite Nat2Z.inj_succ, Z.pow_succ_r in Hx by lia. cbn [decimal_digits]. destruct (x <? 10) eqn:Ex.
  - cbn [number]. rewrite (proj2 (andb_true_iff _ _)) by lia. f_equal. lia.
  - rewrite number_app, IH by (split; [apply Z.div_pos; lia|apply Z.div_lt_upper_bound; lia]). rsimpl. cbn [number].
    pose proof (Z.mod_pos_bound x 10 ltac:(lia)). rewrite (proj2 (andb_true_iff _ _)) by lia. f_equal.
    pose proof (Z.div_mod x 10 ltac:(lia)). lia.
Qed.
#[refine] Definition text_model : FcText := {| fc_to_string := print; fc_to_int64 := parse; fc_trim := trim |}.
Proof.
  - intros x Hx. unfold print. by rewrite (proj2 (Z.ltb_ge _ _)) by lia.
  - intros x Hx. pose proof (decimal_is_digits 20 x ltac:(lia)) as Hd. fold (decimal x) in Hd.
    assert (number (decimal x) 0 = Ok x) as Hn.
    { apply number_decimal. split; [lia|]. apply Z.le_lt_trans with INT64_MAX; [lia|done]. }
    pose proof (decimal_nonempty x). destruct (decimal x) as [|c l]; [done|]. apply Forall_cons in Hd as [Hc _].
    unfold parse. unfold is_digit in Hc. by rewrite (proj2 (Z.eqb_neq _ _)) by lia.
  - intros c s d Hc Hd. unfold trim. cbn [skip_spaces]. rewrite Hc. rewrite reverse_cons, reverse_snoc. cbn [app skip_spaces].
    rewrite Hd. change (d :: reverse s ++ [c]) with ([d] ++ reverse s ++ [c]). by rewrite !reverse_app, reverse_involutive.
Defined.
#[local] Existing Instance text_model.

Definition steem_name : list Z := [83; 84; 69; 69; 77].
Lemma asset_text_roundtrip_witness :
  ∃ text, asset_to_string (Asset 7005 (bytes_value (3 :: steem_name))) = Ok text ∧
    text = [55; 46; 48; 48; 53; 32; 83; 84; 69; 69; 77] ∧
    asset_from_string text = Ok (Asset 7005 (bytes_value (3 :: steem_name))).
Proof.
  destruct (asset_text_roundtrip 7005 3 steem_name) as (text & H1 & H2); [lia|done|lia| |].
  - split_and!; [done|cbn; lia|]. repeat constructor; done.
  - exists text. split; [exact H1|split; [|exact H2]].
    vm_compute in H1. injection H1 as <-. reflexivity.
Defined.

(** A negative amount is printed without its sign and one digit short, and read
    back as another amount of another symbol: five thousandths below zero are
    printed as [0.95]. *)
Example negative_text_differs :
  let a := Asset (-5) (bytes_value (3 :: steem_name)) in
  ∃ text, asset_to_string a = Ok text ∧ text = [48; 46; 57; 53; 32] ++ steem_name ∧
    asset_from_string text = Ok (Asset 95 (bytes_value (2 :: steem_name))).
Proof.
  cbn zeta. exists ([48; 46; 57; 53; 32] ++ steem_name). split; [vm_compute; reflexivity|].
  split; [reflexivity|]. vm_compute. reflexivity.
Qed.
