(* ===== verification/Names.v ===== *)
(** * Account names

    [is_valid_account_name] of protocol/authority.cpp, with its loop over the
    positions of the name, and the grammar that protocol/authority.hpp
    documents: a name of 3 to 16 characters is a dot-separated sequence of
    labels, each of at least three lower-case letters, digits or hyphens, that
    begins with a letter and ends with a letter or a digit. *)
From S2P Require Import Prelude.
From Stdlib Require Import Ascii.

Definition STEEMIT_MIN_ACCOUNT_NAME_LENGTH : nat := 3.
Definition STEEMIT_MAX_ACCOUNT_NAME_LENGTH : nat := 16.

Definition code (c : ascii) : Z := Z.of_N (N_of_ascii c).
Definition is_letter (c : ascii) : bool := (97 <=? code c) && (code c <=? 122).
Definition is_digit (c : ascii) : bool := (48 <=? code c) && (code c <=? 57).
Definition is_dot (c : ascii) : bool := code c =? 46.
Definition is_hyphen (c : ascii) : bool := code c =? 45.

(** The characters accepted by the three [switch] statements. *)
Definition first_ok (c : ascii) : bool := is_letter c.
Definition last_ok (c : ascii) : bool := is_letter c || is_digit c.
Definition middle_ok (c : ascii) : bool := is_letter c || is_digit c || is_hyphen c.

(** ** The implementation *)

(** [name.find_first_of( '.', pos )], the length of the name when there is none. *)
Fixpoint find_dot (l : list ascii) : nat :=
  match l with
  | [] => 0
  | c :: l' => if is_dot c then 0%nat else S (find_dot l')
  end.
Definition find_first_dot (name : list ascii) (pos : nat) : nat := pos + find_dot (drop pos name).

(** [for( i = from; i < to; i++ ) if( !middle_ok( name[i] ) ) return false] *)
Fixpoint middle_loop (n : nat) (name : list ascii) (i : nat) : bool :=
  match n with
  | O => true
  | S n' => match name !! i with
            | Some c => middle_ok c && middle_loop n' name (S i)
            | None => false
            end
  end.

Definition char_ok (f : ascii → bool) (name : list ascii) (i : nat) : bool :=
  match name !! i with Some c => f c | None => false end.

(** The [while( true )] loop: [begin] grows in every round. *)
Fixpoint label_loop (fuel : nat) (name : list ascii) (begin : nat) : bool :=
  match fuel with
  | O => false
  | S fuel' =>
      let len := length name in
      let end_ := find_first_dot name begin in
      if (end_ - begin <? 3)%nat then false
      else if negb (char_ok first_ok name begin) then false
      else if negb (char_ok last_ok name (end_ - 1)) then false
      else if negb (middle_loop (end_ - 1 - (begin + 1)) name (begin + 1)) then false
      else if (end_ =? len)%nat then true
      else label_loop fuel' name (S end_)
  end.

Definition is_valid_account_name (s : string) : bool :=
  let name := String.list_ascii_of_string s in
  let len := length name in
  if (len <? STEEMIT_MIN_ACCOUNT_NAME_LENGTH)%nat then false
  else if (STEEMIT_MAX_ACCOUNT_NAME_LENGTH <? len)%nat then false
  else label_loop (S len) name 0.

Definition validate_account_name (s : string) : result unit :=
  FC_ASSERT (is_valid_account_name s) "Account name ${n} is invalid".

(** ** The documented grammar *)
Definition label (l : list ascii) : Prop :=
  (3 ≤ length l)%nat ∧ (∀ c, head l = Some c → first_ok c = true) ∧
  (∀ c, last l = Some c → last_ok c = true) ∧ Forall (λ c, middle_ok c = true) l.

Inductive labels : list ascii → Prop :=
| labels_one l : label l → labels l
| labels_dot l d ls : label l → is_dot d = true → labels ls → labels (l ++ d :: ls).

Definition valid_name (s : string) : Prop :=
  let name := String.list_ascii_of_string s in
  (STEEMIT_MIN_ACCOUNT_NAME_LENGTH ≤ length name ≤ STEEMIT_MAX_ACCOUNT_NAME_LENGTH)%nat ∧
  labels name.

(** ** The implementation accepts the grammar *)

Lemma find_dot_spec l :
  (Forall (λ c, is_dot c = false) l ∧ find_dot l = length l) ∨
  (∃ l1 d l2, l = l1 ++ d :: l2 ∧ is_dot d = true ∧ Forall (λ c, is_dot c = false) l1 ∧
    find_dot l = length l1).
Proof.
  induction l as [|c l IH]; simpl; [left; done|].
  destruct (is_dot c) eqn:E.
  - right. exists [], c, l. done.
  - destruct IH as [[H1 ->]|(l1 & d & l2 & -> & Hd & H1 & ->)].
    + left. split; [by constructor|done].
    + right. exists (c :: l1), d, l2. split_and!; try done. by constructor.
Qed.

Lemma not_dot_prefix l1 d l2 l1' d' l2' :
  Forall (λ c, is_dot c = false) l1 → Forall (λ c, is_dot c = false) l1' →
  is_dot d = true → is_dot d' = true →
  l1 ++ d :: l2 = l1' ++ d' :: l2' → l1 = l1' ∧ l2 = l2'.
Proof.
  revert l1'. induction l1 as [|c l1 IH]; intros [|c' l1'] H1 H2 Hd Hd' E; simplify_eq/=.
  - done.
  - inversion H2. congruence.
  - inversion H1. congruence.
  - inversion H1; inversion H2; subst. destruct (IH l1') as [-> ->]; done.
Qed.

Lemma middle_not_dot c : middle_ok c = true → is_dot c = false.
Proof.
  unfold middle_ok, is_letter, is_digit, is_hyphen, is_dot. intros H.
  apply Z.eqb_neq. intros Hc. rewrite Hc in H. discriminate.
Qed.

Lemma first_middle c : first_ok c = true → middle_ok c = true.
Proof. unfold first_ok, middle_ok. by intros ->. Qed.
Lemma last_middle c : last_ok c = true → middle_ok c = true.
Proof. unfold last_ok, middle_ok. by intros ->. Qed.

Lemma label_no_dot l : label l → Forall (λ c, is_dot c = false) l.
Proof. intros (_ & _ & _ & H). eapply Forall_impl; [done|]. apply middle_not_dot. Qed.

Lemma middle_loop_spec n name i :
  (i + n ≤ length name)%nat →
  middle_loop n name i = true ↔ Forall (λ c, middle_ok c = true) (take n (drop i name)).
Proof.
  revert i. induction n as [|n IH]; intros i Hi; simpl; [by rewrite take_0|].
  destruct (lookup_lt_is_Some_2 name i) as [c Hc]; [lia|]. rewrite Hc.
  rewrite (drop_S _ c) by done. simpl. rewrite andb_true_iff, IH, Forall_cons by lia. done.
Qed.

(** The checks on one label, found between [begin] and the next dot. *)
Lemma label_checks pre l post :
  (3 ≤ length l)%nat →
  char_ok first_ok (pre ++ l ++ post) (length pre) &&
  char_ok last_ok (pre ++ l ++ post) (length pre + length l - 1) &&
  middle_loop (length l - 2) (pre ++ l ++ post) (length pre + 1) = true ↔ label l.
Proof.
  intros Hl. destruct l as [|a l]; [simpl in Hl; lia|].
  destruct l as [|z m _] using rev_ind; [simpl in Hl; lia|].
  replace (pre ++ (a :: m ++ [z]) ++ post) with (pre ++ a :: m ++ z :: post)
    by (simpl; by rewrite <- (assoc app)).
  assert ((pre ++ a :: m ++ z :: post) !! length pre = Some a) as Ha
    by (by apply list_lookup_middle).
  assert ((pre ++ a :: m ++ z :: post) !! (length pre + length (a :: m ++ [z]) - 1)%nat = Some z)
    as Hz.
  { replace (pre ++ a :: m ++ z :: post) with ((pre ++ a :: m) ++ z :: post)
      by (by rewrite <- (assoc app)).
    apply list_lookup_middle. rewrite !length_app. simpl. rewrite length_app. simpl. lia. }
  unfold char_ok. rewrite Ha, Hz.
  replace (length (a :: m ++ [z]) - 2)%nat with (length m)
    by (simpl; rewrite length_app; simpl; lia).
  rewrite !andb_true_iff.
  rewrite middle_loop_spec by (rewrite length_app; simpl; rewrite length_app; simpl; lia).
  replace (pre ++ a :: m ++ z :: post) with ((pre ++ [a]) ++ m ++ z :: post)
    by (by rewrite <- !(assoc app)).
  replace (length pre + 1)%nat with (length (pre ++ [a])) by (rewrite length_app; simpl; lia).
  rewrite drop_app_length, take_app_length. unfold label.
  assert (last (a :: m ++ [z]) = Some z) as -> by (by rewrite app_comm_cons, last_snoc).
  rewrite Forall_cons, Forall_app, Forall_singleton. cbn [head]. split.
  - intros [[H1 H2] H3]. split_and!; try done; try (intros; simplify_eq; done).
    + by apply first_middle.
    + by apply last_middle.
  - intros (_ & H1 & H2 & _ & H3 & _). auto.
Qed.

Lemma label_loop_spec fuel pre rest :
  (length rest < fuel)%nat →
  label_loop fuel (pre ++ rest) (length pre) = true ↔ labels rest.
Proof.
  revert pre rest. induction fuel as [|fuel IH]; intros pre rest Hf; [lia|].
  cbn [label_loop]. unfold find_first_dot. rewrite drop_app_length.
  destruct (find_dot_spec rest) as [[Hnd Hfd]|(l & d & ls & Hr & Hd & Hnd & Hfd)]; rewrite Hfd.
  - replace (length pre + length rest - length pre)%nat with (length rest) by lia.
    replace (length pre + length rest =? length (pre ++ rest))%nat with true
      by (symmetry; apply Nat.eqb_eq; rewrite length_app; lia).
    replace (length pre + length rest - 1 - (length pre + 1))%nat with (length rest - 2)%nat by lia.
    destruct (Nat.ltb_spec (length rest) 3) as [Hlt|Hge].
    + split; [done|]. intros HL. exfalso. inversion HL as [? (H3 & _)|l d ls (H3 & _) Hd _ E]; subst.
      * lia.
      * rewrite !length_app in Hlt. lia.
    + pose proof (label_checks pre rest [] Hge) as HC. rewrite app_nil_r in HC.
      assert (labels rest ↔ label rest) as ->.
      { split; [|by constructor]. intros HL. inversion HL as [|l d ls ? Hd ? E]; subst; [done|].
        apply Forall_app in Hnd as [_ Hnd]. inversion Hnd. congruence. }
      rewrite <- HC. destruct (char_ok _ _ _), (char_ok _ _ _), (middle_loop _ _ _); done.
  - replace (length pre + length l - length pre)%nat with (length l) by lia.
    replace (length pre + length l =? length (pre ++ rest))%nat with false
      by (symmetry; apply Nat.eqb_neq; subst; rewrite !length_app; simpl; lia).
    replace (length pre + length l - 1 - (length pre + 1))%nat with (length l - 2)%nat by lia.
    assert (labels rest ↔ label l ∧ labels ls) as ->.
    { subst rest. split; [|intros [? ?]; by constructor].
      intros HL. inversion HL as [? HL'|l' d' ls' ? Hd' ? E]; subst.
      - apply label_no_dot, Forall_app in HL' as [_ HL']. inversion HL'. congruence.
      - apply not_dot_prefix in E as [-> ->]; [done|by apply label_no_dot|done..]. }
    destruct (Nat.ltb_spec (length l) 3) as [Hlt|Hge].
    + split; [done|]. intros [(H3 & _) _]. lia.
    + pose proof (label_checks pre l (d :: ls) Hge) as HC. subst rest.
      replace (S (length pre + length l)) with (length (pre ++ l ++ [d]))
        by (rewrite !length_app; simpl; lia).
      assert (label_loop fuel (pre ++ l ++ d :: ls) (length (pre ++ l ++ [d])) = true ↔ labels ls)
        as HR.
      { replace (pre ++ l ++ d :: ls) with ((pre ++ l ++ [d]) ++ ls)
          by (by rewrite <- !(assoc app)).
        apply IH. rewrite length_app in Hf. simpl in Hf. lia. }
      rewrite <- HC, <- HR.
      destruct (char_ok _ _ _), (char_ok _ _ _), (middle_loop _ _ _); simpl; naive_solver.
Qed.

(** [is_valid_account_name] accepts exactly the names of the documented
    grammar. *)
Theorem is_valid_account_name_spec s : is_valid_account_name s = true ↔ valid_name s.
Proof.
  unfold is_valid_account_name, valid_name. set (name := String.list_ascii_of_string s).
  destruct (Nat.ltb_spec (length name) STEEMIT_MIN_ACCOUNT_NAME_LENGTH); [split; [done|lia]|].
  destruct (Nat.ltb_spec STEEMIT_MAX_ACCOUNT_NAME_LENGTH (length name)); [split; [done|lia]|].
  pose proof (label_loop_spec (S (length name)) [] name ltac:(lia)) as HL. simpl app in HL.
  change (length []) with 0%nat in HL. rewrite HL. naive_solver lia.
Qed.

(** A valid name is not empty. *)
Lemma valid_name_nonempty s : is_valid_account_name s = true → s ≠ EmptyString.
Proof. by intros H ->. Qed.
