(* ===== verification/Objects.v ===== *)
(** * The objects of the chain database

    One record per object type of [libraries/chain/include/steemit/chain/]
    ([account_object.hpp], [steem_objects.hpp], [witness_objects.hpp],
    [global_property_object.hpp]), with the members and initialisers of the
    source and the unique secondary keys of its multi-index.  Member names carry
    a prefix per type ([acc_balance] is [account_object::balance]); [set_..]
    assigns one member.  [database] is the chain state: a table
    ([Abs.snap], the specification of a chainbase index) per object type and the
    singleton objects.

    Ids, times, hashes of proof-of-work and machine integers are [Z]; names,
    keys, permlinks and other byte strings are [string]. *)
From S2P Require Import Prelude Fc Config Asset Chainbase ChainbaseSpec.

(** [authority] / [shared_authority]: weights by account and by key. *)
Record authority := Authority {
  weight_threshold : Z;
  account_auths : list (string * Z);
  key_auths : list (string * Z);
}.
#[export] Instance authority_eq_dec : EqDecision authority.
Proof. solve_decision. Defined.
Definition authority_default : authority := Authority 0 [] [].

(** [chain_properties] of [steem_operations.hpp]. *)
Record chain_properties := ChainProperties {
  account_creation_fee : asset;
  maximum_block_size : Z;
  sbd_interest_rate : Z;
}.
Definition chain_properties_default : chain_properties :=
  ChainProperties (Asset STEEMIT_MIN_ACCOUNT_CREATION_FEE STEEM_SYMBOL)
    (STEEMIT_MIN_BLOCK_SIZE_LIMIT * 2) (10 * STEEMIT_1_PERCENT).

Inductive witness_schedule_type := top19 | timeshare | miner | none.
Inductive curve_id := quadratic | quadratic_curation | linear | square_root.

Ltac solve_index_laws :=
  split; [done|]; intros x y; cbn;
  repeat match goal with
  | |- context [?a =? ?b] => destruct (Z.eqb_spec a b)
  | |- context [bool_decide ?P] => destruct (bool_decide_reflect P)
  end; first [done | congruence].

(** [account_object] of [account_object.hpp]; the secondary unique index is [by_name]. *)
Record account_object := Mk_account_object {
  acc_id : Z; acc_name : string; acc_memo_key : string; acc_json_metadata : string;
  acc_proxy : string; acc_last_account_update : Z; acc_created : Z; acc_mined : bool;
  acc_owner_challenged : bool; acc_active_challenged : bool; acc_last_owner_proved : Z;
  acc_last_active_proved : Z; acc_recovery_account : string; acc_reset_account : string;
  acc_last_account_recovery : Z; acc_comment_count : Z; acc_lifetime_vote_count : Z;
  acc_post_count : Z; acc_can_vote : bool; acc_voting_power : Z; acc_last_vote_time : Z;
  acc_balance : asset; acc_savings_balance : asset; acc_sbd_balance : asset;
  acc_sbd_seconds : Z; acc_sbd_seconds_last_update : Z; acc_sbd_last_interest_payment : Z;
  acc_savings_sbd_balance : asset; acc_savings_sbd_seconds : Z;
  acc_savings_sbd_seconds_last_update : Z; acc_savings_sbd_last_interest_payment : Z;
  acc_savings_withdraw_requests : Z; acc_reward_sbd_balance : asset;
  acc_reward_steem_balance : asset; acc_reward_vesting_balance : asset;
  acc_reward_vesting_steem : asset; acc_curation_rewards : Z; acc_posting_rewards : Z;
  acc_vesting_shares : asset; acc_delegated_vesting_shares : asset;
  acc_received_vesting_shares : asset; acc_vesting_withdraw_rate : asset;
  acc_next_vesting_withdrawal : Z; acc_withdrawn : Z; acc_to_withdraw : Z;
  acc_withdraw_routes : Z; acc_proxied_vsf_votes : list Z; acc_witnesses_voted_for : Z;
  acc_last_post : Z; acc_last_root_post : Z; acc_post_bandwidth : Z
}.
Definition account_object_default : account_object := {|
  acc_id := 0; acc_name := EmptyString; acc_memo_key := EmptyString;
  acc_json_metadata := EmptyString; acc_proxy := EmptyString; acc_last_account_update := 0;
  acc_created := 0; acc_mined := true; acc_owner_challenged := false;
  acc_active_challenged := false; acc_last_owner_proved := time_min;
  acc_last_active_proved := time_min; acc_recovery_account := EmptyString;
  acc_reset_account := STEEMIT_NULL_ACCOUNT; acc_last_account_recovery := 0;
  acc_comment_count := 0; acc_lifetime_vote_count := 0; acc_post_count := 0;
  acc_can_vote := true; acc_voting_power := STEEMIT_100_PERCENT; acc_last_vote_time := 0;
  acc_balance := Asset 0 STEEM_SYMBOL; acc_savings_balance := Asset 0 STEEM_SYMBOL;
  acc_sbd_balance := Asset 0 SBD_SYMBOL; acc_sbd_seconds := 0;
  acc_sbd_seconds_last_update := 0; acc_sbd_last_interest_payment := 0;
  acc_savings_sbd_balance := Asset 0 SBD_SYMBOL; acc_savings_sbd_seconds := 0;
  acc_savings_sbd_seconds_last_update := 0; acc_savings_sbd_last_interest_payment := 0;
  acc_savings_withdraw_requests := 0; acc_reward_sbd_balance := Asset 0 SBD_SYMBOL;
  acc_reward_steem_balance := Asset 0 STEEM_SYMBOL;
  acc_reward_vesting_balance := Asset 0 VESTS_SYMBOL;
  acc_reward_vesting_steem := Asset 0 STEEM_SYMBOL; acc_curation_rewards := 0;
  acc_posting_rewards := 0; acc_vesting_shares := Asset 0 VESTS_SYMBOL;
  acc_delegated_vesting_shares := Asset 0 VESTS_SYMBOL;
  acc_received_vesting_shares := Asset 0 VESTS_SYMBOL;
  acc_vesting_withdraw_rate := Asset 0 VESTS_SYMBOL; acc_next_vesting_withdrawal := time_max;
  acc_withdrawn := 0; acc_to_withdraw := 0; acc_withdraw_routes := 0;
  acc_proxied_vsf_votes := [0; 0; 0; 0]; acc_witnesses_voted_for := 0; acc_last_post := 0;
  acc_last_root_post := time_min; acc_post_bandwidth := 0
|}.
Definition account_object_eta (r : account_object) : account_object :=
    Mk_account_object (acc_id r) (acc_name r) (acc_memo_key r) (acc_json_metadata r)
  (acc_proxy r) (acc_last_account_update r) (acc_created r) (acc_mined r)
  (acc_owner_challenged r) (acc_active_challenged r) (acc_last_owner_proved r)
  (acc_last_active_proved r) (acc_recovery_account r) (acc_reset_account r)
  (acc_last_account_recovery r) (acc_comment_count r) (acc_lifetime_vote_count r)
  (acc_post_count r) (acc_can_vote r) (acc_voting_power r) (acc_last_vote_time r)
  (acc_balance r) (acc_savings_balance r) (acc_sbd_balance r) (acc_sbd_seconds r)
  (acc_sbd_seconds_last_update r) (acc_sbd_last_interest_payment r) (acc_savings_sbd_balance r)
  (acc_savings_sbd_seconds r) (acc_savings_sbd_seconds_last_update r)
  (acc_savings_sbd_last_interest_payment r) (acc_savings_withdraw_requests r)
  (acc_reward_sbd_balance r) (acc_reward_steem_balance r) (acc_reward_vesting_balance r)
  (acc_reward_vesting_steem r) (acc_curation_rewards r) (acc_posting_rewards r)
  (acc_vesting_shares r) (acc_delegated_vesting_shares r) (acc_received_vesting_shares r)
  (acc_vesting_withdraw_rate r) (acc_next_vesting_withdrawal r) (acc_withdrawn r)
  (acc_to_withdraw r) (acc_withdraw_routes r) (acc_proxied_vsf_votes r)
  (acc_witnesses_voted_for r) (acc_last_post r) (acc_last_root_post r) (acc_post_bandwidth r).
Definition set_acc_id : Z → account_object → account_object := ltac:(setter account_object_eta acc_id).
Definition set_acc_name : string → account_object → account_object := ltac:(setter account_object_eta acc_name).
Definition set_acc_memo_key : string → account_object → account_object := ltac:(setter account_object_eta acc_memo_key).
Definition set_acc_json_metadata : string → account_object → account_object := ltac:(setter account_object_eta acc_json_metadata).
Definition set_acc_proxy : string → account_object → account_object := ltac:(setter account_object_eta acc_proxy).
Definition set_acc_last_account_update : Z → account_object → account_object := ltac:(setter account_object_eta acc_last_account_update).
Definition set_acc_created : Z → account_object → account_object := ltac:(setter account_object_eta acc_created).
Definition set_acc_mined : bool → account_object → account_object := ltac:(setter account_object_eta acc_mined).
Definition set_acc_owner_challenged : bool → account_object → account_object := ltac:(setter account_object_eta acc_owner_challenged).
Definition set_acc_active_challenged : bool → account_object → account_object := ltac:(setter account_object_eta acc_active_challenged).
Definition set_acc_last_owner_proved : Z → account_object → account_object := ltac:(setter account_object_eta acc_last_owner_proved).
Definition set_acc_last_active_proved : Z → account_object → account_object := ltac:(setter account_object_eta acc_last_active_proved).
Definition set_acc_recovery_account : string → account_object → account_object := ltac:(setter account_object_eta acc_recovery_account).
Definition set_acc_reset_account : string → account_object → account_object := ltac:(setter account_object_eta acc_reset_account).
Definition set_acc_last_account_recovery : Z → account_object → account_object := ltac:(setter account_object_eta acc_last_account_recovery).
Definition set_acc_comment_count : Z → account_object → account_object := ltac:(setter account_object_eta acc_comment_count).
Definition set_acc_lifetime_vote_count : Z → account_object → account_object := ltac:(setter account_object_eta acc_lifetime_vote_count).
Definition set_acc_post_count : Z → account_object → account_object := ltac:(setter account_object_eta acc_post_count).
Definition set_acc_can_vote : bool → account_object → account_object := ltac:(setter account_object_eta acc_can_vote).
Definition set_acc_voting_power : Z → account_object → account_object := ltac:(setter account_object_eta acc_voting_power).
Definition set_acc_last_vote_time : Z → account_object → account_object := ltac:(setter account_object_eta acc_last_vote_time).
Definition set_acc_balance : asset → account_object → account_object := ltac:(setter account_object_eta acc_balance).
Definition set_acc_savings_balance : asset → account_object → account_object := ltac:(setter account_object_eta acc_savings_balance).
Definition set_acc_sbd_balance : asset → account_object → account_object := ltac:(setter account_object_eta acc_sbd_balance).
Definition set_acc_sbd_seconds : Z → account_object → account_object := ltac:(setter account_object_eta acc_sbd_seconds).
Definition set_acc_sbd_seconds_last_update : Z → account_object → account_object := ltac:(setter account_object_eta acc_sbd_seconds_last_update).
Definition set_acc_sbd_last_interest_payment : Z → account_object → account_object := ltac:(setter account_object_eta acc_sbd_last_interest_payment).
Definition set_acc_savings_sbd_balance : asset → account_object → account_object := ltac:(setter account_object_eta acc_savings_sbd_balance).
Definition set_acc_savings_sbd_seconds : Z → account_object → account_object := ltac:(setter account_object_eta acc_savings_sbd_seconds).
Definition set_acc_savings_sbd_seconds_last_update : Z → account_object → account_object := ltac:(setter account_object_eta acc_savings_sbd_seconds_last_update).
Definition set_acc_savings_sbd_last_interest_payment : Z → account_object → account_object := ltac:(setter account_object_eta acc_savings_sbd_last_interest_payment).
Definition set_acc_savings_withdraw_requests : Z → account_object → account_object := ltac:(setter account_object_eta acc_savings_withdraw_requests).
Definition set_acc_reward_sbd_balance : asset → account_object → account_object := ltac:(setter account_object_eta acc_reward_sbd_balance).
Definition set_acc_reward_steem_balance : asset → account_object → account_object := ltac:(setter account_object_eta acc_reward_steem_balance).
Definition set_acc_reward_vesting_balance : asset → account_object → account_object := ltac:(setter account_object_eta acc_reward_vesting_balance).
Definition set_acc_reward_vesting_steem : asset → account_object → account_object := ltac:(setter account_object_eta acc_reward_vesting_steem).
Definition set_acc_curation_rewards : Z → account_object → account_object := ltac:(setter account_object_eta acc_curation_rewards).
Definition set_acc_posting_rewards : Z → account_object → account_object := ltac:(setter account_object_eta acc_posting_rewards).
Definition set_acc_vesting_shares : asset → account_object → account_object := ltac:(setter account_object_eta acc_vesting_shares).
Definition set_acc_delegated_vesting_shares : asset → account_object → account_object := ltac:(setter account_object_eta acc_delegated_vesting_shares).
Definition set_acc_received_vesting_shares : asset → account_object → account_object := ltac:(setter account_object_eta acc_received_vesting_shares).
Definition set_acc_vesting_withdraw_rate : asset → account_object → account_object := ltac:(setter account_object_eta acc_vesting_withdraw_rate).
Definition set_acc_next_vesting_withdrawal : Z → account_object → account_object := ltac:(setter account_object_eta acc_next_vesting_withdrawal).
Definition set_acc_withdrawn : Z → account_object → account_object := ltac:(setter account_object_eta acc_withdrawn).
Definition set_acc_to_withdraw : Z → account_object → account_object := ltac:(setter account_object_eta acc_to_withdraw).
Definition set_acc_withdraw_routes : Z → account_object → account_object := ltac:(setter account_object_eta acc_withdraw_routes).
Definition set_acc_proxied_vsf_votes : (list Z) → account_object → account_object := ltac:(setter account_object_eta acc_proxied_vsf_votes).
Definition set_acc_witnesses_voted_for : Z → account_object → account_object := ltac:(setter account_object_eta acc_witnesses_voted_for).
Definition set_acc_last_post : Z → account_object → account_object := ltac:(setter account_object_eta acc_last_post).
Definition set_acc_last_root_post : Z → account_object → account_object := ltac:(setter account_object_eta acc_last_root_post).
Definition set_acc_post_bandwidth : Z → account_object → account_object := ltac:(setter account_object_eta acc_post_bandwidth).

#[export] Instance acc_index : MultiIndex account_object :=
  {| obj_id := acc_id; set_obj_id := set_acc_id;
     obj_clash := λ x y, bool_decide (acc_name x = acc_name y) |}.
#[export] Instance acc_laws : MultiIndexLaws account_object.
Proof. solve_index_laws. Qed.

(** [account_authority_object]. *)
Record account_authority_object := Mk_account_authority_object {
  aa_id : Z; aa_account : string; aa_owner : authority; aa_active : authority;
  aa_posting : authority; aa_last_owner_update : Z
}.
Definition account_authority_object_default : account_authority_object := {|
  aa_id := 0; aa_account := EmptyString; aa_owner := authority_default;
  aa_active := authority_default; aa_posting := authority_default; aa_last_owner_update := 0
|}.
Definition account_authority_object_eta (r : account_authority_object) : account_authority_object :=
    Mk_account_authority_object (aa_id r) (aa_account r) (aa_owner r) (aa_active r)
  (aa_posting r) (aa_last_owner_update r).
Definition set_aa_id : Z → account_authority_object → account_authority_object := ltac:(setter account_authority_object_eta aa_id).
Definition set_aa_account : string → account_authority_object → account_authority_object := ltac:(setter account_authority_object_eta aa_account).
Definition set_aa_owner : authority → account_authority_object → account_authority_object := ltac:(setter account_authority_object_eta aa_owner).
Definition set_aa_active : authority → account_authority_object → account_authority_object := ltac:(setter account_authority_object_eta aa_active).
Definition set_aa_posting : authority → account_authority_object → account_authority_object := ltac:(setter account_authority_object_eta aa_posting).
Definition set_aa_last_owner_update : Z → account_authority_object → account_authority_object := ltac:(setter account_authority_object_eta aa_last_owner_update).

#[export] Instance aa_index : MultiIndex account_authority_object :=
  {| obj_id := aa_id; set_obj_id := set_aa_id;
     obj_clash := λ x y, bool_decide (aa_account x = aa_account y) |}.
#[export] Instance aa_laws : MultiIndexLaws account_authority_object.
Proof. solve_index_laws. Qed.

(** [vesting_delegation_object], unique by delegator and delegatee. *)
Record vesting_delegation_object := Mk_vesting_delegation_object {
  vd_id : Z; vd_delegator : string; vd_delegatee : string; vd_vesting_shares : asset;
  vd_min_delegation_time : Z
}.
Definition vesting_delegation_object_default : vesting_delegation_object := {|
  vd_id := 0; vd_delegator := EmptyString; vd_delegatee := EmptyString;
  vd_vesting_shares := asset_default; vd_min_delegation_time := 0
|}.
Definition vesting_delegation_object_eta (r : vesting_delegation_object) : vesting_delegation_object :=
    Mk_vesting_delegation_object (vd_id r) (vd_delegator r) (vd_delegatee r)
  (vd_vesting_shares r) (vd_min_delegation_time r).
Definition set_vd_id : Z → vesting_delegation_object → vesting_delegation_object := ltac:(setter vesting_delegation_object_eta vd_id).
Definition set_vd_delegator : string → vesting_delegation_object → vesting_delegation_object := ltac:(setter vesting_delegation_object_eta vd_delegator).
Definition set_vd_delegatee : string → vesting_delegation_object → vesting_delegation_object := ltac:(setter vesting_delegation_object_eta vd_delegatee).
Definition set_vd_vesting_shares : asset → vesting_delegation_object → vesting_delegation_object := ltac:(setter vesting_delegation_object_eta vd_vesting_shares).
Definition set_vd_min_delegation_time : Z → vesting_delegation_object → vesting_delegation_object := ltac:(setter vesting_delegation_object_eta vd_min_delegation_time).

#[export] Instance vd_index : MultiIndex vesting_delegation_object :=
  {| obj_id := vd_id; set_obj_id := set_vd_id;
     obj_clash := λ x y, bool_decide (vd_delegator x = vd_delegator y) && bool_decide (vd_delegatee x = vd_delegatee y) |}.
#[export] Instance vd_laws : MultiIndexLaws vesting_delegation_object.
Proof. solve_index_laws. Qed.

(** [vesting_delegation_expiration_object]. *)
Record vesting_delegation_expiration_object := Mk_vesting_delegation_expiration_object {
  vde_id : Z; vde_delegator : string; vde_vesting_shares : asset; vde_expiration : Z
}.
Definition vesting_delegation_expiration_object_default : vesting_delegation_expiration_object := {|
  vde_id := 0; vde_delegator := EmptyString; vde_vesting_shares := asset_default;
  vde_expiration := 0
|}.
Definition vesting_delegation_expiration_object_eta (r : vesting_delegation_expiration_object) : vesting_delegation_expiration_object :=
    Mk_vesting_delegation_expiration_object (vde_id r) (vde_delegator r) (vde_vesting_shares r)
  (vde_expiration r).
Definition set_vde_id : Z → vesting_delegation_expiration_object → vesting_delegation_expiration_object := ltac:(setter vesting_delegation_expiration_object_eta vde_id).
Definition set_vde_delegator : string → vesting_delegation_expiration_object → vesting_delegation_expiration_object := ltac:(setter vesting_delegation_expiration_object_eta vde_delegator).
Definition set_vde_vesting_shares : asset → vesting_delegation_expiration_object → vesting_delegation_expiration_object := ltac:(setter vesting_delegation_expiration_object_eta vde_vesting_shares).
Definition set_vde_expiration : Z → vesting_delegation_expiration_object → vesting_delegation_expiration_object := ltac:(setter vesting_delegation_expiration_object_eta vde_expiration).

#[export] Instance vde_index : MultiIndex vesting_delegation_expiration_object :=
  {| obj_id := vde_id; set_obj_id := set_vde_id;
     obj_clash := λ _ _, false |}.
#[export] Instance vde_laws : MultiIndexLaws vesting_delegation_expiration_object.
Proof. solve_index_laws. Qed.

(** [owner_authority_history_object]. *)
Record owner_authority_history_object := Mk_owner_authority_history_object {
  oah_id : Z; oah_account : string; oah_previous_owner_authority : authority;
  oah_last_valid_time : Z
}.
Definition owner_authority_history_object_default : owner_authority_history_object := {|
  oah_id := 0; oah_account := EmptyString; oah_previous_owner_authority := authority_default;
  oah_last_valid_time := 0
|}.
Definition owner_authority_history_object_eta (r : owner_authority_history_object) : owner_authority_history_object :=
    Mk_owner_authority_history_object (oah_id r) (oah_account r)
  (oah_previous_owner_authority r) (oah_last_valid_time r).
Definition set_oah_id : Z → owner_authority_history_object → owner_authority_history_object := ltac:(setter owner_authority_history_object_eta oah_id).
Definition set_oah_account : string → owner_authority_history_object → owner_authority_history_object := ltac:(setter owner_authority_history_object_eta oah_account).
Definition set_oah_previous_owner_authority : authority → owner_authority_history_object → owner_authority_history_object := ltac:(setter owner_authority_history_object_eta oah_previous_owner_authority).
Definition set_oah_last_valid_time : Z → owner_authority_history_object → owner_authority_history_object := ltac:(setter owner_authority_history_object_eta oah_last_valid_time).

#[export] Instance oah_index : MultiIndex owner_authority_history_object :=
  {| obj_id := oah_id; set_obj_id := set_oah_id;
     obj_clash := λ _ _, false |}.
#[export] Instance oah_laws : MultiIndexLaws owner_authority_history_object.
Proof. solve_index_laws. Qed.

(** [account_recovery_request_object], unique by account. *)
Record account_recovery_request_object := Mk_account_recovery_request_object {
  arr_id : Z; arr_account_to_recover : string; arr_new_owner_authority : authority;
  arr_expires : Z
}.
Definition account_recovery_request_object_default : account_recovery_request_object := {|
  arr_id := 0; arr_account_to_recover := EmptyString;
  arr_new_owner_authority := authority_default; arr_expires := 0
|}.
Definition account_recovery_request_object_eta (r : account_recovery_request_object) : account_recovery_request_object :=
    Mk_account_recovery_request_object (arr_id r) (arr_account_to_recover r)
  (arr_new_owner_authority r) (arr_expires r).
Definition set_arr_id : Z → account_recovery_request_object → account_recovery_request_object := ltac:(setter account_recovery_request_object_eta arr_id).
Definition set_arr_account_to_recover : string → account_recovery_request_object → account_recovery_request_object := ltac:(setter account_recovery_request_object_eta arr_account_to_recover).
Definition set_arr_new_owner_authority : authority → account_recovery_request_object → account_recovery_request_object := ltac:(setter account_recovery_request_object_eta arr_new_owner_authority).
Definition set_arr_expires : Z → account_recovery_request_object → account_recovery_request_object := ltac:(setter account_recovery_request_object_eta arr_expires).

#[export] Instance arr_index : MultiIndex account_recovery_request_object :=
  {| obj_id := arr_id; set_obj_id := set_arr_id;
     obj_clash := λ x y, bool_decide (arr_account_to_recover x = arr_account_to_recover y) |}.
#[export] Instance arr_laws : MultiIndexLaws account_recovery_request_object.
Proof. solve_index_laws. Qed.

(** [change_recovery_account_request_object], unique by account. *)
Record change_recovery_account_request_object := Mk_change_recovery_account_request_object {
  crr_id : Z; crr_account_to_recover : string; crr_recovery_account : string;
  crr_effective_on : Z
}.
Definition change_recovery_account_request_object_default : change_recovery_account_request_object := {|
  crr_id := 0; crr_account_to_recover := EmptyString; crr_recovery_account := EmptyString;
  crr_effective_on := 0
|}.
Definition change_recovery_account_request_object_eta (r : change_recovery_account_request_object) : change_recovery_account_request_object :=
    Mk_change_recovery_account_request_object (crr_id r) (crr_account_to_recover r)
  (crr_recovery_account r) (crr_effective_on r).
Definition set_crr_id : Z → change_recovery_account_request_object → change_recovery_account_request_object := ltac:(setter change_recovery_account_request_object_eta crr_id).
Definition set_crr_account_to_recover : string → change_recovery_account_request_object → change_recovery_account_request_object := ltac:(setter change_recovery_account_request_object_eta crr_account_to_recover).
Definition set_crr_recovery_account : string → change_recovery_account_request_object → change_recovery_account_request_object := ltac:(setter change_recovery_account_request_object_eta crr_recovery_account).
Definition set_crr_effective_on : Z → change_recovery_account_request_object → change_recovery_account_request_object := ltac:(setter change_recovery_account_request_object_eta crr_effective_on).

#[export] Instance crr_index : MultiIndex change_recovery_account_request_object :=
  {| obj_id := crr_id; set_obj_id := set_crr_id;
     obj_clash := λ x y, bool_decide (crr_account_to_recover x = crr_account_to_recover y) |}.
#[export] Instance crr_laws : MultiIndexLaws change_recovery_account_request_object.
Proof. solve_index_laws. Qed.

(** [convert_request_object], unique by owner and request id. *)
Record convert_request_object := Mk_convert_request_object {
  cr_id : Z; cr_owner : string; cr_requestid : Z; cr_amount : asset; cr_conversion_date : Z
}.
Definition convert_request_object_default : convert_request_object := {|
  cr_id := 0; cr_owner := EmptyString; cr_requestid := 0; cr_amount := asset_default;
  cr_conversion_date := 0
|}.
Definition convert_request_object_eta (r : convert_request_object) : convert_request_object :=
    Mk_convert_request_object (cr_id r) (cr_owner r) (cr_requestid r) (cr_amount r)
  (cr_conversion_date r).
Definition set_cr_id : Z → convert_request_object → convert_request_object := ltac:(setter convert_request_object_eta cr_id).
Definition set_cr_owner : string → convert_request_object → convert_request_object := ltac:(setter convert_request_object_eta cr_owner).
Definition set_cr_requestid : Z → convert_request_object → convert_request_object := ltac:(setter convert_request_object_eta cr_requestid).
Definition set_cr_amount : asset → convert_request_object → convert_request_object := ltac:(setter convert_request_object_eta cr_amount).
Definition set_cr_conversion_date : Z → convert_request_object → convert_request_object := ltac:(setter convert_request_object_eta cr_conversion_date).

#[export] Instance cr_index : MultiIndex convert_request_object :=
  {| obj_id := cr_id; set_obj_id := set_cr_id;
     obj_clash := λ x y, bool_decide (cr_owner x = cr_owner y) && (cr_requestid x =? cr_requestid y) |}.
#[export] Instance cr_laws : MultiIndexLaws convert_request_object.
Proof. solve_index_laws. Qed.

(** [escrow_object], unique by sender and escrow id. *)
Record escrow_object := Mk_escrow_object {
  esc_id : Z; esc_escrow_id : Z; esc_from : string; esc_to : string; esc_agent : string;
  esc_ratification_deadline : Z; esc_escrow_expiration : Z; esc_sbd_balance : asset;
  esc_steem_balance : asset; esc_pending_fee : asset; esc_to_approved : bool;
  esc_agent_approved : bool; esc_disputed : bool
}.
Definition escrow_object_default : escrow_object := {|
  esc_id := 0; esc_escrow_id := 20; esc_from := EmptyString; esc_to := EmptyString;
  esc_agent := EmptyString; esc_ratification_deadline := 0; esc_escrow_expiration := 0;
  esc_sbd_balance := asset_default; esc_steem_balance := asset_default;
  esc_pending_fee := asset_default; esc_to_approved := false; esc_agent_approved := false;
  esc_disputed := false
|}.
Definition escrow_object_eta (r : escrow_object) : escrow_object :=
    Mk_escrow_object (esc_id r) (esc_escrow_id r) (esc_from r) (esc_to r) (esc_agent r)
  (esc_ratification_deadline r) (esc_escrow_expiration r) (esc_sbd_balance r)
  (esc_steem_balance r) (esc_pending_fee r) (esc_to_approved r) (esc_agent_approved r)
  (esc_disputed r).
Definition set_esc_id : Z → escrow_object → escrow_object := ltac:(setter escrow_object_eta esc_id).
Definition set_esc_escrow_id : Z → escrow_object → escrow_object := ltac:(setter escrow_object_eta esc_escrow_id).
Definition set_esc_from : string → escrow_object → escrow_object := ltac:(setter escrow_object_eta esc_from).
Definition set_esc_to : string → escrow_object → escrow_object := ltac:(setter escrow_object_eta esc_to).
Definition set_esc_agent : string → escrow_object → escrow_object := ltac:(setter escrow_object_eta esc_agent).
Definition set_esc_ratification_deadline : Z → escrow_object → escrow_object := ltac:(setter escrow_object_eta esc_ratification_deadline).
Definition set_esc_escrow_expiration : Z → escrow_object → escrow_object := ltac:(setter escrow_object_eta esc_escrow_expiration).
Definition set_esc_sbd_balance : asset → escrow_object → escrow_object := ltac:(setter escrow_object_eta esc_sbd_balance).
Definition set_esc_steem_balance : asset → escrow_object → escrow_object := ltac:(setter escrow_object_eta esc_steem_balance).
Definition set_esc_pending_fee : asset → escrow_object → escrow_object := ltac:(setter escrow_object_eta esc_pending_fee).
Definition set_esc_to_approved : bool → escrow_object → escrow_object := ltac:(setter escrow_object_eta esc_to_approved).
Definition set_esc_agent_approved : bool → escrow_object → escrow_object := ltac:(setter escrow_object_eta esc_agent_approved).
Definition set_esc_disputed : bool → escrow_object → escrow_object := ltac:(setter escrow_object_eta esc_disputed).

#[export] Instance esc_index : MultiIndex escrow_object :=
  {| obj_id := esc_id; set_obj_id := set_esc_id;
     obj_clash := λ x y, bool_decide (esc_from x = esc_from y) && (esc_escrow_id x =? esc_escrow_id y) |}.
#[export] Instance esc_laws : MultiIndexLaws escrow_object.
Proof. solve_index_laws. Qed.

(** [savings_withdraw_object], unique by sender and request id. *)
Record savings_withdraw_object := Mk_savings_withdraw_object {
  sw_id : Z; sw_from : string; sw_to : string; sw_memo : string; sw_request_id : Z;
  sw_amount : asset; sw_complete : Z
}.
Definition savings_withdraw_object_default : savings_withdraw_object := {|
  sw_id := 0; sw_from := EmptyString; sw_to := EmptyString; sw_memo := EmptyString;
  sw_request_id := 0; sw_amount := asset_default; sw_complete := 0
|}.
Definition savings_withdraw_object_eta (r : savings_withdraw_object) : savings_withdraw_object :=
    Mk_savings_withdraw_object (sw_id r) (sw_from r) (sw_to r) (sw_memo r) (sw_request_id r)
  (sw_amount r) (sw_complete r).
Definition set_sw_id : Z → savings_withdraw_object → savings_withdraw_object := ltac:(setter savings_withdraw_object_eta sw_id).
Definition set_sw_from : string → savings_withdraw_object → savings_withdraw_object := ltac:(setter savings_withdraw_object_eta sw_from).
Definition set_sw_to : string → savings_withdraw_object → savings_withdraw_object := ltac:(setter savings_withdraw_object_eta sw_to).
Definition set_sw_memo : string → savings_withdraw_object → savings_withdraw_object := ltac:(setter savings_withdraw_object_eta sw_memo).
Definition set_sw_request_id : Z → savings_withdraw_object → savings_withdraw_object := ltac:(setter savings_withdraw_object_eta sw_request_id).
Definition set_sw_amount : asset → savings_withdraw_object → savings_withdraw_object := ltac:(setter savings_withdraw_object_eta sw_amount).
Definition set_sw_complete : Z → savings_withdraw_object → savings_withdraw_object := ltac:(setter savings_withdraw_object_eta sw_complete).

#[export] Instance sw_index : MultiIndex savings_withdraw_object :=
  {| obj_id := sw_id; set_obj_id := set_sw_id;
     obj_clash := λ x y, bool_decide (sw_from x = sw_from y) && (sw_request_id x =? sw_request_id y) |}.
#[export] Instance sw_laws : MultiIndexLaws savings_withdraw_object.
Proof. solve_index_laws. Qed.

(** [liquidity_reward_balance_object], unique by owner. *)
Record liquidity_reward_balance_object := Mk_liquidity_reward_balance_object {
  lrb_id : Z; lrb_owner : Z; lrb_steem_volume : Z; lrb_sbd_volume : Z; lrb_weight : Z;
  lrb_last_update : Z
}.
Definition liquidity_reward_balance_object_default : liquidity_reward_balance_object := {|
  lrb_id := 0; lrb_owner := 0; lrb_steem_volume := 0; lrb_sbd_volume := 0; lrb_weight := 0;
  lrb_last_update := time_min
|}.
Definition liquidity_reward_balance_object_eta (r : liquidity_reward_balance_object) : liquidity_reward_balance_object :=
    Mk_liquidity_reward_balance_object (lrb_id r) (lrb_owner r) (lrb_steem_volume r)
  (lrb_sbd_volume r) (lrb_weight r) (lrb_last_update r).
Definition set_lrb_id : Z → liquidity_reward_balance_object → liquidity_reward_balance_object := ltac:(setter liquidity_reward_balance_object_eta lrb_id).
Definition set_lrb_owner : Z → liquidity_reward_balance_object → liquidity_reward_balance_object := ltac:(setter liquidity_reward_balance_object_eta lrb_owner).
Definition set_lrb_steem_volume : Z → liquidity_reward_balance_object → liquidity_reward_balance_object := ltac:(setter liquidity_reward_balance_object_eta lrb_steem_volume).
Definition set_lrb_sbd_volume : Z → liquidity_reward_balance_object → liquidity_reward_balance_object := ltac:(setter liquidity_reward_balance_object_eta lrb_sbd_volume).
Definition set_lrb_weight : Z → liquidity_reward_balance_object → liquidity_reward_balance_object := ltac:(setter liquidity_reward_balance_object_eta lrb_weight).
Definition set_lrb_last_update : Z → liquidity_reward_balance_object → liquidity_reward_balance_object := ltac:(setter liquidity_reward_balance_object_eta lrb_last_update).

#[export] Instance lrb_index : MultiIndex liquidity_reward_balance_object :=
  {| obj_id := lrb_id; set_obj_id := set_lrb_id;
     obj_clash := λ x y, lrb_owner x =? lrb_owner y |}.
#[export] Instance lrb_laws : MultiIndexLaws liquidity_reward_balance_object.
Proof. solve_index_laws. Qed.

(** [limit_order_object], unique by seller and order id. *)
Record limit_order_object := Mk_limit_order_object {
  lo_id : Z; lo_created : Z; lo_expiration : Z; lo_seller : string; lo_orderid : Z;
  lo_for_sale : Z; lo_sell_price : price
}.
Definition limit_order_object_default : limit_order_object := {|
  lo_id := 0; lo_created := 0; lo_expiration := 0; lo_seller := EmptyString; lo_orderid := 0;
  lo_for_sale := 0; lo_sell_price := Price asset_default asset_default
|}.
Definition limit_order_object_eta (r : limit_order_object) : limit_order_object :=
    Mk_limit_order_object (lo_id r) (lo_created r) (lo_expiration r) (lo_seller r)
  (lo_orderid r) (lo_for_sale r) (lo_sell_price r).
Definition set_lo_id : Z → limit_order_object → limit_order_object := ltac:(setter limit_order_object_eta lo_id).
Definition set_lo_created : Z → limit_order_object → limit_order_object := ltac:(setter limit_order_object_eta lo_created).
Definition set_lo_expiration : Z → limit_order_object → limit_order_object := ltac:(setter limit_order_object_eta lo_expiration).
Definition set_lo_seller : string → limit_order_object → limit_order_object := ltac:(setter limit_order_object_eta lo_seller).
Definition set_lo_orderid : Z → limit_order_object → limit_order_object := ltac:(setter limit_order_object_eta lo_orderid).
Definition set_lo_for_sale : Z → limit_order_object → limit_order_object := ltac:(setter limit_order_object_eta lo_for_sale).
Definition set_lo_sell_price : price → limit_order_object → limit_order_object := ltac:(setter limit_order_object_eta lo_sell_price).

#[export] Instance lo_index : MultiIndex limit_order_object :=
  {| obj_id := lo_id; set_obj_id := set_lo_id;
     obj_clash := λ x y, bool_decide (lo_seller x = lo_seller y) && (lo_orderid x =? lo_orderid y) |}.
#[export] Instance lo_laws : MultiIndexLaws limit_order_object.
Proof. solve_index_laws. Qed.

(** [withdraw_vesting_route_object], unique by source and destination. *)
Record withdraw_vesting_route_object := Mk_withdraw_vesting_route_object {
  wr_id : Z; wr_from_account : Z; wr_to_account : Z; wr_percent : Z; wr_auto_vest : bool
}.
Definition withdraw_vesting_route_object_default : withdraw_vesting_route_object := {|
  wr_id := 0; wr_from_account := 0; wr_to_account := 0; wr_percent := 0; wr_auto_vest := false
|}.
Definition withdraw_vesting_route_object_eta (r : withdraw_vesting_route_object) : withdraw_vesting_route_object :=
    Mk_withdraw_vesting_route_object (wr_id r) (wr_from_account r) (wr_to_account r)
  (wr_percent r) (wr_auto_vest r).
Definition set_wr_id : Z → withdraw_vesting_route_object → withdraw_vesting_route_object := ltac:(setter withdraw_vesting_route_object_eta wr_id).
Definition set_wr_from_account : Z → withdraw_vesting_route_object → withdraw_vesting_route_object := ltac:(setter withdraw_vesting_route_object_eta wr_from_account).
Definition set_wr_to_account : Z → withdraw_vesting_route_object → withdraw_vesting_route_object := ltac:(setter withdraw_vesting_route_object_eta wr_to_account).
Definition set_wr_percent : Z → withdraw_vesting_route_object → withdraw_vesting_route_object := ltac:(setter withdraw_vesting_route_object_eta wr_percent).
Definition set_wr_auto_vest : bool → withdraw_vesting_route_object → withdraw_vesting_route_object := ltac:(setter withdraw_vesting_route_object_eta wr_auto_vest).

#[export] Instance wr_index : MultiIndex withdraw_vesting_route_object :=
  {| obj_id := wr_id; set_obj_id := set_wr_id;
     obj_clash := λ x y, (wr_from_account x =? wr_from_account y) && (wr_to_account x =? wr_to_account y) |}.
#[export] Instance wr_laws : MultiIndexLaws withdraw_vesting_route_object.
Proof. solve_index_laws. Qed.

(** [decline_voting_rights_request_object], unique by account. *)
Record decline_voting_rights_request_object := Mk_decline_voting_rights_request_object {
  dvr_id : Z; dvr_account : Z; dvr_effective_date : Z
}.
Definition decline_voting_rights_request_object_default : decline_voting_rights_request_object := {|
  dvr_id := 0; dvr_account := 0; dvr_effective_date := 0
|}.
Definition decline_voting_rights_request_object_eta (r : decline_voting_rights_request_object) : decline_voting_rights_request_object :=
    Mk_decline_voting_rights_request_object (dvr_id r) (dvr_account r) (dvr_effective_date r).
Definition set_dvr_id : Z → decline_voting_rights_request_object → decline_voting_rights_request_object := ltac:(setter decline_voting_rights_request_object_eta dvr_id).
Definition set_dvr_account : Z → decline_voting_rights_request_object → decline_voting_rights_request_object := ltac:(setter decline_voting_rights_request_object_eta dvr_account).
Definition set_dvr_effective_date : Z → decline_voting_rights_request_object → decline_voting_rights_request_object := ltac:(setter decline_voting_rights_request_object_eta dvr_effective_date).

#[export] Instance dvr_index : MultiIndex decline_voting_rights_request_object :=
  {| obj_id := dvr_id; set_obj_id := set_dvr_id;
     obj_clash := λ x y, dvr_account x =? dvr_account y |}.
#[export] Instance dvr_laws : MultiIndexLaws decline_voting_rights_request_object.
Proof. solve_index_laws. Qed.

(** [reward_fund_object], unique by name.  The two curve members have no initialiser in the source. *)
Record reward_fund_object := Mk_reward_fund_object {
  rf_id : Z; rf_name : string; rf_reward_balance : asset; rf_recent_claims : Z;
  rf_last_update : Z; rf_content_constant : Z; rf_percent_curation_rewards : Z;
  rf_percent_content_rewards : Z; rf_author_reward_curve : curve_id;
  rf_curation_reward_curve : curve_id
}.
Definition reward_fund_object_default : reward_fund_object := {|
  rf_id := 0; rf_name := EmptyString; rf_reward_balance := Asset 0 STEEM_SYMBOL;
  rf_recent_claims := 0; rf_last_update := 0; rf_content_constant := 0;
  rf_percent_curation_rewards := 0; rf_percent_content_rewards := 0;
  rf_author_reward_curve := quadratic; rf_curation_reward_curve := quadratic
|}.
Definition reward_fund_object_eta (r : reward_fund_object) : reward_fund_object :=
    Mk_reward_fund_object (rf_id r) (rf_name r) (rf_reward_balance r) (rf_recent_claims r)
  (rf_last_update r) (rf_content_constant r) (rf_percent_curation_rewards r)
  (rf_percent_content_rewards r) (rf_author_reward_curve r) (rf_curation_reward_curve r).
Definition set_rf_id : Z → reward_fund_object → reward_fund_object := ltac:(setter reward_fund_object_eta rf_id).
Definition set_rf_name : string → reward_fund_object → reward_fund_object := ltac:(setter reward_fund_object_eta rf_name).
Definition set_rf_reward_balance : asset → reward_fund_object → reward_fund_object := ltac:(setter reward_fund_object_eta rf_reward_balance).
Definition set_rf_recent_claims : Z → reward_fund_object → reward_fund_object := ltac:(setter reward_fund_object_eta rf_recent_claims).
Definition set_rf_last_update : Z → reward_fund_object → reward_fund_object := ltac:(setter reward_fund_object_eta rf_last_update).
Definition set_rf_content_constant : Z → reward_fund_object → reward_fund_object := ltac:(setter reward_fund_object_eta rf_content_constant).
Definition set_rf_percent_curation_rewards : Z → reward_fund_object → reward_fund_object := ltac:(setter reward_fund_object_eta rf_percent_curation_rewards).
Definition set_rf_percent_content_rewards : Z → reward_fund_object → reward_fund_object := ltac:(setter reward_fund_object_eta rf_percent_content_rewards).
Definition set_rf_author_reward_curve : curve_id → reward_fund_object → reward_fund_object := ltac:(setter reward_fund_object_eta rf_author_reward_curve).
Definition set_rf_curation_reward_curve : curve_id → reward_fund_object → reward_fund_object := ltac:(setter reward_fund_object_eta rf_curation_reward_curve).

#[export] Instance rf_index : MultiIndex reward_fund_object :=
  {| obj_id := rf_id; set_obj_id := set_rf_id;
     obj_clash := λ x y, bool_decide (rf_name x = rf_name y) |}.
#[export] Instance rf_laws : MultiIndexLaws reward_fund_object.
Proof. solve_index_laws. Qed.

(** [witness_object] of [witness_objects.hpp], unique by owner (the vote index adds the owner to the votes). *)
Record witness_object := Mk_witness_object {
  wit_id : Z; wit_owner : string; wit_created : Z; wit_url : string; wit_total_missed : Z;
  wit_last_aslot : Z; wit_last_confirmed_block_num : Z; wit_pow_worker : Z;
  wit_signing_key : string; wit_props : chain_properties; wit_sbd_exchange_rate : price;
  wit_last_sbd_exchange_update : Z; wit_votes : Z; wit_schedule : witness_schedule_type;
  wit_virtual_last_update : Z; wit_virtual_position : Z; wit_virtual_scheduled_time : Z;
  wit_last_work : Z; wit_running_version : Z; wit_hardfork_version_vote : Z;
  wit_hardfork_time_vote : Z
}.
Definition witness_object_default : witness_object := {|
  wit_id := 0; wit_owner := EmptyString; wit_created := 0; wit_url := EmptyString;
  wit_total_missed := 0; wit_last_aslot := 0; wit_last_confirmed_block_num := 0;
  wit_pow_worker := 0; wit_signing_key := EmptyString; wit_props := chain_properties_default;
  wit_sbd_exchange_rate := Price asset_default asset_default;
  wit_last_sbd_exchange_update := 0; wit_votes := 0; wit_schedule := none;
  wit_virtual_last_update := 0; wit_virtual_position := 0;
  wit_virtual_scheduled_time := U128 - 1; wit_last_work := 0; wit_running_version := 0;
  wit_hardfork_version_vote := 0; wit_hardfork_time_vote := STEEMIT_GENESIS_TIME
|}.
Definition witness_object_eta (r : witness_object) : witness_object :=
    Mk_witness_object (wit_id r) (wit_owner r) (wit_created r) (wit_url r) (wit_total_missed r)
  (wit_last_aslot r) (wit_last_confirmed_block_num r) (wit_pow_worker r) (wit_signing_key r)
  (wit_props r) (wit_sbd_exchange_rate r) (wit_last_sbd_exchange_update r) (wit_votes r)
  (wit_schedule r) (wit_virtual_last_update r) (wit_virtual_position r)
  (wit_virtual_scheduled_time r) (wit_last_work r) (wit_running_version r)
  (wit_hardfork_version_vote r) (wit_hardfork_time_vote r).
Definition set_wit_id : Z → witness_object → witness_object := ltac:(setter witness_object_eta wit_id).
Definition set_wit_owner : string → witness_object → witness_object := ltac:(setter witness_object_eta wit_owner).
Definition set_wit_created : Z → witness_object → witness_object := ltac:(setter witness_object_eta wit_created).
Definition set_wit_url : string → witness_object → witness_object := ltac:(setter witness_object_eta wit_url).
Definition set_wit_total_missed : Z → witness_object → witness_object := ltac:(setter witness_object_eta wit_total_missed).
Definition set_wit_last_aslot : Z → witness_object → witness_object := ltac:(setter witness_object_eta wit_last_aslot).
Definition set_wit_last_confirmed_block_num : Z → witness_object → witness_object := ltac:(setter witness_object_eta wit_last_confirmed_block_num).
Definition set_wit_pow_worker : Z → witness_object → witness_object := ltac:(setter witness_object_eta wit_pow_worker).
Definition set_wit_signing_key : string → witness_object → witness_object := ltac:(setter witness_object_eta wit_signing_key).
Definition set_wit_props : chain_properties → witness_object → witness_object := ltac:(setter witness_object_eta wit_props).
Definition set_wit_sbd_exchange_rate : price → witness_object → witness_object := ltac:(setter witness_object_eta wit_sbd_exchange_rate).
Definition set_wit_last_sbd_exchange_update : Z → witness_object → witness_object := ltac:(setter witness_object_eta wit_last_sbd_exchange_update).
Definition set_wit_votes : Z → witness_object → witness_object := ltac:(setter witness_object_eta wit_votes).
Definition set_wit_schedule : witness_schedule_type → witness_object → witness_object := ltac:(setter witness_object_eta wit_schedule).
Definition set_wit_virtual_last_update : Z → witness_object → witness_object := ltac:(setter witness_object_eta wit_virtual_last_update).
Definition set_wit_virtual_position : Z → witness_object → witness_object := ltac:(setter witness_object_eta wit_virtual_position).
Definition set_wit_virtual_scheduled_time : Z → witness_object → witness_object := ltac:(setter witness_object_eta wit_virtual_scheduled_time).
Definition set_wit_last_work : Z → witness_object → witness_object := ltac:(setter witness_object_eta wit_last_work).
Definition set_wit_running_version : Z → witness_object → witness_object := ltac:(setter witness_object_eta wit_running_version).
Definition set_wit_hardfork_version_vote : Z → witness_object → witness_object := ltac:(setter witness_object_eta wit_hardfork_version_vote).
Definition set_wit_hardfork_time_vote : Z → witness_object → witness_object := ltac:(setter witness_object_eta wit_hardfork_time_vote).

#[export] Instance wit_index : MultiIndex witness_object :=
  {| obj_id := wit_id; set_obj_id := set_wit_id;
     obj_clash := λ x y, bool_decide (wit_owner x = wit_owner y) |}.
#[export] Instance wit_laws : MultiIndexLaws witness_object.
Proof. solve_index_laws. Qed.

(** [witness_vote_object], unique by account and witness. *)
Record witness_vote_object := Mk_witness_vote_object {
  wv_id : Z; wv_witness : Z; wv_account : Z
}.
Definition witness_vote_object_default : witness_vote_object := {|
  wv_id := 0; wv_witness := 0; wv_account := 0
|}.
Definition witness_vote_object_eta (r : witness_vote_object) : witness_vote_object :=
    Mk_witness_vote_object (wv_id r) (wv_witness r) (wv_account r).
Definition set_wv_id : Z → witness_vote_object → witness_vote_object := ltac:(setter witness_vote_object_eta wv_id).
Definition set_wv_witness : Z → witness_vote_object → witness_vote_object := ltac:(setter witness_vote_object_eta wv_witness).
Definition set_wv_account : Z → witness_vote_object → witness_vote_object := ltac:(setter witness_vote_object_eta wv_account).

#[export] Instance wv_index : MultiIndex witness_vote_object :=
  {| obj_id := wv_id; set_obj_id := set_wv_id;
     obj_clash := λ x y, (wv_account x =? wv_account y) && (wv_witness x =? wv_witness y) |}.
#[export] Instance wv_laws : MultiIndexLaws witness_vote_object.
Proof. solve_index_laws. Qed.

(** [comment_object] of [comment_object.hpp], unique by author and permlink. *)
Record comment_object := Mk_comment_object {
  com_id : Z; com_category : string; com_parent_author : string;
  com_parent_permlink : string; com_author : string; com_permlink : string;
  com_title : string; com_body : string; com_json_metadata : string; com_last_update : Z;
  com_created : Z; com_active : Z; com_last_payout : Z; com_depth : Z; com_children : Z;
  com_net_rshares : Z; com_abs_rshares : Z; com_vote_rshares : Z;
  com_children_abs_rshares : Z; com_cashout_time : Z; com_max_cashout_time : Z;
  com_total_vote_weight : Z; com_reward_weight : Z; com_total_payout_value : asset;
  com_curator_payout_value : asset; com_beneficiary_payout_value : asset;
  com_author_rewards : Z; com_net_votes : Z; com_root_comment : Z;
  com_max_accepted_payout : asset; com_percent_steem_dollars : Z; com_allow_replies : bool;
  com_allow_votes : bool; com_allow_curation_rewards : bool;
  com_beneficiaries : list (string * Z)
}.
Definition comment_object_default : comment_object := {|
  com_id := 0; com_category := EmptyString; com_parent_author := EmptyString;
  com_parent_permlink := EmptyString; com_author := EmptyString; com_permlink := EmptyString;
  com_title := EmptyString; com_body := EmptyString; com_json_metadata := EmptyString;
  com_last_update := 0; com_created := 0; com_active := 0; com_last_payout := 0;
  com_depth := 0; com_children := 0; com_net_rshares := 0; com_abs_rshares := 0;
  com_vote_rshares := 0; com_children_abs_rshares := 0; com_cashout_time := 0;
  com_max_cashout_time := 0; com_total_vote_weight := 0; com_reward_weight := 0;
  com_total_payout_value := Asset 0 SBD_SYMBOL; com_curator_payout_value := Asset 0 SBD_SYMBOL;
  com_beneficiary_payout_value := Asset 0 SBD_SYMBOL; com_author_rewards := 0;
  com_net_votes := 0; com_root_comment := 0;
  com_max_accepted_payout := Asset 1000000000 SBD_SYMBOL;
  com_percent_steem_dollars := STEEMIT_100_PERCENT; com_allow_replies := true;
  com_allow_votes := true; com_allow_curation_rewards := true; com_beneficiaries := []
|}.
Definition comment_object_eta (r : comment_object) : comment_object :=
    Mk_comment_object (com_id r) (com_category r) (com_parent_author r) (com_parent_permlink r)
  (com_author r) (com_permlink r) (com_title r) (com_body r) (com_json_metadata r)
  (com_last_update r) (com_created r) (com_active r) (com_last_payout r) (com_depth r)
  (com_children r) (com_net_rshares r) (com_abs_rshares r) (com_vote_rshares r)
  (com_children_abs_rshares r) (com_cashout_time r) (com_max_cashout_time r)
  (com_total_vote_weight r) (com_reward_weight r) (com_total_payout_value r)
  (com_curator_payout_value r) (com_beneficiary_payout_value r) (com_author_rewards r)
  (com_net_votes r) (com_root_comment r) (com_max_accepted_payout r)
  (com_percent_steem_dollars r) (com_allow_replies r) (com_allow_votes r)
  (com_allow_curation_rewards r) (com_beneficiaries r).
Definition set_com_id : Z → comment_object → comment_object := ltac:(setter comment_object_eta com_id).
Definition set_com_category : string → comment_object → comment_object := ltac:(setter comment_object_eta com_category).
Definition set_com_parent_author : string → comment_object → comment_object := ltac:(setter comment_object_eta com_parent_author).
Definition set_com_parent_permlink : string → comment_object → comment_object := ltac:(setter comment_object_eta com_parent_permlink).
Definition set_com_author : string → comment_object → comment_object := ltac:(setter comment_object_eta com_author).
Definition set_com_permlink : string → comment_object → comment_object := ltac:(setter comment_object_eta com_permlink).
Definition set_com_title : string → comment_object → comment_object := ltac:(setter comment_object_eta com_title).
Definition set_com_body : string → comment_object → comment_object := ltac:(setter comment_object_eta com_body).
Definition set_com_json_metadata : string → comment_object → comment_object := ltac:(setter comment_object_eta com_json_metadata).
Definition set_com_last_update : Z → comment_object → comment_object := ltac:(setter comment_object_eta com_last_update).
Definition set_com_created : Z → comment_object → comment_object := ltac:(setter comment_object_eta com_created).
Definition set_com_active : Z → comment_object → comment_object := ltac:(setter comment_object_eta com_active).
Definition set_com_last_payout : Z → comment_object → comment_object := ltac:(setter comment_object_eta com_last_payout).
Definition set_com_depth : Z → comment_object → comment_object := ltac:(setter comment_object_eta com_depth).
Definition set_com_children : Z → comment_object → comment_object := ltac:(setter comment_object_eta com_children).
Definition set_com_net_rshares : Z → comment_object → comment_object := ltac:(setter comment_object_eta com_net_rshares).
Definition set_com_abs_rshares : Z → comment_object → comment_object := ltac:(setter comment_object_eta com_abs_rshares).
Definition set_com_vote_rshares : Z → comment_object → comment_object := ltac:(setter comment_object_eta com_vote_rshares).
Definition set_com_children_abs_rshares : Z → comment_object → comment_object := ltac:(setter comment_object_eta com_children_abs_rshares).
Definition set_com_cashout_time : Z → comment_object → comment_object := ltac:(setter comment_object_eta com_cashout_time).
Definition set_com_max_cashout_time : Z → comment_object → comment_object := ltac:(setter comment_object_eta com_max_cashout_time).
Definition set_com_total_vote_weight : Z → comment_object → comment_object := ltac:(setter comment_object_eta com_total_vote_weight).
Definition set_com_reward_weight : Z → comment_object → comment_object := ltac:(setter comment_object_eta com_reward_weight).
Definition set_com_total_payout_value : asset → comment_object → comment_object := ltac:(setter comment_object_eta com_total_payout_value).
Definition set_com_curator_payout_value : asset → comment_object → comment_object := ltac:(setter comment_object_eta com_curator_payout_value).
Definition set_com_beneficiary_payout_value : asset → comment_object → comment_object := ltac:(setter comment_object_eta com_beneficiary_payout_value).
Definition set_com_author_rewards : Z → comment_object → comment_object := ltac:(setter comment_object_eta com_author_rewards).
Definition set_com_net_votes : Z → comment_object → comment_object := ltac:(setter comment_object_eta com_net_votes).
Definition set_com_root_comment : Z → comment_object → comment_object := ltac:(setter comment_object_eta com_root_comment).
Definition set_com_max_accepted_payout : asset → comment_object → comment_object := ltac:(setter comment_object_eta com_max_accepted_payout).
Definition set_com_percent_steem_dollars : Z → comment_object → comment_object := ltac:(setter comment_object_eta com_percent_steem_dollars).
Definition set_com_allow_replies : bool → comment_object → comment_object := ltac:(setter comment_object_eta com_allow_replies).
Definition set_com_allow_votes : bool → comment_object → comment_object := ltac:(setter comment_object_eta com_allow_votes).
Definition set_com_allow_curation_rewards : bool → comment_object → comment_object := ltac:(setter comment_object_eta com_allow_curation_rewards).
Definition set_com_beneficiaries : (list (string * Z)) → comment_object → comment_object := ltac:(setter comment_object_eta com_beneficiaries).

#[export] Instance com_index : MultiIndex comment_object :=
  {| obj_id := com_id; set_obj_id := set_com_id;
     obj_clash := λ x y, bool_decide (com_author x = com_author y) && bool_decide (com_permlink x = com_permlink y) |}.
#[export] Instance com_laws : MultiIndexLaws comment_object.
Proof. solve_index_laws. Qed.

(** [comment_vote_object], unique by comment and voter. *)
Record comment_vote_object := Mk_comment_vote_object {
  cv_id : Z; cv_voter : Z; cv_comment : Z; cv_weight : Z; cv_rshares : Z;
  cv_vote_percent : Z; cv_last_update : Z; cv_num_changes : Z
}.
Definition comment_vote_object_default : comment_vote_object := {|
  cv_id := 0; cv_voter := 0; cv_comment := 0; cv_weight := 0; cv_rshares := 0;
  cv_vote_percent := 0; cv_last_update := 0; cv_num_changes := 0
|}.
Definition comment_vote_object_eta (r : comment_vote_object) : comment_vote_object :=
    Mk_comment_vote_object (cv_id r) (cv_voter r) (cv_comment r) (cv_weight r) (cv_rshares r)
  (cv_vote_percent r) (cv_last_update r) (cv_num_changes r).
Definition set_cv_id : Z → comment_vote_object → comment_vote_object := ltac:(setter comment_vote_object_eta cv_id).
Definition set_cv_voter : Z → comment_vote_object → comment_vote_object := ltac:(setter comment_vote_object_eta cv_voter).
Definition set_cv_comment : Z → comment_vote_object → comment_vote_object := ltac:(setter comment_vote_object_eta cv_comment).
Definition set_cv_weight : Z → comment_vote_object → comment_vote_object := ltac:(setter comment_vote_object_eta cv_weight).
Definition set_cv_rshares : Z → comment_vote_object → comment_vote_object := ltac:(setter comment_vote_object_eta cv_rshares).
Definition set_cv_vote_percent : Z → comment_vote_object → comment_vote_object := ltac:(setter comment_vote_object_eta cv_vote_percent).
Definition set_cv_last_update : Z → comment_vote_object → comment_vote_object := ltac:(setter comment_vote_object_eta cv_last_update).
Definition set_cv_num_changes : Z → comment_vote_object → comment_vote_object := ltac:(setter comment_vote_object_eta cv_num_changes).

#[export] Instance cv_index : MultiIndex comment_vote_object :=
  {| obj_id := cv_id; set_obj_id := set_cv_id;
     obj_clash := λ x y, (cv_comment x =? cv_comment y) && (cv_voter x =? cv_voter y) |}.
#[export] Instance cv_laws : MultiIndexLaws comment_vote_object.
Proof. solve_index_laws. Qed.

(** [transaction_object] of [transaction_object.hpp], unique by the id of the transaction. *)
Record transaction_object := Mk_transaction_object {
  trx_id : Z; trx_packed_trx : string; trx_trx_id : string; trx_expiration : Z
}.
Definition transaction_object_default : transaction_object := {|
  trx_id := 0; trx_packed_trx := EmptyString; trx_trx_id := EmptyString; trx_expiration := 0
|}.
Definition transaction_object_eta (r : transaction_object) : transaction_object :=
    Mk_transaction_object (trx_id r) (trx_packed_trx r) (trx_trx_id r) (trx_expiration r).
Definition set_trx_id : Z → transaction_object → transaction_object := ltac:(setter transaction_object_eta trx_id).
Definition set_trx_packed_trx : string → transaction_object → transaction_object := ltac:(setter transaction_object_eta trx_packed_trx).
Definition set_trx_trx_id : string → transaction_object → transaction_object := ltac:(setter transaction_object_eta trx_trx_id).
Definition set_trx_expiration : Z → transaction_object → transaction_object := ltac:(setter transaction_object_eta trx_expiration).

#[export] Instance trx_index : MultiIndex transaction_object :=
  {| obj_id := trx_id; set_obj_id := set_trx_id;
     obj_clash := λ x y, bool_decide (trx_trx_id x = trx_trx_id y) |}.
#[export] Instance trx_laws : MultiIndexLaws transaction_object.
Proof. solve_index_laws. Qed.

(** [dynamic_global_property_object] of [global_property_object.hpp], a singleton. *)
Record dynamic_global_property_object := Mk_dynamic_global_property_object {
  gpo_head_block_number : Z; gpo_head_block_id : string; gpo_time : Z;
  gpo_current_witness : string; gpo_total_pow : Z; gpo_num_pow_witnesses : Z;
  gpo_virtual_supply : asset; gpo_current_supply : asset; gpo_confidential_supply : asset;
  gpo_current_sbd_supply : asset; gpo_confidential_sbd_supply : asset;
  gpo_total_vesting_fund_steem : asset; gpo_total_vesting_shares : asset;
  gpo_total_reward_fund_steem : asset; gpo_total_reward_shares2 : Z;
  gpo_pending_rewarded_vesting_shares : asset; gpo_pending_rewarded_vesting_steem : asset;
  gpo_sbd_interest_rate : Z; gpo_sbd_print_rate : Z; gpo_maximum_block_size : Z;
  gpo_current_aslot : Z; gpo_recent_slots_filled : Z; gpo_participation_count : Z;
  gpo_last_irreversible_block_num : Z; gpo_vote_power_reserve_rate : Z
}.
Definition dynamic_global_property_object_default : dynamic_global_property_object := {|
  gpo_head_block_number := 0; gpo_head_block_id := EmptyString; gpo_time := 0;
  gpo_current_witness := EmptyString; gpo_total_pow := U64 - 1; gpo_num_pow_witnesses := 0;
  gpo_virtual_supply := Asset 0 STEEM_SYMBOL; gpo_current_supply := Asset 0 STEEM_SYMBOL;
  gpo_confidential_supply := Asset 0 STEEM_SYMBOL;
  gpo_current_sbd_supply := Asset 0 SBD_SYMBOL;
  gpo_confidential_sbd_supply := Asset 0 SBD_SYMBOL;
  gpo_total_vesting_fund_steem := Asset 0 STEEM_SYMBOL;
  gpo_total_vesting_shares := Asset 0 VESTS_SYMBOL;
  gpo_total_reward_fund_steem := Asset 0 STEEM_SYMBOL; gpo_total_reward_shares2 := 0;
  gpo_pending_rewarded_vesting_shares := Asset 0 VESTS_SYMBOL;
  gpo_pending_rewarded_vesting_steem := Asset 0 STEEM_SYMBOL; gpo_sbd_interest_rate := 0;
  gpo_sbd_print_rate := STEEMIT_100_PERCENT; gpo_maximum_block_size := 0;
  gpo_current_aslot := 0; gpo_recent_slots_filled := 0; gpo_participation_count := 0;
  gpo_last_irreversible_block_num := 0; gpo_vote_power_reserve_rate := 40
|}.
Definition dynamic_global_property_object_eta (r : dynamic_global_property_object) : dynamic_global_property_object :=
    Mk_dynamic_global_property_object (gpo_head_block_number r) (gpo_head_block_id r)
  (gpo_time r) (gpo_current_witness r) (gpo_total_pow r) (gpo_num_pow_witnesses r)
  (gpo_virtual_supply r) (gpo_current_supply r) (gpo_confidential_supply r)
  (gpo_current_sbd_supply r) (gpo_confidential_sbd_supply r) (gpo_total_vesting_fund_steem r)
  (gpo_total_vesting_shares r) (gpo_total_reward_fund_steem r) (gpo_total_reward_shares2 r)
  (gpo_pending_rewarded_vesting_shares r) (gpo_pending_rewarded_vesting_steem r)
  (gpo_sbd_interest_rate r) (gpo_sbd_print_rate r) (gpo_maximum_block_size r)
  (gpo_current_aslot r) (gpo_recent_slots_filled r) (gpo_participation_count r)
  (gpo_last_irreversible_block_num r) (gpo_vote_power_reserve_rate r).
Definition set_gpo_head_block_number : Z → dynamic_global_property_object → dynamic_global_property_object := ltac:(setter dynamic_global_property_object_eta gpo_head_block_number).
Definition set_gpo_head_block_id : string → dynamic_global_property_object → dynamic_global_property_object := ltac:(setter dynamic_global_property_object_eta gpo_head_block_id).
Definition set_gpo_time : Z → dynamic_global_property_object → dynamic_global_property_object := ltac:(setter dynamic_global_property_object_eta gpo_time).
Definition set_gpo_current_witness : string → dynamic_global_property_object → dynamic_global_property_object := ltac:(setter dynamic_global_property_object_eta gpo_current_witness).
Definition set_gpo_total_pow : Z → dynamic_global_property_object → dynamic_global_property_object := ltac:(setter dynamic_global_property_object_eta gpo_total_pow).
Definition set_gpo_num_pow_witnesses : Z → dynamic_global_property_object → dynamic_global_property_object := ltac:(setter dynamic_global_property_object_eta gpo_num_pow_witnesses).
Definition set_gpo_virtual_supply : asset → dynamic_global_property_object → dynamic_global_property_object := ltac:(setter dynamic_global_property_object_eta gpo_virtual_supply).
Definition set_gpo_current_supply : asset → dynamic_global_property_object → dynamic_global_property_object := ltac:(setter dynamic_global_property_object_eta gpo_current_supply).
Definition set_gpo_confidential_supply : asset → dynamic_global_property_object → dynamic_global_property_object := ltac:(setter dynamic_global_property_object_eta gpo_confidential_supply).
Definition set_gpo_current_sbd_supply : asset → dynamic_global_property_object → dynamic_global_property_object := ltac:(setter dynamic_global_property_object_eta gpo_current_sbd_supply).
Definition set_gpo_confidential_sbd_supply : asset → dynamic_global_property_object → dynamic_global_property_object := ltac:(setter dynamic_global_property_object_eta gpo_confidential_sbd_supply).
Definition set_gpo_total_vesting_fund_steem : asset → dynamic_global_property_object → dynamic_global_property_object := ltac:(setter dynamic_global_property_object_eta gpo_total_vesting_fund_steem).
Definition set_gpo_total_vesting_shares : asset → dynamic_global_property_object → dynamic_global_property_object := ltac:(setter dynamic_global_property_object_eta gpo_total_vesting_shares).
Definition set_gpo_total_reward_fund_steem : asset → dynamic_global_property_object → dynamic_global_property_object := ltac:(setter dynamic_global_property_object_eta gpo_total_reward_fund_steem).
Definition set_gpo_total_reward_shares2 : Z → dynamic_global_property_object → dynamic_global_property_object := ltac:(setter dynamic_global_property_object_eta gpo_total_reward_shares2).
Definition set_gpo_pending_rewarded_vesting_shares : asset → dynamic_global_property_object → dynamic_global_property_object := ltac:(setter dynamic_global_property_object_eta gpo_pending_rewarded_vesting_shares).
Definition set_gpo_pending_rewarded_vesting_steem : asset → dynamic_global_property_object → dynamic_global_property_object := ltac:(setter dynamic_global_property_object_eta gpo_pending_rewarded_vesting_steem).
Definition set_gpo_sbd_interest_rate : Z → dynamic_global_property_object → dynamic_global_property_object := ltac:(setter dynamic_global_property_object_eta gpo_sbd_interest_rate).
Definition set_gpo_sbd_print_rate : Z → dynamic_global_property_object → dynamic_global_property_object := ltac:(setter dynamic_global_property_object_eta gpo_sbd_print_rate).
Definition set_gpo_maximum_block_size : Z → dynamic_global_property_object → dynamic_global_property_object := ltac:(setter dynamic_global_property_object_eta gpo_maximum_block_size).
Definition set_gpo_current_aslot : Z → dynamic_global_property_object → dynamic_global_property_object := ltac:(setter dynamic_global_property_object_eta gpo_current_aslot).
Definition set_gpo_recent_slots_filled : Z → dynamic_global_property_object → dynamic_global_property_object := ltac:(setter dynamic_global_property_object_eta gpo_recent_slots_filled).
Definition set_gpo_participation_count : Z → dynamic_global_property_object → dynamic_global_property_object := ltac:(setter dynamic_global_property_object_eta gpo_participation_count).
Definition set_gpo_last_irreversible_block_num : Z → dynamic_global_property_object → dynamic_global_property_object := ltac:(setter dynamic_global_property_object_eta gpo_last_irreversible_block_num).
Definition set_gpo_vote_power_reserve_rate : Z → dynamic_global_property_object → dynamic_global_property_object := ltac:(setter dynamic_global_property_object_eta gpo_vote_power_reserve_rate).

(** [witness_schedule_object], a singleton. *)
Record witness_schedule_object := Mk_witness_schedule_object {
  wso_current_virtual_time : Z; wso_next_shuffle_block_num : Z;
  wso_current_shuffled_witnesses : list string; wso_num_scheduled_witnesses : Z;
  wso_top19_weight : Z; wso_timeshare_weight : Z; wso_miner_weight : Z;
  wso_witness_pay_normalization_factor : Z; wso_median_props : chain_properties;
  wso_majority_version : Z; wso_max_voted_witnesses : Z; wso_max_miner_witnesses : Z;
  wso_max_runner_witnesses : Z; wso_hardfork_required_witnesses : Z
}.
Definition witness_schedule_object_default : witness_schedule_object := {|
  wso_current_virtual_time := 0; wso_next_shuffle_block_num := 1;
  wso_current_shuffled_witnesses := replicate 21 EmptyString; wso_num_scheduled_witnesses := 1;
  wso_top19_weight := 1; wso_timeshare_weight := 5; wso_miner_weight := 1;
  wso_witness_pay_normalization_factor := 25; wso_median_props := chain_properties_default;
  wso_majority_version := 0; wso_max_voted_witnesses := 19; wso_max_miner_witnesses := 1;
  wso_max_runner_witnesses := 1; wso_hardfork_required_witnesses := 17
|}.
Definition witness_schedule_object_eta (r : witness_schedule_object) : witness_schedule_object :=
    Mk_witness_schedule_object (wso_current_virtual_time r) (wso_next_shuffle_block_num r)
  (wso_current_shuffled_witnesses r) (wso_num_scheduled_witnesses r) (wso_top19_weight r)
  (wso_timeshare_weight r) (wso_miner_weight r) (wso_witness_pay_normalization_factor r)
  (wso_median_props r) (wso_majority_version r) (wso_max_voted_witnesses r)
  (wso_max_miner_witnesses r) (wso_max_runner_witnesses r) (wso_hardfork_required_witnesses r).
Definition set_wso_current_virtual_time : Z → witness_schedule_object → witness_schedule_object := ltac:(setter witness_schedule_object_eta wso_current_virtual_time).
Definition set_wso_next_shuffle_block_num : Z → witness_schedule_object → witness_schedule_object := ltac:(setter witness_schedule_object_eta wso_next_shuffle_block_num).
Definition set_wso_current_shuffled_witnesses : (list string) → witness_schedule_object → witness_schedule_object := ltac:(setter witness_schedule_object_eta wso_current_shuffled_witnesses).
Definition set_wso_num_scheduled_witnesses : Z → witness_schedule_object → witness_schedule_object := ltac:(setter witness_schedule_object_eta wso_num_scheduled_witnesses).
Definition set_wso_top19_weight : Z → witness_schedule_object → witness_schedule_object := ltac:(setter witness_schedule_object_eta wso_top19_weight).
Definition set_wso_timeshare_weight : Z → witness_schedule_object → witness_schedule_object := ltac:(setter witness_schedule_object_eta wso_timeshare_weight).
Definition set_wso_miner_weight : Z → witness_schedule_object → witness_schedule_object := ltac:(setter witness_schedule_object_eta wso_miner_weight).
Definition set_wso_witness_pay_normalization_factor : Z → witness_schedule_object → witness_schedule_object := ltac:(setter witness_schedule_object_eta wso_witness_pay_normalization_factor).
Definition set_wso_median_props : chain_properties → witness_schedule_object → witness_schedule_object := ltac:(setter witness_schedule_object_eta wso_median_props).
Definition set_wso_majority_version : Z → witness_schedule_object → witness_schedule_object := ltac:(setter witness_schedule_object_eta wso_majority_version).
Definition set_wso_max_voted_witnesses : Z → witness_schedule_object → witness_schedule_object := ltac:(setter witness_schedule_object_eta wso_max_voted_witnesses).
Definition set_wso_max_miner_witnesses : Z → witness_schedule_object → witness_schedule_object := ltac:(setter witness_schedule_object_eta wso_max_miner_witnesses).
Definition set_wso_max_runner_witnesses : Z → witness_schedule_object → witness_schedule_object := ltac:(setter witness_schedule_object_eta wso_max_runner_witnesses).
Definition set_wso_hardfork_required_witnesses : Z → witness_schedule_object → witness_schedule_object := ltac:(setter witness_schedule_object_eta wso_hardfork_required_witnesses).

(** [hardfork_property_object] of [hardfork.d/0-preamble.hf], a singleton. *)
Record hardfork_property_object := Mk_hardfork_property_object {
  hpo_processed_hardforks : list Z; hpo_last_hardfork : Z; hpo_current_hardfork_version : Z;
  hpo_next_hardfork : Z; hpo_next_hardfork_time : Z
}.
Definition hardfork_property_object_default : hardfork_property_object := {|
  hpo_processed_hardforks := []; hpo_last_hardfork := 0; hpo_current_hardfork_version := 0;
  hpo_next_hardfork := 0; hpo_next_hardfork_time := 0
|}.
Definition hardfork_property_object_eta (r : hardfork_property_object) : hardfork_property_object :=
    Mk_hardfork_property_object (hpo_processed_hardforks r) (hpo_last_hardfork r)
  (hpo_current_hardfork_version r) (hpo_next_hardfork r) (hpo_next_hardfork_time r).
Definition set_hpo_processed_hardforks : (list Z) → hardfork_property_object → hardfork_property_object := ltac:(setter hardfork_property_object_eta hpo_processed_hardforks).
Definition set_hpo_last_hardfork : Z → hardfork_property_object → hardfork_property_object := ltac:(setter hardfork_property_object_eta hpo_last_hardfork).
Definition set_hpo_current_hardfork_version : Z → hardfork_property_object → hardfork_property_object := ltac:(setter hardfork_property_object_eta hpo_current_hardfork_version).
Definition set_hpo_next_hardfork : Z → hardfork_property_object → hardfork_property_object := ltac:(setter hardfork_property_object_eta hpo_next_hardfork).
Definition set_hpo_next_hardfork_time : Z → hardfork_property_object → hardfork_property_object := ltac:(setter hardfork_property_object_eta hpo_next_hardfork_time).

(** The virtual operations the modelled code issues
    ([steem_virtual_operations.hpp]). *)
Inductive virtual_operation :=
| interest_operation (owner : string) (interest : asset)
| fill_convert_request_operation (owner : string) (requestid : Z) (amount_in amount_out : asset)
| fill_order_operation (current_owner : string) (current_orderid : Z) (current_pays : asset)
    (open_owner : string) (open_orderid : Z) (open_pays : asset)
| fill_transfer_from_savings_operation (from to : string) (amount : asset) (request_id : Z) (memo : string)
| fill_vesting_withdraw_operation (from_account to_account : string) (withdrawn deposited : asset)
| return_vesting_delegation_operation (account : string) (vesting_shares : asset)
| liquidity_reward_operation (owner : string) (payout : asset)
| producer_reward_operation (producer : string) (vesting_shares : asset)
| author_reward_operation (author permlink : string) (sbd_payout steem_payout vesting_payout : asset)
| curation_reward_operation (curator : string) (reward : asset) (comment_author comment_permlink : string)
| comment_reward_operation (author permlink : string) (payout : asset)
| comment_payout_update_operation (author permlink : string)
| comment_benefactor_reward_operation (benefactor author permlink : string) (reward : asset)
| shutdown_witness_operation (owner : string)
| hardfork_operation (hardfork_id : Z).

(** The chain state: one table per object type, the singleton objects and the
    virtual operations issued so far (the notifications of
    [push_virtual_operation]). *)
Record database := Mk_database {
  db_accounts : Abs.snap account_object; db_authorities : Abs.snap account_authority_object;
  db_delegations : Abs.snap vesting_delegation_object;
  db_expirations : Abs.snap vesting_delegation_expiration_object;
  db_owner_histories : Abs.snap owner_authority_history_object;
  db_recovery_requests : Abs.snap account_recovery_request_object;
  db_change_recovery_requests : Abs.snap change_recovery_account_request_object;
  db_convert_requests : Abs.snap convert_request_object; db_escrows : Abs.snap escrow_object;
  db_savings_withdraws : Abs.snap savings_withdraw_object;
  db_liquidity_balances : Abs.snap liquidity_reward_balance_object;
  db_limit_orders : Abs.snap limit_order_object;
  db_withdraw_routes : Abs.snap withdraw_vesting_route_object;
  db_decline_requests : Abs.snap decline_voting_rights_request_object;
  db_reward_funds : Abs.snap reward_fund_object; db_witnesses : Abs.snap witness_object;
  db_witness_votes : Abs.snap witness_vote_object; db_comments : Abs.snap comment_object;
  db_comment_votes : Abs.snap comment_vote_object;
  db_transactions : Abs.snap transaction_object; db_gpo : dynamic_global_property_object;
  db_median_history : price; db_price_history : list price; db_wso : witness_schedule_object;
  db_hpo : hardfork_property_object; db_block_summaries : gmap Z string;
  db_virtual_ops : list virtual_operation
}.
Definition database_eta (r : database) : database :=
    Mk_database (db_accounts r) (db_authorities r) (db_delegations r) (db_expirations r)
  (db_owner_histories r) (db_recovery_requests r) (db_change_recovery_requests r)
  (db_convert_requests r) (db_escrows r) (db_savings_withdraws r) (db_liquidity_balances r)
  (db_limit_orders r) (db_withdraw_routes r) (db_decline_requests r) (db_reward_funds r)
  (db_witnesses r) (db_witness_votes r) (db_comments r) (db_comment_votes r)
  (db_transactions r) (db_gpo r) (db_median_history r) (db_price_history r) (db_wso r)
  (db_hpo r) (db_block_summaries r) (db_virtual_ops r).
Definition set_db_accounts : (Abs.snap account_object) → database → database := ltac:(setter database_eta db_accounts).
Definition set_db_authorities : (Abs.snap account_authority_object) → database → database := ltac:(setter database_eta db_authorities).
Definition set_db_delegations : (Abs.snap vesting_delegation_object) → database → database := ltac:(setter database_eta db_delegations).
Definition set_db_expirations : (Abs.snap vesting_delegation_expiration_object) → database → database := ltac:(setter database_eta db_expirations).
Definition set_db_owner_histories : (Abs.snap owner_authority_history_object) → database → database := ltac:(setter database_eta db_owner_histories).
Definition set_db_recovery_requests : (Abs.snap account_recovery_request_object) → database → database := ltac:(setter database_eta db_recovery_requests).
Definition set_db_change_recovery_requests : (Abs.snap change_recovery_account_request_object) → database → database := ltac:(setter database_eta db_change_recovery_requests).
Definition set_db_convert_requests : (Abs.snap convert_request_object) → database → database := ltac:(setter database_eta db_convert_requests).
Definition set_db_escrows : (Abs.snap escrow_object) → database → database := ltac:(setter database_eta db_escrows).
Definition set_db_savings_withdraws : (Abs.snap savings_withdraw_object) → database → database := ltac:(setter database_eta db_savings_withdraws).
Definition set_db_liquidity_balances : (Abs.snap liquidity_reward_balance_object) → database → database := ltac:(setter database_eta db_liquidity_balances).
Definition set_db_limit_orders : (Abs.snap limit_order_object) → database → database := ltac:(setter database_eta db_limit_orders).
Definition set_db_withdraw_routes : (Abs.snap withdraw_vesting_route_object) → database → database := ltac:(setter database_eta db_withdraw_routes).
Definition set_db_decline_requests : (Abs.snap decline_voting_rights_request_object) → database → database := ltac:(setter database_eta db_decline_requests).
Definition set_db_reward_funds : (Abs.snap reward_fund_object) → database → database := ltac:(setter database_eta db_reward_funds).
Definition set_db_witnesses : (Abs.snap witness_object) → database → database := ltac:(setter database_eta db_witnesses).
Definition set_db_witness_votes : (Abs.snap witness_vote_object) → database → database := ltac:(setter database_eta db_witness_votes).
Definition set_db_comments : (Abs.snap comment_object) → database → database := ltac:(setter database_eta db_comments).
Definition set_db_comment_votes : (Abs.snap comment_vote_object) → database → database := ltac:(setter database_eta db_comment_votes).
Definition set_db_transactions : (Abs.snap transaction_object) → database → database := ltac:(setter database_eta db_transactions).
Definition set_db_gpo : dynamic_global_property_object → database → database := ltac:(setter database_eta db_gpo).
Definition set_db_median_history : price → database → database := ltac:(setter database_eta db_median_history).
Definition set_db_price_history : (list price) → database → database := ltac:(setter database_eta db_price_history).
Definition set_db_wso : witness_schedule_object → database → database := ltac:(setter database_eta db_wso).
Definition set_db_hpo : hardfork_property_object → database → database := ltac:(setter database_eta db_hpo).
Definition set_db_block_summaries : (gmap Z string) → database → database := ltac:(setter database_eta db_block_summaries).
Definition set_db_virtual_ops : (list virtual_operation) → database → database := ltac:(setter database_eta db_virtual_ops).

(** [get_index<T>()] *)
Class Table (A : Type) := {
  tbl : database → Abs.snap A;
  set_tbl : Abs.snap A → database → database;
}.
#[export] Instance accounts_table : Table account_object := {| tbl := db_accounts; set_tbl := set_db_accounts |}.
#[export] Instance authorities_table : Table account_authority_object := {| tbl := db_authorities; set_tbl := set_db_authorities |}.
#[export] Instance delegations_table : Table vesting_delegation_object := {| tbl := db_delegations; set_tbl := set_db_delegations |}.
#[export] Instance expirations_table : Table vesting_delegation_expiration_object := {| tbl := db_expirations; set_tbl := set_db_expirations |}.
#[export] Instance owner_histories_table : Table owner_authority_history_object := {| tbl := db_owner_histories; set_tbl := set_db_owner_histories |}.
#[export] Instance recovery_requests_table : Table account_recovery_request_object := {| tbl := db_recovery_requests; set_tbl := set_db_recovery_requests |}.
#[export] Instance change_recovery_requests_table : Table change_recovery_account_request_object := {| tbl := db_change_recovery_requests; set_tbl := set_db_change_recovery_requests |}.
#[export] Instance convert_requests_table : Table convert_request_object := {| tbl := db_convert_requests; set_tbl := set_db_convert_requests |}.
#[export] Instance escrows_table : Table escrow_object := {| tbl := db_escrows; set_tbl := set_db_escrows |}.
#[export] Instance savings_withdraws_table : Table savings_withdraw_object := {| tbl := db_savings_withdraws; set_tbl := set_db_savings_withdraws |}.
#[export] Instance liquidity_balances_table : Table liquidity_reward_balance_object := {| tbl := db_liquidity_balances; set_tbl := set_db_liquidity_balances |}.
#[export] Instance limit_orders_table : Table limit_order_object := {| tbl := db_limit_orders; set_tbl := set_db_limit_orders |}.
#[export] Instance withdraw_routes_table : Table withdraw_vesting_route_object := {| tbl := db_withdraw_routes; set_tbl := set_db_withdraw_routes |}.
#[export] Instance decline_requests_table : Table decline_voting_rights_request_object := {| tbl := db_decline_requests; set_tbl := set_db_decline_requests |}.
#[export] Instance reward_funds_table : Table reward_fund_object := {| tbl := db_reward_funds; set_tbl := set_db_reward_funds |}.
#[export] Instance witnesses_table : Table witness_object := {| tbl := db_witnesses; set_tbl := set_db_witnesses |}.
#[export] Instance witness_votes_table : Table witness_vote_object := {| tbl := db_witness_votes; set_tbl := set_db_witness_votes |}.
#[export] Instance comments_table : Table comment_object := {| tbl := db_comments; set_tbl := set_db_comments |}.
#[export] Instance comment_votes_table : Table comment_vote_object := {| tbl := db_comment_votes; set_tbl := set_db_comment_votes |}.
#[export] Instance transactions_table : Table transaction_object := {| tbl := db_transactions; set_tbl := set_db_transactions |}.

(** What is stored in a table is what is read from it. *)
Class TableLaws (A : Type) `{Table A} := tbl_set : ∀ s db, tbl (set_tbl (A := A) s db) = s.
#[export] Instance accounts_table_laws : TableLaws account_object.
Proof. done. Qed.
#[export] Instance authorities_table_laws : TableLaws account_authority_object.
Proof. done. Qed.
#[export] Instance delegations_table_laws : TableLaws vesting_delegation_object.
Proof. done. Qed.
#[export] Instance expirations_table_laws : TableLaws vesting_delegation_expiration_object.
Proof. done. Qed.
#[export] Instance owner_histories_table_laws : TableLaws owner_authority_history_object.
Proof. done. Qed.
#[export] Instance recovery_requests_table_laws : TableLaws account_recovery_request_object.
Proof. done. Qed.
#[export] Instance change_recovery_requests_table_laws : TableLaws change_recovery_account_request_object.
Proof. done. Qed.
#[export] Instance convert_requests_table_laws : TableLaws convert_request_object.
Proof. done. Qed.
#[export] Instance escrows_table_laws : TableLaws escrow_object.
Proof. done. Qed.
#[export] Instance savings_withdraws_table_laws : TableLaws savings_withdraw_object.
Proof. done. Qed.
#[export] Instance liquidity_balances_table_laws : TableLaws liquidity_reward_balance_object.
Proof. done. Qed.
#[export] Instance limit_orders_table_laws : TableLaws limit_order_object.
Proof. done. Qed.
#[export] Instance withdraw_routes_table_laws : TableLaws withdraw_vesting_route_object.
Proof. done. Qed.
#[export] Instance decline_requests_table_laws : TableLaws decline_voting_rights_request_object.
Proof. done. Qed.
#[export] Instance reward_funds_table_laws : TableLaws reward_fund_object.
Proof. done. Qed.
#[export] Instance witnesses_table_laws : TableLaws witness_object.
Proof. done. Qed.
#[export] Instance witness_votes_table_laws : TableLaws witness_vote_object.
Proof. done. Qed.
#[export] Instance comments_table_laws : TableLaws comment_object.
Proof. done. Qed.
#[export] Instance comment_votes_table_laws : TableLaws comment_vote_object.
Proof. done. Qed.
#[export] Instance transactions_table_laws : TableLaws transaction_object.
Proof. done. Qed.

(** The number of processed hardforks. *)
Definition db_processed_hardforks (db : database) : Z :=
  Z.of_nat (length (hpo_processed_hardforks (db_hpo db))).

(** A database in which nothing was created yet. *)
Definition empty_table {A} : Abs.snap A := Abs.Snap ∅ 0.
Definition empty_database : database := {|
  db_accounts := empty_table; db_authorities := empty_table; db_delegations := empty_table;
  db_expirations := empty_table; db_owner_histories := empty_table;
  db_recovery_requests := empty_table; db_change_recovery_requests := empty_table;
  db_convert_requests := empty_table; db_escrows := empty_table;
  db_savings_withdraws := empty_table; db_liquidity_balances := empty_table;
  db_limit_orders := empty_table; db_withdraw_routes := empty_table;
  db_decline_requests := empty_table; db_reward_funds := empty_table;
  db_witnesses := empty_table; db_witness_votes := empty_table; db_comments := empty_table;
  db_comment_votes := empty_table; db_gpo := dynamic_global_property_object_default;
  db_median_history := Price asset_default asset_default; db_price_history := [];
  db_wso := witness_schedule_object_default; db_hpo := hardfork_property_object_default;
  db_transactions := empty_table; db_block_summaries := ∅; db_virtual_ops := []
|}.
