(* ===== verification/Authorities.v ===== *)
(** * Building authorities

    The functions of protocol/authority.hpp and protocol/authority.cpp that build and
    compare an [authority] key by key.  A [flat_map] is the list of its entries in
    the order of the keys, which is an argument here: public keys have an order of
    their own. *)
From S2P Require Import Prelude Fc Config Asset Chainbase ChainbaseSpec Objects.

(** [map[k] = w] *)
Fixpoint flat_map_set (ltb : string → string → bool) (k : string) (w : Z) (l : list (string * Z)) : list (string * Z) :=
  match l with
  | [] => [(k, w)]
  | (k', w') :: l' =>
      if ltb k' k then (k', w') :: flat_map_set ltb k w l'
      else if ltb k k' then (k, w) :: l else (k', w) :: l'
  end.
Definition add_key_authority (key_ltb : string → string → bool) (k : string) (w : Z) (a : authority) : authority :=
  Authority (weight_threshold a) (account_auths a) (flat_map_set key_ltb k w (key_auths a)).
Definition add_account_authority (k : string) (w : Z) (a : authority) : authority :=
  Authority (weight_threshold a) (flat_map_set String.ltb k w (account_auths a)) (key_auths a).
Definition get_keys (a : authority) : list string := (key_auths a).*1.
Definition authority_clear (a : authority) : authority := Authority (weight_threshold a) [] [].
Definition authority_eqb (a b : authority) : bool :=
  (weight_threshold a =? weight_threshold b) && bool_decide (account_auths a = account_auths b)
  && bool_decide (key_auths a = key_auths b).
Definition add_authority_accounts (result : gset string) (a : authority) : gset string :=
  foldl (λ r item, r ∪ {[item.1]}) result (account_auths a).

Lemma authority_eqb_spec a b : authority_eqb a b = true ↔ a = b.
Proof.
  unfold authority_eqb. rewrite !andb_true_iff, Z.eqb_eq, !bool_decide_eq_true. destruct a, b; cbn. naive_solver.
Qed.
Lemma add_authority_accounts_spec r a x : x ∈ add_authority_accounts r a ↔ x ∈ r ∨ x ∈ (account_auths a).*1.
Proof.
  unfold add_authority_accounts. revert r. induction (account_auths a) as [|[k w] l IH]; intros r; cbn; [set_solver|].
  rewrite IH. set_solver.
Qed.

Section flat_map.
Context (ltb : string → string → bool) (ltb_irrefl : ∀ x, ltb x x = false)
  (ltb_trans : ∀ x y z, ltb x y = true → ltb y z = true → ltb x z = true)
  (ltb_total : ∀ x y, ltb x y = false → ltb y x = false → x = y).

(** The entries are in order, and the last value set for a key is the one found. *)
Fixpoint sorted_entries (l : list (string * Z)) : Prop :=
  match l with [] => True | (k, _) :: l' => Forall (λ e, ltb k e.1 = true) l' ∧ sorted_entries l' end.
Lemma flat_map_set_entries k w l e :
  sorted_entries l → e ∈ flat_map_set ltb k w l ↔ e = (k, w) ∨ e ∈ l ∧ e.1 ≠ k.
Proof.
  induction l as [|[k' w'] l IH]; cbn; [intros _; rewrite list_elem_of_singleton; set_solver|]. intros [Hk Hl].
  rewrite Forall_forall in Hk. assert (∀ e, e ∈ l → e.1 ≠ k').
  { intros e' He' E1. apply Hk in He'. by rewrite E1, ltb_irrefl in He'. }
  destruct (ltb k' k) eqn:E1.
  - rewrite !elem_of_cons, IH by done. assert (k' ≠ k) by (intros ->; by rewrite ltb_irrefl in E1). naive_solver.
  - destruct (ltb k k') eqn:E2.
    + rewrite !elem_of_cons. assert (∀ e, e ∈ l → e.1 ≠ k).
      { intros e' He' <-. apply Hk in He'. by rewrite (ltb_trans _ _ _ E2 He') in E1 || by rewrite He' in E1. }
      assert (k' ≠ k) by (intros ->; by rewrite ltb_irrefl in E2). naive_solver.
    + assert (k' = k) as -> by auto. rewrite !elem_of_cons. naive_solver.
Qed.
Lemma flat_map_set_in_order k w l : sorted_entries l → sorted_entries (flat_map_set ltb k w l).
Proof.
  induction l as [|[k' w'] l IH]; cbn; [done|]. intros [Hk Hl]. destruct (ltb k' k) eqn:E1; cbn.
  - split; [|by apply IH]. apply Forall_forall. intros e [->|[He _]]%flat_map_set_entries; [done| |done].
    rewrite Forall_forall in Hk. by apply Hk.
  - destruct (ltb k k') eqn:E2; cbn; [|done]. split; [|done]. constructor; [done|].
    eapply Forall_impl; [exact Hk|]. intros e He. by eapply ltb_trans.
Qed.
End flat_map.
