(* ===== verification/Protocol.v ===== *)
(** * Operations and their stateless checks

    The operations of protocol/steem_operations.hpp and their [validate]
    functions of protocol/steem_operations.cpp, with [authority::validate] and
    [authority::is_impossible] of protocol/authority.cpp.  Field names carry a
    prefix per operation. *)
From S2P Require Import Prelude Fc Config Asset Chainbase ChainbaseSpec Objects Names.

Definition is_asset_type (a : asset) (sym : Z) : bool := symbol a =? sym.

(** [authority::is_impossible()]: a 64-bit sum of the weights. *)
Definition is_impossible (a : authority) : bool :=
  let auth_weights :=
    foldl (λ s p, to_uint64 (s + p.2)) (foldl (λ s p, to_uint64 (s + p.2)) 0 (account_auths a))
      (key_auths a) in
  auth_weights <? weight_threshold a.

Definition authority_validate (a : authority) : result unit :=
  rfoldl (λ _ item, FC_ASSERT (is_valid_account_name item.1) "is_valid_account_name( item.first )")
    (account_auths a) tt.

Section operations.
Context {F : Fc}.

Definition validate_permlink (permlink : string) : result unit :=
  FC_ASSERT (Z.of_nat (String.length permlink) <? STEEMIT_MAX_PERMLINK_LENGTH) "permlink is too long";;
  FC_ASSERT (is_utf8 permlink) "permlink not formatted in UTF8".

Definition validate_json (json_metadata : string) : result unit :=
  if (0 <? String.length json_metadata)%nat then
    FC_ASSERT (is_utf8 json_metadata) "JSON Metadata not formatted in UTF8";;
    FC_ASSERT (json_is_valid json_metadata) "JSON Metadata not valid JSON"
  else mret tt.

Definition validate_memo (memo : string) : result unit :=
  FC_ASSERT (Z.of_nat (String.length memo) <? STEEMIT_MAX_MEMO_SIZE) "Memo is too large";;
  FC_ASSERT (is_utf8 memo) "Memo is not UTF8".

Definition chain_properties_validate (p : chain_properties) : result unit :=
  FC_ASSERT (STEEMIT_MIN_ACCOUNT_CREATION_FEE <=? amount (account_creation_fee p)) "account_creation_fee.amount";;
  FC_ASSERT (STEEMIT_MIN_BLOCK_SIZE_LIMIT <=? maximum_block_size p) "maximum_block_size";;
  FC_ASSERT (0 <=? sbd_interest_rate p) "sbd_interest_rate >= 0";;
  FC_ASSERT (sbd_interest_rate p <=? STEEMIT_100_PERCENT) "sbd_interest_rate".

(** ** Accounts *)
Record account_create_operation := AccountCreate {
  ac_fee : asset; ac_creator : string; ac_new_account_name : string; ac_owner : authority;
  ac_active : authority; ac_posting : authority; ac_memo_key : string; ac_json_metadata : string }.
Definition account_create_validate (o : account_create_operation) : result unit :=
  validate_account_name (ac_new_account_name o);;
  FC_ASSERT (is_asset_type (ac_fee o) STEEM_SYMBOL) "Account creation fee must be STEEM";;
  authority_validate (ac_owner o);;
  authority_validate (ac_active o);;
  validate_json (ac_json_metadata o);;
  ge ← asset_ge (ac_fee o) (Asset 0 STEEM_SYMBOL);
  FC_ASSERT ge "Account creation fee cannot be negative".

Record account_create_with_delegation_operation := AccountCreateWithDelegation {
  acd_fee : asset; acd_delegation : asset; acd_creator : string; acd_new_account_name : string;
  acd_owner : authority; acd_active : authority; acd_posting : authority; acd_memo_key : string;
  acd_json_metadata : string }.
Definition account_create_with_delegation_validate
    (o : account_create_with_delegation_operation) : result unit :=
  validate_account_name (acd_new_account_name o);;
  validate_account_name (acd_creator o);;
  FC_ASSERT (is_asset_type (acd_fee o) STEEM_SYMBOL) "Account creation fee must be STEEM";;
  FC_ASSERT (is_asset_type (acd_delegation o) VESTS_SYMBOL) "Delegation must be VESTS";;
  authority_validate (acd_owner o);;
  authority_validate (acd_active o);;
  authority_validate (acd_posting o);;
  validate_json (acd_json_metadata o);;
  ge ← asset_ge (acd_fee o) (Asset 0 STEEM_SYMBOL);
  FC_ASSERT ge "Account creation fee cannot be negative";;
  ge' ← asset_ge (acd_delegation o) (Asset 0 VESTS_SYMBOL);
  FC_ASSERT ge' "Delegation cannot be negative".

Record account_update_operation := AccountUpdate {
  au_account : string; au_owner : option authority; au_active : option authority;
  au_posting : option authority; au_memo_key : string; au_json_metadata : string }.
Definition account_update_validate (o : account_update_operation) : result unit :=
  validate_account_name (au_account o);;
  validate_json (au_json_metadata o).

(** ** Transfers and vesting *)
Record transfer_operation := Transfer {
  tr_from : string; tr_to : string; tr_amount : asset; tr_memo : string }.
Definition transfer_validate (o : transfer_operation) : result unit :=
  validate_account_name (tr_from o);;
  validate_account_name (tr_to o);;
  FC_ASSERT (negb (symbol (tr_amount o) =? VESTS_SYMBOL))
    "transferring of Steem Power (STMP) is not allowed.";;
  FC_ASSERT (0 <? amount (tr_amount o)) "Cannot transfer a negative amount (aka: stealing)";;
  validate_memo (tr_memo o).

Record transfer_to_vesting_operation := TransferToVesting {
  tv_from : string; tv_to : string; tv_amount : asset }.
Definition transfer_to_vesting_validate (o : transfer_to_vesting_operation) : result unit :=
  validate_account_name (tv_from o);;
  FC_ASSERT (is_asset_type (tv_amount o) STEEM_SYMBOL) "Amount must be STEEM";;
  (if bool_decide (tv_to o = EmptyString) then mret tt else validate_account_name (tv_to o));;
  gt ← asset_gt (tv_amount o) (Asset 0 STEEM_SYMBOL);
  FC_ASSERT gt "Must transfer a nonzero amount".

Record withdraw_vesting_operation := WithdrawVesting {
  wdv_account : string; wdv_vesting_shares : asset }.
Definition withdraw_vesting_validate (o : withdraw_vesting_operation) : result unit :=
  validate_account_name (wdv_account o);;
  FC_ASSERT (is_asset_type (wdv_vesting_shares o) VESTS_SYMBOL) "Amount must be VESTS".

Record set_withdraw_vesting_route_operation := SetWithdrawVestingRoute {
  swr_from_account : string; swr_to_account : string; swr_percent : Z; swr_auto_vest : bool }.
Definition set_withdraw_vesting_route_validate
    (o : set_withdraw_vesting_route_operation) : result unit :=
  validate_account_name (swr_from_account o);;
  validate_account_name (swr_to_account o);;
  FC_ASSERT ((0 <=? swr_percent o) && (swr_percent o <=? STEEMIT_100_PERCENT))
    "Percent must be valid steemit percent".

Record claim_reward_balance_operation := ClaimRewardBalance {
  crb_account : string; crb_reward_steem : asset; crb_reward_sbd : asset; crb_reward_vests : asset }.
Definition claim_reward_balance_validate (o : claim_reward_balance_operation) : result unit :=
  validate_account_name (crb_account o);;
  FC_ASSERT (is_asset_type (crb_reward_steem o) STEEM_SYMBOL) "Reward Steem must be STEEM";;
  FC_ASSERT (is_asset_type (crb_reward_sbd o) SBD_SYMBOL) "Reward Steem must be SBD";;
  FC_ASSERT (is_asset_type (crb_reward_vests o) VESTS_SYMBOL) "Reward Steem must be VESTS";;
  FC_ASSERT (0 <=? amount (crb_reward_steem o)) "Cannot claim a negative amount";;
  FC_ASSERT (0 <=? amount (crb_reward_sbd o)) "Cannot claim a negative amount";;
  FC_ASSERT (0 <=? amount (crb_reward_vests o)) "Cannot claim a negative amount";;
  FC_ASSERT ((0 <? amount (crb_reward_steem o)) || (0 <? amount (crb_reward_sbd o))
             || (0 <? amount (crb_reward_vests o))) "Must claim something.".

Record delegate_vesting_shares_operation := DelegateVestingShares {
  dvs_delegator : string; dvs_delegatee : string; dvs_vesting_shares : asset }.
Definition delegate_vesting_shares_validate (o : delegate_vesting_shares_operation) : result unit :=
  validate_account_name (dvs_delegator o);;
  validate_account_name (dvs_delegatee o);;
  FC_ASSERT (negb (bool_decide (dvs_delegator o = dvs_delegatee o)))
    "You cannot delegate VESTS to yourself";;
  FC_ASSERT (is_asset_type (dvs_vesting_shares o) VESTS_SYMBOL) "Delegation must be VESTS";;
  ge ← asset_ge (dvs_vesting_shares o) (Asset 0 VESTS_SYMBOL);
  FC_ASSERT ge "Delegation cannot be negative".

(** ** Savings *)
Record transfer_to_savings_operation := TransferToSavings {
  tts_from : string; tts_to : string; tts_amount : asset; tts_memo : string }.
Definition transfer_to_savings_validate (o : transfer_to_savings_operation) : result unit :=
  validate_account_name (tts_from o);;
  validate_account_name (tts_to o);;
  FC_ASSERT (0 <? amount (tts_amount o)) "amount.amount > 0";;
  FC_ASSERT ((symbol (tts_amount o) =? STEEM_SYMBOL) || (symbol (tts_amount o) =? SBD_SYMBOL))
    "amount.symbol";;
  validate_memo (tts_memo o).

Record transfer_from_savings_operation := TransferFromSavings {
  tfs_from : string; tfs_request_id : Z; tfs_to : string; tfs_amount : asset; tfs_memo : string }.
Definition transfer_from_savings_validate (o : transfer_from_savings_operation) : result unit :=
  validate_account_name (tfs_from o);;
  validate_account_name (tfs_to o);;
  FC_ASSERT (0 <? amount (tfs_amount o)) "amount.amount > 0";;
  FC_ASSERT ((symbol (tfs_amount o) =? STEEM_SYMBOL) || (symbol (tfs_amount o) =? SBD_SYMBOL))
    "amount.symbol";;
  validate_memo (tfs_memo o).

Record cancel_transfer_from_savings_operation := CancelTransferFromSavings {
  cts_from : string; cts_request_id : Z }.
Definition cancel_transfer_from_savings_validate
    (o : cancel_transfer_from_savings_operation) : result unit :=
  validate_account_name (cts_from o).

(** ** The market *)
(** The two assets of an order or of a price feed. *)
Definition steem_sbd_market (a b : asset) : bool :=
  (is_asset_type a STEEM_SYMBOL && is_asset_type b SBD_SYMBOL)
  || (is_asset_type a SBD_SYMBOL && is_asset_type b STEEM_SYMBOL).

Record feed_publish_operation := FeedPublish {
  fp_publisher : string; fp_exchange_rate : price }.
Definition feed_publish_validate (o : feed_publish_operation) : result unit :=
  validate_account_name (fp_publisher o);;
  FC_ASSERT (steem_sbd_market (base (fp_exchange_rate o)) (quote (fp_exchange_rate o)))
    "Price feed must be a STEEM/SBD price";;
  price_validate (fp_exchange_rate o).

Record convert_operation := Convert { co_owner : string; co_requestid : Z; co_amount : asset }.
Definition convert_validate (o : convert_operation) : result unit :=
  validate_account_name (co_owner o);;
  FC_ASSERT (is_asset_type (co_amount o) SBD_SYMBOL) "Can only convert SBD to STEEM";;
  FC_ASSERT (0 <? amount (co_amount o)) "Must convert some SBD".

Record limit_order_create_operation := LimitOrderCreate {
  loc_owner : string; loc_orderid : Z; loc_amount_to_sell : asset; loc_min_to_receive : asset;
  loc_fill_or_kill : bool; loc_expiration : Z }.
Definition limit_order_get_price (o : limit_order_create_operation) : result price :=
  asset_div (loc_amount_to_sell o) (loc_min_to_receive o).
Definition limit_order_create_validate (o : limit_order_create_operation) : result unit :=
  validate_account_name (loc_owner o);;
  FC_ASSERT (steem_sbd_market (loc_amount_to_sell o) (loc_min_to_receive o))
    "Limit order must be for the STEEM:SBD market";;
  p ← asset_div (loc_amount_to_sell o) (loc_min_to_receive o);
  price_validate p.

Record limit_order_create2_operation := LimitOrderCreate2 {
  lo2_owner : string; lo2_orderid : Z; lo2_amount_to_sell : asset; lo2_fill_or_kill : bool;
  lo2_exchange_rate : price; lo2_expiration : Z }.
Definition limit_order_create2_validate (o : limit_order_create2_operation) : result unit :=
  validate_account_name (lo2_owner o);;
  FC_ASSERT (symbol (lo2_amount_to_sell o) =? symbol (base (lo2_exchange_rate o)))
    "Sell asset must be the base of the price";;
  price_validate (lo2_exchange_rate o);;
  FC_ASSERT (steem_sbd_market (lo2_amount_to_sell o) (quote (lo2_exchange_rate o)))
    "Limit order must be for the STEEM:SBD market";;
  r ← asset_mul (lo2_amount_to_sell o) (lo2_exchange_rate o);
  FC_ASSERT (0 <? amount r) "Amount to sell cannot round to 0 when traded".

Record limit_order_cancel_operation := LimitOrderCancel { lc_owner : string; lc_orderid : Z }.
Definition limit_order_cancel_validate (o : limit_order_cancel_operation) : result unit :=
  validate_account_name (lc_owner o).

(** ** Escrow *)
Record escrow_transfer_operation := EscrowTransfer {
  et_from : string; et_to : string; et_agent : string; et_escrow_id : Z; et_sbd_amount : asset;
  et_steem_amount : asset; et_fee : asset; et_ratification_deadline : Z;
  et_escrow_expiration : Z; et_json_meta : string }.
Definition escrow_transfer_validate (o : escrow_transfer_operation) : result unit :=
  validate_account_name (et_from o);;
  validate_account_name (et_to o);;
  validate_account_name (et_agent o);;
  FC_ASSERT (0 <=? amount (et_fee o)) "fee cannot be negative";;
  FC_ASSERT (0 <=? amount (et_sbd_amount o)) "sbd amount cannot be negative";;
  FC_ASSERT (0 <=? amount (et_steem_amount o)) "steem amount cannot be negative";;
  FC_ASSERT ((0 <? amount (et_sbd_amount o)) || (0 <? amount (et_steem_amount o)))
    "escrow must transfer a non-zero amount";;
  FC_ASSERT (negb (bool_decide (et_from o = et_agent o)) && negb (bool_decide (et_to o = et_agent o)))
    "agent must be a third party";;
  FC_ASSERT ((symbol (et_fee o) =? STEEM_SYMBOL) || (symbol (et_fee o) =? SBD_SYMBOL))
    "fee must be STEEM or SBD";;
  FC_ASSERT (symbol (et_sbd_amount o) =? SBD_SYMBOL) "sbd amount must contain SBD";;
  FC_ASSERT (symbol (et_steem_amount o) =? STEEM_SYMBOL) "steem amount must contain STEEM";;
  FC_ASSERT (et_ratification_deadline o <? et_escrow_expiration o)
    "ratification deadline must be before escrow expiration";;
  validate_json (et_json_meta o).

Record escrow_approve_operation := EscrowApprove {
  ea_from : string; ea_to : string; ea_agent : string; ea_who : string; ea_escrow_id : Z;
  ea_approve : bool }.
Definition escrow_approve_validate (o : escrow_approve_operation) : result unit :=
  validate_account_name (ea_from o);;
  validate_account_name (ea_to o);;
  validate_account_name (ea_agent o);;
  validate_account_name (ea_who o);;
  FC_ASSERT (bool_decide (ea_who o = ea_to o) || bool_decide (ea_who o = ea_agent o))
    "to or agent must approve escrow".

Record escrow_dispute_operation := EscrowDispute {
  ed_from : string; ed_to : string; ed_agent : string; ed_who : string; ed_escrow_id : Z }.
Definition escrow_dispute_validate (o : escrow_dispute_operation) : result unit :=
  validate_account_name (ed_from o);;
  validate_account_name (ed_to o);;
  validate_account_name (ed_agent o);;
  validate_account_name (ed_who o);;
  FC_ASSERT (bool_decide (ed_who o = ed_from o) || bool_decide (ed_who o = ed_to o))
    "who must be from or to".

Record escrow_release_operation := EscrowRelease {
  er_from : string; er_to : string; er_agent : string; er_who : string; er_receiver : string;
  er_escrow_id : Z; er_sbd_amount : asset; er_steem_amount : asset }.
Definition escrow_release_validate (o : escrow_release_operation) : result unit :=
  validate_account_name (er_from o);;
  validate_account_name (er_to o);;
  validate_account_name (er_agent o);;
  validate_account_name (er_who o);;
  validate_account_name (er_receiver o);;
  FC_ASSERT (bool_decide (er_who o = er_from o) || bool_decide (er_who o = er_to o)
             || bool_decide (er_who o = er_agent o)) "who must be from or to or agent";;
  FC_ASSERT (bool_decide (er_receiver o = er_from o) || bool_decide (er_receiver o = er_to o))
    "receiver must be from or to";;
  FC_ASSERT (0 <=? amount (er_sbd_amount o)) "sbd amount cannot be negative";;
  FC_ASSERT (0 <=? amount (er_steem_amount o)) "steem amount cannot be negative";;
  FC_ASSERT ((0 <? amount (er_sbd_amount o)) || (0 <? amount (er_steem_amount o)))
    "escrow must release a non-zero amount";;
  FC_ASSERT (symbol (er_sbd_amount o) =? SBD_SYMBOL) "sbd amount must contain SBD";;
  FC_ASSERT (symbol (er_steem_amount o) =? STEEM_SYMBOL) "steem amount must contain STEEM".

(** ** Witnesses and votes *)
Record witness_update_operation := WitnessUpdate {
  wu_owner : string; wu_url : string; wu_block_signing_key : string; wu_props : chain_properties;
  wu_fee : asset }.
Definition witness_update_validate (o : witness_update_operation) : result unit :=
  validate_account_name (wu_owner o);;
  FC_ASSERT (0 <? String.length (wu_url o))%nat "URL size must be greater than 0";;
  FC_ASSERT (is_utf8 (wu_url o)) "URL is not valid UTF8";;
  ge ← asset_ge (wu_fee o) (Asset 0 STEEM_SYMBOL);
  FC_ASSERT ge "Fee cannot be negative";;
  chain_properties_validate (wu_props o).

Record account_witness_vote_operation := AccountWitnessVote {
  awv_account : string; awv_witness : string; awv_approve : bool }.
Definition account_witness_vote_validate (o : account_witness_vote_operation) : result unit :=
  validate_account_name (awv_account o);;
  validate_account_name (awv_witness o).

Record account_witness_proxy_operation := AccountWitnessProxy {
  awp_account : string; awp_proxy : string }.
Definition account_witness_proxy_validate (o : account_witness_proxy_operation) : result unit :=
  validate_account_name (awp_account o);;
  (if bool_decide (awp_proxy o = EmptyString) then mret tt else validate_account_name (awp_proxy o));;
  FC_ASSERT (negb (bool_decide (awp_proxy o = awp_account o))) "Cannot proxy to self".

Record decline_voting_rights_operation := DeclineVotingRights {
  dvro_account : string; dvro_decline : bool }.
Definition decline_voting_rights_validate (o : decline_voting_rights_operation) : result unit :=
  validate_account_name (dvro_account o).

(** ** Account recovery *)
Record challenge_authority_operation := ChallengeAuthority {
  ca_challenger : string; ca_challenged : string; ca_require_owner : bool }.
Definition challenge_authority_validate (o : challenge_authority_operation) : result unit :=
  validate_account_name (ca_challenger o);;
  validate_account_name (ca_challenged o);;
  FC_ASSERT (negb (bool_decide (ca_challenged o = ca_challenger o))) "cannot challenge yourself".

Record prove_authority_operation := ProveAuthority {
  pa_challenged : string; pa_require_owner : bool }.
Definition prove_authority_validate (o : prove_authority_operation) : result unit :=
  validate_account_name (pa_challenged o).

Record request_account_recovery_operation := RequestAccountRecovery {
  rar_recovery_account : string; rar_account_to_recover : string;
  rar_new_owner_authority : authority }.
Definition request_account_recovery_validate (o : request_account_recovery_operation) : result unit :=
  validate_account_name (rar_recovery_account o);;
  validate_account_name (rar_account_to_recover o);;
  authority_validate (rar_new_owner_authority o).

Record recover_account_operation := RecoverAccount {
  ra_account_to_recover : string; ra_new_owner_authority : authority;
  ra_recent_owner_authority : authority }.
Definition recover_account_validate (o : recover_account_operation) : result unit :=
  validate_account_name (ra_account_to_recover o);;
  FC_ASSERT (negb (bool_decide (ra_new_owner_authority o = ra_recent_owner_authority o)))
    "Cannot set new owner authority to the recent owner authority";;
  FC_ASSERT (negb (is_impossible (ra_new_owner_authority o)))
    "new owner authority cannot be impossible";;
  FC_ASSERT (negb (is_impossible (ra_recent_owner_authority o)))
    "recent owner authority cannot be impossible";;
  FC_ASSERT (negb (weight_threshold (ra_new_owner_authority o) =? 0))
    "new owner authority cannot be trivial";;
  authority_validate (ra_new_owner_authority o);;
  authority_validate (ra_recent_owner_authority o).

Record change_recovery_account_operation := ChangeRecoveryAccount {
  cra_account_to_recover : string; cra_new_recovery_account : string }.
Definition change_recovery_account_validate (o : change_recovery_account_operation) : result unit :=
  validate_account_name (cra_account_to_recover o);;
  validate_account_name (cra_new_recovery_account o).
End operations.
