(* ===== verification/BlockHeader.v ===== *)
(** * Block headers

    [block_header] and [signed_block_header] of protocol/block_header.hpp and
    block.cpp.  The hash functions, the signatures and the binary packing are
    fc's: the class [Crypto] has the functions the sources call, with the few
    laws they rely on.  [crypto_model] is an instance for concrete runs. *)
From Stdlib Require Import Ascii.
From S2P Require Import Prelude Fc Config Asset Objects Protocol.

(** ** Headers *)

(** [block_header_extensions]: [void_t], [version] and [hardfork_version_vote],
    the versions as their [v_num]. *)
Inductive block_header_extension : Type :=
| ext_void
| ext_version (v_num : Z)
| ext_hardfork_version_vote (hf_version hf_time : Z).

Record block_header := BlockHeader {
  bh_previous : string;
  bh_timestamp : Z;
  bh_witness : string;
  bh_transaction_merkle_root : string;
  bh_extensions : list block_header_extension }.

Record signed_block_header := SignedBlockHeader {
  sbh_header : block_header;
  sbh_witness_signature : string }.

(** ** What the sources use of fc *)

(** A hash is a byte string whose first four bytes are the word [_hash[0]], the
    next four [_hash[1]]; a [sha256] used as a number is a [Z]. *)
Class Crypto := {
  (** [fc::sha256::hash( t )], [fc::sha224::hash( t )], which is only used on
      headers, and [fc::ripemd160::hash( t )]; they pack their argument *)
  sha256_hash : ∀ {A : Type}, A → Z;
  sha224_hash : signed_block_header → string;
  ripemd160_hash : ∀ {A : Type}, A → string;
  (** [digest_type::encoder] over two packed values *)
  sha256_encode : ∀ {A B : Type}, A → B → Z;
  (** [fc::raw::pack] and [fc::raw::pack_size] *)
  raw_pack : ∀ {A : Type}, A → string;
  pack_size : ∀ {A : Type}, A → Z;

  (** The words of a [sha256]: the constructor from words, an assignment to
      [_hash[0]], and the operators the proof of work uses *)
  sha256_of_words : Z → Z → Z → Z → Z;
  sha256_set_word0 : Z → Z → Z;
  sha256_shr : Z → Z → Z;
  sha256_ltb : Z → Z → bool;
  approx_log_32 : Z → Z;

  (** The words of the 160- and 224-bit hashes. *)
  hash_word : string → nat → Z;
  set_hash_word0 : string → Z → string;
  endian_reverse_u32 : Z → Z;
  (** the first 160 bits of a [sha224] or of a [sha256] *)
  sha224_to_160 : string → string;
  sha256_to_160 : Z → string;
  (** [checksum_type( hex )] *)
  checksum_of_hex : string → string;
  hash_word0_set : ∀ h x, 0 ≤ x < U32 → hash_word (set_hash_word0 h x) 0 = x;
  hash_word0_160 : ∀ h, hash_word (sha224_to_160 h) 0 = hash_word h 0;
  hash_word0_empty : hash_word EmptyString 0 = 0;
  endian_reverse_zero : endian_reverse_u32 0 = 0;
  endian_reverse_range : ∀ x, 0 ≤ endian_reverse_u32 x < U32;
  endian_reverse_twice : ∀ x, 0 ≤ x < U32 → endian_reverse_u32 (endian_reverse_u32 x) = x;

  (** [fc::ecc::public_key( signature, digest, check_canonical )] and
      [private_key::sign_compact] *)
  recover_key : string → Z → bool → result string;
  private_key : Type;
  public_key_of : private_key → string;
  private_key_regenerate : Z → private_key;
  sign_compact : private_key → Z → bool → string;
  recover_sign : ∀ k d c, recover_key (sign_compact k d c) d c = Ok (public_key_of k);
}.

(** ** Headers and their ids *)
Section header.
Context {K : Crypto}.

Definition num_from_id (id : string) : Z := endian_reverse_u32 (hash_word id 0).
Definition block_num (b : block_header) : Z := to_uint32 (num_from_id (bh_previous b) + 1).
Definition header_digest (b : block_header) : Z := sha256_hash b.

Definition header_id (b : signed_block_header) : string :=
  let tmp := set_hash_word0 (sha224_hash b) (endian_reverse_u32 (block_num (sbh_header b))) in
  sha224_to_160 tmp.
Definition signee (b : signed_block_header) : result string :=
  recover_key (sbh_witness_signature b) (header_digest (sbh_header b)) true.
Definition sign_header (signer : private_key) (b : block_header) : signed_block_header :=
  SignedBlockHeader b (sign_compact signer (header_digest b) true).
Definition validate_signee (b : signed_block_header) (expected_signee : string) : result bool :=
  k ← signee b; mret (bool_decide (k = expected_signee)).

(** The number of a block can be read from its id. *)
Lemma num_from_header_id b : num_from_id (header_id b) = block_num (sbh_header b).
Proof.
  unfold header_id, num_from_id. rewrite hash_word0_160, hash_word0_set by apply endian_reverse_range.
  apply endian_reverse_twice, Z.mod_pos_bound. done.
Qed.
Lemma validate_signed k b : validate_signee (sign_header k b) (public_key_of k) = Ok true.
Proof.
  unfold validate_signee, signee, sign_header. cbn [sbh_witness_signature sbh_header].
  rewrite recover_sign. rsimpl. by rewrite bool_decide_eq_true_2.
Qed.
End header.

(** ** An instance *)

(** Four bytes, the most significant first, so that the conversion of the byte
    order is the identity. *)
Definition byte (x : Z) : ascii := ascii_of_N (Z.to_N (x mod 256)).
Definition word_bytes (x : Z) (s : string) : string :=
  String (byte (x / 2 ^ 24)) (String (byte (x / 2 ^ 16)) (String (byte (x / 2 ^ 8)) (String (byte x) s))).
Definition word_at (s : string) : Z :=
  match s with
  | String a (String b (String c (String d _))) =>
      Z.of_N (N_of_ascii a) * 2 ^ 24 + Z.of_N (N_of_ascii b) * 2 ^ 16
      + Z.of_N (N_of_ascii c) * 2 ^ 8 + Z.of_N (N_of_ascii d)
  | _ => 0
  end.
Definition drop_bytes (n : nat) (s : string) : string := String.substring n (String.length s - n) s.

Lemma byte_value x : Z.of_N (N_of_ascii (byte x)) = x mod 256.
Proof.
  unfold byte. pose proof (Z.mod_pos_bound x 256 ltac:(lia)).
  rewrite N_ascii_embedding by lia. by rewrite Z2N.id by lia.
Qed.
Lemma word_bytes_value x s : 0 ≤ x < U32 → word_at (word_bytes x s) = x.
Proof.
  intros Hx. unfold word_at, word_bytes. rewrite !byte_value. change (2 ^ 8) with 256.
  change (2 ^ 16) with 65536. change (2 ^ 24) with 16777216. unfold U32 in Hx.
  change (2 ^ 32) with 4294967296 in Hx. Z.div_mod_to_equations. lia.
Qed.

(** A toy instance: the hash of a header is the name of its witness and its time,
    the other hashes are constant and a signature is the key of its signer. *)
#[refine] Definition crypto_model : Crypto := {|
  sha256_hash _ _ := 1; ripemd160_hash _ _ := EmptyString;
  sha224_hash b := word_bytes 0 (String.append (bh_witness (sbh_header b)) (word_bytes (bh_timestamp (sbh_header b)) EmptyString));
  sha256_encode _ _ _ _ := 1; raw_pack _ _ := EmptyString; pack_size _ _ := 100;
  sha256_of_words a b c d := ((a * 2 ^ 64 + b) * 2 ^ 64 + c) * 2 ^ 64 + d;
  sha256_set_word0 h x := h mod 2 ^ 192 + x * 2 ^ 192;
  sha256_shr := Z.shiftr; sha256_ltb := Z.ltb; approx_log_32 := Z.log2;
  hash_word h n := word_at (drop_bytes (4 * n) h);
  set_hash_word0 h x := word_bytes x (drop_bytes 4 h);
  endian_reverse_u32 x := x mod U32;
  sha224_to_160 h := h; sha256_to_160 h := word_bytes h EmptyString; checksum_of_hex s := s;
  recover_key s _ _ := Ok s; private_key := string; public_key_of k := k;
  private_key_regenerate _ := EmptyString; sign_compact k _ _ := k |}.
Proof.
  - intros h x Hx. rewrite <- (word_bytes_value x (drop_bytes 4 h)) at 2 by done. f_equal.
  - done.
  - done.
  - done.
  - intros x. apply Z.mod_pos_bound. done.
  - intros x Hx. rewrite Z.mod_mod by done. by apply Z.mod_small.
  - done.
Defined.
