(* ===== verification/Database.v ===== *)
(** * Access to the chain database

    The operations of [database] (chain/database.cpp) that every component
    uses: [create], [modify], [remove] and the lookups of chainbase on the table
    of an object type, the named lookups ([get_account], [get_escrow], ...), the
    head block, hardforks, virtual operations and block slots.

    A C++ reference to a stored object is the object's id here: an object is
    read again after the table changed, as a reference would show it. *)
From S2P Require Import Prelude Fc Config Asset Chainbase ChainbaseSpec Objects.

(** Computations on the chain state. *)
Notation DB := (M database).

(** ** Tables *)
Section table.
Context {A : Type} `{MultiIndex A} `{Table A}.

Definition trows (db : database) : gmap Z A := Abs.rows (tbl db).

(** [create< T >( c )]: [v0] is the default-constructed object; the result is
    the id of the new object. *)
Definition create (v0 : A) (c : A → A) : DB Z := λ db,
  let s := tbl (A := A) db in
  let x := c (set_obj_id (Abs.next s) v0) in
  match container_emplace (Abs.rows s) x with
  | None => Throw uniqueness_error
  | Some m => Ok (Abs.next s, set_tbl (Abs.Snap m (Abs.next s + 1)) db)
  end.

(** [modify( obj, f )] *)
Definition modify (i : Z) (f : A → result A) : DB unit := λ db,
  match trows db !! i with
  | None => Throw out_of_range
  | Some x =>
      match f x with
      | Throw e => Throw e
      | Ok y =>
          match container_modify (trows db) i y with
          | None => Throw uniqueness_error
          | Some m => Ok (tt, set_tbl (Abs.Snap m (Abs.next (tbl db))) db)
          end
      end
  end.

(** [remove( obj )] *)
Definition remove (i : Z) : DB unit := λ db,
  match trows db !! i with
  | None => Throw out_of_range
  | Some _ => Ok (tt, set_tbl (Abs.Snap (delete i (trows db)) (Abs.next (tbl db))) db)
  end.

(** [get( id )] *)
Definition get (i : Z) : DB A := λ db,
  match trows db !! i with
  | None => Throw out_of_range
  | Some x => Ok (x, db)
  end.

(** [find< T, by_key >( key )] on a unique key. *)
Definition find_row (P : A → bool) (db : database) : option A :=
  snd <$> head (filter (λ p, P p.2 = true) (map_to_list (trows db))).
Definition find_by (P : A → bool) : DB (option A) := gets (find_row P).

(** [get< T, by_key >( key )] *)
Definition get_by (P : A → bool) : DB A := λ db,
  match find_row P db with
  | None => Throw out_of_range
  | Some x => Ok (x, db)
  end.

(** The rows an iterator visits: those with [P], in the order of an index. *)
Definition select (P : A → bool) (leb : A → A → bool) (db : database) : list A :=
  sort_by leb (filter (λ x, P x = true) (map_to_list (trows db)).*2).
End table.
Arguments create {A _ _} v0 c _.
Arguments modify {A _ _} i f _.
Arguments trows {A _} db.
Arguments remove A {_} i _.
Arguments get A {_} i _.

(** [modify] of the global properties and of the witness schedule. *)
Definition get_dynamic_global_properties : DB dynamic_global_property_object := gets db_gpo.
Definition modify_gpo
    (f : dynamic_global_property_object → result dynamic_global_property_object) : DB unit :=
  λ db, match f (db_gpo db) with
        | Ok g => Ok (tt, set_db_gpo g db)
        | Throw e => Throw e
        end.
Definition get_witness_schedule_object : DB witness_schedule_object := gets db_wso.
Definition get_hardfork_property_object : DB hardfork_property_object := gets db_hpo.

(** The singletons that hold no assets: the witness schedule, the hardfork
    properties, the feed history (its prices and the median of them) and the
    summaries of the last blocks. *)
Class Singleton (A : Type) := { the : database → A; set_the : A → database → database }.
#[export] Instance wso_singleton : Singleton witness_schedule_object :=
  {| the := db_wso; set_the := set_db_wso |}.
#[export] Instance hpo_singleton : Singleton hardfork_property_object :=
  {| the := db_hpo; set_the := set_db_hpo |}.
#[export] Instance feed_singleton : Singleton (list price * price) :=
  {| the := λ db, (db_price_history db, db_median_history db);
     set_the := λ p db, set_db_median_history p.2 (set_db_price_history p.1 db) |}.
#[export] Instance summaries_singleton : Singleton (gmap Z string) :=
  {| the := db_block_summaries; set_the := set_db_block_summaries |}.
Definition modify_the {A} `{Singleton A} (f : A → result A) : DB unit :=
  λ db, match f (the db) with
        | Ok x => Ok (tt, set_the x db)
        | Throw e => Throw e
        end.
Definition current_median_history : DB price := gets db_median_history.

(** ** Named lookups *)
Definition by_name (n : string) (a : account_object) : bool := bool_decide (acc_name a = n).
Definition get_account (n : string) : DB account_object := get_by (by_name n).
Definition find_account (n : string) : DB (option account_object) := find_by (by_name n).

Definition witness_by_name (n : string) (w : witness_object) : bool :=
  bool_decide (wit_owner w = n).
Definition get_witness (n : string) : DB witness_object := get_by (witness_by_name n).
Definition find_witness (n : string) : DB (option witness_object) := find_by (witness_by_name n).

Definition by_permlink (author permlink : string) (c : comment_object) : bool :=
  bool_decide (com_author c = author) && bool_decide (com_permlink c = permlink).
Definition get_comment (author permlink : string) : DB comment_object :=
  get_by (by_permlink author permlink).
Definition find_comment (author permlink : string) : DB (option comment_object) :=
  find_by (by_permlink author permlink).

Definition escrow_by_from_id (n : string) (i : Z) (e : escrow_object) : bool :=
  bool_decide (esc_from e = n) && (esc_escrow_id e =? i).
Definition get_escrow (n : string) (escrow_id : Z) : DB escrow_object :=
  get_by (escrow_by_from_id n escrow_id).
Definition find_escrow (n : string) (escrow_id : Z) : DB (option escrow_object) :=
  find_by (escrow_by_from_id n escrow_id).

(** The order id is truncated to 16 bits. *)
Definition order_by_account (n : string) (i : Z) (o : limit_order_object) : bool :=
  bool_decide (lo_seller o = n) && (lo_orderid o =? i).
Definition get_limit_order (n : string) (orderid : Z) : DB limit_order_object :=
  get_by (order_by_account n (Z.land orderid 65535)).
Definition find_limit_order (n : string) (orderid : Z) : DB (option limit_order_object) :=
  find_by (order_by_account n (Z.land orderid 65535)).

Definition savings_by_from_rid (n : string) (i : Z) (s : savings_withdraw_object) : bool :=
  bool_decide (sw_from s = n) && (sw_request_id s =? i).
Definition get_savings_withdraw (owner : string) (request_id : Z) : DB savings_withdraw_object :=
  get_by (savings_by_from_rid owner request_id).
Definition find_savings_withdraw (owner : string) (request_id : Z)
    : DB (option savings_withdraw_object) :=
  find_by (savings_by_from_rid owner request_id).

Definition authority_by_account (n : string) (a : account_authority_object) : bool :=
  bool_decide (aa_account a = n).
Definition get_authority (n : string) : DB account_authority_object :=
  get_by (authority_by_account n).

Definition fund_by_name (n : string) (r : reward_fund_object) : bool := bool_decide (rf_name r = n).
Definition get_reward_fund (c : comment_object) : DB reward_fund_object :=
  get_by (fund_by_name STEEMIT_POST_REWARD_FUND_NAME).

(** ** Head block, hardforks, virtual operations *)
Definition head_block_time : DB Z := gets (λ db, gpo_time (db_gpo db)).
Definition head_block_num : DB Z := gets (λ db, gpo_head_block_number (db_gpo db)).

Definition has_hardfork (hardfork : Z) : DB bool :=
  gets (λ db, hardfork <? db_processed_hardforks db).

(** [push_virtual_operation( op )]: the observers are told. *)
Definition push_virtual_operation (op : virtual_operation) : DB unit := λ db,
  Ok (tt, set_db_virtual_ops (db_virtual_ops db ++ [op]) db).

Definition calculate_discussion_payout_time (c : comment_object) : Z := com_cashout_time c.

(** ** Block slots *)
Section slots.
Context {F : Fc}.

Definition get_scheduled_witness (slot_num : Z) (db : database) : result string :=
  let current_aslot := to_uint64 (gpo_current_aslot (db_gpo db) + slot_num) in
  let n := wso_num_scheduled_witnesses (db_wso db) in
  match wso_current_shuffled_witnesses (db_wso db) !! Z.to_nat (current_aslot mod n) with
  | Some w => Ok w
  | None => Throw out_of_range
  end.

Definition get_slot_time (slot_num : Z) (db : database) : Z :=
  if slot_num =? 0 then 0
  else
    let interval := STEEMIT_BLOCK_INTERVAL in
    if gpo_head_block_number (db_gpo db) =? 0 then
      time_add (gpo_time (db_gpo db)) (to_uint32 (slot_num * interval))
    else
      let head_block_abs_slot := gpo_time (db_gpo db) / interval in
      let head_slot_time := to_uint32 (head_block_abs_slot * interval) in
      time_add head_slot_time (to_uint32 (slot_num * interval)).

Definition get_slot_at_time (when : Z) (db : database) : Z :=
  let first_slot_time := get_slot_time 1 db in
  if when <? first_slot_time then 0
  else to_uint32 ((when - first_slot_time) / STEEMIT_BLOCK_INTERVAL + 1).
End slots.

(** ** Inversion of successful accesses *)
Section table_inv.
Context {A : Type} `{MultiIndex A} `{Table A}.
Implicit Types (db : database) (i : Z) (x y : A).

Lemma create_ok v0 c db i db' :
  create v0 c db = Ok (i, db') →
  i = Abs.next (tbl (A := A) db) ∧ ∃ m,
  container_emplace (trows db) (c (set_obj_id i v0)) = Some m ∧
  db' = set_tbl (Abs.Snap m (i + 1)) db.
Proof. unfold create. case_match eqn:E; intros; simplify_eq. eauto. Qed.

Lemma modify_ok i f db u db' :
  modify (A := A) i f db = Ok (u, db') →
  ∃ x y m, trows db !! i = Some x ∧ f x = Ok y ∧
  container_modify (trows db) i y = Some m ∧
  db' = set_tbl (Abs.Snap m (Abs.next (tbl db))) db.
Proof.
  unfold modify. intros Hm. repeat (case_match; simplify_eq).
  by eexists _, _, _.
Qed.

Lemma remove_ok i db u db' :
  remove A i db = Ok (u, db') →
  ∃ x, trows db !! i = Some x ∧
  db' = set_tbl (Abs.Snap (delete i (trows db)) (Abs.next (tbl db))) db.
Proof. unfold remove. intros Hm. repeat (case_match; simplify_eq). eauto. Qed.

Lemma get_ok i db x db' :
  get A i db = Ok (x, db') → db' = db ∧ trows db !! i = Some x.
Proof. unfold get. intros. repeat (case_match; simplify_eq). done. Qed.

Lemma find_row_Some P db x :
  find_row P db = Some x → P x = true ∧ ∃ i, trows db !! i = Some x.
Proof.
  unfold find_row. destruct (filter _ _) as [|[i y] l] eqn:E; [done|].
  intros [= ->].
  assert ((i, x) ∈ filter (λ p, P p.2 = true) (map_to_list (trows db))) as Hin
    by (rewrite E; left).
  apply list_elem_of_filter in Hin as [? Hin%elem_of_map_to_list]. eauto.
Qed.

Lemma find_row_None P db i x :
  find_row P db = None → trows db !! i = Some x → P x = false.
Proof.
  unfold find_row. destruct (filter _ _) as [|p l] eqn:E; [|done]. intros _ Hi.
  apply not_true_iff_false. intros Hp. apply (not_elem_of_nil (i, x)). rewrite <- E.
  apply list_elem_of_filter. split; [done|]. by apply elem_of_map_to_list.
Qed.

Lemma get_by_ok P db x db' :
  get_by P db = Ok (x, db') → db' = db ∧ find_row P db = Some x.
Proof. unfold get_by. intros. repeat (case_match; simplify_eq). done. Qed.

Lemma find_by_ok P db (ox : option A) db' :
  find_by P db = Ok (ox, db') → db' = db ∧ ox = find_row P db.
Proof. unfold find_by, gets. naive_solver. Qed.

Lemma select_elem P leb db x :
  x ∈ select P leb db ↔ P x = true ∧ ∃ i, trows db !! i = Some x.
Proof.
  unfold select. rewrite sort_by_elem, list_elem_of_filter, list_elem_of_fmap.
  split.
  - intros [? [[i y] [-> Hin%elem_of_map_to_list]]]. eauto.
  - intros [? [i Hi]]. split; [done|]. exists (i, x). split; [done|].
    by apply elem_of_map_to_list.
Qed.

Lemma trows_set `{!TableLaws A} s db : trows (set_tbl (A := A) s db) = Abs.rows s.
Proof. unfold trows. by rewrite tbl_set. Qed.

(** The row of a modified object is the modified one. *)
Lemma modify_lookup `{!TableLaws A} i f db u db' z :
  modify (A := A) i f db = Ok (u, db') → trows db' !! i = Some z →
  ∃ x, trows db !! i = Some x ∧ f x = Ok z.
Proof.
  intros (x & y & m & Hx & Hy & Hm & ->)%modify_ok. rewrite trows_set. cbn [Abs.rows].
  unfold container_modify in Hm. apply container_emplace_Some in Hm as (Hn & _ & ->).
  intros [[? <-]|[? Hz]]%lookup_insert_Some; [eauto|].
  by rewrite lookup_delete_eq in Hz.
Qed.

(** The table after a change. *)
Lemma modify_rows `{!TableLaws A} i (f : A → result A) x db u db' :
  trows db !! i = Some x → (∀ y, f x = Ok y → obj_id y = i) → modify i f db = Ok (u, db') →
  ∃ y, f x = Ok y ∧ trows db' = <[i := y]> (trows db).
Proof.
  intros Hx Hid (x' & y & m & Hx' & Hy & Hm & ->)%modify_ok.
  assert (x' = x) as -> by congruence. exists y. split; [done|]. rewrite trows_set.
  by apply container_modify_Some in Hm as [_ ->]; [|by apply Hid].
Qed.
Lemma remove_rows `{!TableLaws A} i db u db' :
  remove A i db = Ok (u, db') → trows db' = delete i (trows (A := A) db).
Proof. intros (x & _ & ->)%remove_ok. by rewrite trows_set. Qed.
Lemma create_rows `{!TableLaws A} v0 (c : A → A) db i db' :
  (∀ j, obj_id (c (set_obj_id j v0)) = j) → create v0 c db = Ok (i, db') →
  trows db !! i = None ∧ trows db' = <[i := c (set_obj_id i v0)]> (trows db).
Proof.
  intros Hid (-> & m & Hm & ->)%create_ok. rewrite trows_set. cbn [Abs.rows].
  apply container_emplace_Some in Hm as (Hn & _ & ->). by rewrite Hid in *.
Qed.

(** A row is filed under its own id. *)
Definition ids_ok db : Prop := container_wf (trows (A := A) db).

Lemma find_row_id P db x :
  ids_ok db → find_row P db = Some x → trows db !! obj_id x = Some x.
Proof.
  intros [Hid _] [_ [i Hi]]%find_row_Some. by rewrite (Hid _ _ Hi).
Qed.
End table_inv.

Lemma modify_the_ok {A} `{Singleton A} (f : A → result A) db u db' :
  modify_the f db = Ok (u, db') → ∃ x, f (the db) = Ok x ∧ db' = set_the x db.
Proof. unfold modify_the. case_match; intros; simplify_eq. eauto. Qed.
Lemma modify_gpo_ok f db u db' :
  modify_gpo f db = Ok (u, db') → ∃ g, f (db_gpo db) = Ok g ∧ db' = set_db_gpo g db.
Proof. unfold modify_gpo. case_match; intros; simplify_eq; eauto. Qed.

Lemma push_virtual_operation_ok op db u db' :
  push_virtual_operation op db = Ok (u, db') →
  db' = set_db_virtual_ops (db_virtual_ops db ++ [op]) db.
Proof. unfold push_virtual_operation. by intros; simplify_eq. Qed.

(** Inverts the successful reads of the database. *)
Ltac inv_read1 :=
  match goal with
  | H : get_account _ _ = Ok _ |- _ => unfold get_account in H
  | H : find_account _ _ = Ok _ |- _ => unfold find_account in H
  | H : get_witness _ _ = Ok _ |- _ => unfold get_witness in H
  | H : find_witness _ _ = Ok _ |- _ => unfold find_witness in H
  | H : get_comment _ _ _ = Ok _ |- _ => unfold get_comment in H
  | H : find_comment _ _ _ = Ok _ |- _ => unfold find_comment in H
  | H : get_escrow _ _ _ = Ok _ |- _ => unfold get_escrow in H
  | H : find_escrow _ _ _ = Ok _ |- _ => unfold find_escrow in H
  | H : get_limit_order _ _ _ = Ok _ |- _ => unfold get_limit_order in H
  | H : find_limit_order _ _ _ = Ok _ |- _ => unfold find_limit_order in H
  | H : get_savings_withdraw _ _ _ = Ok _ |- _ => unfold get_savings_withdraw in H
  | H : find_savings_withdraw _ _ _ = Ok _ |- _ => unfold find_savings_withdraw in H
  | H : get_authority _ _ = Ok _ |- _ => unfold get_authority in H
  | H : get_reward_fund _ _ = Ok _ |- _ => unfold get_reward_fund in H
  | H : head_block_time _ = Ok _ |- _ => unfold head_block_time in H
  | H : head_block_num _ = Ok _ |- _ => unfold head_block_num in H
  | H : has_hardfork _ _ = Ok _ |- _ => unfold has_hardfork in H
  | H : get_dynamic_global_properties _ = Ok _ |- _ => unfold get_dynamic_global_properties in H
  | H : get_hardfork_property_object _ = Ok _ |- _ => unfold get_hardfork_property_object in H
  | H : get_witness_schedule_object _ = Ok _ |- _ => unfold get_witness_schedule_object in H
  | H : current_median_history _ = Ok _ |- _ => unfold current_median_history in H
  | H : get _ _ _ = Ok _ |- _ => apply get_ok in H; destruct H as [-> ?]
  | H : get_by _ _ = Ok _ |- _ => apply get_by_ok in H; destruct H as [-> ?]
  | H : find_by _ _ = Ok _ |- _ => apply find_by_ok in H; destruct H as [-> ?]
  | _ => inv_ok1
  end.
Ltac inv_db := repeat inv_read1.

(** ** Slots and their times *)
Section slot_laws.
Context {F : Fc}.

(** The time of the slot of the head block. *)
Definition head_slot_time (db : database) : Z :=
  if gpo_head_block_number (db_gpo db) =? 0 then gpo_time (db_gpo db)
  else gpo_time (db_gpo db) / STEEMIT_BLOCK_INTERVAL * STEEMIT_BLOCK_INTERVAL.

Lemma get_slot_time_spec n db :
  0 < n → 0 ≤ gpo_time (db_gpo db) → head_slot_time db + n * STEEMIT_BLOCK_INTERVAL < U32 →
  get_slot_time n db = head_slot_time db + n * STEEMIT_BLOCK_INTERVAL.
Proof.
  unfold get_slot_time, head_slot_time, to_uint32, STEEMIT_BLOCK_INTERVAL. intros Hn Ht Hb.
  rewrite (proj2 (Z.eqb_neq n 0)) by lia.
  assert (0 ≤ gpo_time (db_gpo db) / 3) by (apply Z.div_pos; lia).
  case_match.
  - rewrite (Z.mod_small (n * 3)) by lia. apply time_add_spec. lia.
  - rewrite (Z.mod_small (n * 3)), (Z.mod_small (_ / 3 * 3)) by lia.
    apply time_add_spec. lia.
Qed.

(** [get_slot_at_time] inverts [get_slot_time]: a time belongs to slot
    [n > 0] exactly when it lies in the three seconds that start at the time
    of slot [n], and to slot 0 exactly when it is before slot 1. *)
Theorem slot_at_time_inverse n t db :
  0 < n → 0 ≤ gpo_time (db_gpo db) → head_slot_time db + (n + 1) * STEEMIT_BLOCK_INTERVAL < U32 →
  0 ≤ t < head_slot_time db + (n + 1) * STEEMIT_BLOCK_INTERVAL →
  (get_slot_at_time t db = n ↔ get_slot_time n db ≤ t < get_slot_time (n + 1) db) ∧
  (get_slot_at_time t db = 0 ↔ t < get_slot_time 1 db).
Proof.
  intros Hn Ht Hb Hr. unfold get_slot_at_time.
  assert (0 ≤ head_slot_time db).
  { unfold head_slot_time, STEEMIT_BLOCK_INTERVAL. case_match; [done|].
    assert (0 ≤ gpo_time (db_gpo db) / 3) by (apply Z.div_pos; lia). lia. }
  rewrite !get_slot_time_spec by (unfold STEEMIT_BLOCK_INTERVAL in *; lia).
  unfold STEEMIT_BLOCK_INTERVAL, to_uint32 in *. set (h := head_slot_time db) in *.
  assert (U32 = 4294967296) as HU by done.
  destruct (Z.ltb_spec t (h + 1 * 3)) as [Hlt|Hge]; [lia|].
  set (q := (t - (h + 1 * 3)) / 3).
  assert (3 * q ≤ t - (h + 1 * 3) < 3 * q + 3).
  { pose proof (Z.div_mod (t - (h + 1 * 3)) 3 ltac:(lia)).
    pose proof (Z.mod_pos_bound (t - (h + 1 * 3)) 3 ltac:(lia)). subst q. lia. }
  rewrite Z.mod_small by lia. lia.
Qed.
End slot_laws.

#[local] Existing Instance fc_model.
Lemma slot_at_time_inverse_witness :
  get_slot_at_time 7 empty_database = 2 ∧ get_slot_time 2 empty_database ≤ 7.
Proof.
  split; [vm_compute; reflexivity|].
  apply (slot_at_time_inverse 2 7 empty_database); vm_compute; [done..|].
  reflexivity.
Defined.
