(* ===== verification/Supply.v ===== *)
(** * The supply equations

    [database::validate_invariants] (chain/database.cpp) recomputes, from all
    the objects of the database, the totals that the global properties declare.
    [kind] names its equations, and one more that it does not check, [weight k x] is what one object contributes to
    the total of equation [k], and [imb k db] is the declared total minus the
    recomputed one: the equation holds when it is 0.

    [Shifts m δ] says that a successful run of [m] keeps the tables well formed
    and changes [imb k] by [δ k]; every operation of the later files has an instance, and those that implement
    a user operation or a step of block processing shift nothing. *)
From S2P Require Import Prelude Fc Config Asset Chainbase ChainbaseSpec Objects Database.

Inductive kind :=
| KSteem    (** [gpo.current_supply == total_supply] *)
| KSbd      (** [gpo.current_sbd_supply == total_sbd] *)
| KVests    (** [total_vesting_shares + pending_rewarded_vesting_shares == total_vesting] *)
| KPending  (** [pending_rewarded_vesting_steem == pending_vesting_steem] *)
| KVsf      (** [total_vesting_shares.amount == total_vsf_votes] *)
| KRewards. (** [pending_rewarded_vesting_shares] are the rewards of the accounts *)

#[export] Instance kind_eq_dec : EqDecision kind.
Proof. solve_decision. Defined.

(** ** What an object holds *)

(** The amount of an asset that counts in equation [k]. *)
Definition by_symbol (k : kind) (a : asset) : Z :=
  match k with
  | KSteem => if symbol a =? STEEM_SYMBOL then amount a else 0
  | KSbd => if symbol a =? SBD_SYMBOL then amount a else 0
  | _ => 0
  end.

Definition zsum (l : list Z) : Z := foldr Z.add 0 l.

(** The votes an account is counted for: its own and the ones proxied to it
    when it votes itself, else the ones that reached the recursion limit. *)
Definition vsf (a : account_object) : Z :=
  if bool_decide (acc_proxy a = STEEMIT_PROXY_TO_SELF_ACCOUNT)
  then amount (acc_vesting_shares a)
       + zsum (take STEEMIT_MAX_PROXY_RECURSION_DEPTH (acc_proxied_vsf_votes a))
  else default 0 (acc_proxied_vsf_votes a !! 3%nat).

Class Weighted (A : Type) := weight : kind → A → Z.

#[export] Instance account_weight : Weighted account_object := λ k a,
  match k with
  | KSteem => amount (acc_balance a) + amount (acc_savings_balance a)
              + amount (acc_reward_steem_balance a)
  | KSbd => amount (acc_sbd_balance a) + amount (acc_savings_sbd_balance a)
            + amount (acc_reward_sbd_balance a)
  | KVests => amount (acc_vesting_shares a) + amount (acc_reward_vesting_balance a)
  | KPending => amount (acc_reward_vesting_steem a)
  | KVsf => vsf a
  | KRewards => amount (acc_reward_vesting_balance a)
  end.
#[export] Instance convert_weight : Weighted convert_request_object := λ k r,
  by_symbol k (cr_amount r).
#[export] Instance order_weight : Weighted limit_order_object := λ k o,
  by_symbol k (Asset (lo_for_sale o) (symbol (base (lo_sell_price o)))).
#[export] Instance escrow_weight : Weighted escrow_object := λ k e,
  match k with
  | KSteem => amount (esc_steem_balance e)
  | KSbd => amount (esc_sbd_balance e)
  | _ => 0
  end + by_symbol k (esc_pending_fee e).
#[export] Instance savings_weight : Weighted savings_withdraw_object := λ k s,
  by_symbol k (sw_amount s).
#[export] Instance fund_weight : Weighted reward_fund_object := λ k r,
  match k with KSteem => amount (rf_reward_balance r) | _ => 0 end.

(** What the global properties declare, less the funds they hold themselves. *)
Definition declared (k : kind) (g : dynamic_global_property_object) : Z :=
  match k with
  | KSteem => amount (gpo_current_supply g) - amount (gpo_total_vesting_fund_steem g)
              - amount (gpo_total_reward_fund_steem g) - amount (gpo_pending_rewarded_vesting_steem g)
  | KSbd => amount (gpo_current_sbd_supply g)
  | KVests => amount (gpo_total_vesting_shares g) + amount (gpo_pending_rewarded_vesting_shares g)
  | KPending => amount (gpo_pending_rewarded_vesting_steem g)
  | KVsf => amount (gpo_total_vesting_shares g)
  | KRewards => amount (gpo_pending_rewarded_vesting_shares g)
  end.

Definition total {A} `{Weighted A} `{Table A} (k : kind) (db : database) : Z :=
  msum (weight k) (trows (A := A) db).

Definition imb (k : kind) (db : database) : Z :=
  declared k (db_gpo db)
  - (total (A := account_object) k db + total (A := convert_request_object) k db
     + total (A := limit_order_object) k db + total (A := escrow_object) k db
     + total (A := savings_withdraw_object) k db + total (A := reward_fund_object) k db).

(** All equations hold. *)
Definition balanced (db : database) : Prop := ∀ k, imb k db = 0.

(** ** How changes of a table shift the equations *)

(** The tables without assets. *)
Class Weightless (A : Type) `{Table A} :=
  imb_weightless : ∀ k s db, imb k (set_tbl (A := A) s db) = imb k db.
Class Counted (A : Type) `{Table A} `{Weighted A} :=
  imb_counted : ∀ k s db,
    imb k (set_tbl (A := A) s db)
    = imb k db + total (A := A) k db - msum (weight k) (Abs.rows s).

Ltac solve_counted := intros k s db; unfold imb, total, trows; cbn; lia.
#[export] Instance account_counted : Counted account_object.
Proof. solve_counted. Qed.
#[export] Instance convert_counted : Counted convert_request_object.
Proof. solve_counted. Qed.
#[export] Instance order_counted : Counted limit_order_object.
Proof. solve_counted. Qed.
#[export] Instance escrow_counted : Counted escrow_object.
Proof. solve_counted. Qed.
#[export] Instance savings_counted : Counted savings_withdraw_object.
Proof. solve_counted. Qed.
#[export] Instance fund_counted : Counted reward_fund_object.
Proof. solve_counted. Qed.

#[export] Instance authority_weightless : Weightless account_authority_object.
Proof. done. Qed.
#[export] Instance delegation_weightless : Weightless vesting_delegation_object.
Proof. done. Qed.
#[export] Instance expiration_weightless : Weightless vesting_delegation_expiration_object.
Proof. done. Qed.
#[export] Instance history_weightless : Weightless owner_authority_history_object.
Proof. done. Qed.
#[export] Instance recovery_weightless : Weightless account_recovery_request_object.
Proof. done. Qed.
#[export] Instance change_recovery_weightless : Weightless change_recovery_account_request_object.
Proof. done. Qed.
#[export] Instance liquidity_weightless : Weightless liquidity_reward_balance_object.
Proof. done. Qed.
#[export] Instance route_weightless : Weightless withdraw_vesting_route_object.
Proof. done. Qed.
#[export] Instance decline_weightless : Weightless decline_voting_rights_request_object.
Proof. done. Qed.
#[export] Instance witness_weightless : Weightless witness_object.
Proof. done. Qed.
#[export] Instance vote_weightless : Weightless witness_vote_object.
Proof. done. Qed.
#[export] Instance comment_weightless : Weightless comment_object.
Proof. done. Qed.
#[export] Instance comment_vote_weightless : Weightless comment_vote_object.
Proof. done. Qed.
#[export] Instance transaction_weightless : Weightless transaction_object.
Proof. done. Qed.

(** ** Well-formed tables

    Every row is filed under its id, no two rows collide in a unique index, and
    every row satisfies what its type promises: an escrow holds STEEM and
    dollars, a withdraw route has a percentage, and the shares of an account,
    the amount it withdraws and the rate of it are 64-bit values. *)
Class RowOk (A : Type) := row_ok : A → Prop.
#[export] Instance escrow_row : RowOk escrow_object := λ e,
  symbol (esc_steem_balance e) = STEEM_SYMBOL ∧ symbol (esc_sbd_balance e) = SBD_SYMBOL.
#[export] Instance account_row : RowOk account_object := λ a,
  in_int64 (amount (acc_vesting_shares a)) = true ∧ in_int64 (acc_to_withdraw a) = true ∧
  in_int64 (amount (acc_vesting_withdraw_rate a)) = true.
#[export] Instance route_row : RowOk withdraw_vesting_route_object := λ r,
  0 ≤ wr_percent r ∧ wr_percent r ≤ STEEMIT_100_PERCENT.
#[export] Instance any_row A : RowOk A | 10 := λ _, True.

Definition snap_ok {A} `{MultiIndex A} `{RowOk A} (s : Abs.snap A) : Prop :=
  container_wf (Abs.rows s) ∧ ∀ i x, Abs.rows s !! i = Some x → row_ok x.

Definition db_wf (db : database) : Prop :=
  snap_ok (db_accounts db) ∧ snap_ok (db_authorities db) ∧ snap_ok (db_delegations db) ∧
  snap_ok (db_expirations db) ∧ snap_ok (db_owner_histories db) ∧
  snap_ok (db_recovery_requests db) ∧ snap_ok (db_change_recovery_requests db) ∧
  snap_ok (db_convert_requests db) ∧ snap_ok (db_escrows db) ∧
  snap_ok (db_savings_withdraws db) ∧ snap_ok (db_liquidity_balances db) ∧
  snap_ok (db_limit_orders db) ∧ snap_ok (db_withdraw_routes db) ∧
  snap_ok (db_decline_requests db) ∧ snap_ok (db_reward_funds db) ∧
  snap_ok (db_witnesses db) ∧ snap_ok (db_witness_votes db) ∧ snap_ok (db_comments db) ∧
  snap_ok (db_comment_votes db) ∧ snap_ok (db_transactions db).

Class WfTable (A : Type) `{MultiIndex A} `{Table A} `{RowOk A} := {
  wf_tbl : ∀ db, db_wf db → snap_ok (tbl (A := A) db);
  wf_set : ∀ s db, db_wf db → snap_ok s → db_wf (set_tbl (A := A) s db);
}.
Ltac solve_wf_table := split; unfold db_wf; intros; destruct_and?; split_and?; done.
#[export] Instance account_wf : WfTable account_object.
Proof. solve_wf_table. Qed.
#[export] Instance account_authority_wf : WfTable account_authority_object.
Proof. solve_wf_table. Qed.
#[export] Instance vesting_delegation_wf : WfTable vesting_delegation_object.
Proof. solve_wf_table. Qed.
#[export] Instance vesting_delegation_expiration_wf : WfTable vesting_delegation_expiration_object.
Proof. solve_wf_table. Qed.
#[export] Instance owner_authority_history_wf : WfTable owner_authority_history_object.
Proof. solve_wf_table. Qed.
#[export] Instance account_recovery_request_wf : WfTable account_recovery_request_object.
Proof. solve_wf_table. Qed.
#[export] Instance change_recovery_account_request_wf : WfTable change_recovery_account_request_object.
Proof. solve_wf_table. Qed.
#[export] Instance convert_request_wf : WfTable convert_request_object.
Proof. solve_wf_table. Qed.
#[export] Instance escrow_wf : WfTable escrow_object.
Proof. solve_wf_table. Qed.
#[export] Instance savings_withdraw_wf : WfTable savings_withdraw_object.
Proof. solve_wf_table. Qed.
#[export] Instance liquidity_reward_balance_wf : WfTable liquidity_reward_balance_object.
Proof. solve_wf_table. Qed.
#[export] Instance limit_order_wf : WfTable limit_order_object.
Proof. solve_wf_table. Qed.
#[export] Instance withdraw_vesting_route_wf : WfTable withdraw_vesting_route_object.
Proof. solve_wf_table. Qed.
#[export] Instance decline_voting_rights_request_wf : WfTable decline_voting_rights_request_object.
Proof. solve_wf_table. Qed.
#[export] Instance reward_fund_wf : WfTable reward_fund_object.
Proof. solve_wf_table. Qed.
#[export] Instance witness_wf : WfTable witness_object.
Proof. solve_wf_table. Qed.
#[export] Instance witness_vote_wf : WfTable witness_vote_object.
Proof. solve_wf_table. Qed.
#[export] Instance comment_wf : WfTable comment_object.
Proof. solve_wf_table. Qed.
#[export] Instance comment_vote_wf : WfTable comment_vote_object.
Proof. solve_wf_table. Qed.
#[export] Instance transaction_wf : WfTable transaction_object.
Proof. solve_wf_table. Qed.

(** ** Computations that shift the equations by a known amount *)

(** A successful run keeps the tables well formed and shifts equation [k] by
    [δ k]. *)
Class Shifts {A} (m : DB A) (δ : kind → Z) : Prop :=
  shifts_run : ∀ db a db', db_wf db → m db = Ok (a, db') →
    db_wf db' ∧ ∀ k, imb k db' = imb k db + δ k.

(** Instances of [Shifts] are found by the operation's name. *)
#[global] Typeclasses Opaque create modify remove get get_by find_by modify_gpo modify_the gets lift throw
  assert when for_each fold_m push_virtual_operation.

(** Conserving computations shift nothing. *)
Notation Conserves m := (Shifts m (λ _, 0)).

Section container_sums.
Context {A : Type} `{MultiIndex A}.

Lemma msum_emplace (f : A → Z) m x m' :
  container_emplace m x = Some m' → msum f m' = msum f m + f x.
Proof. intros (Hn & _ & ->)%container_emplace_Some. rewrite msum_insert by done. lia. Qed.

Lemma msum_modify (f : A → Z) m i x y m' :
  m !! i = Some x → container_modify m i y = Some m' →
  msum f m' = msum f m - f x + f y.
Proof.
  unfold container_modify. intros Hi Hm%(msum_emplace f).
  rewrite (msum_delete _ _ _ x) in Hm by done. lia.
Qed.
End container_sums.

(** Primitive changes keep the tables well formed. *)
Section wf.
Context {A : Type} `{MultiIndex A} `{!MultiIndexLaws A} `{Table A} `{RowOk A} `{!WfTable A}.

Lemma emplace_ok m x m' n n' :
  snap_ok (Abs.Snap m n) → row_ok x → container_emplace m x = Some m' →
  snap_ok (Abs.Snap m' n').
Proof.
  intros [Hwf Hr] Hx Hm. split; [by eapply container_emplace_wf|].
  apply container_emplace_Some in Hm as (_ & _ & ->). cbn in *.
  intros i y [[_ <-]|[_ ?]]%lookup_insert_Some; [done|by eapply Hr].
Qed.

Lemma delete_ok m i n : snap_ok (Abs.Snap m n) → snap_ok (Abs.Snap (delete i m) n).
Proof.
  intros [Hwf Hr]. split; [by apply container_wf_delete|]. cbn in *.
  intros j y [_ ?]%lookup_delete_Some. by eapply Hr.
Qed.

Lemma wf_rows db : db_wf db → snap_ok (Abs.Snap (trows (A := A) db) (Abs.next (tbl (A := A) db))).
Proof. intros Hdb. unfold trows. pose proof (wf_tbl (A := A) db Hdb). by destruct (tbl db). Qed.

Lemma row_ok_at db i (x : A) : db_wf db → trows db !! i = Some x → row_ok x.
Proof. intros [_ Hr]%wf_rows Hi. by eapply Hr. Qed.

Lemma row_id_at db i (x : A) : db_wf db → trows db !! i = Some x → obj_id x = i.
Proof. intros [[Hid _] _]%wf_rows Hi. by eapply Hid. Qed.

(** What a lookup by a secondary key returns is the row at its id. *)
Lemma find_row_at P db (x : A) :
  db_wf db → find_row P db = Some x → trows db !! obj_id x = Some x ∧ P x = true.
Proof.
  intros Hdb [HP [i Hi]]%find_row_Some. by rewrite (row_id_at db i x).
Qed.

Lemma create_wf v0 c db i db' :
  db_wf db → (∀ j, row_ok (c (set_obj_id j v0))) → create (A := A) v0 c db = Ok (i, db') →
  db_wf db'.
Proof.
  intros Hdb Hc (_ & m & Hm & ->)%create_ok. apply wf_set; [done|].
  eapply emplace_ok; [by apply wf_rows|apply Hc|done].
Qed.

Lemma modify_wf i f db u db' :
  db_wf db → (∀ x y, trows db !! i = Some x → f x = Ok y → row_ok x → row_ok y) →
  modify (A := A) i f db = Ok (u, db') → db_wf db'.
Proof.
  intros Hdb Hf (x & y & m & Hx & Hy & Hm & ->)%modify_ok. apply wf_set; [done|].
  eapply emplace_ok; [by apply delete_ok, wf_rows| |done].
  eapply Hf; [done..|]. by eapply row_ok_at.
Qed.

Lemma remove_wf i db u db' : db_wf db → remove A i db = Ok (u, db') → db_wf db'.
Proof.
  intros Hdb (x & _ & ->)%remove_ok. apply wf_set; [done|]. by apply delete_ok, wf_rows.
Qed.
End wf.

Lemma modify_gpo_wf f db u db' : db_wf db → modify_gpo f db = Ok (u, db') → db_wf db'.
Proof. by intros Hdb (g & _ & ->)%modify_gpo_ok. Qed.

(** The effects of the primitive changes of a table with assets. *)
Section counted.
Context {A : Type} `{MultiIndex A} `{!MultiIndexLaws A} `{Table A} `{RowOk A} `{!WfTable A}.
Context `{Weighted A} `{!Counted A}.

Lemma create_imb v0 c db i db' :
  create v0 c db = Ok (i, db') →
  ∀ k, imb k db' = imb k db - weight k (c (set_obj_id i v0)).
Proof.
  intros (Hi & m & Hm & ->)%create_ok k. rewrite (imb_counted (A := A)). cbn [Abs.rows].
  rewrite (msum_emplace _ _ _ _ Hm). unfold total. lia.
Qed.

Lemma modify_imb i f db u db' :
  modify (A := A) i f db = Ok (u, db') →
  ∃ x y, trows db !! i = Some x ∧ f x = Ok y ∧
  ∀ k, imb k db' = imb k db + weight k x - weight k y.
Proof.
  intros (x & y & m & Hx & Hy & Hm & ->)%modify_ok. exists x, y. split_and!; [done..|].
  intros k. rewrite (imb_counted (A := A)). cbn [Abs.rows].
  rewrite (msum_modify _ _ _ _ _ _ Hx Hm). unfold total. lia.
Qed.

Lemma modify_imb_at `{!TableLaws A} i f db u db' z :
  modify (A := A) i f db = Ok (u, db') → trows db' !! i = Some z →
  ∃ x, trows db !! i = Some x ∧ f x = Ok z ∧
  ∀ k, imb k db' = imb k db + weight k x - weight k z.
Proof.
  intros Hmod Hz. destruct (modify_lookup _ _ _ _ _ _ Hmod Hz) as (x & Hx & Hf).
  apply modify_imb in Hmod as (x' & y & Hx' & Hy & HI).
  assert (x' = x) as -> by congruence. assert (y = z) as -> by congruence. eauto.
Qed.

Lemma remove_imb i db u db' :
  remove A i db = Ok (u, db') →
  ∃ x, trows db !! i = Some x ∧ ∀ k, imb k db' = imb k db + weight k x.
Proof.
  intros (x & Hx & ->)%remove_ok. exists x. split; [done|]. intros k.
  rewrite (imb_counted (A := A)). cbn [Abs.rows]. rewrite (msum_delete _ _ _ _ Hx).
  unfold total. lia.
Qed.

Lemma modify_conserves i (f : A → result A) :
  (∀ x y, f x = Ok y → (row_ok x → row_ok y) ∧ ∀ k, weight k x = weight k y) →
  Conserves (modify i f).
Proof.
  intros Hf db u db' Hdb Hm. split.
  - eapply modify_wf; [done| |done]. intros x y _ Hy. by apply (Hf x y).
  - apply modify_imb in Hm as (x & y & _ & Hy & HI). intros k.
    rewrite HI, (proj2 (Hf _ _ Hy) k). lia.
Qed.
End counted.

Section weightless.
Context {A : Type} `{MultiIndex A} `{!MultiIndexLaws A} `{Table A} `{RowOk A} `{!WfTable A}.
Context `{!Weightless A}.

Lemma create_weightless_row v0 (c : A → A) :
  (∀ j, row_ok (c (set_obj_id j v0))) → Conserves (create v0 c).
Proof.
  intros Hc db a db' Hdb Hm. split; [by eapply create_wf|].
  apply create_ok in Hm as (Hi & m & Hm & ->). intros k. rewrite imb_weightless. lia.
Qed.
Lemma modify_weightless_row i (f : A → result A) :
  (∀ x y, f x = Ok y → row_ok x → row_ok y) → Conserves (modify i f).
Proof.
  intros Hf db a db' Hdb Hm. split; [eapply modify_wf; [done| |done]; eauto|].
  apply modify_ok in Hm as (x & y & m & ? & ? & ? & ->). intros k. rewrite imb_weightless. lia.
Qed.
#[export] Instance remove_weightless i : Conserves (remove A i).
Proof.
  intros db a db' Hdb Hm. split; [by eapply remove_wf|].
  apply remove_ok in Hm as (x & ? & ->). intros k. rewrite imb_weightless. lia.
Qed.
End weightless.

(** Tables without assets whose rows promise nothing. *)
Section plain.
Context {A : Type} `{MultiIndex A} `{!MultiIndexLaws A} `{Table A} `{!WfTable A} `{!Weightless A}.

#[export] Instance create_weightless v0 (c : A → A) : Conserves (create v0 c).
Proof. by apply create_weightless_row. Qed.
#[export] Instance modify_weightless i (f : A → result A) : Conserves (modify i f).
Proof. by apply modify_weightless_row. Qed.
End plain.

Lemma shifts_read {A} (m : DB A) :
  (∀ db a db', m db = Ok (a, db') → db' = db) → Conserves m.
Proof. intros Hm db a db' Hdb ->%Hm. split; [done|]. intros k. lia. Qed.

#[export] Instance gets_shifts {A} (f : database → A) : Conserves (gets f).
Proof. apply shifts_read. intros. by inv_ok. Qed.

Section shifts.
Context {A B : Type}.

#[export] Instance ret_shifts (a : A) : Conserves (mret a : DB A).
Proof. apply shifts_read. intros. by inv_ok. Qed.
#[export] Instance lift_shifts (r : result A) : Conserves (lift r : DB A).
Proof. apply shifts_read. intros. by inv_ok. Qed.
#[export] Instance throw_shifts e : Conserves (throw e : DB A).
Proof. apply shifts_read. intros. by inv_ok. Qed.
#[export] Instance assert_shifts b msg : Conserves (assert b msg : DB unit).
Proof. apply shifts_read. intros. by inv_ok. Qed.
#[export] Instance virtual_shifts op : Conserves (push_virtual_operation op).
Proof.
  intros db a db' Hdb ->%push_virtual_operation_ok. split; [done|]. intros k.
  unfold imb, total, trows. cbn. lia.
Qed.
Ltac the_shifts :=
  intros db a db' Hdb (x & _ & ->)%modify_the_ok; split; [exact Hdb|];
  intros k; unfold imb, total, trows; cbn; lia.
#[export] Instance modify_wso_shifts (f : witness_schedule_object → _) : Conserves (modify_the f).
Proof. the_shifts. Qed.
#[export] Instance modify_hpo_shifts (f : hardfork_property_object → _) : Conserves (modify_the f).
Proof. the_shifts. Qed.
#[export] Instance modify_feed_shifts (f : list price * price → _) : Conserves (modify_the f).
Proof. the_shifts. Qed.
#[export] Instance modify_summaries_shifts (f : gmap Z string → _) : Conserves (modify_the f).
Proof. the_shifts. Qed.
#[export] Instance get_shifts `{Table A} i : Conserves (get A i).
Proof. apply shifts_read. by intros ??? [-> _]%get_ok. Qed.
#[export] Instance get_by_shifts `{Table A} (P : A → bool) : Conserves (get_by P).
Proof. apply shifts_read. by intros ??? [-> _]%get_by_ok. Qed.
#[export] Instance find_by_shifts `{Table A} (P : A → bool) : Conserves (find_by P).
Proof. apply gets_shifts. Qed.
End shifts.

Section binds.
Context {A B : Type}.

Lemma bind_conserves (m : DB A) (f : A → DB B) :
  Conserves m → (∀ a, Conserves (f a)) → Conserves (m ≫= f).
Proof.
  intros H1 H2 db b db' Hdb (a & s & Hm & Hk)%bind_ok.
  destruct (H1 _ _ _ Hdb Hm) as [Hs HI1]. destruct (H2 _ _ _ _ Hs Hk) as [Hs' HI2].
  split; [done|]. intros k. rewrite HI2, HI1. lia.
Qed.

Lemma when_conserves b (m : DB unit) : Conserves m → Conserves (when b m).
Proof. intros Hm. unfold when. destruct b; [done|apply _]. Qed.

Lemma if_conserves (b : bool) (m1 m2 : DB A) :
  Conserves m1 → Conserves m2 → Conserves (if b then m1 else m2).
Proof. by destruct b. Qed.

Lemma option_conserves (o : option B) (m1 : B → DB A) (m2 : DB A) :
  (∀ b, Conserves (m1 b)) → Conserves m2 →
  Conserves (match o with Some b => m1 b | None => m2 end).
Proof. by destruct o. Qed.
End binds.

Section loops.
Context {A B : Type}.

Lemma for_each_conserves (l : list B) (f : B → DB unit) :
  (∀ x, Conserves (f x)) → Conserves (for_each l f).
Proof.
  intros Hf. induction l as [|x l IH]; simpl; [apply _|].
  apply bind_conserves; [apply Hf|done].
Qed.

Lemma fold_conserves (l : list B) (f : A → B → DB A) acc :
  (∀ a x, Conserves (f a x)) → Conserves (fold_m l f acc).
Proof.
  intros Hf. revert acc. induction l as [|x l IH]; intros acc; simpl; [apply _|].
  apply bind_conserves; [apply Hf|intros; apply IH].
Qed.
End loops.

(** Proves that a changed row still satisfies what its type promises. *)
Ltac int64_facts :=
  repeat match goal with
  | H : asset_add ?a ?b = Ok ?c |- _ =>
      lazymatch goal with _ : in_int64 (amount c) = true |- _ => fail | _ => idtac end;
      pose proof (asset_add_int64 _ _ _ H)
  | H : asset_sub ?a ?b = Ok ?c |- _ =>
      lazymatch goal with _ : in_int64 (amount c) = true |- _ => fail | _ => idtac end;
      pose proof (asset_sub_int64 _ _ _ H)
  end.
Ltac split_cases :=
  repeat match goal with
  | H : context [if ?b then _ else _] |- _ => destruct b
  | |- context [if ?b then _ else _] => destruct b
  end.
Ltac row_facts := inv_ok; int64_facts; inv_asset; inv_safe; subst.
Ltac solve_row :=
  solve [ by intros
        | intros; split_cases; row_facts; solve [assumption | done | split; cbn in *; solve [done | congruence | lia]]
        | intros; split_cases; row_facts;
          match goal with H : row_ok _ |- _ => destruct H end; destruct_and?;
          split; [|try split]; cbn in *; solve [done | congruence | lia] ].

(** The structural part of a conservation proof. *)
Ltac conserve1 :=
  match goal with
  | |- ∀ _, _ => intros ?
  | |- Shifts (_ ≫= _) _ => apply bind_conserves
  | |- Shifts (when _ _) _ => apply when_conserves
  | |- Shifts (if _ then _ else _) _ => apply if_conserves
  | |- Shifts (match _ with Some _ => _ | None => _ end) _ => apply option_conserves
  | |- Shifts (for_each _ _) _ => apply for_each_conserves
  | |- Shifts (fold_m _ _ _) _ => apply fold_conserves
  | |- Shifts (match ?x with _ => _ end) _ => destruct x
  | |- Shifts _ _ => apply _
  | |- Shifts (modify _ _) _ =>
      apply modify_conserves; intros ?? ?; inv_ok; split; [solve_row|]; intros []; reflexivity
  end.
Ltac conserve := repeat conserve1.

(** A modification of the global properties. *)
Lemma modify_gpo_imb f db u db' :
  modify_gpo f db = Ok (u, db') →
  ∃ g, f (db_gpo db) = Ok g ∧
  ∀ k, imb k db' = imb k db - declared k (db_gpo db) + declared k g.
Proof.
  intros (g & Hg & ->)%modify_gpo_ok. exists g. split_and!; [done..|].
  intros k. unfold imb, total, trows. cbn. lia.
Qed.

(** [shift_all] goes through the successful runs in the context in order: each
    keeps the tables well formed and gives an equation on [imb]; the primitive
    changes of tables with assets are opened. *)
Ltac shift_step :=
  match goal with
  | Hdb : db_wf ?s, H : modify_gpo _ ?s = Ok (_, ?s') |- _ =>
      let g := fresh "g" in let Hf := fresh "Hf" in let HI := fresh "HI" in
      let Hdb' := fresh "Hdb" in
      pose proof (modify_gpo_wf _ _ _ _ Hdb H) as Hdb';
      apply modify_gpo_imb in H as (g & Hf & HI)
  | Hdb : db_wf ?s, H : ?m ?s = Ok (_, ?s') |- _ =>
      lazymatch m with
      | @modify ?T _ _ _ _ => assert_succeeds (pose proof (_ : Weightless T))
      | _ => idtac
      end;
      let HI := fresh "HI" in let Hdb' := fresh "Hdb" in
      destruct (shifts_run (m := m) _ _ _ Hdb H) as [Hdb' HI]; clear H; cbn beta in HI
  | Hdb : db_wf ?s, H : modify _ _ ?s = Ok (_, ?s') |- _ =>
      let x := fresh "x" in let y := fresh "y" in let Hx := fresh "Hx" in
      let Hf := fresh "Hf" in let HI := fresh "HI" in let Hdb' := fresh "Hdb" in
      assert (db_wf s') as Hdb' by (refine (modify_wf _ _ _ _ _ Hdb _ H); solve_row);
      apply modify_imb in H as (x & y & Hx & Hf & HI)
  | Hdb : db_wf ?s, H : remove _ _ ?s = Ok (_, ?s') |- _ =>
      let x := fresh "x" in let Hx := fresh "Hx" in let HI := fresh "HI" in
      let Hdb' := fresh "Hdb" in
      assert (db_wf s') as Hdb' by (exact (remove_wf _ _ _ _ Hdb H));
      apply remove_imb in H as (x & Hx & HI)
  | Hdb : db_wf ?s, H : create _ _ ?s = Ok (_, ?s') |- _ =>
      let HI := fresh "HI" in let Hdb' := fresh "Hdb" in
      assert (db_wf s') as Hdb' by (refine (create_wf _ _ _ _ _ Hdb _ H); solve_row);
      pose proof (create_imb _ _ _ _ _ H) as HI; clear H
  end.
Ltac shift_all := repeat shift_step.

(** Specialises the equations to one [k]. *)
Ltac at_kind k :=
  repeat match goal with H : ∀ k : kind, imb k _ = _ |- _ => specialize (H k) end.

(** ** Frames: what a computation does not change *)
Class Keeps {A B} (obs : database → B) (m : DB A) : Prop :=
  keeps_run : ∀ db a db', m db = Ok (a, db') → obs db' = obs db.

Section keeps.
Context {B : Type} (obs : database → B).

Lemma keeps_bind {A C} (m : DB A) (f : A → DB C) :
  Keeps obs m → (∀ a, Keeps obs (f a)) → Keeps obs (m ≫= f).
Proof.
  intros H1 H2 db b db' (a & s & Hm & Hk)%bind_ok.
  by rewrite (H2 _ _ _ _ Hk), (H1 _ _ _ Hm).
Qed.
Lemma keeps_read {A} (m : DB A) : (∀ db a db', m db = Ok (a, db') → db' = db) → Keeps obs m.
Proof. by intros Hm db a db' ->%Hm. Qed.
Lemma keeps_when b (m : DB unit) : Keeps obs m → Keeps obs (when b m).
Proof. intros Hm. destruct b; [done|]. apply keeps_read. intros. by inv_ok. Qed.
Lemma keeps_for_each {A} (l : list A) (f : A → DB unit) :
  (∀ x, Keeps obs (f x)) → Keeps obs (for_each l f).
Proof.
  intros Hf. induction l as [|x l IH]; simpl; [apply keeps_read; intros; by inv_ok|].
  by apply keeps_bind.
Qed.
Lemma keeps_fold {A C} (l : list A) (f : C → A → DB C) c :
  (∀ c x, Keeps obs (f c x)) → Keeps obs (fold_m l f c).
Proof.
  intros Hf. revert c. induction l as [|x l IH]; intros c; simpl;
    [apply keeps_read; intros; by inv_ok|]. by apply keeps_bind.
Qed.
Lemma keeps_create {A} `{MultiIndex A} `{Table A} v0 (c : A → A) :
  (∀ s db, obs (set_tbl (A := A) s db) = obs db) → Keeps obs (create v0 c).
Proof. intros Ho db a db' (_ & m & _ & ->)%create_ok. apply Ho. Qed.
Lemma keeps_modify {A} `{MultiIndex A} `{Table A} i (f : A → result A) :
  (∀ s db, obs (set_tbl (A := A) s db) = obs db) → Keeps obs (modify i f).
Proof. intros Ho db a db' (x & y & m & _ & _ & _ & ->)%modify_ok. apply Ho. Qed.
Lemma keeps_remove {A} `{Table A} i :
  (∀ s db, obs (set_tbl (A := A) s db) = obs db) → Keeps obs (remove A i).
Proof. intros Ho db a db' (x & _ & ->)%remove_ok. apply Ho. Qed.
Lemma keeps_gpo f : (∀ g db, obs (set_db_gpo g db) = obs db) → Keeps obs (modify_gpo f).
Proof. intros Ho db a db' (g & _ & ->)%modify_gpo_ok. apply Ho. Qed.
Lemma keeps_the {A} `{Singleton A} (f : A → result A) :
  (∀ x db, obs (set_the x db) = obs db) → Keeps obs (modify_the f).
Proof. intros Ho db a db' (x & _ & ->)%modify_the_ok. apply Ho. Qed.
Lemma keeps_virtual op :
  (∀ l db, obs (set_db_virtual_ops l db) = obs db) → Keeps obs (push_virtual_operation op).
Proof. intros Ho db a db' ->%push_virtual_operation_ok. apply Ho. Qed.
End keeps.

(** The time of the chain and the hardforks it has seen. *)
Definition clock (db : database) : Z * Z := (db_processed_hardforks db, gpo_time (db_gpo db)).
Lemma keeps_gpo_clock f : (∀ g g', f g = Ok g' → gpo_time g' = gpo_time g) → Keeps clock (modify_gpo f).
Proof.
  intros Hf db a db' (g & Hg & ->)%modify_gpo_ok. unfold clock. cbn. by rewrite (Hf _ _ Hg).
Qed.
Ltac keep_clock :=
  apply keeps_gpo_clock; intros ?? ?; split_cases; inv_ok; split_cases; inv_ok; reflexivity.

(** Proves [Keeps obs m] by going through the program [m]. *)
Ltac keep1 :=
  match goal with
  | |- ∀ _, _ => intros ?
  | |- Keeps _ (_ ≫= _) => apply keeps_bind
  | |- Keeps _ (when _ _) => apply keeps_when
  | |- Keeps _ (for_each _ _) => apply keeps_for_each
  | |- Keeps _ (fold_m _ _ _) => apply keeps_fold
  | |- Keeps _ (create _ _) => apply keeps_create; reflexivity
  | |- Keeps _ (modify _ _) => apply keeps_modify; reflexivity
  | |- Keeps _ (remove _ _) => apply keeps_remove; reflexivity
  | |- Keeps _ (modify_gpo _) => apply keeps_gpo; reflexivity
  | |- Keeps clock (modify_gpo _) => keep_clock
  | |- Keeps _ (push_virtual_operation _) => apply keeps_virtual; reflexivity
  | |- Keeps _ (modify_the _) => apply keeps_the; reflexivity
  | |- Keeps _ (match ?x with _ => _ end) => destruct x
  | |- Keeps _ _ => apply keeps_read; solve [intros ??? ?; by inv_db]
  | |- Keeps _ _ => solve [apply _]
  end.
Ltac keep := repeat keep1.

#[export] Hint Extern 2 (Keeps _ (create _ _)) =>
  apply keeps_create; reflexivity : typeclass_instances.
#[export] Hint Extern 2 (Keeps _ (modify _ _)) =>
  apply keeps_modify; reflexivity : typeclass_instances.
#[export] Hint Extern 2 (Keeps _ (remove _ _)) =>
  apply keeps_remove; reflexivity : typeclass_instances.
#[export] Hint Extern 2 (Keeps _ (modify_gpo _)) =>
  apply keeps_gpo; reflexivity : typeclass_instances.
#[export] Hint Extern 2 (Keeps _ (modify_the _)) =>
  apply keeps_the; reflexivity : typeclass_instances.
#[export] Hint Extern 2 (Keeps clock (modify_gpo _)) => keep_clock : typeclass_instances.
#[export] Hint Extern 2 (Keeps _ (push_virtual_operation _)) =>
  apply keeps_virtual; reflexivity : typeclass_instances.

(** A row that a computation did not touch was there before it. *)
Lemma row_back {A} `{Table A} {B} (m : DB B) (db db' : database) b i (x : A) :
  Keeps (tbl (A := A)) m → m db = Ok (b, db') →
  trows db' !! i = Some x → trows db !! i = Some x.
Proof. unfold trows. intros Hk Hm. by rewrite (Hk _ _ _ Hm). Qed.

(** Follows the rows of type [T] backwards through the steps that keep them. *)
Ltac back T :=
  repeat match goal with
  | Hx : trows (A := T) ?s' !! ?i = Some ?x, H : ?m ?s = Ok (_, ?s') |- _ =>
      lazymatch goal with
      | _ : trows (A := T) s !! i = Some x |- _ => fail
      | _ => let Hy := fresh "Hy" in
             pose proof (row_back (A := T) m s s' _ i x ltac:(apply _) H Hx) as Hy
      end
  end.

(** Two reads of the same row agree. *)
Ltac same_rows :=
  repeat match goal with
  | H1 : trows ?s !! ?i = Some ?x, H2 : trows ?s !! ?i = Some ?y |- _ =>
      assert (y = x) by congruence; subst y; clear H2
  end.

(** What a [remove] removes, and what a [modify] finds. *)
Ltac touched T :=
  repeat match goal with
  | H : remove T ?i ?s = Ok _ |- _ =>
      lazymatch goal with
      | _ : trows (A := T) s !! i = Some _ |- _ => fail
      | _ => let x := fresh "x" in let Hx := fresh "Hx" in
             pose proof H as (x & Hx & _)%remove_ok
      end
  | H : modify (A := T) ?i _ ?s = Ok _ |- _ =>
      lazymatch goal with
      | _ : trows (A := T) s !! i = Some _ |- _ => fail
      | _ => let x := fresh "x" in let Hx := fresh "Hx" in
             pose proof H as (x & _ & _ & Hx & _)%modify_ok
      end
  end; back T; same_rows.

(** The object that a lookup found is the row at its id. *)
Ltac found :=
  repeat match goal with
  | Hdb : db_wf ?s, H : find_row ?P ?s = Some ?x |- _ =>
      let Hx := fresh "Hrow" in let HP := fresh "Hkey" in
      destruct (find_row_at P s x Hdb H) as [Hx HP]; clear H;
      change (obj_id x) with (ltac:(let t := eval cbn in (obj_id x) in exact t)) in Hx
  end.

(** ** The sum of the votes an account is counted for *)
Lemma zsum_insert n l d v δ :
  l !! d = Some v → (d < n)%nat → zsum (take n (<[d := v + δ]> l)) = zsum (take n l) + δ.
Proof.
  revert n d. induction l as [|x l IH]; intros [|n] [|d] Hd Hn; simplify_eq/=; try lia.
  rewrite IH by (done || lia). lia.
Qed.
