(* ===== verification/Votes.v ===== *)
(** * Votes for witnesses and voting proxies

    [adjust_witness_vote], [adjust_witness_votes], both overloads of
    [adjust_proxied_witness_votes], [clear_witness_votes] and
    [process_decline_voting_rights] of chain/database.cpp, and the evaluators of
    [account_witness_proxy], [account_witness_vote] and [decline_voting_rights]
    of chain/steem_evaluator.cpp.

    Shares vote for witnesses, directly or through a chain of at most
    [STEEMIT_MAX_PROXY_RECURSION_DEPTH] proxies; each account on the chain
    records how many votes reached it, by distance. *)
From S2P Require Import Prelude Fc Config Asset Chainbase ChainbaseSpec Objects Database.
From S2P Require Import Supply Protocol.

Section votes.
Context {F : Fc}.

(** [account_object::witness_vote_weight()]: [std::accumulate] over the array. *)
Definition witness_vote_weight (a : account_object) : result Z :=
  rfoldl safe_add (take STEEMIT_MAX_PROXY_RECURSION_DEPTH (acc_proxied_vsf_votes a))
    (amount (acc_vesting_shares a)).

Definition adjust_witness_vote (witness : Z) (delta : Z) : DB unit :=
  wso ← get_witness_schedule_object;
  props ← get_dynamic_global_properties;
  hf2 ← has_hardfork 2; hf4 ← has_hardfork 4;
  modify witness (λ w,
    let delta_pos := u128_mul (u128_of_int64 (wit_votes w))
      (u128_sub (wso_current_virtual_time wso) (wit_virtual_last_update w)) in
    let w1 := set_wit_virtual_last_update (wso_current_virtual_time wso)
                (set_wit_virtual_position (u128_add (wit_virtual_position w) delta_pos) w) in
    votes ← safe_add (wit_votes w1) delta;
    let w2 := set_wit_votes votes w1 in
    FC_ASSERT (wit_votes w2 <=? amount (gpo_total_vesting_shares props))
      "w.votes <= total_vesting_shares.amount";;
    q ← u128_div (u128_sub (if hf2 : bool then VIRTUAL_SCHEDULE_LAP_LENGTH2
                            else VIRTUAL_SCHEDULE_LAP_LENGTH) (wit_virtual_position w2))
                 (u128_of_int64 (to_int64 (wit_votes w2 + 1)));
    let w3 := set_wit_virtual_scheduled_time (u128_add (wit_virtual_last_update w2) q) w2 in
    mret (if (hf4 : bool) && (wit_virtual_scheduled_time w3 <? wso_current_virtual_time wso)
          then set_wit_virtual_scheduled_time (U128 - 1) w3 else w3)).

(** The votes of an account, in the order of [by_account_witness]. *)
Definition votes_of (a : Z) : database → list witness_vote_object :=
  select (λ v, wv_account v =? a) (λ v1 v2, wv_witness v1 <=? wv_witness v2).

Definition adjust_witness_votes (a : Z) (delta : Z) : DB unit :=
  votes ← gets (votes_of a);
  for_each votes (λ v,
    w ← get witness_object (wv_witness v);
    adjust_witness_vote (wit_id w) delta).

(** [proxied_vsf_votes[d] += delta] *)
Definition add_proxied (d : nat) (delta : Z) (a : account_object) : result account_object :=
  match acc_proxied_vsf_votes a !! d with
  | None => Throw out_of_range
  | Some v => v' ← safe_add v delta;
              mret (set_acc_proxied_vsf_votes (<[d := v']> (acc_proxied_vsf_votes a)) a)
  end.

(** The body of the loop [for( i = MAX - depth - 1; i >= 0; --i )]: adds
    [delta[i]] at [i + depth] for the [n] values of [i] below [n]. *)
Fixpoint add_proxied_upto (n : nat) (depth : nat) (delta : list Z) (a : account_object)
    : result account_object :=
  match n with
  | O => Ok a
  | S i => match delta !! i with
           | None => Throw out_of_range
           | Some x => a' ← add_proxied (i + depth) x a; add_proxied_upto i depth delta a'
           end
  end.

(** [for( i = n - 1; i >= 0; --i ) total += delta[i]] *)
Fixpoint sum_upto (n : nat) (delta : list Z) (total : Z) : result Z :=
  match n with
  | O => Ok total
  | S i => match delta !! i with
           | None => Throw out_of_range
           | Some x => t ← safe_add total x; sum_upto i delta t
           end
  end.

(** Both overloads recurse along the proxies; [n] is what is left of the
    recursion depth, [depth] is [STEEMIT_MAX_PROXY_RECURSION_DEPTH - n]. *)
Fixpoint adjust_proxied_array (n : nat) (a : Z) (delta : list Z) : DB unit :=
  acc ← get account_object a;
  if negb (bool_decide (acc_proxy acc = STEEMIT_PROXY_TO_SELF_ACCOUNT)) then
    match n with
    | O => mret tt
    | S n' =>
        proxy ← get_account (acc_proxy acc);
        modify (acc_id proxy)
          (add_proxied_upto n (STEEMIT_MAX_PROXY_RECURSION_DEPTH - n) delta);;
        adjust_proxied_array n' (acc_id proxy) delta
    end
  else
    total_delta ← lift (sum_upto (S n) delta 0);
    adjust_witness_votes a total_delta.

Fixpoint adjust_proxied_scalar (n : nat) (a : Z) (delta : Z) : DB unit :=
  acc ← get account_object a;
  if negb (bool_decide (acc_proxy acc = STEEMIT_PROXY_TO_SELF_ACCOUNT)) then
    match n with
    | O => mret tt
    | S n' =>
        proxy ← get_account (acc_proxy acc);
        modify (acc_id proxy) (add_proxied (STEEMIT_MAX_PROXY_RECURSION_DEPTH - n) delta);;
        adjust_proxied_scalar n' (acc_id proxy) delta
    end
  else adjust_witness_votes a delta.

Definition adjust_proxied_witness_votes_array (a : Z) (delta : list Z) : DB unit :=
  adjust_proxied_array STEEMIT_MAX_PROXY_RECURSION_DEPTH a delta.
Definition adjust_proxied_witness_votes (a : Z) (delta : Z) : DB unit :=
  adjust_proxied_scalar STEEMIT_MAX_PROXY_RECURSION_DEPTH a delta.

Definition clear_witness_votes (a : Z) : DB unit :=
  votes ← gets (votes_of a);
  for_each votes (λ v, remove witness_vote_object (wv_id v));;
  hf ← has_hardfork 6;
  when hf (modify a (λ acc, Ok (set_acc_witnesses_voted_for 0 acc))).

(** [delta[0] = -vesting_shares; delta[i + 1] = -proxied_vsf_votes[i]] *)
Definition negated_votes (a : account_object) : result (list Z) :=
  foldr (λ v r, n ← safe_neg v; l ← r; mret (n :: l)) (Ok [])
    (amount (acc_vesting_shares a) :: acc_proxied_vsf_votes a).
Definition negate_all (l : list Z) : result (list Z) :=
  foldr (λ v r, n ← safe_neg v; l ← r; mret (n :: l)) (Ok []) l.

(** *** [account_witness_proxy_evaluator] *)
(** The loop over the chain of the new proxy: it ends because every round adds
    an id to [proxy_chain], whose size is limited. *)
Fixpoint check_proxy_chain (fuel : nat) (cprox : account_object) (proxy_chain : gset Z) : DB unit :=
  if bool_decide (acc_proxy cprox = EmptyString) then mret tt
  else match fuel with
       | O => throw (assert_exception "Proxy chain is too long.")
       | S fuel' =>
           next_proxy ← get_account (acc_proxy cprox);
           assert (negb (bool_decide (acc_id next_proxy ∈ proxy_chain)))
             "This proxy would create a proxy loop.";;
           let proxy_chain' := {[acc_id next_proxy]} ∪ proxy_chain in
           assert (bool_decide (size proxy_chain' ≤ STEEMIT_MAX_PROXY_RECURSION_DEPTH)%nat)
             "Proxy chain is too long.";;
           check_proxy_chain fuel' next_proxy proxy_chain'
       end.

Definition account_witness_proxy_evaluator (o : account_witness_proxy_operation) : DB unit :=
  account ← get_account (awp_account o);
  assert (negb (bool_decide (acc_proxy account = awp_proxy o))) "Proxy must change.";;
  assert (acc_can_vote account)
    "Account has declined the ability to vote and cannot proxy votes.";;
  delta ← lift (negated_votes account);
  adjust_proxied_witness_votes_array (acc_id account) delta;;
  if negb (bool_decide (awp_proxy o = EmptyString)) then
    new_proxy ← get_account (awp_proxy o);
    check_proxy_chain (S STEEMIT_MAX_PROXY_RECURSION_DEPTH) new_proxy
      ({[acc_id account]} ∪ {[acc_id new_proxy]});;
    clear_witness_votes (acc_id account);;
    modify (acc_id account) (λ a, Ok (set_acc_proxy (awp_proxy o) a));;
    delta' ← lift (negate_all delta);
    adjust_proxied_witness_votes_array (acc_id account) delta'
  else modify (acc_id account) (λ a, Ok (set_acc_proxy (awp_proxy o) a)).

(** *** [account_witness_vote_evaluator] *)
Definition account_witness_vote_evaluator (o : account_witness_vote_operation) : DB unit :=
  voter ← get_account (awv_account o);
  assert (bool_decide (acc_proxy voter = EmptyString))
    "A proxy is currently set, please clear the proxy before voting for a witness.";;
  when (awv_approve o)
    (assert (acc_can_vote voter) "Account has declined its voting rights.");;
  witness ← get_witness (awv_witness o);
  itr ← find_by (λ v, (wv_account v =? acc_id voter) && (wv_witness v =? wit_id witness));
  match itr with
  | None =>
      assert (awv_approve o)
        "Vote doesn't exist, user must indicate a desire to approve witness.";;
      assert (acc_witnesses_voted_for voter <? STEEMIT_MAX_ACCOUNT_WITNESS_VOTES)
        "Account has voted for too many witnesses.";;
      create (Mk_witness_vote_object 0 0 0)
        (λ v, set_wv_account (acc_id voter) (set_wv_witness (wit_id witness) v));;
      weight ← lift (witness_vote_weight voter);
      adjust_witness_vote (wit_id witness) weight;;
      modify (acc_id voter) (λ a,
        Ok (set_acc_witnesses_voted_for (to_uint16 (acc_witnesses_voted_for a + 1)) a))
  | Some v =>
      assert (negb (awv_approve o))
        "Vote currently exists, user must indicate a desire to reject witness.";;
      weight ← lift (w ← witness_vote_weight voter; safe_neg w);
      adjust_witness_vote (wit_id witness) weight;;
      modify (acc_id voter) (λ a,
        Ok (set_acc_witnesses_voted_for (to_uint16 (acc_witnesses_voted_for a - 1)) a));;
      remove witness_vote_object (wv_id v)
  end.

(** *** [decline_voting_rights_evaluator] *)
Definition decline_voting_rights_evaluator (o : decline_voting_rights_operation) : DB unit :=
  account ← get_account (dvro_account o);
  itr ← find_by (λ r, dvr_account r =? acc_id account);
  if dvro_decline o then
    assert (bool_decide (itr = None)) "Cannot create new request because one already exists.";;
    now ← head_block_time;
    create (Mk_decline_voting_rights_request_object 0 0 0) (λ r,
      set_dvr_effective_date (time_add now STEEMIT_OWNER_AUTH_RECOVERY_PERIOD)
        (set_dvr_account (acc_id account) r));;
    mret tt
  else match itr with
       | None => throw (assert_exception "Cannot cancel the request because it does not exist.")
       | Some r => remove decline_voting_rights_request_object (dvr_id r)
       end.

(** *** [process_decline_voting_rights] *)
(** One round of the loop, for the first request that is due. *)
Definition process_decline_request (r : decline_voting_rights_request_object) : DB unit :=
  account ← get account_object (dvr_account r);
  delta ← lift (negated_votes account);
  adjust_proxied_witness_votes_array (acc_id account) delta;;
  clear_witness_votes (acc_id account);;
  modify (dvr_account r) (λ a,
    Ok (set_acc_proxy STEEMIT_PROXY_TO_SELF_ACCOUNT (set_acc_can_vote false a)));;
  remove decline_voting_rights_request_object (dvr_id r).

(** The requests that are due, in the order of [by_effective_date]; the loop
    takes the first one until none is left, and no round adds a request. *)
Definition due_declines (now : Z) : database → list decline_voting_rights_request_object :=
  select (λ r, dvr_effective_date r <=? now)
    (λ r1 r2, (dvr_effective_date r1 <? dvr_effective_date r2)
              || ((dvr_effective_date r1 =? dvr_effective_date r2)
                  && (dvr_account r1 <=? dvr_account r2))).

Definition process_decline_voting_rights : DB unit :=
  now ← head_block_time;
  rs ← gets (due_declines now);
  for_each rs process_decline_request.
End votes.

(** ** The votes an account is counted for *)
Section conservation.
Context {F : Fc}.

#[export] Instance adjust_witness_vote_conserves w d : Conserves (adjust_witness_vote w d).
Proof. unfold adjust_witness_vote. conserve. Qed.
#[export] Instance adjust_witness_votes_conserves a d : Conserves (adjust_witness_votes a d).
Proof. unfold adjust_witness_votes. conserve. Qed.
#[export] Instance clear_witness_votes_conserves a : Conserves (clear_witness_votes a).
Proof. unfold clear_witness_votes. conserve. Qed.

Lemma add_proxied_row d x a a' : add_proxied d x a = Ok a' → row_ok a → row_ok a'.
Proof. unfold add_proxied. case_match; [|done]. intros. inv_ok. done. Qed.
Lemma add_proxied_upto_row n d l a a' : add_proxied_upto n d l a = Ok a' → row_ok a → row_ok a'.
Proof.
  revert a. induction n as [|n IH]; intros a; simpl; [by intros [= ->]|].
  case_match; [|done]. intros. inv_ok. eapply IH; [done|]. by eapply add_proxied_row.
Qed.

Lemma add_proxied_ok d x a a' :
  add_proxied d x a = Ok a' → (d < 4)%nat →
  ∃ l, a' = set_acc_proxied_vsf_votes l a ∧
    zsum (take 4 l) = zsum (take 4 (acc_proxied_vsf_votes a)) + x ∧
    default 0 (l !! 3%nat) = default 0 (acc_proxied_vsf_votes a !! 3%nat)
      + if (d =? 3)%nat then x else 0.
Proof.
  unfold add_proxied. case_match eqn:E; [|done]. intros Ha Hd. inv_ok. inv_safe. subst.
  eexists. split_and!; [done|by apply zsum_insert|].
  destruct (Nat.eqb_spec d 3) as [->|Hne].
  - rewrite list_lookup_insert_eq, E by (by eapply lookup_lt_Some). done.
  - rewrite list_lookup_insert_ne by done. lia.
Qed.

(** The last of the first [n] deltas reaches the recursion limit. *)
Lemma add_proxied_upto_ok n d delta a a' :
  add_proxied_upto n d delta a = Ok a' → (n + d)%nat = 4%nat →
  ∃ l, a' = set_acc_proxied_vsf_votes l a ∧
    zsum (take 4 l) = zsum (take 4 (acc_proxied_vsf_votes a)) + zsum (take n delta) ∧
    default 0 (l !! 3%nat) = default 0 (acc_proxied_vsf_votes a !! 3%nat)
      + zsum (take n delta) - zsum (take (n - 1) delta).
Proof.
  intros H Hn.
  assert (∃ l, a' = set_acc_proxied_vsf_votes l a ∧
    zsum (take 4 l) = zsum (take 4 (acc_proxied_vsf_votes a)) + zsum (take n delta) ∧
    default 0 (l !! 3%nat) = default 0 (acc_proxied_vsf_votes a !! 3%nat)
      + if (n + d <? 4)%nat then 0
        else zsum (take n delta) - zsum (take (n - 1) delta)) as Hgen.
  { assert (n + d ≤ 4)%nat as Hle by lia. clear Hn. revert a H Hle.
    induction n as [|i IH]; intros a H Hle; simpl in H.
    { exists (acc_proxied_vsf_votes a). simplify_eq. split_and!; [by destruct a'|simpl; lia|].
      destruct (_ <? _)%nat; simpl; lia. }
    destruct (delta !! i) as [x|] eqn:Ex; [|done]. inv_ok.
    apply add_proxied_ok in Hm as (l1 & -> & Hs1 & H31); [|lia].
    apply IH in Hk as (l & -> & Hs & H3); [|lia]. exists l. split; [done|].
    change (acc_proxied_vsf_votes (set_acc_proxied_vsf_votes l1 a)) with l1 in *.
    assert (zsum (take (S i) delta) = zsum (take i delta) + x) as Ht.
    { rewrite (take_S_r _ _ x) by done. clear. induction (take i delta); simpl; lia. }
    split; [lia|]. rewrite H3, H31.
    rewrite (proj2 (Nat.ltb_lt (i + d) 4)) by lia.
    replace (S i - 1)%nat with i by lia.
    destruct (Nat.eqb_spec (i + d) 3), (Nat.ltb_spec (S i + d) 4); lia. }
  destruct Hgen as (l & ? & ? & H3). exists l. split_and!; [done..|]. rewrite H3.
  rewrite (proj2 (Nat.ltb_ge (n + d) 4)) by lia. lia.
Qed.

(** What the recursion adds to the counted votes, from the account [a] on:
    nothing when the votes stay at an account that votes itself. *)
Definition reaches (n : nat) (a : account_object) (x : Z) : Z :=
  if bool_decide (acc_proxy a = STEEMIT_PROXY_TO_SELF_ACCOUNT) then 0
  else match n with O => 0 | S _ => x end.

Lemma vsf_set_proxied l a x :
  zsum (take 4 l) = zsum (take 4 (acc_proxied_vsf_votes a)) + x →
  vsf (set_acc_proxied_vsf_votes l a)
  = if bool_decide (acc_proxy a = STEEMIT_PROXY_TO_SELF_ACCOUNT) then vsf a + x
    else default 0 (l !! 3%nat).
Proof.
  intros Hl. unfold vsf.
  change (acc_proxy (set_acc_proxied_vsf_votes l a)) with (acc_proxy a).
  change (acc_vesting_shares (set_acc_proxied_vsf_votes l a)) with (acc_vesting_shares a).
  change (acc_proxied_vsf_votes (set_acc_proxied_vsf_votes l a)) with l.
  unfold STEEMIT_MAX_PROXY_RECURSION_DEPTH. destruct (bool_decide _); lia.
Qed.

Lemma weight_set_proxied k l a :
  k ≠ KVsf → weight k (set_acc_proxied_vsf_votes l a) = weight k a.
Proof. by destruct k. Qed.

Lemma adjust_proxied_array_imb n a delta db u db' :
  (n ≤ 4)%nat → db_wf db → adjust_proxied_array n a delta db = Ok (u, db') →
  db_wf db' ∧ ∃ acc, trows db !! a = Some acc ∧
  ∀ k, imb k db' = imb k db
    - match k with KVsf => reaches n acc (zsum (take n delta)) | _ => 0 end.
Proof.
  revert a db. induction n as [|n IH]; intros a db Hn Hdb; cbn [adjust_proxied_array];
    intros (acc & s & [-> Hacc]%get_ok & H)%bind_ok;
    destruct (bool_decide_reflect (acc_proxy acc = STEEMIT_PROXY_TO_SELF_ACCOUNT)) as [Hp|Hp];
    cbn [negb] in H.
  1,3: inv_ok; shift_all; split; [done|]; exists acc; split; [done|]; intros k; at_kind k;
    unfold reaches; rewrite bool_decide_true by done; destruct k; lia.
  { inv_ok. split; [done|]. exists acc. split; [done|]. intros k. unfold reaches.
    rewrite bool_decide_false by done. destruct k; lia. }
  apply bind_ok in H as (p & s & [-> _]%get_by_ok & H).
  apply bind_ok in H as ([] & s & Hmod & H).
  assert (db_wf s) as Hs by (refine (modify_wf _ _ _ _ _ Hdb _ Hmod); intros ?? _; apply add_proxied_upto_row).
  apply IH in H as (Hdb' & q & Hq & HI); [|lia|done]. split; [done|]. exists acc.
  split; [done|]. intros k. specialize (HI k).
  destruct (modify_imb_at _ _ _ _ _ _ Hmod Hq) as (p' & Hp' & Hf & HI'). specialize (HI' k).
  apply add_proxied_upto_ok in Hf as (l & -> & Hl & H3);
    [|unfold STEEMIT_MAX_PROXY_RECURSION_DEPTH; lia].
  rewrite HI, HI'. destruct (decide (k = KVsf)) as [->|Hk].
  - change (weight KVsf) with vsf. rewrite (vsf_set_proxied _ _ _ Hl). unfold reaches, vsf.
    rewrite (bool_decide_false (acc_proxy acc = _)) by done.
    change (acc_proxy (set_acc_proxied_vsf_votes l p')) with (acc_proxy p').
    destruct (bool_decide_reflect (acc_proxy p' = STEEMIT_PROXY_TO_SELF_ACCOUNT)); [lia|].
    rewrite H3. replace (S n - 1)%nat with n by lia. destruct n; simpl; lia.
  - rewrite weight_set_proxied by done. destruct k; lia || done.
Qed.

Lemma adjust_proxied_scalar_imb n a delta db u db' :
  (n ≤ 4)%nat → db_wf db → adjust_proxied_scalar n a delta db = Ok (u, db') →
  db_wf db' ∧ ∃ acc, trows db !! a = Some acc ∧
  ∀ k, imb k db' = imb k db - match k with KVsf => reaches n acc delta | _ => 0 end.
Proof.
  revert a db. induction n as [|n IH]; intros a db Hn Hdb; cbn [adjust_proxied_scalar];
    intros (acc & s & [-> Hacc]%get_ok & H)%bind_ok;
    destruct (bool_decide_reflect (acc_proxy acc = STEEMIT_PROXY_TO_SELF_ACCOUNT)) as [Hp|Hp];
    cbn [negb] in H.
  1,3: shift_all; split; [done|]; exists acc; split; [done|]; intros k; at_kind k;
    unfold reaches; rewrite bool_decide_true by done; destruct k; lia.
  { inv_ok. split; [done|]. exists acc. split; [done|]. intros k. unfold reaches.
    rewrite bool_decide_false by done. destruct k; lia. }
  apply bind_ok in H as (p & s & [-> _]%get_by_ok & H).
  apply bind_ok in H as ([] & s & Hmod & H).
  assert (db_wf s) as Hs by (refine (modify_wf _ _ _ _ _ Hdb _ Hmod); intros ?? _; apply add_proxied_row).
  apply IH in H as (Hdb' & q & Hq & HI); [|lia|done]. split; [done|]. exists acc.
  split; [done|]. intros k. specialize (HI k).
  destruct (modify_imb_at _ _ _ _ _ _ Hmod Hq) as (p' & Hp' & Hf & HI'). specialize (HI' k).
  apply add_proxied_ok in Hf as (l & -> & Hl & H3);
    [|unfold STEEMIT_MAX_PROXY_RECURSION_DEPTH; lia].
  rewrite HI, HI'. destruct (decide (k = KVsf)) as [->|Hk].
  - change (weight KVsf) with vsf. rewrite (vsf_set_proxied _ _ _ Hl). unfold reaches, vsf.
    rewrite (bool_decide_false (acc_proxy acc = _)) by done.
    change (acc_proxy (set_acc_proxied_vsf_votes l p')) with (acc_proxy p').
    destruct (bool_decide_reflect (acc_proxy p' = STEEMIT_PROXY_TO_SELF_ACCOUNT)); [lia|].
    rewrite H3. unfold STEEMIT_MAX_PROXY_RECURSION_DEPTH.
    destruct (Nat.eqb_spec (4 - S n) 3), n; lia.
  - rewrite weight_set_proxied by done. destruct k; lia || done.
Qed.

(** Frames of the recursion along the proxies. *)
Lemma adjust_witness_votes_keeps {B} (obs : database → B) a d :
  (∀ s db, obs (set_db_witnesses s db) = obs db) → Keeps obs (adjust_witness_votes a d).
Proof.
  intros Ho. unfold adjust_witness_votes, adjust_witness_vote. keep.
  apply keeps_modify. apply Ho.
Qed.
Lemma adjust_proxied_keeps {B} (obs : database → B) n a d :
  (∀ s db, obs (set_db_witnesses s db) = obs db) →
  (∀ s db, obs (set_db_accounts s db) = obs db) → Keeps obs (adjust_proxied_scalar n a d).
Proof.
  intros Hw Ha. revert a. induction n as [|n IH]; intros a; cbn [adjust_proxied_scalar];
    keep; first [by apply adjust_witness_votes_keeps | apply keeps_modify; apply Ha | apply IH].
Qed.

#[export] Instance check_proxy_chain_conserves n p c : Conserves (check_proxy_chain n p c).
Proof. revert p c. induction n; intros p c; simpl; conserve. Qed.

#[export] Instance account_witness_vote_conserves o : Conserves (account_witness_vote_evaluator o).
Proof. unfold account_witness_vote_evaluator. conserve. Qed.

#[export] Instance decline_voting_rights_conserves o : Conserves (decline_voting_rights_evaluator o).
Proof. unfold decline_voting_rights_evaluator. conserve. Qed.
End conservation.

#[global] Typeclasses Opaque adjust_witness_vote adjust_witness_votes clear_witness_votes
  check_proxy_chain account_witness_vote_evaluator decline_voting_rights_evaluator
  adjust_proxied_witness_votes adjust_proxied_witness_votes_array.
#[export] Hint Extern 2 (Keeps _ (adjust_proxied_scalar _ _ _)) =>
  apply adjust_proxied_keeps; reflexivity : typeclass_instances.
#[export] Hint Extern 2 (Keeps _ (adjust_witness_votes _ _)) =>
  apply adjust_witness_votes_keeps; reflexivity : typeclass_instances.
