(* ===== verification/Ledger.v ===== *)
(** * Balances and supplies

    The functions of chain/database.cpp that move assets: [adjust_balance],
    [adjust_savings_balance], [adjust_reward_balance], [adjust_supply],
    [get_balance], [get_savings_balance], [create_sbd], [create_vesting],
    [pay_fee], [clear_null_account_balance], [update_virtual_supply] and the
    check [validate_invariants], with the share prices of
    [dynamic_global_property_object] and [util::to_sbd], [util::to_steem].

    Every function has its exact effect on the supply equations as an instance
    of [Shifts]. *)
From S2P Require Import Prelude Fc Config Asset Chainbase ChainbaseSpec Objects Database.
From S2P Require Import Supply Votes.

Section ledger.
Context {F : Fc}.

(** ** Prices of vesting shares *)
Definition get_vesting_share_price (g : dynamic_global_property_object) : price :=
  if (amount (gpo_total_vesting_fund_steem g) =? 0) || (amount (gpo_total_vesting_shares g) =? 0)
  then Price (Asset 1000 STEEM_SYMBOL) (Asset 1000000 VESTS_SYMBOL)
  else Price (gpo_total_vesting_shares g) (gpo_total_vesting_fund_steem g).

Definition get_reward_vesting_share_price (g : dynamic_global_property_object) : result price :=
  b ← asset_add (gpo_total_vesting_shares g) (gpo_pending_rewarded_vesting_shares g);
  q ← asset_add (gpo_total_vesting_fund_steem g) (gpo_pending_rewarded_vesting_steem g);
  mret (Price b q).

Definition util_to_sbd (p : price) (steem : asset) : result asset :=
  FC_ASSERT (symbol steem =? STEEM_SYMBOL) "steem.symbol == STEEM_SYMBOL";;
  if price_is_null p then mret (Asset 0 SBD_SYMBOL) else asset_mul steem p.
Definition util_to_steem (p : price) (sbd : asset) : result asset :=
  FC_ASSERT (symbol sbd =? SBD_SYMBOL) "sbd.symbol == SBD_SYMBOL";;
  if price_is_null p then mret (Asset 0 STEEM_SYMBOL) else asset_mul sbd p.

Definition to_sbd (steem : asset) : DB asset :=
  p ← current_median_history; lift (util_to_sbd p steem).
Definition to_steem (sbd : asset) : DB asset :=
  p ← current_median_history; lift (util_to_steem p sbd).

(** ** Balances *)

(** The part of an account that earns interest: the liquid or the saved
    dollars. *)
Record interest_state := InterestState {
  is_balance : asset; is_seconds : Z; is_last_update : Z; is_last_payment : Z }.

(** The interest of the dollars held since the last update, credited once it
    is more than [STEEMIT_SBD_INTEREST_COMPOUND_INTERVAL_SEC] old.  The second
    component is the interest that was paid, as computed and as an asset. *)
Definition accrue_interest (now rate : Z) (s : interest_state)
    : result (interest_state * option (Z * asset)) :=
  if is_last_update s =? now then mret (s, None)
  else
    let seconds := u128_add (is_seconds s)
      (u128_mul (u128_of_int64 (amount (is_balance s))) (u128_of_int64 (now - is_last_update s))) in
    if (0 <? seconds) && (STEEMIT_SBD_INTEREST_COMPOUND_INTERVAL_SEC <? now - is_last_payment s)
    then
      i1 ← u128_div seconds STEEMIT_SECONDS_PER_YEAR;
      i3 ← u128_div (u128_mul i1 rate) STEEMIT_100_PERCENT;
      paid ← u128_to_uint64 i3;
      let interest_paid := Asset (to_int64 paid) SBD_SYMBOL in
      b ← asset_add (is_balance s) interest_paid;
      mret (InterestState b 0 now now, Some (i3, interest_paid))
    else mret (InterestState (is_balance s) seconds now (is_last_payment s), None).

(** The interest is announced and added to the supply. *)
Definition pay_interest (name : string) (paid : option (Z * asset)) : DB unit :=
  match paid with
  | None => mret tt
  | Some (interest, interest_paid) =>
      when (0 <? interest) (push_virtual_operation (interest_operation name interest_paid));;
      median ← current_median_history;
      modify_gpo (λ props,
        s ← asset_add (gpo_current_sbd_supply props) interest_paid;
        d ← asset_mul interest_paid median;
        v ← asset_add (gpo_virtual_supply props) d;
        mret (set_gpo_virtual_supply v (set_gpo_current_sbd_supply s props)))
  end.

Definition liquid_interest (a : account_object) : interest_state :=
  InterestState (acc_sbd_balance a) (acc_sbd_seconds a) (acc_sbd_seconds_last_update a)
    (acc_sbd_last_interest_payment a).
Definition set_liquid_interest (s : interest_state) (a : account_object) : account_object :=
  set_acc_sbd_last_interest_payment (is_last_payment s)
    (set_acc_sbd_seconds_last_update (is_last_update s)
      (set_acc_sbd_seconds (is_seconds s) (set_acc_sbd_balance (is_balance s) a))).
Definition savings_interest (a : account_object) : interest_state :=
  InterestState (acc_savings_sbd_balance a) (acc_savings_sbd_seconds a)
    (acc_savings_sbd_seconds_last_update a) (acc_savings_sbd_last_interest_payment a).
Definition set_savings_interest (s : interest_state) (a : account_object) : account_object :=
  set_acc_savings_sbd_last_interest_payment (is_last_payment s)
    (set_acc_savings_sbd_seconds_last_update (is_last_update s)
      (set_acc_savings_sbd_seconds (is_seconds s) (set_acc_savings_sbd_balance (is_balance s) a))).

(** The [switch] of [adjust_balance]: the account after it, and the interest
    it was paid. *)
Definition adjust_balance_of (now rate : Z) (delta : asset) (a : account_object)
    : result (account_object * option (Z * asset)) :=
  if symbol delta =? STEEM_SYMBOL then
    b ← asset_add (acc_balance a) delta; mret (set_acc_balance b a, None)
  else if symbol delta =? SBD_SYMBOL then
    '(s, paid) ← accrue_interest now rate (liquid_interest a);
    let a1 := set_liquid_interest s a in
    b ← asset_add (acc_sbd_balance a1) delta;
    mret (set_acc_sbd_balance b a1, paid)
  else Throw (assert_exception "invalid symbol").

Definition adjust_balance (a : Z) (delta : asset) : DB unit :=
  acnt ← get account_object a;
  now ← head_block_time;
  props ← get_dynamic_global_properties;
  '(acnt', paid) ← lift (adjust_balance_of now (gpo_sbd_interest_rate props) delta acnt);
  pay_interest (acc_name acnt) paid;;
  modify a (λ _, Ok acnt').

Definition adjust_savings_balance_of (now rate : Z) (delta : asset) (a : account_object)
    : result (account_object * option (Z * asset)) :=
  if symbol delta =? STEEM_SYMBOL then
    b ← asset_add (acc_savings_balance a) delta; mret (set_acc_savings_balance b a, None)
  else if symbol delta =? SBD_SYMBOL then
    '(s, paid) ← accrue_interest now rate (savings_interest a);
    let a1 := set_savings_interest s a in
    b ← asset_add (acc_savings_sbd_balance a1) delta;
    mret (set_acc_savings_sbd_balance b a1, paid)
  else Throw (assert_exception "invalid symbol").

Definition adjust_savings_balance (a : Z) (delta : asset) : DB unit :=
  acnt ← get account_object a;
  now ← head_block_time;
  props ← get_dynamic_global_properties;
  '(acnt', paid) ← lift (adjust_savings_balance_of now (gpo_sbd_interest_rate props) delta acnt);
  pay_interest (acc_name acnt) paid;;
  modify a (λ _, Ok acnt').

Definition adjust_reward_balance (a : Z) (delta : asset) : DB unit :=
  modify a (λ acnt,
    if symbol delta =? STEEM_SYMBOL then
      b ← asset_add (acc_reward_steem_balance acnt) delta;
      mret (set_acc_reward_steem_balance b acnt)
    else if symbol delta =? SBD_SYMBOL then
      b ← asset_add (acc_reward_sbd_balance acnt) delta;
      mret (set_acc_reward_sbd_balance b acnt)
    else Throw (assert_exception "invalid symbol")).

Definition get_balance (a : account_object) (sym : Z) : result asset :=
  if sym =? STEEM_SYMBOL then Ok (acc_balance a)
  else if sym =? SBD_SYMBOL then Ok (acc_sbd_balance a)
  else Throw (assert_exception "invalid symbol").
Definition get_savings_balance (a : account_object) (sym : Z) : result asset :=
  if sym =? STEEM_SYMBOL then Ok (acc_savings_balance a)
  else if sym =? SBD_SYMBOL then Ok (acc_savings_sbd_balance a)
  else Throw (assert_exception "invalid symbol").

(** ** Supplies *)
Definition adjust_supply (delta : asset) (adjust_vesting : bool) : DB unit :=
  median ← current_median_history;
  modify_gpo (λ props,
    let adjust_vesting :=
      adjust_vesting && negb (gpo_head_block_number props <? STEEMIT_BLOCKS_PER_DAY * 7) in
    if symbol delta =? STEEM_SYMBOL then
      nine ← (if adjust_vesting && (0 <? amount delta) then safe_mul (amount delta) 9 else Ok 0);
      let new_vesting := Asset nine STEEM_SYMBOL in
      d ← asset_add delta new_vesting;
      s ← asset_add (gpo_current_supply props) d;
      v ← asset_add (gpo_virtual_supply props) d;
      f ← asset_add (gpo_total_vesting_fund_steem props) new_vesting;
      mret (set_gpo_total_vesting_fund_steem f
             (set_gpo_virtual_supply v (set_gpo_current_supply s props)))
    else if symbol delta =? SBD_SYMBOL then
      s ← asset_add (gpo_current_sbd_supply props) delta;
      c ← asset_mul s median;
      v ← asset_add c (gpo_current_supply props);
      mret (set_gpo_virtual_supply v (set_gpo_current_sbd_supply s props))
    else Throw (assert_exception "invalid symbol")).

Definition update_virtual_supply : DB unit :=
  median ← current_median_history;
  hf14 ← has_hardfork 14;
  modify_gpo (λ dgp,
    c ← (if price_is_null median then mret (Asset 0 STEEM_SYMBOL)
         else asset_mul (gpo_current_sbd_supply dgp) median);
    v ← asset_add (gpo_current_supply dgp) c;
    let dgp1 := set_gpo_virtual_supply v dgp in
    if negb (price_is_null median) && (hf14 : bool) then
      c' ← asset_mul (gpo_current_sbd_supply dgp1) median;
      q ← u128_div (u128_mul (u128_of_int64 (amount c')) STEEMIT_100_PERCENT)
                   (u128_of_int64 (amount (gpo_virtual_supply dgp1)));
      p ← u128_to_uint64 q;
      let percent_sbd := to_uint16 p in
      mret (set_gpo_sbd_print_rate
        (if percent_sbd <=? STEEMIT_SBD_START_PERCENT then STEEMIT_100_PERCENT
         else if STEEMIT_SBD_STOP_PERCENT <=? percent_sbd then 0
         else to_uint16 ((STEEMIT_SBD_STOP_PERCENT - percent_sbd) * STEEMIT_100_PERCENT
                         / (STEEMIT_SBD_STOP_PERCENT - STEEMIT_SBD_START_PERCENT))) dgp1)
    else mret dgp1).

(** ** Issue of dollars and vesting shares *)
Definition create_sbd (to_account : Z) (steem : asset) (to_reward_balance : bool)
    : DB (asset * asset) :=
  if amount steem =? 0 then mret (Asset 0 SBD_SYMBOL, Asset 0 STEEM_SYMBOL)
  else
    median_price ← current_median_history;
    gpo ← get_dynamic_global_properties;
    if negb (price_is_null median_price) then
      to_sbd ← lift (x ← safe_mul (gpo_sbd_print_rate gpo) (amount steem);
                     safe_div x STEEMIT_100_PERCENT);
      to_steem ← lift (safe_sub (amount steem) to_sbd);
      sbd ← lift (asset_mul (Asset to_sbd STEEM_SYMBOL) median_price);
      (if to_reward_balance then
         adjust_reward_balance to_account sbd;;
         adjust_reward_balance to_account (Asset to_steem STEEM_SYMBOL)
       else
         adjust_balance to_account sbd;;
         adjust_balance to_account (Asset to_steem STEEM_SYMBOL));;
      minus ← lift (safe_neg to_sbd);
      adjust_supply (Asset minus STEEM_SYMBOL) false;;
      adjust_supply sbd false;;
      mret (sbd, Asset to_steem STEEM_SYMBOL)
    else
      adjust_balance to_account steem;;
      mret (Asset 0 SBD_SYMBOL, steem).

Definition create_vesting (to_account : Z) (steem : asset) (to_reward_balance : bool) : DB asset :=
  cprops ← get_dynamic_global_properties;
  share_price ← lift (if to_reward_balance then get_reward_vesting_share_price cprops
                      else Ok (get_vesting_share_price cprops));
  new_vesting ← lift (asset_mul steem share_price);
  modify to_account (λ to,
    if to_reward_balance then
      b ← asset_add (acc_reward_vesting_balance to) new_vesting;
      s ← asset_add (acc_reward_vesting_steem to) steem;
      mret (set_acc_reward_vesting_steem s (set_acc_reward_vesting_balance b to))
    else
      b ← asset_add (acc_vesting_shares to) new_vesting;
      mret (set_acc_vesting_shares b to));;
  modify_gpo (λ props,
    if to_reward_balance then
      b ← asset_add (gpo_pending_rewarded_vesting_shares props) new_vesting;
      s ← asset_add (gpo_pending_rewarded_vesting_steem props) steem;
      mret (set_gpo_pending_rewarded_vesting_steem s
             (set_gpo_pending_rewarded_vesting_shares b props))
    else
      s ← asset_add (gpo_total_vesting_fund_steem props) steem;
      b ← asset_add (gpo_total_vesting_shares props) new_vesting;
      mret (set_gpo_total_vesting_shares b (set_gpo_total_vesting_fund_steem s props)));;
  when (negb to_reward_balance)
    (adjust_proxied_witness_votes to_account (amount new_vesting));;
  mret new_vesting.

Definition pay_fee (account : Z) (fee : asset) : DB unit :=
  assert (0 <=? amount fee) "fee.amount >= 0";;
  if amount fee =? 0 then mret tt
  else
    acc ← get account_object account;
    ok ← lift (asset_ge (acc_balance acc) fee);
    assert ok "account.balance >= fee";;
    minus ← lift (asset_neg fee);
    adjust_balance account minus;;
    adjust_supply minus false.

(** ** [clear_null_account_balance] *)

(** [if( field > 0 ) { total += field; adjust( null_account, -field ); }] *)
Definition drain (null : Z) (field : account_object → asset) (adjust : Z → asset → DB unit)
    (total : asset) : DB asset :=
  a ← get account_object null;
  if 0 <? amount (field a) then
    total' ← lift (asset_add total (field a));
    minus ← lift (asset_neg (field a));
    adjust null minus;;
    mret total'
  else mret total.

Definition drain_vesting (null : Z) (total : asset) : DB asset :=
  a ← get account_object null;
  if 0 <? amount (acc_vesting_shares a) then
    gpo ← get_dynamic_global_properties;
    converted_steem ← lift (asset_mul (acc_vesting_shares a) (get_vesting_share_price gpo));
    modify_gpo (λ g,
      s ← asset_sub (gpo_total_vesting_shares g) (acc_vesting_shares a);
      f ← asset_sub (gpo_total_vesting_fund_steem g) converted_steem;
      mret (set_gpo_total_vesting_fund_steem f (set_gpo_total_vesting_shares s g)));;
    modify null (λ a, Ok (set_acc_vesting_shares (Asset 0 (symbol (acc_vesting_shares a))) a));;
    lift (asset_add total converted_steem)
  else mret total.

Definition drain_reward_vesting (null : Z) (total : asset) : DB asset :=
  a ← get account_object null;
  if 0 <? amount (acc_reward_vesting_balance a) then
    total' ← lift (asset_add total (acc_reward_vesting_steem a));
    modify_gpo (λ g,
      s ← asset_sub (gpo_pending_rewarded_vesting_shares g) (acc_reward_vesting_balance a);
      f ← asset_sub (gpo_pending_rewarded_vesting_steem g) (acc_reward_vesting_steem a);
      mret (set_gpo_pending_rewarded_vesting_steem f
             (set_gpo_pending_rewarded_vesting_shares s g)));;
    modify null (λ a, Ok
      (set_acc_reward_vesting_balance (Asset 0 (symbol (acc_reward_vesting_balance a)))
        (set_acc_reward_vesting_steem (Asset 0 (symbol (acc_reward_vesting_steem a))) a)));;
    mret total'
  else mret total.

(** Takes all that the null account holds: the amounts to burn. *)
Definition empty_null_account (null : Z) : DB (asset * asset) :=
  steem1 ← drain null acc_balance adjust_balance (Asset 0 STEEM_SYMBOL);
  steem2 ← drain null acc_savings_balance adjust_savings_balance steem1;
  sbd1 ← drain null acc_sbd_balance adjust_balance (Asset 0 SBD_SYMBOL);
  sbd2 ← drain null acc_savings_sbd_balance adjust_savings_balance sbd1;
  steem3 ← drain_vesting null steem2;
  steem4 ← drain null acc_reward_steem_balance adjust_reward_balance steem3;
  sbd3 ← drain null acc_reward_sbd_balance adjust_reward_balance sbd2;
  steem5 ← drain_reward_vesting null steem4;
  mret (steem5, sbd3).
Definition clear_null_account_balance : DB unit :=
  hf ← has_hardfork 14;
  if negb hf then mret tt
  else
    null_account ← get_account STEEMIT_NULL_ACCOUNT;
    total ← empty_null_account (acc_id null_account);
    when (0 <? amount total.1) (minus ← lift (asset_neg total.1); adjust_supply minus false);;
    when (0 <? amount total.2) (minus ← lift (asset_neg total.2); adjust_supply minus false).

(** ** [validate_invariants] *)
Record totals := Totals {
  total_supply : asset; total_sbd : asset; total_vesting : asset;
  pending_vesting_steem : asset; total_vsf_votes : Z }.

Definition count_account (t : totals) (a : account_object) : result totals :=
  s1 ← asset_add (total_supply t) (acc_balance a);
  s2 ← asset_add s1 (acc_savings_balance a);
  s3 ← asset_add s2 (acc_reward_steem_balance a);
  d1 ← asset_add (total_sbd t) (acc_sbd_balance a);
  d2 ← asset_add d1 (acc_savings_sbd_balance a);
  d3 ← asset_add d2 (acc_reward_sbd_balance a);
  v1 ← asset_add (total_vesting t) (acc_vesting_shares a);
  v2 ← asset_add v1 (acc_reward_vesting_balance a);
  p ← asset_add (pending_vesting_steem t) (acc_reward_vesting_steem a);
  w ← (if bool_decide (acc_proxy a = STEEMIT_PROXY_TO_SELF_ACCOUNT) then witness_vote_weight a
       else match acc_proxied_vsf_votes a !! (STEEMIT_MAX_PROXY_RECURSION_DEPTH - 1)%nat with
            | Some x => Ok x
            | None => Throw out_of_range
            end);
  vsf ← safe_add (total_vsf_votes t) w;
  mret (Totals s3 d3 v2 p vsf).

Definition add_supply (t : totals) (a : asset) : result totals :=
  s ← asset_add (total_supply t) a;
  mret (Totals s (total_sbd t) (total_vesting t) (pending_vesting_steem t) (total_vsf_votes t)).
Definition add_sbd (t : totals) (a : asset) : result totals :=
  d ← asset_add (total_sbd t) a;
  mret (Totals (total_supply t) d (total_vesting t) (pending_vesting_steem t) (total_vsf_votes t)).

(** [if STEEM then total_supply += a else if SBD then total_sbd += a else fail] *)
Definition count_asset (msg : string) (t : totals) (a : asset) : result totals :=
  if symbol a =? STEEM_SYMBOL then add_supply t a
  else if symbol a =? SBD_SYMBOL then add_sbd t a
  else Throw (assert_exception msg).

Definition count_convert (t : totals) (r : convert_request_object) : result totals :=
  count_asset "Encountered illegal symbol in convert_request_object" t (cr_amount r).
Definition count_order (t : totals) (o : limit_order_object) : result totals :=
  if symbol (base (lo_sell_price o)) =? STEEM_SYMBOL
  then add_supply t (Asset (lo_for_sale o) STEEM_SYMBOL)
  else if symbol (base (lo_sell_price o)) =? SBD_SYMBOL
  then add_sbd t (Asset (lo_for_sale o) SBD_SYMBOL)
  else mret t.
Definition count_escrow (t : totals) (e : escrow_object) : result totals :=
  t1 ← add_supply t (esc_steem_balance e);
  t2 ← add_sbd t1 (esc_sbd_balance e);
  count_asset "found escrow pending fee that is not SBD or STEEM" t2 (esc_pending_fee e).
Definition count_savings (t : totals) (s : savings_withdraw_object) : result totals :=
  count_asset "found savings withdraw that is not SBD or STEEM" t (sw_amount s).
Definition count_fund (t : totals) (r : reward_fund_object) : result totals :=
  add_supply t (rf_reward_balance r).

(** The rows of a table in the order of their ids. *)
Definition all_rows {A} `{Table A} `{MultiIndex A} (db : database) : list A :=
  select (λ _, true) (λ x y, obj_id x <=? obj_id y) db.

(** The sum of [rshares^2] that the source computes over the comments is not
    used by any check and left out.  The accounts are visited in the order of
    their names. *)
Definition validate_invariants (db : database) : result unit :=
  let gpo := db_gpo db in
  rfoldl (λ _ w, FC_ASSERT (wit_votes w <=? amount (gpo_total_vesting_shares gpo)) EmptyString)
    (all_rows db) tt;;
  t1 ← rfoldl count_account (select (λ _, true) (λ x y, String.leb (acc_name x) (acc_name y)) db)
         (Totals (Asset 0 STEEM_SYMBOL) (Asset 0 SBD_SYMBOL) (Asset 0 VESTS_SYMBOL)
                 (Asset 0 STEEM_SYMBOL) 0);
  t2 ← rfoldl count_convert (all_rows db) t1;
  t3 ← rfoldl count_order (all_rows db) t2;
  t4 ← rfoldl count_escrow (all_rows db) t3;
  t5 ← rfoldl count_savings (all_rows db) t4;
  t6 ← rfoldl count_fund (all_rows db) t5;
  f1 ← asset_add (gpo_total_vesting_fund_steem gpo) (gpo_total_reward_fund_steem gpo);
  f2 ← asset_add f1 (gpo_pending_rewarded_vesting_steem gpo);
  t ← add_supply t6 f2;
  FC_ASSERT (asset_eq (gpo_current_supply gpo) (total_supply t)) EmptyString;;
  FC_ASSERT (asset_eq (gpo_current_sbd_supply gpo) (total_sbd t)) EmptyString;;
  v ← asset_add (gpo_total_vesting_shares gpo) (gpo_pending_rewarded_vesting_shares gpo);
  FC_ASSERT (asset_eq v (total_vesting t)) EmptyString;;
  FC_ASSERT (amount (gpo_total_vesting_shares gpo) =? total_vsf_votes t) EmptyString;;
  FC_ASSERT (asset_eq (gpo_pending_rewarded_vesting_steem gpo) (pending_vesting_steem t)) EmptyString;;
  ge ← asset_ge (gpo_virtual_supply gpo) (gpo_current_supply gpo);
  FC_ASSERT ge "gpo.virtual_supply >= gpo.current_supply";;
  if negb (price_is_null (db_median_history db)) then
    c ← asset_mul (gpo_current_sbd_supply gpo) (db_median_history db);
    s ← asset_add c (gpo_current_supply gpo);
    FC_ASSERT (asset_eq s (gpo_virtual_supply gpo)) EmptyString
  else mret tt.
End ledger.

(** ** Effects on the supply equations *)

Lemma by_symbol_steem k a :
  symbol a = STEEM_SYMBOL → by_symbol k a = match k with KSteem => amount a | _ => 0 end.
Proof. intros E. unfold by_symbol. rewrite E. by destruct k. Qed.

Lemma by_symbol_sbd k a :
  symbol a = SBD_SYMBOL → by_symbol k a = match k with KSbd => amount a | _ => 0 end.
Proof. intros E. unfold by_symbol. rewrite E. by destruct k. Qed.

Lemma by_symbol_neg k a : by_symbol k (Asset (- amount a) (symbol a)) = - by_symbol k a.
Proof. unfold by_symbol. cbn. destruct k; try case_match; lia. Qed.

Lemma by_symbol_sub k a x : by_symbol k (Asset (x - amount a) (symbol a)) = by_symbol k (Asset x (symbol a)) - by_symbol k a.
Proof. unfold by_symbol. cbn. destruct k; try case_match; lia. Qed.

Lemma by_symbol_add k a b :
  symbol a = symbol b → by_symbol k (Asset (amount a + amount b) (symbol a)) = by_symbol k a + by_symbol k b.
Proof. unfold by_symbol. intros E. cbn. rewrite E. destruct k; try case_match; lia. Qed.

(** Opens the pair that a computation returned. *)
Ltac destruct_pair :=
  match goal with p : (_ * _)%type |- _ => destruct p as [? ?] end.

(** Members other than the shares, the proxy and the proxied votes do not
    change the votes an account is counted for. *)
Ltac fold_vsf :=
  repeat match goal with
  | H : context [vsf (?f ?v ?x)] |- _ => change (vsf (f v x)) with (vsf x) in H
  | |- context [vsf (?f ?v ?x)] => change (vsf (f v x)) with (vsf x)
  end.

(** Opens the objects in the equations and closes them by arithmetic. *)
Ltac ledger_eq :=
  unfold weight, convert_weight, order_weight, savings_weight, escrow_weight, fund_weight in *;
  cbn -[vsf by_symbol reaches Z.add Z.sub Z.opp Z.mul STEEM_SYMBOL SBD_SYMBOL VESTS_SYMBOL] in *;
  fold_vsf; lia.
Ltac ledger k := destruct k; ledger_eq.

Section shifts.
Context {F : Fc}.

Lemma accrue_interest_ok now rate s s' paid :
  accrue_interest now rate s = Ok (s', paid) →
  amount (is_balance s') = amount (is_balance s) + default 0 (amount ∘ snd <$> paid).
Proof.
  unfold accrue_interest. case_match; [intros; inv_ok; simplify_eq; cbn; lia|].
  case_match; intros; inv_ok; inv_asset; simplify_eq; subst; cbn -[Z.add]; lia.
Qed.

#[export] Instance pay_interest_shifts name paid :
  Shifts (pay_interest name paid)
    (λ k, match k with KSbd => default 0 (amount ∘ snd <$> paid) | _ => 0 end).
Proof.
  intros db u db' Hdb H. unfold pay_interest in H. destruct paid as [[i p]|].
  - inv_db; shift_all; (split; [done|]); intros k; at_kind k; inv_ok; inv_asset; subst; ledger k.
  - inv_ok. split; [done|]. intros []; cbn; lia.
Qed.

Lemma pay_interest_keeps {B} (obs : database → B) name paid :
  (∀ g db, obs (set_db_gpo g db) = obs db) →
  (∀ l db, obs (set_db_virtual_ops l db) = obs db) → Keeps obs (pay_interest name paid).
Proof.
  intros Hg Hv. unfold pay_interest. keep; [apply keeps_virtual|apply keeps_gpo]; auto.
Qed.

Lemma adjust_balance_of_ok now rate d a a' paid :
  adjust_balance_of now rate d a = Ok (a', paid) →
  ∀ k, weight k a' = weight k a + by_symbol k d
    + match k with KSbd => default 0 (amount ∘ snd <$> paid) | _ => 0 end.
Proof.
  unfold adjust_balance_of. repeat case_match; intros H' k; inv_okb.
  - rewrite (by_symbol_steem k d) by done. inv_asset. subst. ledger k.
  - destruct a0 as [s p]. inv_ok. simplify_eq. rewrite (by_symbol_sbd k d) by done.
    apply accrue_interest_ok in Hm. inv_asset. subst. ledger k.
Qed.

Lemma adjust_savings_balance_of_ok now rate d a a' paid :
  adjust_savings_balance_of now rate d a = Ok (a', paid) →
  ∀ k, weight k a' = weight k a + by_symbol k d
    + match k with KSbd => default 0 (amount ∘ snd <$> paid) | _ => 0 end.
Proof.
  unfold adjust_savings_balance_of. repeat case_match; intros H' k; inv_okb.
  - rewrite (by_symbol_steem k d) by done. inv_asset. subst. ledger k.
  - destruct a0 as [s p]. inv_ok. simplify_eq. rewrite (by_symbol_sbd k d) by done.
    apply accrue_interest_ok in Hm. inv_asset. subst. ledger k.
Qed.

Lemma adjust_balance_of_row now rate d a a' paid :
  adjust_balance_of now rate d a = Ok (a', paid) → row_ok a → row_ok a'.
Proof.
  unfold adjust_balance_of. repeat case_match; intros H'; inv_okb; [done|].
  destruct a0. inv_ok. by simplify_eq.
Qed.
Lemma adjust_savings_balance_of_row now rate d a a' paid :
  adjust_savings_balance_of now rate d a = Ok (a', paid) → row_ok a → row_ok a'.
Proof.
  unfold adjust_savings_balance_of. repeat case_match; intros H'; inv_okb; [done|].
  destruct a0. inv_ok. by simplify_eq.
Qed.

(** The common tail of [adjust_balance] and [adjust_savings_balance]. *)
Lemma adjust_tail_imb a (x x' : account_object) paid δ name db u db' :
  db_wf db → trows db !! a = Some x →
  (row_ok x → row_ok x') →
  (∀ k, weight k x' = weight k x + δ k
    + match k with KSbd => default 0 (amount ∘ snd <$> paid) | _ => 0 end) →
  (pay_interest name paid;; modify a (λ _ : account_object, Ok x')) db = Ok (u, db') →
  db_wf db' ∧ ∀ k, imb k db' = imb k db + - δ k.
Proof.
  intros Hdb Hx Hrow Hw ([] & s & Hpay & Hmod)%bind_ok.
  pose proof (pay_interest_keeps db_accounts name paid ltac:(done) ltac:(done) _ _ _ Hpay) as Hacc.
  pose proof (Hrow (row_ok_at db a x Hdb Hx)) as Hrow'. shift_all. split; [done|]. intros k. at_kind k. simplify_eq.
  assert (x0 = x) as ->.
  { unfold trows in *. cbn [tbl accounts_table] in *. rewrite Hacc in Hx0. congruence. }
  specialize (Hw k). lia.
Qed.

#[export] Instance adjust_balance_shifts a d : Shifts (adjust_balance a d) (λ k, - by_symbol k d).
Proof.
  intros db u db' Hdb H. unfold adjust_balance in H. inv_db. destruct_pair.
  eapply (adjust_tail_imb _ _ _ _ (λ k, by_symbol k d)); [done..| | |done].
  - by eapply adjust_balance_of_row.
  - by eapply adjust_balance_of_ok.
Qed.

#[export] Instance adjust_savings_balance_shifts a d :
  Shifts (adjust_savings_balance a d) (λ k, - by_symbol k d).
Proof.
  intros db u db' Hdb H. unfold adjust_savings_balance in H. inv_db. destruct_pair.
  eapply (adjust_tail_imb _ _ _ _ (λ k, by_symbol k d)); [done..| | |done].
  - by eapply adjust_savings_balance_of_row.
  - by eapply adjust_savings_balance_of_ok.
Qed.

#[export] Instance adjust_reward_balance_shifts a d :
  Shifts (adjust_reward_balance a d) (λ k, - by_symbol k d).
Proof.
  intros db u db' Hdb H. unfold adjust_reward_balance in H. shift_all.
  split; [done|]. intros k. at_kind k.
  repeat case_match; inv_okb; inv_asset; subst;
    rewrite ?(by_symbol_steem k d), ?(by_symbol_sbd k d) by done; ledger k.
Qed.

#[export] Instance adjust_supply_shifts d b :
  Shifts (adjust_supply d b) (λ k, by_symbol k d).
Proof.
  intros db u db' Hdb H. unfold adjust_supply in H. inv_db. shift_all.
  split; [done|]. intros k. at_kind k.
  case_match; [|case_match]; inv_okb; inv_asset; subst;
    rewrite ?(by_symbol_steem k d), ?(by_symbol_sbd k d) by done; ledger k.
Qed.

#[export] Instance update_virtual_supply_conserves : Conserves update_virtual_supply.
Proof.
  intros db u db' Hdb H. unfold update_virtual_supply in H. inv_db. shift_all.
  split; [done|]. intros k. at_kind k. inv_ok. case_match; inv_ok; subst; ledger k.
Qed.

(** Frames of the balance changes. *)
Lemma adjust_balance_keeps {B} (obs : database → B) a d :
  (∀ s db, obs (set_db_accounts s db) = obs db) → (∀ g db, obs (set_db_gpo g db) = obs db) →
  (∀ l db, obs (set_db_virtual_ops l db) = obs db) → Keeps obs (adjust_balance a d).
Proof.
  intros Ha Hg Hv. unfold adjust_balance. keep; [by apply pay_interest_keeps|by apply keeps_modify].
Qed.
Lemma adjust_savings_balance_keeps {B} (obs : database → B) a d :
  (∀ s db, obs (set_db_accounts s db) = obs db) → (∀ g db, obs (set_db_gpo g db) = obs db) →
  (∀ l db, obs (set_db_virtual_ops l db) = obs db) → Keeps obs (adjust_savings_balance a d).
Proof.
  intros Ha Hg Hv. unfold adjust_savings_balance.
  keep; [by apply pay_interest_keeps|by apply keeps_modify].
Qed.
End shifts.

#[global] Typeclasses Opaque adjust_balance adjust_savings_balance adjust_reward_balance
  adjust_supply update_virtual_supply pay_interest.
#[export] Hint Extern 2 (Keeps _ (adjust_balance _ _)) =>
  apply adjust_balance_keeps; reflexivity : typeclass_instances.
#[export] Hint Extern 2 (Keeps _ (adjust_savings_balance _ _)) =>
  apply adjust_savings_balance_keeps; reflexivity : typeclass_instances.

Section issue_shifts.
Context {F : Fc}.

(** Issuing dollars for an amount of STEEM takes that amount. *)
Lemma create_sbd_shifts a steem b :
  symbol steem = STEEM_SYMBOL → Shifts (create_sbd a steem b) (λ k, - by_symbol k steem).
Proof.
  intros Hs db u db' Hdb H. unfold create_sbd in H. case_match.
  { inv_okb. split; [done|]. intros k. rewrite (by_symbol_steem k steem) by done. destruct k; lia. }
  inv_db. case_match; [|inv_ok; shift_all; split; [done|]; intros k; at_kind k; lia].
  inv_ok. inv_safe. destruct b; inv_ok; shift_all; (split; [done|]); intros k; at_kind k; subst;
    rewrite (by_symbol_steem k steem) by done;
    rewrite !(by_symbol_steem k (Asset _ STEEM_SYMBOL)) in * by done;
    destruct k; cbn -[Z.add Z.sub Z.opp Z.mul Z.quot] in *; lia.
Qed.

Lemma adjust_proxied_imb a x db u db' :
  db_wf db → adjust_proxied_witness_votes a x db = Ok (u, db') →
  db_wf db' ∧ ∃ acc, trows db !! a = Some acc ∧
  ∀ k, imb k db' = imb k db - match k with KVsf => reaches 4 acc x | _ => 0 end.
Proof. intros Hdb. by apply adjust_proxied_scalar_imb. Qed.

(** New shares are counted once: at the account or at the end of its chain
    of proxies. *)
Lemma vsf_add_shares a b x :
  amount b = amount (acc_vesting_shares a) + x →
  vsf (set_acc_vesting_shares b a) + reaches 4 (set_acc_vesting_shares b a) x = vsf a + x.
Proof.
  intros Hb. unfold vsf, reaches.
  change (acc_proxy (set_acc_vesting_shares b a)) with (acc_proxy a).
  change (acc_proxied_vsf_votes (set_acc_vesting_shares b a)) with (acc_proxied_vsf_votes a).
  change (acc_vesting_shares (set_acc_vesting_shares b a)) with b.
  destruct (bool_decide _); lia.
Qed.

(** A change of an account's shares by [x], some work that keeps the accounts,
    and the adjustment of the votes by [x]. *)
Lemma shares_and_votes a f x m db u1 s1 u2 s2 u3 db' :
  db_wf db →
  (∀ y y', f y = Ok y' →
     vsf y' + reaches 4 y' x = vsf y + x) →
  modify (A := account_object) a f db = Ok (u1, s1) →
  m s1 = Ok (u2, s2) → Keeps (A := unit) db_accounts m → db_wf s2 →
  adjust_proxied_witness_votes a x s2 = Ok (u3, db') →
  ∃ y y', trows db !! a = Some y ∧ f y = Ok y' ∧ db_wf db' ∧
  ∀ k, imb k s1 = imb k db + weight k y - weight k y' ∧
    imb k db' = imb k s2 - match k with KVsf => x + vsf y - vsf y' | _ => 0 end.
Proof.
  intros Hdb Hf Hmod Hm Hkeep Hs2 (Hdb' & acc & Hacc & HI)%adjust_proxied_imb; [|done].
  assert (trows s1 !! a = Some acc) as Hacc'.
  { unfold trows in *. cbn [tbl accounts_table] in *. by rewrite <- (Hkeep _ _ _ Hm). }
  destruct (modify_imb_at _ _ _ _ _ _ Hmod Hacc') as (y & Hy & Hfy & HI').
  exists y, acc. split_and!; [done..|]. intros k. rewrite (HI k).
  specialize (Hf _ _ Hfy). split; [apply HI'|]. destruct k; lia.
Qed.

#[export] Instance create_vesting_shifts a steem b :
  Shifts (create_vesting a steem b) (λ k, match k with KSteem => - amount steem | _ => 0 end).
Proof.
  intros db u db' Hdb H. unfold create_vesting in H. inv_db; bool_simpl; subst.
  - match goal with
    | H1 : modify _ _ db = Ok (_, ?s1), H2 : modify_gpo ?f ?s1 = Ok (_, ?s2),
      H3 : adjust_proxied_witness_votes _ _ ?s2 = Ok (_, _) |- _ =>
        assert (db_wf s1) by (refine (modify_wf _ _ _ _ _ Hdb _ H1); solve_row);
        assert (db_wf s2) by (by eapply modify_gpo_wf);
        pose proof (modify_gpo_imb _ _ _ _ H2) as (g & Hg & HIg);
        eapply (shares_and_votes _ _ _ (modify_gpo f)) in H3 as (y & y' & Hy & Hf & Hw & HI);
          [|exact Hdb| |exact H1|exact H2|by apply keeps_gpo|done]
    end.
    + split; [done|]. intros k. destruct (HI k) as [HI1 HI2]. specialize (HIg k).
      destruct (decide (k = KVsf)) as [->|Hk].
      * change (weight KVsf) with vsf in *. clear Hf. inv_ok. inv_asset. subst. ledger_eq.
      * cbn beta in *. inv_ok. inv_asset. subst. destruct k; try done; ledger_eq.
    + intros y y' Hy. inv_ok. inv_asset. subst. by apply vsf_add_shares.
  - shift_all. split; [done|]. intros k. at_kind k. inv_ok. inv_asset. subst. ledger k.
Qed.

#[export] Instance pay_fee_conserves a fee : Conserves (pay_fee a fee).
Proof.
  intros db u db' Hdb H. unfold pay_fee in H. inv_ok.
  case_match; [inv_ok; split; [done|]; intros k; lia|].
  inv_db. shift_all. split; [done|]. intros k. at_kind k. inv_asset. subst.
  rewrite by_symbol_neg in *. lia.
Qed.
End issue_shifts.

(** Frames of the issue of dollars and shares. *)
Section issue_keeps.
Context {F : Fc} {B : Type} (obs : database → B).
Context (Ha : ∀ s db, obs (set_db_accounts s db) = obs db)
        (Hw : ∀ s db, obs (set_db_witnesses s db) = obs db)
        (Hg : ∀ g db, obs (set_db_gpo g db) = obs db)
        (Hv : ∀ l db, obs (set_db_virtual_ops l db) = obs db).

Lemma create_vesting_keeps a s b : Keeps obs (create_vesting a s b).
Proof.
  unfold create_vesting, adjust_proxied_witness_votes.
  keep; first [by apply keeps_modify | by apply keeps_gpo | by apply adjust_proxied_keeps].
Qed.
Lemma create_sbd_keeps a s b : Keeps obs (create_sbd a s b).
Proof.
  unfold create_sbd, adjust_reward_balance, adjust_supply.
  keep; first [by apply keeps_modify | by apply keeps_gpo | by apply adjust_balance_keeps].
Qed.
End issue_keeps.

(** The clock stands still. *)
Section clock.
Context {F : Fc}.

#[export] Instance adjust_supply_clock d b : Keeps clock (adjust_supply d b).
Proof. unfold adjust_supply. keep. Qed.
#[export] Instance pay_interest_clock n p : Keeps clock (pay_interest n p).
Proof. unfold pay_interest. keep. Qed.
#[export] Instance adjust_balance_clock a d : Keeps clock (adjust_balance a d).
Proof. unfold adjust_balance. keep. Qed.
#[export] Instance adjust_reward_balance_clock a d : Keeps clock (adjust_reward_balance a d).
Proof. unfold adjust_reward_balance. keep. Qed.
#[export] Instance create_vesting_clock a s b : Keeps clock (create_vesting a s b).
Proof. unfold create_vesting, adjust_proxied_witness_votes. keep. Qed.
#[export] Instance create_sbd_clock a s b : Keeps clock (create_sbd a s b).
Proof. unfold create_sbd. keep. Qed.
End clock.

#[global] Typeclasses Opaque create_sbd create_vesting pay_fee.
#[export] Hint Extern 2 (Keeps _ (create_vesting _ _ _)) =>
  apply create_vesting_keeps; reflexivity : typeclass_instances.
#[export] Hint Extern 2 (Keeps _ (create_sbd _ _ _)) =>
  apply create_sbd_keeps; reflexivity : typeclass_instances.

(** ** [validate_invariants] checks the supply equations *)
Section validate.
Context {F : Fc}.

Lemma zsum_perm l l' : l ≡ₚ l' → zsum l = zsum l'.
Proof. induction 1; simpl; lia. Qed.

Lemma zsum_map_to_list {A} (f : A → Z) (m : gmap Z A) :
  zsum (f <$> (map_to_list m).*2) = msum f m.
Proof.
  induction m as [|i x m Hi IH] using map_ind; [done|].
  rewrite msum_insert by done.
  rewrite (zsum_perm _ (f x :: (f <$> (map_to_list m).*2))); [simpl; lia|].
  by rewrite map_to_list_insert.
Qed.

(** The sum over an index is the sum over the table. *)
Lemma zsum_select {A} `{Table A} (f : A → Z) leb (db : database) :
  zsum (f <$> select (λ _, true) leb db) = msum f (trows db).
Proof.
  rewrite <- zsum_map_to_list. apply zsum_perm. unfold select. rewrite sort_by_perm.
  induction (map_to_list (trows db)).*2 as [|x l IH]; [done|].
  rewrite filter_cons_True by done. simpl. by rewrite IH.
Qed.

Definition tot (k : kind) (t : totals) : Z :=
  match k with
  | KSteem => amount (total_supply t)
  | KSbd => amount (total_sbd t)
  | KVests => amount (total_vesting t)
  | KPending => amount (pending_vesting_steem t)
  | KVsf => total_vsf_votes t
  | KRewards => 0
  end.

Lemma rfoldl_tot {A} `{Weighted A} (f : totals → A → result totals) l t t' k :
  (∀ t x t', f t x = Ok t' → tot k t' = tot k t + weight k x) →
  rfoldl f l t = Ok t' → tot k t' = tot k t + zsum (weight k <$> l).
Proof.
  intros Hf. revert t. induction l as [|x l IH]; intros t; cbn [rfoldl].
  { intros [= ->]. rewrite fmap_nil. unfold zsum. simpl. lia. }
  case_match eqn:E; [|done]. intros Ht. rewrite (IH _ Ht), (Hf _ _ _ E), fmap_cons.
  cbn [zsum foldr]. unfold zsum. lia.
Qed.

Lemma rfoldl_add l x y : rfoldl safe_add l x = Ok y → y = x + zsum l.
Proof.
  revert x. induction l as [|z l IH]; intros x; simpl; [intros [= ->]; lia|].
  case_match eqn:E; [|done]. intros Hy. apply IH in Hy. inv_safe. subst.
  unfold zsum in *. lia.
Qed.

Lemma count_account_ok t a t' k :
  k ≠ KRewards → count_account t a = Ok t' → tot k t' = tot k t + weight k a.
Proof.
  unfold count_account. intros Hr H. inv_ok. inv_asset. inv_safe. subst.
  destruct (decide (k = KVsf)) as [->|Hk]; [|destruct k; try done; ledger_eq].
  change (weight KVsf a) with (vsf a). cbn -[vsf Z.add]. unfold vsf. case_bool_decide.
  - unfold witness_vote_weight in Hm8.
    match goal with H : rfoldl _ _ _ = _ |- _ => apply rfoldl_add in H end. lia.
  - unfold STEEMIT_MAX_PROXY_RECURSION_DEPTH in *. simpl in *. case_match; simplify_eq/=. done.
Qed.

Lemma count_asset_ok msg t a t' k : count_asset msg t a = Ok t' → tot k t' = tot k t + by_symbol k a.
Proof.
  unfold count_asset, add_supply, add_sbd. intros H. repeat case_match; inv_okb; inv_asset; subst;
    rewrite ?(by_symbol_steem k a), ?(by_symbol_sbd k a) by done; ledger k.
Qed.

Lemma count_order_ok t o t' k : count_order t o = Ok t' → tot k t' = tot k t + weight k o.
Proof.
  unfold count_order, add_supply, add_sbd, weight, order_weight. intros H.
  repeat case_match; inv_okb; inv_asset; subst.
  - rewrite by_symbol_steem by done. ledger k.
  - rewrite by_symbol_sbd by done. ledger k.
  - unfold by_symbol. cbn -[Z.eqb STEEM_SYMBOL SBD_SYMBOL].
    rewrite (proj2 (Z.eqb_neq _ STEEM_SYMBOL)), (proj2 (Z.eqb_neq _ SBD_SYMBOL)) by done.
    destruct k; lia.
Qed.

Lemma count_escrow_ok t e t' k : count_escrow t e = Ok t' → tot k t' = tot k t + weight k e.
Proof.
  unfold count_escrow, add_supply, add_sbd. intros H. inv_ok. inv_asset. subst.
  match goal with H : count_asset _ _ _ = _ |- _ =>
    apply count_asset_ok with (k := k) in H; unfold weight, escrow_weight; rewrite H end.
  ledger k.
Qed.

Lemma count_fund_ok t r t' k : count_fund t r = Ok t' → tot k t' = tot k t + weight k r.
Proof. unfold count_fund, add_supply. intros H. inv_ok. inv_asset. subst. ledger k. Qed.

Lemma count_index {A} `{Table A} `{Weighted A} f leb (db : database) t t' k :
  (∀ t (x : A) t', f t x = Ok t' → tot k t' = tot k t + weight k x) →
  rfoldl f (select (λ _, true) leb db) t = Ok t' → tot k t' = tot k t + total (A := A) k db.
Proof.
  intros Hf Hr. rewrite (rfoldl_tot f _ _ _ k Hf Hr). by rewrite zsum_select.
Qed.

(** C31: [validate_invariants] is sound: when it does not throw, all five
    supply equations hold, of the STEEM, the dollars, the vesting shares, the
    pending rewards and the votes. *)
Theorem validate_invariants_sound db :
  validate_invariants db = Ok tt → ∀ k, k ≠ KRewards → imb k db = 0.
Proof.
  unfold validate_invariants. intros H k Hk.
  apply rbind_ok in H as (_ & _ & H). apply rbind_ok in H as (t1 & H1 & H).
  apply rbind_ok in H as (t2 & H2 & H). apply rbind_ok in H as (t3 & H3 & H).
  apply rbind_ok in H as (t4 & H4 & H). apply rbind_ok in H as (t5 & H5 & H).
  apply rbind_ok in H as (t6 & H6 & H).
  apply count_index with (k := k) in H1; [|intros; by apply count_account_ok].
  apply count_index with (k := k) in H2; [|intros; by eapply count_asset_ok].
  apply count_index with (k := k) in H3; [|intros; by apply count_order_ok].
  apply count_index with (k := k) in H4; [|intros; by apply count_escrow_ok].
  apply count_index with (k := k) in H5; [|intros; by eapply count_asset_ok].
  apply count_index with (k := k) in H6; [|intros; by apply count_fund_ok].
  unfold add_supply in H. inv_ok. bool_simpl.
  match goal with H : (if _ then _ else _) = Ok _ |- _ => clear H end.
  repeat match goal with H : asset_eq _ _ = true |- _ => apply asset_eq_true in H end.
  inv_asset. unfold imb. subst.
  repeat match goal with
  | H : gpo_current_supply _ = _ |- _ => apply (f_equal amount) in H
  | H : gpo_current_sbd_supply _ = _ |- _ => apply (f_equal amount) in H
  | H : gpo_pending_rewarded_vesting_steem _ = _ |- _ => apply (f_equal amount) in H
  | H : Asset _ _ = total_vesting _ |- _ => apply (f_equal amount) in H
  end.
  destruct k; [..|done]; cbn -[Z.add total] in *; lia.
Qed.
End validate.
