(* ===== verification/Rewards.v ===== *)
(** * Reward curves

    chain/util/reward.cpp: the approximate square root, the reward curves and
    the share of a comment in its reward fund, and the inflation per block of
    chain/compound.hpp.

    The theorems: the approximate square root is monotone and within an eighth
    of the square; every curve is monotone, so that the weight of a vote, the
    difference of the curve before and after it, cannot wrap; and comments that
    are paid from one snapshot of a fund never draw more than the fund holds. *)
From S2P Require Import Prelude Fc Config Asset Chainbase ChainbaseSpec Objects Database.
From S2P Require Import Supply Protocol Votes Ledger.

Section rewards.
Context {F : Fc} {B : Boost}.

(** [find_msb( const uint128_t& u )] *)
Definition find_msb (u : Z) : Z :=
  let x := if negb (u128_lo u =? 0) then u128_lo u else 1 in
  let places := if negb (u128_hi u =? 0) then 64 else 0 in
  let x := if negb (u128_hi u =? 0) then u128_hi u else x in
  to_uint8 (find_msb64 x + places).

Definition approx_sqrt (x : Z) : Z :=
  if (u128_lo x =? 0) && (u128_hi x =? 0) then 0
  else
    let msb_x := find_msb x in
    let msb_z := Z.shiftr msb_x 1 in
    let msb_x_bit := u128_shl 1 msb_x in
    let msb_z_bit := to_uint64 (Z.shiftl 1 msb_z) in
    let mantissa_mask := u128_sub msb_x_bit 1 in
    let mantissa_x := u128_and x mantissa_mask in
    let mantissa_z_hi := if negb (Z.land msb_x 1 =? 0) then msb_z_bit else 0 in
    let mantissa_z_lo := u128_lo (u128_shr mantissa_x (msb_x - msb_z)) in
    let mantissa_z := Z.shiftr (Z.lor mantissa_z_hi mantissa_z_lo) 1 in
    Z.lor msb_z_bit mantissa_z.

Definition evaluate_reward_curve (rshares : Z) (curve : curve_id) (content_constant : Z) : result Z :=
  match curve with
  | quadratic =>
      let rshares_plus_s := u128_add rshares content_constant in
      mret (u128_sub (u128_mul rshares_plus_s rshares_plus_s)
                     (u128_mul content_constant content_constant))
  | quadratic_curation =>
      let two_alpha := u128_mul content_constant 2 in
      u128_div (u128_make (u128_lo rshares) 0) (u128_add two_alpha rshares)
  | linear => mret rshares
  | square_root => mret (approx_sqrt rshares)
  end.

(** The default arguments: [curve = quadratic], [content_constant = STEEMIT_CONTENT_CONSTANT_HF0]. *)
Definition evaluate_default_curve (rshares : Z) : result Z :=
  evaluate_reward_curve rshares quadratic STEEMIT_CONTENT_CONSTANT_HF0.

Record comment_reward_context := CommentRewardContext {
  ctx_rshares : Z; ctx_reward_weight : Z; ctx_max_sbd : asset; ctx_total_reward_shares2 : Z;
  ctx_total_reward_fund_steem : asset; ctx_current_steem_price : price;
  ctx_reward_curve : curve_id; ctx_content_constant : Z }.

Definition is_comment_payout_dust (p : price) (steem_payout : Z) : result bool :=
  x ← util_to_sbd p (Asset (to_int64 steem_payout) STEEM_SYMBOL);
  asset_lt x (Asset STEEMIT_MIN_PAYOUT_SBD SBD_SYMBOL).

Definition get_rshare_reward (ctx : comment_reward_context) : result Z :=
  FC_ASSERT (0 <? ctx_rshares ctx) "ctx.rshares > 0";;
  FC_ASSERT (0 <? ctx_total_reward_shares2 ctx) "ctx.total_reward_shares2 > 0";;
  let rf := amount (ctx_total_reward_fund_steem ctx) mod 2 ^ 256 in
  let total_claims := ctx_total_reward_shares2 ctx in
  claim ← evaluate_reward_curve (u128_of_int64 (ctx_rshares ctx)) (ctx_reward_curve ctx)
            (ctx_content_constant ctx);
  claim ← u256_div (u256_mul claim (ctx_reward_weight ctx)) STEEMIT_100_PERCENT;
  payout_u256 ← u256_div (u256_mul rf claim) total_claims;
  FC_ASSERT (payout_u256 <=? INT64_MAX) "payout_u256 <= int64 max";;
  dust ← is_comment_payout_dust (ctx_current_steem_price ctx) payout_u256;
  let payout := if (dust : bool) then 0 else payout_u256 in
  max_steem ← util_to_steem (ctx_current_steem_price ctx) (ctx_max_sbd ctx);
  mret (Z.min payout (to_uint64 (amount max_steem))).

(** [calc_percent_reward] of chain/compound.hpp; the template arguments are the
    first three. *)
Definition calc_percent_reward (percent multiply_constant shift_constant : Z) (current_supply : Z)
    : result Z :=
  let half := u128_shl 1 (shift_constant - 1) in
  let reward := u128_mul (u128_of_int64 current_supply) (percent * multiply_constant) in
  let reward := u128_shr (u128_add reward half) shift_constant in
  x ← u128_to_uint64 reward; mret (to_int64 x).
Definition calc_percent_reward_per_hour (percent : Z) : Z → result Z :=
  calc_percent_reward percent STEEMIT_APR_PERCENT_MULTIPLY_PER_HOUR STEEMIT_APR_PERCENT_SHIFT_PER_HOUR.
Definition calc_percent_reward_per_block (percent : Z) : Z → result Z :=
  calc_percent_reward percent STEEMIT_APR_PERCENT_MULTIPLY_PER_BLOCK STEEMIT_APR_PERCENT_SHIFT_PER_BLOCK.
Definition calc_percent_reward_per_round (percent : Z) : Z → result Z :=
  calc_percent_reward percent STEEMIT_APR_PERCENT_MULTIPLY_PER_ROUND STEEMIT_APR_PERCENT_SHIFT_PER_ROUND.
End rewards.

(** ** The approximate square root *)
Section sqrt.
Context {F : Fc} {B : Boost}.

Lemma find_msb_spec x : 0 < x < U128 → find_msb x = Z.log2 x.
Proof.
  intros Hx. unfold find_msb, u128_lo, u128_hi.
  assert (x / U64 < U64) as Hhi by (apply Z.div_lt_upper_bound; unfold U64, U128 in *; lia).
  assert (0 ≤ x / U64) by (apply Z.div_pos; [lia|done]).
  destruct (Z.eqb_spec (x / U64) 0) as [E|E]; cbn [negb].
  - assert (x < U64) by (apply Z.div_small_iff in E as [?|?]; [lia|unfold U64 in *; lia|done]).
    rewrite Z.mod_small by lia. destruct (Z.eqb_spec x 0); [lia|]. cbn [negb].
    rewrite find_msb64_spec, Z.add_0_r by lia. apply Z.mod_small.
    assert (Z.log2 x < 64) by (apply Z.log2_lt_pow2; unfold U64 in *; lia).
    pose proof (Z.log2_nonneg x). unfold U8. lia.
  - rewrite find_msb64_spec by lia.
    assert (Z.log2 (x / U64) + 64 = Z.log2 x) as ->.
    { change U64 with (2 ^ 64) in *. rewrite <- Z.shiftr_div_pow2, Z.log2_shiftr by lia.
      assert (64 ≤ Z.log2 x); [|lia]. apply Z.log2_le_pow2; [lia|].
      assert (1 ≤ x / 2 ^ 64) by lia. assert (2 ^ 64 * 1 ≤ x); [|lia].
      etrans; [apply Z.mul_le_mono_nonneg_l; [lia|done]|]. by apply Z.mul_div_le. }
    apply Z.mod_small. assert (Z.log2 x < 128) by (apply Z.log2_lt_pow2; unfold U128 in *; lia).
    pose proof (Z.log2_nonneg x). unfold U8. lia.
Qed.

(** Adding a smaller number to a power of two is setting its bits. *)
Lemma lor_pow2 k y : 0 ≤ k → 0 ≤ y < 2 ^ k → Z.lor (2 ^ k) y = 2 ^ k + y.
Proof.
  intros Hk Hy. rewrite <- (Z.lxor_lor (2 ^ k) y), <- Z.add_nocarry_lxor; [done| |].
  all: apply Z.bits_inj'; intros i Hi; rewrite Z.land_spec, Z.bits_0, Z.pow2_bits_eqb by done.
  all: destruct (Z.eqb_spec k i) as [->|]; [|done]; cbn [andb].
  all: destruct (decide (y = 0)) as [->|]; [by rewrite Z.bits_0|].
  all: apply Z.bits_above_log2; [lia|]; apply Z.log2_lt_pow2; lia.
Qed.

(** What the bit operations compute, with [p = 2^k] for [k] half of the position of
    the highest bit of [x]. *)
Lemma approx_sqrt_cases x :
  0 < x < U128 → ∃ k, 0 ≤ k < 64 ∧
  let p := 2 ^ k in
  (p * p ≤ x < 2 * (p * p) ∧ approx_sqrt x = p + (x - p * p) / (2 * p)) ∨
  (2 * (p * p) ≤ x < 4 * (p * p) ∧ approx_sqrt x = p + x / (4 * p)).
Proof.
  intros Hx. set (n := Z.log2 x). assert (Z.log2 x = n) as Hn by done.
  pose proof (Z.log2_spec x ltac:(lia)) as Hp. rewrite Hn in Hp.
  assert (0 ≤ n) by (apply Z.log2_nonneg).
  assert (n < 128) by (apply Z.log2_lt_pow2; unfold U128 in *; lia).
  exists (n / 2). set (k := n / 2). assert (0 ≤ k < 64) as Hk.
  { unfold k. split; [apply Z.div_pos; lia|apply Z.div_lt_upper_bound; lia]. }
  assert (k ≤ n) as Hkn by (unfold k; apply Z.div_le_upper_bound; lia).
  split; [done|]. set (p := 2 ^ k). assert (0 < p) by (apply Z.pow_pos_nonneg; lia).
  assert (p < U64) as Hp64 by (apply Z.pow_lt_mono_r; lia).
  assert (approx_sqrt x =
    Z.lor p (Z.shiftr (Z.lor (if negb (Z.land n 1 =? 0) then p else 0)
      (Z.shiftr (x - 2 ^ n) (n - k) mod U64)) 1)) as ->.
  { unfold approx_sqrt.
    assert ((u128_lo x =? 0) && (u128_hi x =? 0) = false) as ->.
    { apply andb_false_iff. unfold u128_lo, u128_hi. destruct (Z.eqb_spec (x mod U64) 0) as [e|]; [|by left].
      right. apply Z.eqb_neq. intros E. apply Z.div_small_iff in E; [|done].
      destruct E as [[? ?]|[? ?]]; [|lia]. rewrite Z.mod_small in e; lia. }
    rewrite find_msb_spec, Hn by done. cbv zeta.
    assert (Z.shiftr n 1 = k) as -> by (by rewrite Z.shiftr_div_pow2).
    assert (u128_sub (u128_shl 1 n) 1 = Z.ones n) as ->.
    { rewrite u128_shl_spec, u128_sub_spec, Z.shiftl_1_l by lia.
      assert (2 ^ n < U128) by (apply Z.pow_lt_mono_r; lia).
      rewrite (Z.mod_small (2 ^ n)) by lia. rewrite Z.ones_equiv, Z.mod_small; lia. }
    rewrite u128_and_spec, Z.land_ones by lia.
    assert (x mod 2 ^ n = x - 2 ^ n) as ->.
    { rewrite Z.mod_eq by lia. replace (x / 2 ^ n) with 1; [lia|].
      apply Z.div_unique_pos with (x - 2 ^ n); [|lia]. rewrite Z.pow_succ_r in Hp; lia. }
    rewrite u128_shr_spec by lia. unfold to_uint64, u128_lo. rewrite Z.shiftl_1_l.
    fold p. by rewrite (Z.mod_small p) by lia. }
  assert (2 ^ (k + 1) = 2 * p) as Hk1 by (rewrite Z.pow_add_r by lia; unfold p; lia).
  rewrite Z.shiftr_div_pow2 with (n := n - k) by lia.
  change (Z.land n 1) with (Z.land n (Z.ones 1)). rewrite (Z.land_ones n 1) by lia.
  change (2 ^ 1) with 2.
  assert (n = 2 * k + n mod 2) as En by (unfold k; apply Z.div_mod; lia).
  pose proof (Z.mod_pos_bound n 2 ltac:(lia)).
  assert (n mod 2 = 0 ∨ n mod 2 = 1) as [E|E] by lia; rewrite E; cbn [Z.eqb negb]; [left|right].
  - assert (2 ^ n = p * p) as E2 by (rewrite En, E, Z.add_0_r; unfold p; rewrite <- Z.pow_add_r by lia; f_equal; lia).
    rewrite Z.pow_succ_r, E2 in Hp by lia. split; [lia|].
    replace (n - k) with k by lia. fold p. rewrite E2, Z.lor_0_l.
    assert (0 ≤ (x - p * p) / p < p) by (split; [apply Z.div_pos; lia|apply Z.div_lt_upper_bound; lia]).
    rewrite Z.mod_small, Z.shiftr_div_pow2 by lia. change (2 ^ 1) with 2. rewrite Z.div_div by lia.
    rewrite (Z.mul_comm p 2). apply lor_pow2; [lia|].
    split; [apply Z.div_pos; lia|apply Z.div_lt_upper_bound; nia].
  - assert (2 ^ n = 2 * (p * p)) as E2.
    { rewrite En, E, Z.pow_add_r by lia. unfold p. rewrite <- (Z.pow_add_r 2 k k) by lia.
      replace (k + k) with (2 * k) by lia. change (2 ^ 1) with 2. lia. }
    rewrite Z.pow_succ_r, E2 in Hp by lia. split; [lia|].
    replace (n - k) with (k + 1) by lia. rewrite E2, Hk1.
    assert (0 ≤ (x - 2 * (p * p)) / (2 * p) < p)
      by (split; [apply Z.div_pos; lia|apply Z.div_lt_upper_bound; lia]).
    rewrite Z.mod_small by lia. unfold p at 2. rewrite lor_pow2 by (fold p; lia). fold p.
    rewrite Z.shiftr_div_pow2 by lia. change (2 ^ 1) with 2.
    assert (p + (x - 2 * (p * p)) / (2 * p) = x / (2 * p)) as ->.
    { replace x with ((x - 2 * (p * p)) + p * (2 * p)) at 2 by lia. rewrite Z.div_add by lia. lia. }
    rewrite Z.div_div by lia. replace (2 * p * 2) with (4 * p) by lia.
    apply lor_pow2; [lia|]. fold p. split; [apply Z.div_pos; lia|apply Z.div_lt_upper_bound; nia].
Qed.
End sqrt.

Section curves.
Context {F : Fc} {B : Boost}.

Lemma approx_sqrt_0 : approx_sqrt 0 = 0.
Proof. done. Qed.

(** In terms of [p] and the quotient [d]. *)
Lemma approx_sqrt_parts x :
  0 < x < U128 → ∃ k p d, 0 ≤ k ∧ p = 2 ^ k ∧ approx_sqrt x = p + d ∧ 0 ≤ d ∧
  ((p * p ≤ x < 2 * (p * p) ∧ 2 * p * d ≤ x - p * p < 2 * p * (d + 1)) ∨
   (2 * (p * p) ≤ x < 4 * (p * p) ∧ 4 * p * d ≤ x < 4 * p * (d + 1))).
Proof.
  intros Hx. destruct (approx_sqrt_cases x Hx) as (k & Hk & Hc). cbv zeta in Hc.
  assert (0 < 2 ^ k) by (apply Z.pow_pos_nonneg; lia). set (p := 2 ^ k) in *.
  destruct Hc as [[Hb ->]|[Hb ->]]; exists k, p.
  - exists ((x - p * p) / (2 * p)). split_and!; [lia|done|done|apply Z.div_pos; lia|].
    left. split; [done|]. pose proof (Z.div_mod (x - p * p) (2 * p) ltac:(lia)).
    pose proof (Z.mod_pos_bound (x - p * p) (2 * p) ltac:(lia)). lia.
  - exists (x / (4 * p)). split_and!; [lia|done|done|apply Z.div_pos; lia|].
    right. split; [done|]. pose proof (Z.div_mod x (4 * p) ltac:(lia)).
    pose proof (Z.mod_pos_bound x (4 * p) ltac:(lia)). lia.
Qed.

(** [approx_sqrt] is a square root up to rounding and an eighth: its square is
    at most nine eighths of [x], and the square of the next integer exceeds [x]. *)
Theorem approx_sqrt_bounds x :
  0 < x < U128 → 8 * (approx_sqrt x * approx_sqrt x) ≤ 9 * x ∧
                 x < (approx_sqrt x + 1) * (approx_sqrt x + 1).
Proof.
  intros Hx. destruct (approx_sqrt_parts x Hx) as (k & p & d & Hk & Hp & -> & Hd & Hc).
  assert (0 < p) by (subst; apply Z.pow_pos_nonneg; lia). clear Hp.
  destruct Hc as [[Hb Hq]|[Hb Hq]].
  - assert (2 * d ≤ p) by nia. split; nia.
  - assert (d < p) by nia. split; [|nia].
    destruct (Z.le_ge_cases (2 * d) p) as [Hdp|Hdp]; [nia|].
    assert (0 ≤ (2 * d - p) * (2 * p - d)) by (apply Z.mul_nonneg_nonneg; lia). nia.
Qed.

Lemma approx_sqrt_mono x y : 0 ≤ x ≤ y → y < U128 → approx_sqrt x ≤ approx_sqrt y.
Proof.
  intros Hxy Hy. destruct (Z.eq_dec x 0) as [->|Hx0].
  { rewrite approx_sqrt_0. destruct (Z.eq_dec y 0) as [->|]; [done|].
    destruct (approx_sqrt_parts y) as (k & p & d & Hk & -> & -> & Hd & _); [lia|].
    pose proof (Z.pow_nonneg 2 k). lia. }
  destruct (approx_sqrt_parts x) as (k & p & d & Hk & Hp & -> & Hd & Hc); [lia|].
  destruct (approx_sqrt_parts y) as (k' & p' & d' & Hk' & Hp' & -> & Hd' & Hc'); [lia|].
  assert (0 < p) by (subst; apply Z.pow_pos_nonneg; lia).
  assert (0 < p') by (subst; apply Z.pow_pos_nonneg; lia).
  destruct (Z.lt_trichotomy k k') as [Hlt|[->|Hgt]].
  - assert (2 * p ≤ p').
    { subst p p'. rewrite <- (Z.pow_succ_r 2 k) by lia. apply Z.pow_le_mono_r; lia. }
    assert (d ≤ p); [|lia]. destruct Hc as [[??]|[??]]; nia.
  - subst p p'. set (p := 2 ^ k') in *. destruct Hc as [[??]|[??]], Hc' as [[??]|[??]]; nia.
  - assert (2 * p' ≤ p).
    { subst p p'. rewrite <- (Z.pow_succ_r 2 k') by lia. apply Z.pow_le_mono_r; lia. }
    destruct Hc as [[??]|[??]], Hc' as [[??]|[??]]; nia.
Qed.
End curves.

(** ** The curves *)
Section curve_laws.
Context {F : Fc} {B : Boost}.

(** The arguments of a curve: the shares are a non-negative 64-bit number, and the
    constant leaves room for the square. *)
Definition curve_args (r s : Z) : Prop := 0 ≤ r ≤ INT64_MAX ∧ 0 ≤ s < 2 ^ 62.

Definition curve_value (curve : curve_id) (r s : Z) : Z :=
  match curve with
  | quadratic => (r + s) * (r + s) - s * s
  | quadratic_curation => r * U64 / (2 * s + r)
  | linear => r
  | square_root => approx_sqrt r
  end.

Lemma curve_eval curve r s :
  curve_args r s → (curve = quadratic_curation → 0 < 2 * s + r) →
  evaluate_reward_curve r curve s = Ok (curve_value curve r s).
Proof.
  intros [Hr Hs] Hc. assert (INT64_MAX < 2 ^ 63) by done. assert (2 ^ 62 + 2 ^ 63 < U64) by done.
  assert (U64 * U64 = U128) by done.
  destruct curve; unfold evaluate_reward_curve, curve_value.
  - rewrite u128_add_spec, !u128_mul_spec, u128_sub_spec.
    rewrite (Z.mod_small (r + s)), (Z.mod_small ((r + s) * (r + s))), (Z.mod_small (s * s)) by nia.
    rewrite Z.mod_small by nia. done.
  - unfold u128_make, u128_lo. rewrite u128_mul_spec, u128_add_spec.
    rewrite (Z.mod_small r), (Z.mod_small (s * 2)), (Z.mod_small (s * 2 + r)) by lia.
    rewrite u128_div_spec by (specialize (Hc eq_refl); lia).
    by replace (s * 2 + r) with (2 * s + r) by lia; rewrite Z.add_0_r.
  - done.
  - done.
Qed.

(** The reward curves are total and monotone on the shares a comment can have,
    so the weight of a vote, the value of the curve after it less the value
    before it, never wraps around. *)
Theorem reward_curve_monotone curve r r' s :
  curve_args r s → curve_args r' s → r ≤ r' → (curve = quadratic_curation → 0 < 2 * s + r) →
  ∃ w w', evaluate_reward_curve r curve s = Ok w ∧ evaluate_reward_curve r' curve s = Ok w' ∧
          0 ≤ w ≤ w'.
Proof.
  intros Hr Hr' Hle Hc. exists (curve_value curve r s), (curve_value curve r' s).
  rewrite !curve_eval by (auto || intros E; specialize (Hc E); lia). split_and!; [done..| |].
  all: destruct Hr as [Hr Hs], Hr' as [Hr' _], curve; unfold curve_value.
  - nia.
  - apply Z.div_pos; [|specialize (Hc eq_refl); lia]. unfold U64. lia.
  - lia.
  - destruct (Z.eq_dec r 0) as [->|]; [done|].
    destruct (approx_sqrt_parts r) as (k & p & d & Hk & -> & -> & Hd & _).
    + assert (INT64_MAX < U128) by done. lia.
    + pose proof (Z.pow_nonneg 2 k). lia.
  - nia.
  - specialize (Hc eq_refl). apply Z.div_le_lower_bound; [lia|].
    pose proof (Z.mul_div_le (r * U64) (2 * s + r) Hc). set (q := r * U64 / (2 * s + r)) in *.
    assert (0 ≤ q) by (apply Z.div_pos; unfold U64; lia). assert (q ≤ U64).
    { apply Z.div_le_upper_bound; [lia|]. unfold U64. nia. }
    nia.
  - lia.
  - apply approx_sqrt_mono; [lia|]. assert (INT64_MAX < U128) by done. lia.
Qed.

(** ** The reward fund *)

(** What the curve claims for a comment. *)
Definition claim_of (ctx : comment_reward_context) : Z :=
  match evaluate_reward_curve (u128_of_int64 (ctx_rshares ctx)) (ctx_reward_curve ctx)
          (ctx_content_constant ctx) with
  | Ok c => c
  | Throw _ => 0
  end.
(** A 128-bit claim, at most full weight, and a fund that is not negative. *)
Definition context_ok (ctx : comment_reward_context) : Prop :=
  0 ≤ claim_of ctx < U128 ∧ 0 ≤ ctx_reward_weight ctx ≤ STEEMIT_100_PERCENT ∧
  0 ≤ amount (ctx_total_reward_fund_steem ctx) ≤ INT64_MAX.

Lemma rshare_reward_le ctx payout :
  context_ok ctx → get_rshare_reward ctx = Ok payout →
  0 < ctx_total_reward_shares2 ctx ∧ 0 ≤ payout ∧
  payout * ctx_total_reward_shares2 ctx ≤ amount (ctx_total_reward_fund_steem ctx) * claim_of ctx.
Proof.
  intros (Hc & Hw & Hf) H. unfold get_rshare_reward, claim_of in *. inv_okb.
  match goal with H : evaluate_reward_curve _ _ _ = Ok ?c |- _ => rewrite H in *; rename c into claim0 end.
  unfold STEEMIT_100_PERCENT, INT64_MAX, U128 in *.
  set (fund := amount (ctx_total_reward_fund_steem ctx)) in *.
  set (total := ctx_total_reward_shares2 ctx) in *. set (w := ctx_reward_weight ctx) in *.
  repeat match goal with H : u256_div _ _ = Ok _ |- _ => rewrite u256_div_spec in H by lia end.
  rewrite !u256_mul_spec in *. simplify_eq.
  rewrite (Z.mod_small (claim0 * w)) in * by nia.
  set (claim := claim0 * w / 10000) in *.
  assert (0 ≤ claim ≤ claim0) as Hclaim.
  { split; [apply Z.div_pos; nia|]. apply Z.div_le_upper_bound; nia. }
  rewrite (Z.mod_small fund) in * by lia. rewrite (Z.mod_small (fund * claim)) in * by nia.
  assert (0 ≤ fund * claim / total) by (apply Z.div_pos; nia).
  pose proof (Z.mul_div_le (fund * claim) total ltac:(lia)).
  match goal with |- context [Z.min ?a ?b] =>
    assert (0 ≤ b) by (apply Z.mod_pos_bound; done);
    assert (0 ≤ a ≤ fund * claim / total) by (case_match; lia) end.
  split_and!; [lia|lia|]. nia.
Qed.
End curve_laws.

Section fund.
Context {F : Fc} {B : Boost}.

(** C35: comments that are paid from one snapshot of a reward fund never draw more
    than the fund holds, as long as the claims of the comments are counted in
    the total claims of the snapshot (as [process_comment_cashout] counts them
    before it pays). *)
Theorem fund_not_overdrawn (fund total : Z) (paid : list (comment_reward_context * Z)) :
  0 ≤ fund →
  (∀ ctx p, (ctx, p) ∈ paid → context_ok ctx ∧ get_rshare_reward ctx = Ok p ∧
     amount (ctx_total_reward_fund_steem ctx) = fund ∧ ctx_total_reward_shares2 ctx = total) →
  zsum ((λ c, claim_of c.1) <$> paid) ≤ total →
  zsum (snd <$> paid) ≤ fund.
Proof.
  intros Hf Hall Hsum.
  assert (zsum (snd <$> paid) * total ≤ fund * zsum ((λ c, claim_of c.1) <$> paid) ∧ (paid = [] ∨ 0 < total)) as [Hle Htot].
  { clear Hsum. induction paid as [|[c p] l IH]; [cbn; split; [lia|by left]|].
    destruct (Hall c p ltac:(by left)) as (Hok & Hp & Ef & Et).
    destruct (rshare_reward_le c p Hok Hp) as (H1 & H2 & H3). rewrite Ef, Et in *.
    destruct IH as [IH _]; [intros c' p' Hin; apply Hall; by right|].
    rewrite !fmap_cons. unfold zsum in *. cbn [foldr fst snd] in *. split; [lia|by right]. }
  destruct Htot as [->|Htot]; [cbn; lia|].
  assert (zsum (snd <$> paid) * total ≤ fund * total) by nia. nia.
Qed.
End fund.

(** ** The theorems on examples *)
#[local] Existing Instance fc_model.
#[local] Existing Instance boost_model.

Lemma approx_sqrt_bounds_witness :
  approx_sqrt 1000000 = 1000 ∧ 8 * (approx_sqrt 1000000 * approx_sqrt 1000000) ≤ 9 * 1000000.
Proof. split; [vm_compute; reflexivity|]. apply (approx_sqrt_bounds 1000000). unfold U128. lia. Defined.

Lemma reward_curve_monotone_witness :
  ∃ w w', evaluate_reward_curve 5 quadratic_curation 10 = Ok w ∧
          evaluate_reward_curve 9 quadratic_curation 10 = Ok w' ∧ 0 ≤ w ≤ w'.
Proof.
  apply (reward_curve_monotone quadratic_curation 5 9 10);
    [unfold curve_args, INT64_MAX; lia..|lia|lia].
Defined.

(** Two comments with the linear curve share a fund of 1000 STEEM. *)
Definition small_context (rshares : Z) : comment_reward_context :=
  CommentRewardContext rshares 10000 (Asset 1000000 SBD_SYMBOL) 500 (Asset 1000000 STEEM_SYMBOL)
    (Price (Asset 1000 SBD_SYMBOL) (Asset 1000 STEEM_SYMBOL)) linear 0.

Lemma fund_not_overdrawn_witness :
  get_rshare_reward (small_context 200) = Ok 400000 ∧
  get_rshare_reward (small_context 300) = Ok 600000 ∧
  zsum (snd <$> [(small_context 200, 400000); (small_context 300, 600000)]) ≤ 1000000.
Proof.
  split; [vm_compute; reflexivity|]. split; [vm_compute; reflexivity|].
  apply (fund_not_overdrawn 1000000 500); [lia| |vm_compute; discriminate].
  intros ctx p Hin. apply list_elem_of_In in Hin as [[= <- <-]|[[= <- <-]|[]]];
    (split_and!; [|vm_compute; reflexivity|reflexivity|reflexivity]);
    (split_and!; vm_compute; try discriminate; reflexivity).
Defined.
