(* ===== verification/Comments.v ===== *)
(** * Comments and votes

    The operations on comments of protocol/steem_operations.hpp with their
    [validate] functions, and their evaluators in chain/steem_evaluator.cpp:
    [comment], [delete_comment], [comment_options] and [vote].  The build does
    not define [IS_LOW_MEM] and defines [CLEAR_VOTES]. *)
From S2P Require Import Prelude Fc Config Asset Chainbase ChainbaseSpec Objects Database.
From S2P Require Import Names Supply Protocol Votes Ledger Rewards.

(** The library diff_match_patch and the conversions of Boost it is used with:
    a body is edited by a patch when it parses as one. *)
Class DiffMatchPatch := {
  wstring : Type;
  patch : Type;
  utf8_to_wstring : string → wstring;
  wstring_to_utf8 : wstring → string;
  patch_fromText : wstring → result (list patch);
  patch_apply : list patch → wstring → result wstring;
  prune_invalid_utf8 : string → string;
}.

(** A library that never finds a patch. *)
Definition no_patches : DiffMatchPatch := {|
  wstring := string; patch := unit; utf8_to_wstring := λ s, s; wstring_to_utf8 := λ s, s;
  patch_fromText := λ _, Ok []; patch_apply := λ _ s, Ok s; prune_invalid_utf8 := λ s, s |}.

(** ** Operations *)
Record comment_operation := Comment {
  cm_parent_author : string; cm_parent_permlink : string; cm_author : string;
  cm_permlink : string; cm_title : string; cm_body : string; cm_json_metadata : string }.
Record delete_comment_operation := DeleteComment { dc_author : string; dc_permlink : string }.
(** [comment_payout_beneficiaries], the only [comment_options_extension]. *)
Record comment_payout_beneficiaries := Beneficiaries { cpb_beneficiaries : list (string * Z) }.
Record comment_options_operation := CommentOptions {
  co_author : string; co_permlink : string; co_max_accepted_payout : asset;
  co_percent_steem_dollars : Z; co_allow_votes : bool; co_allow_curation_rewards : bool;
  co_extensions : list comment_payout_beneficiaries }.
Record vote_operation := Vote {
  vt_voter : string; vt_author : string; vt_permlink : string; vt_weight : Z }.

Section validate.
Context {F : Fc}.

Definition comment_validate (o : comment_operation) : result unit :=
  FC_ASSERT (Z.of_nat (String.length (cm_title o)) <? 256) "Title larger than size limit";;
  FC_ASSERT (is_utf8 (cm_title o)) "Title not formatted in UTF8";;
  FC_ASSERT (0 <? Z.of_nat (String.length (cm_body o))) "Body is empty";;
  FC_ASSERT (is_utf8 (cm_body o)) "Body not formatted in UTF8";;
  (if bool_decide (cm_parent_author o = EmptyString) then mret tt
   else validate_account_name (cm_parent_author o));;
  validate_account_name (cm_author o);;
  validate_permlink (cm_parent_permlink o);;
  validate_permlink (cm_permlink o);;
  if 0 <? Z.of_nat (String.length (cm_json_metadata o))
  then FC_ASSERT (json_is_valid (cm_json_metadata o)) "JSON Metadata not valid JSON"
  else mret tt.

Definition delete_comment_validate (o : delete_comment_operation) : result unit :=
  validate_permlink (dc_permlink o);;
  validate_account_name (dc_author o).

(** The order of [beneficiary_route_type]: by name. *)
Definition route_lt (a b : string * Z) : bool := String.ltb a.1 b.1.

Definition beneficiary_validate (sum : Z) (b : string * Z) : result Z :=
  validate_account_name b.1;;
  FC_ASSERT (b.2 <=? STEEMIT_100_PERCENT) "Cannot allocate more than 100% of rewards to one account";;
  let sum := to_uint32 (sum + b.2) in
  FC_ASSERT (sum <=? STEEMIT_100_PERCENT) "Cannot allocate more than 100% of rewards to a comment";;
  mret sum.

(** The loop from the second beneficiary on. *)
Fixpoint beneficiaries_validate (prev : string * Z) (sum : Z) (l : list (string * Z)) : result unit :=
  match l with
  | [] => mret tt
  | b :: l' =>
      sum' ← beneficiary_validate sum b;
      FC_ASSERT (route_lt prev b) "Benficiaries must be specified in sorted order (account ascending)";;
      beneficiaries_validate b sum' l'
  end.

Definition comment_payout_beneficiaries_validate (p : comment_payout_beneficiaries) : result unit :=
  match cpb_beneficiaries p with
  | [] => Throw (assert_exception "Must specify at least one beneficiary")
  | b :: l =>
      FC_ASSERT (Z.of_nat (length (cpb_beneficiaries p)) <? 128) "Cannot specify more than 127 beneficiaries.";;
      sum ← beneficiary_validate 0 b;
      beneficiaries_validate b sum l
  end.

Definition comment_options_validate (o : comment_options_operation) : result unit :=
  validate_account_name (co_author o);;
  FC_ASSERT (co_percent_steem_dollars o <=? STEEMIT_100_PERCENT) "Percent cannot exceed 100%";;
  FC_ASSERT (symbol (co_max_accepted_payout o) =? SBD_SYMBOL) "Max accepted payout must be in SBD";;
  FC_ASSERT (0 <=? amount (co_max_accepted_payout o)) "Cannot accept less than 0 payout";;
  validate_permlink (co_permlink o);;
  rfoldl (λ _ e, comment_payout_beneficiaries_validate e) (co_extensions o) tt.

Definition vote_validate (o : vote_operation) : result unit :=
  validate_account_name (vt_voter o);;
  validate_account_name (vt_author o);;
  FC_ASSERT (Z.abs (vt_weight o) <=? STEEMIT_100_PERCENT) "Weight is not a STEEMIT percentage";;
  validate_permlink (vt_permlink o).
End validate.

(** ** Permlinks *)
Definition permlink_char (c : Ascii.ascii) : bool :=
  let n := Ascii.nat_of_ascii c in
  ((97 <=? n) && (n <=? 122))%nat || ((48 <=? n) && (n <=? 57))%nat || (n =? 45)%nat.

Definition validate_permlink_0_1 (permlink : string) : result unit :=
  let size := Z.of_nat (String.length permlink) in
  FC_ASSERT ((STEEMIT_MIN_PERMLINK_LENGTH <? size) && (size <? STEEMIT_MAX_PERMLINK_LENGTH))
    "Permlink is not a valid size.";;
  rfoldl (λ _ c, FC_ASSERT (permlink_char c) "Invalid permlink character")
    (String.list_ascii_of_string permlink) tt.

(** [c_str()]: the bytes before the first zero, all that [strcmp] reads. *)
Fixpoint c_str (s : string) : string :=
  match s with
  | EmptyString => EmptyString
  | String c s' => if (Ascii.nat_of_ascii c =? 0)%nat then EmptyString else String c (c_str s')
  end.
Definition strcmp_equal (a b : string) : bool :=
  (String.length a =? String.length b)%nat || bool_decide (c_str a = c_str b).

Section comments.
Context {F : Fc} {B : Boost} {D : DiffMatchPatch}.

Definition not_challenged (a : account_object) (msg : string) : DB unit :=
  assert (negb (acc_owner_challenged a || acc_active_challenged a)) msg.

(** The loop over the ancestors of a comment: their [children] change by
    [delta].  A chain of parents that does not repeat is at most as long as the
    table. *)
Fixpoint touch_ancestors (fuel : nat) (delta now : Z) (parent : Z) : DB unit :=
  match fuel with
  | O => throw (logic_error "out of rounds")
  | S fuel' =>
      modify parent (λ p : comment_object,
        Ok (set_com_active now (set_com_children (to_uint32 (com_children p + delta)) p)));;
      p ← get comment_object parent;
      if bool_decide (com_parent_author p = STEEMIT_ROOT_POST_PARENT) then mret tt
      else
        q ← get_comment (com_parent_author p) (com_parent_permlink p);
        touch_ancestors fuel' delta now (com_id q)
  end.
Definition ancestor_rounds (db : database) : nat := size (trows (A := comment_object) db).

(** The votes on a comment, in the order of [by_comment_voter]. *)
Definition votes_on (c : Z) : database → list comment_vote_object :=
  select (λ v, cv_comment v =? c) (λ x y, cv_voter x <=? cv_voter y).

Definition delete_comment_evaluator (o : delete_comment_operation) : DB unit :=
  auth ← get_account (dc_author o);
  not_challenged auth "Operation cannot be processed because account is currently challenged.";;
  comment ← get_comment (dc_author o) (dc_permlink o);
  assert (com_children comment =? 0) "Cannot delete a comment with replies.";;
  assert (negb (com_cashout_time comment =? time_max)) "comment.cashout_time != maximum()";;
  assert (com_net_rshares comment <=? 0) "Cannot delete a comment with net positive votes.";;
  if 0 <? com_net_rshares comment then mret tt
  else
    votes ← gets (votes_on (com_id comment));
    for_each votes (λ v, remove comment_vote_object (cv_id v));;
    when (negb (bool_decide (com_parent_author comment = STEEMIT_ROOT_POST_PARENT)))
      (parent ← get_comment (com_parent_author comment) (com_parent_permlink comment);
       now ← head_block_time;
       rounds ← gets ancestor_rounds;
       touch_ancestors rounds (-1) now (com_id parent));;
    remove comment_object (com_id comment).

(** [comment_options_extension_visitor] *)
Definition set_beneficiaries (comment : Z) (cpb : comment_payout_beneficiaries) : DB unit :=
  c ← get comment_object comment;
  assert (length (com_beneficiaries c) =? 0)%nat "Comment already has beneficiaries specified.";;
  assert (com_abs_rshares c =? 0) "Comment must not have been voted on before specifying beneficiaries.";;
  for_each (cpb_beneficiaries cpb) (λ b,
    acc ← find_account b.1;
    assert (bool_decide (is_Some acc)) "Beneficiary must exist.");;
  modify comment (λ c,
    Ok (set_com_beneficiaries (com_beneficiaries c ++ cpb_beneficiaries cpb) c)).

Definition comment_options_evaluator (o : comment_options_operation) : DB unit :=
  auth ← get_account (co_author o);
  not_challenged auth "Operation cannot be processed because account is currently challenged.";;
  comment ← get_comment (co_author o) (co_permlink o);
  restricts ← lift (if negb (co_allow_curation_rewards o) || negb (co_allow_votes o) then Ok true
                    else asset_lt (co_max_accepted_payout o) (com_max_accepted_payout comment));
  when restricts (assert (com_abs_rshares comment =? 0)
    "One of the included comment options requires the comment to have no rshares allocated to it.");;
  assert (implb (co_allow_curation_rewards o) (com_allow_curation_rewards comment))
    "Curation rewards cannot be re-enabled.";;
  assert (implb (co_allow_votes o) (com_allow_votes comment)) "Voting cannot be re-enabled.";;
  ge ← lift (asset_ge (com_max_accepted_payout comment) (co_max_accepted_payout o));
  assert ge "A comment cannot accept a greater payout.";;
  assert (co_percent_steem_dollars o <=? com_percent_steem_dollars comment)
    "A comment cannot accept a greater percent SBD.";;
  modify (com_id comment) (λ c,
    Ok (set_com_allow_curation_rewards (co_allow_curation_rewards o)
         (set_com_allow_votes (co_allow_votes o)
           (set_com_percent_steem_dollars (co_percent_steem_dollars o)
             (set_com_max_accepted_payout (co_max_accepted_payout o) c)))));;
  for_each (co_extensions o) (set_beneficiaries (com_id comment)).

(** The bandwidth of the author and the weight of the reward of a new comment. *)
Definition post_weight (root : bool) (now last_root_post post_bandwidth : Z) : result (Z * Z) :=
  if root then
    let post_delta_time := Z.min (to_uint32 (now - last_root_post)) STEEMIT_POST_AVERAGE_WINDOW in
    let old_weight := to_uint32 (to_uint64 (post_bandwidth * (STEEMIT_POST_AVERAGE_WINDOW - post_delta_time))
                                 / STEEMIT_POST_AVERAGE_WINDOW) in
    let bandwidth := to_uint32 (old_weight + STEEMIT_100_PERCENT) in
    let square := to_uint64 (bandwidth * bandwidth) in
    if square =? 0 then Throw divide_by_zero_exception
    else Ok (bandwidth, to_uint16 (Z.min (STEEMIT_POST_WEIGHT_CONSTANT * STEEMIT_100_PERCENT / square)
                                         STEEMIT_100_PERCENT))
  else Ok (post_bandwidth, STEEMIT_100_PERCENT).

(** What the constructor of [create< comment_object >] sets: neither the parent
    nor the root of the comment. *)
Definition new_comment (o : comment_operation) (now reward_weight : Z) (com : comment_object)
    : comment_object :=
  let com := set_com_permlink (cm_permlink o) (set_com_author (cm_author o) com) in
  let com := set_com_active now (set_com_created now (set_com_last_update now com)) in
  let com := set_com_max_cashout_time time_max (set_com_last_payout time_min com) in
  let com := set_com_reward_weight reward_weight com in
  let com := set_com_cashout_time (time_add (com_created com) STEEMIT_CASHOUT_WINDOW_SECONDS) com in
  let com := set_com_title (cm_title o) com in
  let com := if Z.of_nat (String.length (cm_body o)) <? 1024 * 1024 * 128
             then set_com_body (cm_body o) com else com in
  if is_utf8 (cm_json_metadata o) then set_com_json_metadata (cm_json_metadata o) com else com.

(** The body after an edit: a patch, or a replacement. *)
Definition edit_body (old new : string) : string :=
  match (ps ← patch_fromText (utf8_to_wstring new);
         match ps with
         | [] => mret new
         | _ =>
             r ← patch_apply ps (utf8_to_wstring old);
             let patched_body := wstring_to_utf8 r in
             mret (if is_utf8 patched_body then patched_body else prune_invalid_utf8 patched_body)
         end)
  with
  | Ok body => body
  | Throw _ => new
  end.

Definition edit_comment (o : comment_operation) (has_parent : bool) (now : Z) (com : comment_object)
    : result comment_object :=
  let com := set_com_active now (set_com_last_update now com) in
  FC_ASSERT (bool_decide (com_parent_author com = if has_parent then cm_parent_author o else EmptyString))
    "The parent of a comment cannot change.";;
  FC_ASSERT (strcmp_equal (com_parent_permlink com) (cm_parent_permlink o))
    "The permlink of a comment cannot change.";;
  let size s := String.length s in
  let com := if (0 <? size (cm_title o))%nat then set_com_title (cm_title o) com else com in
  let com := if (0 <? size (cm_json_metadata o))%nat && is_utf8 (cm_json_metadata o)
             then set_com_json_metadata (cm_json_metadata o) com else com in
  mret (if (0 <? size (cm_body o))%nat then set_com_body (edit_body (com_body com) (cm_body o)) com
        else com).

Definition comment_evaluator (o : comment_operation) : DB unit :=
  let size s := Z.of_nat (String.length s) in
  let root := bool_decide (cm_parent_author o = STEEMIT_ROOT_POST_PARENT) in
  assert (negb (size (cm_title o) + size (cm_body o) + size (cm_json_metadata o) =? 0))
    "Cannot update comment because nothing appears to be changing.";;
  itr ← find_comment (cm_author o) (cm_permlink o);
  auth ← get_account (cm_author o);
  not_challenged auth "Operation cannot be processed because account is currently challenged.";;
  parent ← (if root then mret None
            else p ← get_comment (cm_parent_author o) (cm_parent_permlink o);
                 assert (com_depth p <? STEEMIT_MAX_COMMENT_DEPTH) "Comment is nested too deep.";;
                 mret (Some p));
  when (0 <? size (cm_json_metadata o))
    (assert (is_utf8 (cm_json_metadata o)) "JSON Metadata must be UTF-8");;
  now ← head_block_time;
  match itr with
  | None =>
      match parent with
      | Some p =>
          r ← get comment_object (com_root_comment p);
          assert (com_allow_replies r) "The parent comment has disabled replies.";;
          assert (negb (calculate_discussion_payout_time p =? time_max)) "Discussion is frozen."
      | None => mret tt
      end;;
      when root (assert (STEEMIT_MIN_ROOT_COMMENT_INTERVAL <? now - acc_last_root_post auth)
                   "You may only post once every 5 minutes.");;
      weights ← lift (post_weight root now (acc_last_root_post auth) (acc_post_bandwidth auth));
      modify (acc_id auth) (λ a,
        let a := if root then set_acc_post_bandwidth (to_uint32 weights.1) (set_acc_last_root_post now a)
                 else a in
        Ok (set_acc_post_count (to_uint32 (acc_post_count a + 1)) (set_acc_last_post now a)));;
      lift (validate_permlink_0_1 (cm_parent_permlink o));;
      lift (validate_permlink_0_1 (cm_permlink o));;
      create comment_object_default (new_comment o now weights.2);;
      match parent with
      | Some p => rounds ← gets ancestor_rounds; touch_ancestors rounds 1 now (com_id p)
      | None => mret tt
      end
  | Some comment => modify (com_id comment) (edit_comment o (negb root) now)
  end.
End comments.

(** ** Votes *)
Section votes.
Context {F : Fc} {B : Boost}.

Definition effective_vesting_shares (a : account_object) : result asset :=
  x ← asset_sub (acc_vesting_shares a) (acc_delegated_vesting_shares a);
  asset_add x (acc_received_vesting_shares a).

Definition adjust_rshares2 (old_rshares2 new_rshares2 : Z) : DB unit :=
  modify_gpo (λ p,
    Ok (set_gpo_total_reward_shares2
          (u128_add (u128_sub (gpo_total_reward_shares2 p) old_rshares2) new_rshares2) p)).

Definition get_curation_rewards_percent (c : comment_object) : DB Z :=
  hf17 ← has_hardfork 17;
  if (hf17 : bool) then rf ← get_reward_fund c; mret (rf_percent_curation_rewards rf)
  else
    hf8 ← has_hardfork 8;
    mret (if (hf8 : bool) then STEEMIT_1_PERCENT * 25 else STEEMIT_1_PERCENT * 50).

(** What a vote of weight [w] takes from the voting power. *)
Record vote_power := VotePower { current_power : Z; used_power : Z; abs_rshares : Z }.
Definition compute_vote_power (voter : account_object) (now reserve_rate w : Z) : result vote_power :=
  let elapsed_seconds := now - acc_last_vote_time voter in
  FC_ASSERT (STEEMIT_MIN_VOTE_INTERVAL_SEC <=? elapsed_seconds) "Can only vote once every 3 seconds.";;
  let regenerated_power := STEEMIT_100_PERCENT * elapsed_seconds / STEEMIT_VOTE_REGENERATION_SECONDS in
  let current_power := Z.min (acc_voting_power voter + regenerated_power) STEEMIT_100_PERCENT in
  FC_ASSERT (0 <? current_power) "Account currently does not have voting power.";;
  let abs_weight := Z.abs w in
  let used_power := current_power * abs_weight / STEEMIT_100_PERCENT in
  let max_vote_denom :=
    to_uint32 (reserve_rate * STEEMIT_VOTE_REGENERATION_SECONDS) / (60 * 60 * 24) in
  FC_ASSERT (0 <? max_vote_denom) "max_vote_denom > 0";;
  let used_power := (used_power + max_vote_denom - 1) / max_vote_denom in
  FC_ASSERT (used_power <=? current_power) "Account does not have enough power to vote.";;
  shares ← effective_vesting_shares voter;
  q ← u128_div (u128_mul (u128_of_int64 (amount shares)) (u128_of_int64 used_power)) STEEMIT_100_PERCENT;
  r ← u128_to_uint64 q;
  let abs_rshares := to_int64 r in
  FC_ASSERT ((STEEMIT_VOTE_DUST_THRESHOLD <? abs_rshares) || (w =? 0))
    "Voting weight is too small, please accumulate more voting power or steem power.";;
  mret (VotePower current_power used_power abs_rshares).

(** The weight of a new vote for the curation rewards: the largest weight and
    the one after the discount of the reverse auction. *)
Definition curve_weight (comment : comment_object) (old_vote_rshares rshares : Z) : DB Z :=
  if com_created comment <? STEEMIT_HARDFORK_0_6_REVERSE_AUCTION_TIME then
    let rshares3 := u512_mul (u512_mul rshares rshares) rshares in
    let total2 := u256_mul (com_abs_rshares comment) (com_abs_rshares comment) in
    q ← lift (u512_div rshares3 total2);
    mret (to_uint64 q)
  else
    reward_fund ← get_reward_fund comment;
    hf19 ← has_hardfork 19;
    let curve := if negb hf19 && (STEEMIT_HF_19_SQRT_PRE_CALC <? com_created comment)
                 then square_root else rf_curation_reward_curve reward_fund in
    lift (old ← evaluate_reward_curve (u128_of_int64 old_vote_rshares) curve
                  (rf_content_constant reward_fund);
          old_weight ← u128_to_uint64 old;
          new ← evaluate_reward_curve (u128_of_int64 (com_vote_rshares comment)) curve
                  (rf_content_constant reward_fund);
          new_weight ← u128_to_uint64 new;
          mret (to_uint64 (new_weight - old_weight))).
Definition vote_weight (comment : comment_object) (now old_vote_rshares rshares : Z) : DB (Z * Z) :=
  let eligible := (0 <? rshares) && (com_last_payout comment =? 0) && com_allow_curation_rewards comment in
  eligible ← (if eligible then p ← get_curation_rewards_percent comment; mret (0 <? p) else mret false);
  if (eligible : bool) then
    max_vote_weight ← curve_weight comment old_vote_rshares rshares;
    if STEEMIT_HARDFORK_0_6_REVERSE_AUCTION_TIME <? now then
      let delta_t := Z.min (to_uint64 (now - com_created comment)) STEEMIT_REVERSE_AUCTION_WINDOW_SECONDS in
      w ← lift (q ← u128_div (u128_mul max_vote_weight delta_t) STEEMIT_REVERSE_AUCTION_WINDOW_SECONDS;
                u128_to_uint64 q : result Z);
      mret (max_vote_weight, w)
    else mret (max_vote_weight, max_vote_weight)
  else mret (0, 0).

(** The votes of the voter change: [voting_power] and [last_vote_time]. *)
Definition spend_power (voter : Z) (p : vote_power) (now : Z) : DB unit :=
  modify voter (λ a, Ok (set_acc_last_vote_time now
                          (set_acc_voting_power (to_uint16 (current_power p - used_power p)) a))).

(** The first vote of an account on a comment. *)
Definition first_vote (o : vote_operation) (comment : comment_object) (voter : account_object)
    (p : vote_power) (now : Z) : DB unit :=
  assert (negb (vt_weight o =? 0)) "Vote weight cannot be 0.";;
  let rshares := if vt_weight o <? 0 then to_int64 (- abs_rshares p) else abs_rshares p in
  when (0 <? rshares)
    (assert (now <? com_cashout_time comment - STEEMIT_UPVOTE_LOCKOUT_HF17)
       "Cannot increase payout within last twelve hours before payout.");;
  spend_power (acc_id voter) p now;;
  let old_rshares := Z.max (com_net_rshares comment) 0 in
  root ← get comment_object (com_root_comment comment);
  assert (0 <? abs_rshares p) "Cannot vote with 0 rshares.";;
  let old_vote_rshares := com_vote_rshares comment in
  modify (com_id comment) (λ c,
    net ← safe_add (com_net_rshares c) rshares;
    abs ← safe_add (com_abs_rshares c) (abs_rshares p);
    vote ← (if 0 <? rshares then safe_add (com_vote_rshares c) rshares else mret (com_vote_rshares c));
    mret (set_com_net_votes (com_net_votes c + if 0 <? rshares then 1 else -1)
           (set_com_vote_rshares vote (set_com_abs_rshares abs (set_com_net_rshares net c)))));;
  modify (com_id root) (λ c : comment_object,
    x ← safe_add (com_children_abs_rshares c) (abs_rshares p);
    mret (set_com_children_abs_rshares x c));;
  comment ← get comment_object (com_id comment);
  new_rshares ← lift (evaluate_default_curve (Z.max (com_net_rshares comment) 0));
  old_rshares ← lift (evaluate_default_curve old_rshares);
  weights ← vote_weight comment now old_vote_rshares rshares;
  create comment_vote_object_default (λ cv,
    set_cv_weight weights.2
      (set_cv_last_update now (set_cv_vote_percent (vt_weight o) (set_cv_rshares rshares
        (set_cv_comment (com_id comment) (set_cv_voter (acc_id voter) cv))))));;
  when (negb (weights.1 =? 0))
    (modify (com_id comment) (λ c,
       Ok (set_com_total_vote_weight (to_uint64 (com_total_vote_weight c + weights.1)) c)));;
  adjust_rshares2 old_rshares new_rshares.

(** How [net_votes] moves when a vote changes from [old] to [new] rshares. *)
Definition net_votes_change (old new : Z) : Z :=
  if (0 <? new) && (old <? 0) then 2
  else if (0 <? new) && (old =? 0) then 1
  else if (new =? 0) && (old <? 0) then 1
  else if (new =? 0) && (0 <? old) then -1
  else if (new <? 0) && (old =? 0) then -1
  else if (new <? 0) && (0 <? old) then -2
  else 0.

(** A changed vote. *)
Definition change_vote (o : vote_operation) (comment : comment_object) (voter : account_object)
    (itr : comment_vote_object) (p : vote_power) (now : Z) : DB unit :=
  assert (cv_num_changes itr <? STEEMIT_MAX_VOTE_CHANGES)
    "Voter has used the maximum number of vote changes on this comment.";;
  assert (negb (cv_vote_percent itr =? vt_weight o)) "You have already voted in a similar way.";;
  let rshares := if vt_weight o <? 0 then to_int64 (- abs_rshares p) else abs_rshares p in
  when (cv_rshares itr <? rshares)
    (assert (now <? com_cashout_time comment - STEEMIT_UPVOTE_LOCKOUT_HF17)
       "Cannot increase payout within last twelve hours before payout.");;
  spend_power (acc_id voter) p now;;
  let old_rshares := Z.max (com_net_rshares comment) 0 in
  root ← get comment_object (com_root_comment comment);
  modify (com_id comment) (λ c,
    net ← safe_sub (com_net_rshares c) (cv_rshares itr);
    net ← safe_add net rshares;
    abs ← safe_add (com_abs_rshares c) (abs_rshares p);
    mret (set_com_net_votes (com_net_votes c + net_votes_change (cv_rshares itr) rshares)
           (set_com_abs_rshares abs (set_com_net_rshares net c))));;
  modify (com_id root) (λ c : comment_object,
    x ← safe_add (com_children_abs_rshares c) (abs_rshares p);
    mret (set_com_children_abs_rshares x c));;
  comment ← get comment_object (com_id comment);
  lift (evaluate_default_curve (Z.max (com_net_rshares comment) 0));;
  lift (evaluate_default_curve old_rshares);;
  modify (com_id comment) (λ c,
    Ok (set_com_total_vote_weight (to_uint64 (com_total_vote_weight c - cv_weight itr)) c));;
  modify (cv_id itr) (λ cv,
    Ok (set_cv_num_changes (cv_num_changes cv + 1)
         (set_cv_weight 0 (set_cv_last_update now
           (set_cv_vote_percent (vt_weight o) (set_cv_rshares rshares cv)))))).

Definition vote_by (comment voter : Z) (v : comment_vote_object) : bool :=
  (cv_comment v =? comment) && (cv_voter v =? voter).

Definition vote_evaluator (o : vote_operation) : DB unit :=
  comment ← get_comment (vt_author o) (vt_permlink o);
  voter ← get_account (vt_voter o);
  not_challenged voter "Operation cannot be processed because the account is currently challenged.";;
  assert (acc_can_vote voter) "Voter has declined their voting rights.";;
  when (0 <? vt_weight o) (assert (com_allow_votes comment) "Votes are not allowed on the comment.");;
  if calculate_discussion_payout_time comment =? time_max then mret tt
  else
    itr ← find_by (vote_by (com_id comment) (acc_id voter));
    now ← head_block_time;
    dgpo ← get_dynamic_global_properties;
    p ← lift (compute_vote_power voter now (gpo_vote_power_reserve_rate dgpo) (vt_weight o));
    match itr with
    | None => first_vote o comment voter p now
    | Some v =>
        assert (negb (cv_num_changes v =? -1)) "Cannot vote again on a comment after payout.";;
        change_vote o comment voter v p now
    end.
End votes.

(** ** Comments and votes move no assets *)
Section conserve.
Context {F : Fc} {B : Boost} {D : DiffMatchPatch}.

#[export] Instance adjust_rshares2_conserves x y : Conserves (adjust_rshares2 x y).
Proof.
  intros db u db' Hdb H. unfold adjust_rshares2 in H. shift_all. split; [done|].
  intros k. at_kind k. inv_ok. rewrite HI. destruct k; cbn; lia.
Qed.
#[export] Instance touch_ancestors_conserves n d now p : Conserves (touch_ancestors n d now p).
Proof. revert p. induction n as [|n IH]; intros p; cbn [touch_ancestors]; conserve. Qed.
#[export] Instance not_challenged_conserves a msg : Conserves (not_challenged a msg).
Proof. unfold not_challenged. conserve. Qed.
#[export] Instance delete_comment_conserves o : Conserves (delete_comment_evaluator o).
Proof. unfold delete_comment_evaluator. conserve. Qed.
#[export] Instance comment_options_conserves o : Conserves (comment_options_evaluator o).
Proof. unfold comment_options_evaluator, set_beneficiaries. conserve. Qed.
#[export] Instance comment_conserves o : Conserves (comment_evaluator o).
Proof. unfold comment_evaluator. conserve. case_bool_decide; conserve. Qed.
#[export] Instance get_curation_rewards_percent_conserves c : Conserves (get_curation_rewards_percent c).
Proof. unfold get_curation_rewards_percent. conserve. Qed.
#[export] Instance vote_conserves o : Conserves (vote_evaluator o).
Proof.
  unfold vote_evaluator, first_vote, change_vote, spend_power, vote_weight, curve_weight. conserve.
Qed.
End conserve.
