(* ===== verification/Cashout.v ===== *)
(** * The payout of comments

    [pay_curators], [adjust_total_payout], [cashout_comment_helper] and
    [process_comment_cashout] of chain/database.cpp. *)
From S2P Require Import Prelude Fc Config Asset Chainbase ChainbaseSpec Objects Database.
From S2P Require Import Names Supply Protocol Votes Ledger Rewards Comments.

Section cashout.
Context {F : Fc} {B : Boost}.

Definition adjust_total_payout (cur : Z) (sbd_created curator_sbd_value beneficiary_value : asset)
    : DB unit :=
  modify cur (λ c,
    total ← (if symbol (com_total_payout_value c) =? symbol sbd_created
             then asset_add (com_total_payout_value c) sbd_created
             else mret (com_total_payout_value c));
    curator ← asset_add (com_curator_payout_value c) curator_sbd_value;
    beneficiary ← asset_add (com_beneficiary_payout_value c) beneficiary_value;
    mret (set_com_beneficiary_payout_value beneficiary
           (set_com_curator_payout_value curator (set_com_total_payout_value total c)))).

(** The votes on a comment in the order of [by_comment_weight_voter]. *)
Definition curators_of (c : Z) : database → list comment_vote_object :=
  select (λ v, cv_comment v =? c)
    (λ x y, (cv_weight y <? cv_weight x)
            || ((cv_weight x =? cv_weight y) && (cv_voter x <=? cv_voter y))).

(** What a vote of weight [w] claims of [max_rewards]. *)
Definition curator_claim (max_rewards w total_weight : Z) : result Z :=
  q ← u128_div (u128_mul (u128_of_int64 max_rewards) w) total_weight;
  u128_to_uint64 q.

(** A round of the loop: the unclaimed rewards go down by the claim. *)
Definition pay_curator (c : comment_object) (max_rewards unclaimed : Z) (v : comment_vote_object)
    : DB Z :=
  claim ← lift (curator_claim max_rewards (cv_weight v) (com_total_vote_weight c));
  if 0 <? claim then
    unclaimed' ← lift (safe_sub unclaimed (to_int64 claim));
    voter ← get account_object (cv_voter v);
    hf17 ← has_hardfork 17;
    reward ← create_vesting (acc_id voter) (Asset (to_int64 claim) STEEM_SYMBOL) hf17;
    push_virtual_operation
      (curation_reward_operation (acc_name voter) reward (com_author c) (com_permlink c));;
    modify (acc_id voter) (λ a,
      x ← safe_add (acc_curation_rewards a) (to_int64 claim);
      mret (set_acc_curation_rewards x a));;
    mret unclaimed'
  else mret unclaimed.

(** [pay_curators( c, max_rewards )]: the unclaimed rewards and the new value of
    the reference argument [max_rewards]. *)
Definition pay_curators (c : comment_object) (max_rewards : Z) : DB (Z * Z) :=
  if negb (com_allow_curation_rewards c) then mret (0, 0)
  else
    unclaimed ← (if 0 <? com_total_vote_weight c then
                   votes ← gets (curators_of (com_id c));
                   fold_m votes (pay_curator c max_rewards) max_rewards
                 else mret max_rewards);
    rest ← lift (safe_sub max_rewards unclaimed);
    mret (unclaimed, rest).

Definition fill_comment_reward_context_local_state (ctx : comment_reward_context)
    (comment : comment_object) : comment_reward_context :=
  CommentRewardContext (com_net_rshares comment) (com_reward_weight comment)
    (com_max_accepted_payout comment) (ctx_total_reward_shares2 ctx)
    (ctx_total_reward_fund_steem ctx) (ctx_current_steem_price ctx) (ctx_reward_curve ctx)
    (ctx_content_constant ctx).
Definition set_ctx_curve (curve : curve_id) (constant : Z) (ctx : comment_reward_context)
    : comment_reward_context :=
  CommentRewardContext (ctx_rshares ctx) (ctx_reward_weight ctx) (ctx_max_sbd ctx)
    (ctx_total_reward_shares2 ctx) (ctx_total_reward_fund_steem ctx)
    (ctx_current_steem_price ctx) curve constant.
Definition set_ctx_fund (shares2 : Z) (fund : asset) (ctx : comment_reward_context)
    : comment_reward_context :=
  CommentRewardContext (ctx_rshares ctx) (ctx_reward_weight ctx) (ctx_max_sbd ctx) shares2 fund
    (ctx_current_steem_price ctx) (ctx_reward_curve ctx) (ctx_content_constant ctx).

(** A round of the loop over the beneficiaries. *)
Definition pay_beneficiary (comment : comment_object) (author_tokens total : Z) (b : string * Z)
    : DB Z :=
  tokens ← lift (x ← safe_mul author_tokens b.2; safe_div x STEEMIT_100_PERCENT);
  a ← get_account b.1;
  hf17 ← has_hardfork 17;
  vest_created ← create_vesting (acc_id a) (Asset tokens STEEM_SYMBOL) hf17;
  push_virtual_operation
    (comment_benefactor_reward_operation b.1 (com_author comment) (com_permlink comment) vest_created);;
  lift (safe_add total tokens).

(** The author's part: half of the given percentage in dollars, the rest in
    vesting shares.  Returns the value in dollars. *)
Definition pay_author (comment : comment_object) (author_tokens : Z)
    (curation_tokens total_beneficiary claimed_reward : Z) : DB unit :=
  sbd_steem ← lift (x ← safe_mul author_tokens (com_percent_steem_dollars comment);
                    safe_div x (2 * STEEMIT_100_PERCENT));
  vesting_steem ← lift (safe_sub author_tokens sbd_steem);
  author ← get_account (com_author comment);
  hf17 ← has_hardfork 17;
  vest_created ← create_vesting (acc_id author) (Asset vesting_steem STEEM_SYMBOL) hf17;
  sbd_payout ← create_sbd (acc_id author) (Asset sbd_steem STEEM_SYMBOL) hf17;
  steem ← lift (asset_add sbd_payout.2 (Asset vesting_steem STEEM_SYMBOL));
  sbd ← to_sbd steem;
  sbd_created ← lift (asset_add sbd_payout.1 sbd);
  curator_value ← to_sbd (Asset curation_tokens STEEM_SYMBOL);
  beneficiary_value ← to_sbd (Asset total_beneficiary STEEM_SYMBOL);
  adjust_total_payout (com_id comment) sbd_created curator_value beneficiary_value;;
  push_virtual_operation (author_reward_operation (com_author comment) (com_permlink comment)
    sbd_payout.1 sbd_payout.2 vest_created);;
  claimed_value ← to_sbd (Asset claimed_reward STEEM_SYMBOL);
  push_virtual_operation
    (comment_reward_operation (com_author comment) (com_permlink comment) claimed_value);;
  modify (com_id comment) (λ c,
    x ← safe_add (com_author_rewards c) author_tokens; mret (set_com_author_rewards x c));;
  author ← get_account (com_author comment);
  modify (acc_id author) (λ a,
    x ← safe_add (acc_posting_rewards a) author_tokens; mret (set_acc_posting_rewards x a)).

(** The tokens of one reward: curators, beneficiaries, author.  The result is
    the claimed reward. *)
Definition pay_reward (comment : comment_object) (reward : Z) : DB Z :=
  percent ← get_curation_rewards_percent comment;
  curation_tokens ← lift (q ← u128_div (u128_mul (u128_of_int64 reward) percent) STEEMIT_100_PERCENT;
                          x ← u128_to_uint64 q; mret (to_int64 x) : result Z);
  author_tokens ← lift (safe_sub reward curation_tokens);
  paid ← pay_curators comment curation_tokens;
  author_tokens ← lift (safe_add author_tokens paid.1);
  let curation_tokens := paid.2 in
  claimed_reward ← lift (safe_add author_tokens curation_tokens);
  total_beneficiary ← fold_m (com_beneficiaries comment) (pay_beneficiary comment author_tokens) 0;
  author_tokens ← lift (safe_sub author_tokens total_beneficiary);
  pay_author comment author_tokens curation_tokens total_beneficiary claimed_reward;;
  mret claimed_reward.

(** The state of a comment after a payout. *)
Definition close_payout (hf17 hf12 : bool) (now : Z) (c : comment_object) : comment_object :=
  let c := if 0 <? com_net_rshares c then set_com_net_rshares 0 c else c in
  let c := set_com_children_abs_rshares 0 c in
  let c := set_com_vote_rshares 0 (set_com_abs_rshares 0 c) in
  let c := set_com_max_cashout_time time_max (set_com_total_vote_weight 0 c) in
  let c := if hf17 then set_com_cashout_time time_max c
           else if bool_decide (com_parent_author c = STEEMIT_ROOT_POST_PARENT) then
             if hf12 && (com_last_payout c =? time_min)
             then set_com_cashout_time (time_add now STEEMIT_SECOND_CASHOUT_WINDOW) c
             else set_com_cashout_time time_max c
           else c in
  set_com_last_payout now c.

(** The loop over the votes after a payout. *)
Definition retire_vote (comment : Z) (v : comment_vote_object) : DB unit :=
  hf12 ← has_hardfork 12;
  c ← get comment_object comment;
  if negb hf12 || negb (calculate_discussion_payout_time c =? time_max)
  then modify (cv_id v) (λ cvo, Ok (set_cv_num_changes (-1) cvo))
  else remove comment_vote_object (cv_id v).

Definition retire_votes (comment : Z) : DB unit :=
  votes ← gets (votes_on comment);
  for_each votes (retire_vote comment).

(** [cashout_comment_helper( ctx, comment )]: the new value of the reference
    argument [ctx], and the claimed reward. *)
Definition cashout_comment_helper (ctx : comment_reward_context) (id : Z)
    : DB (comment_reward_context * Z) :=
  comment ← get comment_object id;
  hf17 ← has_hardfork 17;
  r ← (if 0 <? com_net_rshares comment then
         let ctx := fill_comment_reward_context_local_state ctx comment in
         ctx ← (if (hf17 : bool) then
                  rf ← get_reward_fund comment;
                  mret (set_ctx_curve (rf_author_reward_curve rf) (rf_content_constant rf) ctx)
                else mret ctx);
         reward ← lift (get_rshare_reward ctx);
         claimed_reward ← (if 0 <? reward then pay_reward comment reward else mret 0);
         when (negb hf17)
           (old ← lift (evaluate_default_curve (u128_of_int64 (com_net_rshares comment)));
            adjust_rshares2 old 0);;
         mret (ctx, claimed_reward)
       else mret (ctx, 0));
  hf12 ← has_hardfork 12;
  now ← head_block_time;
  modify id (λ c, Ok (close_payout hf17 hf12 now c));;
  push_virtual_operation (comment_payout_update_operation (com_author comment) (com_permlink comment));;
  retire_votes id;;
  mret r.

Record reward_fund_context := RewardFundContext {
  rfc_recent_claims : Z; rfc_reward_balance : asset; rfc_steem_awarded : Z }.

(** The decay of the recent claims of a fund. *)
Definition decay_fund (funds : list reward_fund_context) (rf : Z) : DB (list reward_fund_context) :=
  hf19 ← has_hardfork 19;
  now ← head_block_time;
  let decay_rate := if (hf19 : bool) then STEEMIT_RECENT_RSHARES_DECAY_RATE_HF19
                    else STEEMIT_RECENT_RSHARES_DECAY_RATE_HF17 in
  modify rf (λ rfo : reward_fund_object,
    q ← u128_div (u128_mul (rf_recent_claims rfo) (u128_of_int64 (now - rf_last_update rfo))) decay_rate;
    mret (set_rf_last_update now (set_rf_recent_claims (u128_sub (rf_recent_claims rfo) q) rfo)));;
  r ← get reward_fund_object rf;
  mret (funds ++ [RewardFundContext (rf_recent_claims r) (rf_reward_balance r) 0]).

(** The order of [by_cashout_time]. *)
Definition cashout_leb (x y : comment_object) : bool :=
  (com_cashout_time x <? com_cashout_time y)
  || ((com_cashout_time x =? com_cashout_time y) && (com_id x <=? com_id y)).
Definition is_due (now : Z) (c : comment_object) : bool := com_cashout_time c <=? now.
Definition due_comments (db : database) : list comment_object :=
  select (is_due (gpo_time (db_gpo db))) cashout_leb db.

(** [funds[ i ]]: an index past the end has no defined behaviour. *)
Definition fund_at (funds : list reward_fund_context) (i : Z) : result reward_fund_context :=
  match funds !! Z.to_nat i with Some f => Ok f | None => Throw out_of_range end.

(** The first loop over the due comments: their claims are added to the funds. *)
Definition count_claim (funds : list reward_fund_context) (c : comment_object)
    : DB (list reward_fund_context) :=
  if 0 <? com_net_rshares c then
    rf ← get_reward_fund c;
    f ← lift (fund_at funds (rf_id rf));
    claim ← lift (evaluate_reward_curve (u128_of_int64 (com_net_rshares c)) (rf_author_reward_curve rf)
                    (rf_content_constant rf));
    mret (<[Z.to_nat (rf_id rf) :=
              RewardFundContext (u128_add (rfc_recent_claims f) claim) (rfc_reward_balance f)
                (rfc_steem_awarded f)]> funds)
  else mret funds.

(** A payout from the snapshot of the fund of the comment (hardfork 17). *)
Definition cashout_from_fund (st : comment_reward_context * list reward_fund_context)
    (c : comment_object) : DB (comment_reward_context * list reward_fund_context) :=
  rf ← get_reward_fund c;
  f ← lift (fund_at st.2 (rf_id rf));
  r ← cashout_comment_helper (set_ctx_fund (rfc_recent_claims f) (rfc_reward_balance f) st.1) (com_id c);
  awarded ← lift (safe_add (rfc_steem_awarded f) r.2);
  mret (r.1, <[Z.to_nat (rf_id rf) :=
                 RewardFundContext (rfc_recent_claims f) (rfc_reward_balance f) awarded]> st.2).

(** Before it: a payout from the global fund, for one comment of a discussion. *)
Definition cashout_from_gpo (ctx : comment_reward_context) (c : Z) : DB comment_reward_context :=
  gpo ← get_dynamic_global_properties;
  r ← cashout_comment_helper
        (set_ctx_fund (gpo_total_reward_shares2 gpo) (gpo_total_reward_fund_steem gpo) ctx) c;
  when (0 <? r.2)
    (modify_gpo (λ p,
       x ← safe_sub (amount (gpo_total_reward_fund_steem p)) r.2;
       mret (set_gpo_total_reward_fund_steem (Asset x (symbol (gpo_total_reward_fund_steem p))) p)));;
  mret r.1.

(** The comments of a discussion, in the order of [by_root]. *)
Definition discussion (root : Z) : database → list comment_object :=
  select (λ c, com_root_comment c =? root) (λ x y, com_id x <=? com_id y).

(** The loop over the due comments: the first one is paid until none is due. *)
Fixpoint cashout_loop (fuel : nat) (st : comment_reward_context * list reward_fund_context)
    : DB (list reward_fund_context) :=
  current ← gets due_comments;
  match current with
  | [] => mret st.2
  | c :: _ =>
      match fuel with
      | O => throw (logic_error "out of rounds")
      | S fuel' =>
          hf17 ← has_hardfork 17;
          st' ← (if (hf17 : bool) then cashout_from_fund st c
                 else
                   ds ← gets (discussion (com_root_comment c));
                   ctx ← fold_m (com_id <$> ds) cashout_from_gpo st.1;
                   mret (ctx, st.2));
          cashout_loop fuel' st'
      end
  end.

(** The cached state of a fund is written back. *)
Definition write_fund (i : nat) (f : reward_fund_context) : DB unit :=
  modify (Z.of_nat i) (λ rfo : reward_fund_object,
    b ← asset_sub (rf_reward_balance rfo) (Asset (rfc_steem_awarded f) STEEM_SYMBOL);
    mret (set_rf_reward_balance b (set_rf_recent_claims (rfc_recent_claims f) rfo))).
Fixpoint write_funds (i : nat) (fs : list reward_fund_context) : DB unit :=
  match fs with
  | [] => mret tt
  | f :: fs' => write_fund i f;; write_funds (S i) fs'
  end.

Definition initial_context (p : price) : comment_reward_context :=
  CommentRewardContext 0 0 (Asset 0 STEEM_SYMBOL) 0 (Asset 0 STEEM_SYMBOL) p quadratic
    STEEMIT_CONTENT_CONSTANT_HF0.

(** Every round of the loop pays at least one due comment (see
    [cashout_terminates]). *)
Definition process_comment_cashout : DB unit :=
  hf7 ← has_hardfork STEEMIT_FIRST_CASHOUT_TIME;
  if negb hf7 then mret tt
  else
    p ← current_median_history;
    rfs ← gets (all_rows (A := reward_fund_object));
    funds ← fold_m (rf_id <$> rfs) decay_fund [];
    hf17 ← has_hardfork 17;
    funds ← (if (hf17 : bool) then due ← gets due_comments; fold_m due count_claim funds
             else mret funds);
    rounds ← gets (λ db, length (due_comments db));
    funds ← cashout_loop rounds (initial_context p, funds);
    write_funds 0 funds.
End cashout.

(** ** Payouts take what they pay from the funds

    [Spends m g]: a successful run of [m] with the result [a] has paid out [g a]
    STEEM, which are not yet taken from a fund. *)
Class Spends {A} (m : DB A) (g : A → Z) : Prop :=
  spends_run : ∀ db a db', db_wf db → m db = Ok (a, db') →
    db_wf db' ∧ ∀ k, imb k db' = imb k db - match k with KSteem => g a | _ => 0 end.

Lemma spends_conserves {A} (m : DB A) (g : A → Z) :
  Conserves m → (∀ db a db', m db = Ok (a, db') → g a = 0) → Spends m g.
Proof.
  intros Hc Hg db a db' Hdb H. destruct (Hc _ _ _ Hdb H) as [Hwf HI]. split; [done|].
  intros k. rewrite HI, (Hg _ _ _ H). destruct k; lia.
Qed.
Lemma spends_fold {A B} (l : list A) (f : B → A → DB B) (g : B → Z) b :
  (∀ b x, Spends (f b x) (λ b', g b' - g b)) → Spends (fold_m l f b) (λ r, g r - g b).
Proof.
  intros Hf. revert b. induction l as [|x l IH]; intros b db r db' Hdb H; cbn [fold_m] in H; inv_ok.
  - split; [done|]. intros []; lia.
  - match goal with H1 : f b x db = Ok _, H2 : fold_m l f _ _ = Ok _ |- _ =>
      destruct (Hf _ _ _ _ _ Hdb H1) as [Hs HI], (IH _ _ _ _ Hs H2) as [Hs' HI'] end.
    split; [done|]. intros k. rewrite HI', HI. destruct k; lia.
Qed.

(** Goes through the steps of a run: [Spends] like [Shifts]. *)
Ltac spend_step :=
  match goal with
  | Hdb : db_wf ?s, H : ?m ?s = Ok (_, ?s') |- _ =>
      let HI := fresh "HI" in let Hdb' := fresh "Hdb" in
      destruct (spends_run (m := m) _ _ _ Hdb H) as [Hdb' HI]; clear H; cbn beta in HI
  end.
Ltac spend_all := repeat first [shift_step | spend_step].

Section conserve.
Context {F : Fc} {B : Boost}.

#[export] Instance to_sbd_conserves x : Conserves (to_sbd x).
Proof. unfold to_sbd. conserve. Qed.
#[export] Instance adjust_total_payout_conserves c x y z : Conserves (adjust_total_payout c x y z).
Proof. unfold adjust_total_payout. conserve. Qed.

#[export] Instance pay_curator_spends c m u v : Spends (pay_curator c m u v) (λ u', - u' - - u).
Proof.
  intros db u' db' Hdb H. unfold pay_curator in H. inv_ok. case_match; inv_db.
  - shift_all. split; [done|]. intros k. at_kind k. inv_ok. inv_safe. subst. ledger k.
  - split; [done|]. intros []; lia.
Qed.
(** The claims of the curators, and what is left of [m]. *)
#[export] Instance pay_curators_spends c m : Spends (pay_curators c m) snd.
Proof.
  intros db [u r] db' Hdb H. unfold pay_curators in H. case_match; inv_ok.
  { injection H as -> ->. split; [done|]. intros []; cbn; lia. }
  match goal with H : (if ?c then _ else _) _ = _ |- _ => destruct c end; inv_ok.
  - match goal with H : fold_m ?l ?f ?b ?s = Ok _ |- _ =>
      destruct (spends_fold l f (λ u, - u) b (λ _ _, _) _ _ _ Hdb H) as [Hs HI] end.
    inv_safe. simplify_eq. split; [done|]. intros k. rewrite HI. destruct k; cbn; lia.
  - inv_ok. inv_safe. simplify_eq. split; [done|]. intros []; cbn; lia.
Qed.
End conserve.

Section conserve2.
Context {F : Fc} {B : Boost}.

#[export] Instance pay_beneficiary_spends c a t b : Spends (pay_beneficiary c a t b) (λ t', t' - t).
Proof.
  intros db t' db' Hdb H. unfold pay_beneficiary in H. inv_db. shift_all. split; [done|].
  intros k. at_kind k. inv_safe. subst. ledger k.
Qed.
#[export] Instance pay_author_shifts c a x y z :
  Shifts (pay_author c a x y z) (λ k, match k with KSteem => - a | _ => 0 end).
Proof.
  intros db u db' Hdb H. unfold pay_author in H. inv_db.
  match goal with H : create_sbd ?a (Asset ?x STEEM_SYMBOL) ?b _ = _ |- _ =>
    pose proof (create_sbd_shifts a (Asset x STEEM_SYMBOL) b eq_refl) end.
  shift_all. split; [done|]. intros k. at_kind k. inv_ok. inv_safe. subst.
  rewrite !(by_symbol_steem k (Asset _ STEEM_SYMBOL)) in * by done. ledger k.
Qed.
#[export] Instance pay_reward_spends c r : Spends (pay_reward c r) (λ x, x).
Proof.
  intros db x db' Hdb H. unfold pay_reward in H. inv_ok.
  repeat first [shift_step | match goal with
    | Hdb : db_wf ?s, H : fold_m ?l ?f ?b ?s = Ok _ |- _ =>
        let HI := fresh "HI" in let Hdb' := fresh "Hdb" in
        destruct (spends_fold l f (λ u, u) b (λ _ _, _) _ _ _ Hdb H) as [Hdb' HI]; clear H
    end | spend_step].
  split; [done|]. intros k. at_kind k. inv_safe. subst. destruct k; lia.
Qed.
#[export] Instance retire_votes_conserves c : Conserves (retire_votes c).
Proof. unfold retire_votes, retire_vote. conserve. Qed.
#[export] Instance cashout_comment_helper_spends ctx c : Spends (cashout_comment_helper ctx c) snd.
Proof.
  intros db [ctx' r] db' Hdb H. unfold cashout_comment_helper in H. inv_db.
  repeat match goal with H : (if ?c then _ else _) _ = _ |- _ => destruct c; inv_db end; simplify_eq/=;
    spend_all; (split; [done|]); intros k; at_kind k; destruct k; lia.
Qed.

(** ** The funds *)
Definition awarded (funds : list reward_fund_context) : Z := zsum (rfc_steem_awarded <$> funds).
Lemma awarded_insert funds i f f' :
  funds !! i = Some f → awarded (<[i := f']> funds) = awarded funds - rfc_steem_awarded f + rfc_steem_awarded f'.
Proof.
  unfold awarded. revert i. induction funds as [|g l IH]; intros [|i] Hi; simplify_eq/=; [lia|].
  rewrite (IH _ Hi). lia.
Qed.
Lemma fund_at_ok funds i f : fund_at funds i = Ok f → funds !! Z.to_nat i = Some f.
Proof. unfold fund_at. case_match; naive_solver. Qed.

#[export] Instance decay_fund_conserves fs i : Conserves (decay_fund fs i).
Proof. unfold decay_fund. conserve. Qed.
#[export] Instance count_claim_conserves fs c : Conserves (count_claim fs c).
Proof. unfold count_claim. conserve. Qed.
#[export] Instance cashout_from_fund_spends st c :
  Spends (cashout_from_fund st c) (λ st', awarded st'.2 - awarded st.2).
Proof.
  intros db [ctx' fs] db' Hdb H. unfold cashout_from_fund in H. inv_db. simplify_eq/=.
  spend_all. split; [done|]. intros k. at_kind k.
  match goal with H : fund_at _ _ = Ok _ |- _ => apply fund_at_ok in H; rewrite (awarded_insert _ _ _ _ H) end.
  inv_safe. subst. destruct k; cbn; lia.
Qed.
End conserve2.

Section claimed.
Context {F : Fc} {B : Boost}.

Lemma rshare_reward_int64 ctx p : get_rshare_reward ctx = Ok p → p ≤ INT64_MAX.
Proof.
  unfold get_rshare_reward. intros H. inv_okb.
  match goal with |- Z.min ?x _ ≤ _ => assert (x ≤ INT64_MAX) end; [|lia].
  case_match; [|done]. by vm_compute.
Qed.

(** What is not claimed by the curators goes back to the author, unless
    curation rewards are switched off. *)
Lemma pay_curators_split c m db u r db' :
  pay_curators c m db = Ok ((u, r), db') →
  if com_allow_curation_rewards c then u + r = m else u = 0 ∧ r = 0.
Proof.
  unfold pay_curators. destruct (com_allow_curation_rewards c); cbn [negb]; intros H; inv_ok.
  - match goal with H : (u, r) = _ |- _ => injection H as -> -> end. inv_safe. lia.
  - match goal with H : (u, r) = _ |- _ => by injection H as -> -> end.
Qed.

Lemma pay_reward_split c reward db x db' :
  0 < reward ≤ INT64_MAX → 17 <? db_processed_hardforks db = false →
  pay_reward c reward db = Ok (x, db') → 0 ≤ x ≤ reward.
Proof.
  intros Hr Hhf H. unfold pay_reward in H. inv_ok.
  match goal with H : get_curation_rewards_percent c db = Ok (?p, _) |- _ =>
    assert (0 ≤ p ≤ 5000) as Hp end.
  { unfold get_curation_rewards_percent in *. inv_db.
    match goal with H : (if ?b then _ else _) _ = _ |- _ => rewrite Hhf in H end. inv_db.
    unfold STEEMIT_1_PERCENT, STEEMIT_100_PERCENT. case_match; vm_compute; intuition congruence. }
  match goal with H : u128_div (u128_mul _ ?p) _ = Ok _ |- _ =>
    rewrite u128_of_nonneg, u128_mul_spec, Z.mod_small in H
      by (unfold U128, INT64_MAX in *; nia);
    rewrite u128_div_spec in H by done; injection H as <-;
    assert (0 ≤ reward * p / STEEMIT_100_PERCENT ≤ reward) as Hq
      by (unfold STEEMIT_100_PERCENT; split; [apply Z.div_pos; nia|apply Z.div_le_upper_bound; nia])
  end.
  match goal with H : u128_to_uint64 _ = Ok _ |- _ => apply u128_to_uint64_ok in H as [-> _]; [|lia] end.
  repeat match goal with H : context [to_int64 ?y] |- _ => rewrite to_int64_id in H
     by (unfold INT64_MIN, INT64_MAX in *; lia) end.
  destruct_pair. match goal with H : pay_curators _ _ _ = Ok _ |- _ => apply pay_curators_split in H end.
  cbn [fst snd] in *. inv_safe. destruct (com_allow_curation_rewards c); lia.
Qed.

Lemma claimed_nonneg ctx c db ctx' r db' :
  17 <? db_processed_hardforks db = false →
  cashout_comment_helper ctx c db = Ok ((ctx', r), db') → 0 ≤ r.
Proof.
  intros Hhf H. unfold cashout_comment_helper in H. inv_db.
  repeat match goal with H : (if ?c then _ else _) _ = Ok _ |- _ => destruct c eqn:?; inv_db end;
    simplify_eq; bool_simpl; try lia;
    match goal with H : get_rshare_reward _ = Ok _ |- _ => apply rshare_reward_int64 in H end;
    match goal with H : pay_reward _ _ _ = _ |- _ => apply pay_reward_split in H; [lia|lia|] end;
    apply Z.ltb_ge; lia.
Qed.
End claimed.

(** ** The loop *)
Section loop.
Context {F : Fc} {B : Boost}.

#[export] Instance to_sbd_keeps {C} (obs : database → C) x : Keeps obs (to_sbd x).
Proof. unfold to_sbd. keep. Qed.
#[export] Instance cashout_helper_clock ctx c : Keeps clock (cashout_comment_helper ctx c).
Proof.
  unfold cashout_comment_helper, pay_reward, pay_author, pay_beneficiary, pay_curators, pay_curator,
    get_curation_rewards_percent, adjust_total_payout, retire_votes, retire_vote, adjust_rshares2. keep.
Qed.
#[export] Instance cashout_from_fund_clock st c : Keeps clock (cashout_from_fund st c).
Proof. unfold cashout_from_fund. keep. Qed.
#[export] Instance cashout_from_gpo_clock ctx c : Keeps clock (cashout_from_gpo ctx c).
Proof. unfold cashout_from_gpo. keep. Qed.

Definition before_17 (db : database) : Prop := 17 <? db_processed_hardforks db = false.
Lemma before_17_clock {A} (m : DB A) `{!Keeps clock m} db a db' :
  m db = Ok (a, db') → before_17 db → before_17 db'.
Proof. unfold before_17. intros H. apply keeps_run in H. injection H as -> _. done. Qed.

(** A payout from the global fund takes from it what it pays. *)
Lemma cashout_from_gpo_conserves ctx c db ctx' db' :
  db_wf db → before_17 db → cashout_from_gpo ctx c db = Ok (ctx', db') →
  db_wf db' ∧ ∀ k, imb k db' = imb k db.
Proof.
  intros Hdb Hhf H. unfold cashout_from_gpo in H. inv_db; destruct_pair; cbn [fst snd] in *;
    (match goal with H : cashout_comment_helper _ _ _ = Ok _ |- _ =>
      pose proof (claimed_nonneg _ _ _ _ _ _ Hhf H) end);
    spend_all; (split; [done|]); intros k; at_kind k; bool_simpl; inv_ok; inv_safe; subst;
    ledger k.
Qed.
Lemma discussion_conserves l ctx db ctx' db' :
  db_wf db → before_17 db → fold_m l cashout_from_gpo ctx db = Ok (ctx', db') →
  db_wf db' ∧ ∀ k, imb k db' = imb k db.
Proof.
  revert ctx db. induction l as [|c l IH]; intros ctx db Hdb Hhf H; cbn [fold_m] in H; inv_ok; [done|].
  match goal with H1 : cashout_from_gpo _ _ _ = Ok _, H2 : fold_m _ _ _ _ = Ok _ |- _ =>
    destruct (cashout_from_gpo_conserves _ _ _ _ _ Hdb Hhf H1) as [Hs HI];
    destruct (IH _ _ Hs (before_17_clock _ _ _ _ H1 Hhf) H2) as [Hs' HI'] end.
  split; [done|]. intros k. by rewrite HI'.
Qed.

#[export] Instance cashout_loop_spends n st :
  Spends (cashout_loop n st) (λ fs, awarded fs - awarded st.2).
Proof.
  revert st. induction n as [|n IH]; intros st db fs db' Hdb H; cbn [cashout_loop] in H; inv_ok.
  all: destruct (due_comments _) as [|c cs]; inv_ok; try (split; [done|]; intros []; lia).
  inv_db. match goal with H : (if ?b then _ else _) _ = _ |- _ => destruct b eqn:Hhf end; inv_ok.
  - spend_all. split; [done|]. intros k. at_kind k. destruct k; lia.
  - match goal with H : fold_m _ _ _ _ = Ok _ |- _ =>
      apply discussion_conserves in H as [Hs HI]; [|done|done] end.
    spend_all. split; [done|]. intros k. at_kind k. cbn [snd] in *. destruct k; lia.
Qed.

(** Writing the funds back takes what was awarded. *)
Lemma write_funds_imb i fs :
  Shifts (write_funds i fs) (λ k, match k with KSteem => awarded fs | _ => 0 end).
Proof.
  revert i. induction fs as [|f fs IH]; intros i db u db' Hdb H; cbn [write_funds] in H; inv_ok.
  { split; [done|]. intros []; cbn; lia. }
  unfold write_fund in *. shift_all. split; [done|]. intros k. at_kind k. inv_ok. inv_asset. subst.
  unfold awarded, zsum in *. rewrite fmap_cons. cbn [foldr]. ledger k.
Qed.
End loop.

Section process.
Context {F : Fc} {B : Boost}.

Lemma fold_result {A C} (l : list A) (f : C → A → DB C) (g : C → Z) c db c' db' :
  (∀ c x s c' s', f c x s = Ok (c', s') → g c' = g c) → fold_m l f c db = Ok (c', db') → g c' = g c.
Proof.
  intros Hf. revert c db. induction l as [|x l IH]; intros c db H; cbn [fold_m] in H; inv_ok; [done|].
  etrans; [by eapply IH|by eapply Hf].
Qed.
Lemma awarded_app fs gs : awarded (fs ++ gs) = awarded fs + awarded gs.
Proof.
  unfold awarded. rewrite fmap_app. generalize (rfc_steem_awarded <$> fs), (rfc_steem_awarded <$> gs).
  intros l m. induction l as [|x l IH]; cbn [app zsum foldr] in *; [done|]. unfold zsum in *. lia.
Qed.
Lemma decay_fund_awarded fs i db fs' db' : decay_fund fs i db = Ok (fs', db') → awarded fs' = awarded fs.
Proof. unfold decay_fund. intros H. inv_db. rewrite awarded_app. cbn. lia. Qed.
Lemma count_claim_awarded fs c db fs' db' : count_claim fs c db = Ok (fs', db') → awarded fs' = awarded fs.
Proof.
  unfold count_claim. intros H. case_match; inv_db; [|done].
  match goal with H : fund_at _ _ = Ok _ |- _ => apply fund_at_ok in H; rewrite (awarded_insert _ _ _ _ H) end.
  cbn. lia.
Qed.

#[export] Instance process_comment_cashout_conserves : Conserves process_comment_cashout.
Proof.
  intros db u db' Hdb H. unfold process_comment_cashout in H. inv_db.
  match goal with H : (if ?c then _ else _) _ = _ |- _ => destruct c; inv_db end.
  { split; [done|]. intros k. lia. }
  match goal with H : fold_m _ decay_fund _ db = Ok (?fs, ?s), H2 : (if _ then _ else _) ?s = Ok (?fs', ?s') |- _ =>
    pose proof (fold_result _ _ awarded _ _ _ _ decay_fund_awarded H) as E1;
    assert (Conserves (fold_m (rf_id <$> all_rows db) decay_fund [])) by conserve;
    assert (awarded fs' = awarded fs ∧ db_wf s' ∧ ∀ k, imb k s' = imb k s) as (E2 & Hs' & HI')
  end.
  { shift_all. match goal with H : (if ?c then _ else _) _ = _ |- _ => destruct c end; inv_ok; [|done].
    match goal with H : fold_m ?l count_claim ?fs _ = _ |- _ =>
      pose proof (fold_result _ _ awarded _ _ _ _ count_claim_awarded H);
      assert (Conserves (fold_m l count_claim fs)) by conserve end.
    shift_all. split_and!; [done|done|]. intros k. at_kind k. lia. }
  shift_all. match goal with H : (if _ then _ else _) _ = _ |- _ => clear H end.
  match goal with H : write_funds ?i ?f ?s = Ok _ |- _ => pose proof (write_funds_imb i f) end.
  spend_all. split; [done|]. intros k. at_kind k. cbn [snd] in *.
  change (awarded []) with 0 in *. destruct k; lia.
Qed.
End process.

(** ** The loop ends

    What decides whether a comment is due, and where its payout takes it. *)
Record ckey := CKey { ck_id : Z; ck_parent : string; ck_root : Z; ck_cashout : Z }.
Definition ckey_of (c : comment_object) : ckey :=
  CKey (com_id c) (com_parent_author c) (com_root_comment c) (com_cashout_time c).
Definition ckeys (db : database) : gmap Z ckey := ckey_of <$> trows (A := comment_object) db.
Definition due_ids (db : database) : gset Z :=
  dom (filter (λ p, ck_cashout p.2 ≤ gpo_time (db_gpo db)) (ckeys db)).

(** Every comment is filed under its id; a payout ends the cashout window of
    every comment (from hardfork 17 on) or of every post; the clock is not at
    its end. *)
Definition payable (db : database) : Prop :=
  (∀ i k, ckeys db !! i = Some k → ck_id k = i ∧
     (17 <? db_processed_hardforks db = false → ck_parent k = STEEMIT_ROOT_POST_PARENT)) ∧
  0 ≤ gpo_time (db_gpo db) ∧ gpo_time (db_gpo db) + STEEMIT_SECOND_CASHOUT_WINDOW < time_max.

Lemma due_ids_spec db i :
  i ∈ due_ids db ↔ ∃ k, ckeys db !! i = Some k ∧ ck_cashout k ≤ gpo_time (db_gpo db).
Proof.
  unfold due_ids. rewrite elem_of_dom. split.
  - intros [k [Hk Hd]%map_lookup_filter_Some]. eauto.
  - intros (k & Hk & Hd). exists k. by apply map_lookup_filter_Some.
Qed.
Lemma due_comments_spec db c :
  c ∈ due_comments db ↔
  (∃ i, trows db !! i = Some c) ∧ com_cashout_time c ≤ gpo_time (db_gpo db).
Proof.
  unfold due_comments, is_due. rewrite select_elem, Z.leb_le. naive_solver.
Qed.

Lemma length_filter_values {A} (P : A → bool) (m : gmap Z A) :
  length (filter (λ x, P x = true) (map_to_list m).*2) = size (filter (λ p, P p.2 = true) m).
Proof.
  induction m as [|i x m Hi IH] using map_ind; [done|].
  assert (filter (λ x, P x = true) (map_to_list (<[i:=x]> m)).*2
          ≡ₚ filter (λ x, P x = true) (x :: (map_to_list m).*2)) as ->.
  { by rewrite (map_to_list_insert m i x Hi). }
  destruct (P x) eqn:Hx.
  - rewrite filter_cons_True, map_filter_insert_True by done.
    rewrite map_size_insert_None by (apply map_lookup_filter_None; by left). simpl. by rewrite IH.
  - rewrite filter_cons_False, map_filter_insert_not' by (cbn; congruence || (intros; simplify_map_eq)).
    done.
Qed.
Lemma due_length db : length (due_comments db) = size (due_ids db).
Proof.
  unfold due_comments, select, due_ids. rewrite sort_by_perm, length_filter_values, size_dom.
  unfold ckeys. rewrite map_filter_fmap, map_size_fmap. f_equal. apply map_filter_ext.
  intros i x _. cbn. unfold is_due. by rewrite Z.leb_le.
Qed.

Section settle.
Context {F : Fc} {B : Boost}.

Definition ckeys_ok (db : database) : Prop := ∀ i k, ckeys db !! i = Some k → ck_id k = i.

Lemma ckeys_keep {A} (m : DB A) `{!Keeps db_comments m} db a db' :
  m db = Ok (a, db') → ckeys db' = ckeys db.
Proof.
  intros H. apply keeps_run in H. unfold ckeys, trows. cbn [tbl comments_table]. by rewrite H.
Qed.
(** The keys after a change of a comment. *)
Lemma ckeys_modify i (f : comment_object → result comment_object) db u db' :
  ckeys_ok db → (∀ x y, f x = Ok y → com_id y = com_id x) → modify i f db = Ok (u, db') →
  ∃ x y, trows db !! i = Some x ∧ f x = Ok y ∧ ckeys db' = <[i := ckey_of y]> (ckeys db).
Proof.
  intros Hok Hf H. pose proof H as (x & _ & _ & Hx & _)%modify_ok.
  assert (com_id x = i) as Hid.
  { apply (Hok i (ckey_of x)). unfold ckeys. by rewrite lookup_fmap, Hx. }
  eapply modify_rows in H as (y & Hy & E); [|exact Hx|intros y Hy; cbn; by rewrite (Hf _ _ Hy)].
  exists x, y. split_and!; [done..|]. unfold ckeys. by rewrite E, fmap_insert.
Qed.
Lemma ckeys_modify_same i (f : comment_object → result comment_object) db u db' :
  ckeys_ok db → (∀ x y, f x = Ok y → ckey_of y = ckey_of x) → modify i f db = Ok (u, db') →
  ckeys db' = ckeys db.
Proof.
  intros Hok Hf H. apply ckeys_modify in H as (x & y & Hx & Hy & ->); [|done|].
  - rewrite (Hf _ _ Hy). apply insert_id. unfold ckeys. by rewrite lookup_fmap, Hx.
  - intros x y Hy. by injection (Hf _ _ Hy).
Qed.

(** Goes forward through a run that changes no key. *)
Ltac ckeys_step :=
  match goal with
  | Hok : ckeys_ok ?s, H : modify _ _ ?s = Ok (_, ?s') |- _ =>
      let E := fresh "E" in
      assert (ckeys s' = ckeys s) as E
        by (revert H; apply ckeys_modify_same; [exact Hok|]; intros ?? ?; split_cases; inv_ok; reflexivity);
      assert (ckeys_ok s') by (unfold ckeys_ok; by rewrite E); clear H
  | Hok : ckeys_ok ?s, H : ?m ?s = Ok (_, ?s') |- _ =>
      let E := fresh "E" in
      pose proof (ckeys_keep m s _ s' H) as E;
      assert (ckeys_ok s') by (unfold ckeys_ok; by rewrite E); clear H
  end.

#[export] Instance pay_curators_comments c m : Keeps db_comments (pay_curators c m).
Proof. unfold pay_curators, pay_curator. keep. Qed.
#[export] Instance pay_beneficiary_comments c a t b : Keeps db_comments (pay_beneficiary c a t b).
Proof. unfold pay_beneficiary. keep. Qed.
#[export] Instance get_curation_rewards_percent_keeps {C} (obs : database → C) c :
  Keeps obs (get_curation_rewards_percent c).
Proof. unfold get_curation_rewards_percent. keep. Qed.
#[export] Instance pay_beneficiaries_comments l c a : Keeps db_comments (fold_m l (pay_beneficiary c a) 0).
Proof. keep. Qed.
Lemma pay_reward_ckeys c r db x db' :
  ckeys_ok db → pay_reward c r db = Ok (x, db') → ckeys db' = ckeys db.
Proof.
  intros Hok H. unfold pay_reward, pay_author, adjust_total_payout in H. inv_db.
  repeat ckeys_step. congruence.
Qed.

#[export] Instance retire_votes_comments c : Keeps db_comments (retire_votes c).
Proof. unfold retire_votes, retire_vote. keep. Qed.
#[export] Instance adjust_rshares2_comments x y : Keeps db_comments (adjust_rshares2 x y).
Proof. unfold adjust_rshares2. keep. Qed.

Lemma helper_ckeys ctx c db r db' :
  ckeys_ok db → cashout_comment_helper ctx c db = Ok (r, db') →
  ∃ x : comment_object, ckeys db !! c = Some (ckey_of x) ∧
  ckeys db' = <[c := ckey_of (close_payout (17 <? db_processed_hardforks db)
                     (12 <? db_processed_hardforks db) (gpo_time (db_gpo db)) x)]> (ckeys db).
Proof.
  intros Hok H. unfold cashout_comment_helper in H. inv_db.
  match goal with H1 : _ db = Ok (?r, ?s), H2 : modify c _ ?s = Ok _ |- _ =>
    assert (clock s = clock db ∧ ckeys s = ckeys db) as [Hc Es] end.
  { match goal with H1 : (if ?c then ?m else ?n) db = Ok _ |- _ =>
      split; [assert (Keeps clock (if c then m else n)) as Hk by
        (unfold pay_reward, pay_author, pay_beneficiary, pay_curators, pay_curator,
           adjust_total_payout, adjust_rshares2; keep); by apply Hk in H1|] end.
    repeat match goal with H : (if ?c then _ else _) _ = Ok _ |- _ => destruct c; inv_db end;
      repeat (match goal with Hok : ckeys_ok ?s, H : pay_reward _ _ ?s = Ok (_, ?s') |- _ =>
        let E := fresh "E" in pose proof (pay_reward_ckeys _ _ _ _ _ Hok H) as E;
        assert (ckeys_ok s') by (unfold ckeys_ok; by rewrite E); clear H end || ckeys_step);
      congruence. }
  injection Hc as Hhf Ht. rewrite Hhf, Ht in *.
  match goal with H : modify c _ ?s = Ok _ |- _ => apply ckeys_modify in H as (x & y & Hx & [= <-] & E) end.
  - exists x. split; [rewrite <- Es; unfold ckeys; by rewrite lookup_fmap, Hx|].
    match goal with H : push_virtual_operation _ _ = Ok _ |- _ => apply ckeys_keep in H; [|apply _] end.
    match goal with H : retire_votes _ _ = Ok _ |- _ => apply ckeys_keep in H; [|apply _] end.
    congruence.
  - unfold ckeys_ok. by rewrite Es.
  - intros x y [= <-]. unfold close_payout. by repeat case_match.
Qed.
End settle.

Section terminate.
Context {F : Fc} {B : Boost}.

(** A payout keeps [payable], and its comment is no longer due. *)
Lemma helper_settles ctx c db r db' :
  payable db → cashout_comment_helper ctx c db = Ok (r, db') →
  payable db' ∧ due_ids db' ⊆ due_ids db ∖ {[c]}.
Proof.
  intros (Hkeys & Ht & Hend) H.
  pose proof (keeps_run (obs := clock) _ _ _ H) as [= Hhf Hclock].
  apply helper_ckeys in H as (x & Hx & E); [|intros i k Hk; by apply Hkeys in Hk as [? _]].
  destruct (Hkeys _ _ Hx) as [Hid Hpar]. cbn in Hid, Hpar.
  set (y := close_payout _ _ _ _) in E.
  assert (ck_id (ckey_of y) = c ∧ ck_parent (ckey_of y) = com_parent_author x ∧
          gpo_time (db_gpo db) < ck_cashout (ckey_of y)) as (Hy1 & Hy2 & Hy3).
  { subst y. unfold close_payout. destruct (17 <? _) eqn:Hf.
    - case_match; (split_and!; [exact Hid|done|]); cbn; unfold STEEMIT_SECOND_CASHOUT_WINDOW in *; lia.
    - rewrite (bool_decide_eq_true_2 (_ = _)) by (case_match; exact (Hpar eq_refl)).
      repeat case_match; (split_and!; [exact Hid|done|]); cbn;
        rewrite ?time_add_spec; unfold STEEMIT_SECOND_CASHOUT_WINDOW, time_max, U32 in *; lia. }
  split; [split; [|rewrite Hclock; done]|].
  - intros i k. rewrite E, Hhf. intros [[<- <-]|[_ Hk]]%lookup_insert_Some; [|by apply Hkeys].
    split; [done|]. rewrite Hy2. exact Hpar.
  - intros i. rewrite elem_of_difference, elem_of_singleton, !due_ids_spec, E, Hclock.
    intros (k & [[<- <-]|[Hne Hk]]%lookup_insert_Some & Hd); [lia|]. split; [by eauto|congruence].
Qed.
Lemma fund_settles st c db st' db' :
  payable db → cashout_from_fund st c db = Ok (st', db') →
  payable db' ∧ due_ids db' ⊆ due_ids db ∖ {[com_id c]}.
Proof.
  intros Hp H. unfold cashout_from_fund in H. inv_db. by eapply helper_settles.
Qed.
Lemma modify_gpo_payable f db u db' :
  (∀ g g', f g = Ok g' → gpo_time g' = gpo_time g) → modify_gpo f db = Ok (u, db') →
  (payable db → payable db') ∧ due_ids db' = due_ids db.
Proof.
  intros Hf (g & Hg & ->)%modify_gpo_ok. unfold payable, due_ids, ckeys, trows. cbn.
  by rewrite (Hf _ _ Hg).
Qed.
Lemma gpo_settles ctx c db ctx' db' :
  payable db → cashout_from_gpo ctx c db = Ok (ctx', db') →
  payable db' ∧ due_ids db' ⊆ due_ids db ∖ {[c]}.
Proof.
  intros Hp H. unfold cashout_from_gpo in H. inv_db.
  all: match goal with H : cashout_comment_helper _ _ _ = Ok _ |- _ =>
    apply helper_settles in H as [Hp' Hd]; [|done] end; try done.
  match goal with H : modify_gpo _ _ = Ok _ |- _ => apply modify_gpo_payable in H as [Hg ->] end.
  - auto.
  - intros g g' Hg. by inv_ok.
Qed.
Lemma discussion_settles l ctx db ctx' db' :
  payable db → fold_m l cashout_from_gpo ctx db = Ok (ctx', db') →
  payable db' ∧ due_ids db' ⊆ due_ids db ∖ list_to_set l.
Proof.
  revert ctx db. induction l as [|c l IH]; intros ctx db Hp H; cbn [fold_m] in H; inv_ok.
  - split; [done|]. set_solver.
  - match goal with H1 : cashout_from_gpo _ _ _ = Ok _, H2 : fold_m _ _ _ _ = Ok _ |- _ =>
      apply gpo_settles in H1 as [Hp1 Hd1]; [|done]; apply IH in H2 as [Hp2 Hd2]; [|done] end.
    split; [done|]. set_solver.
Qed.

Definition cashout_round (st : comment_reward_context * list reward_fund_context) (c : comment_object)
    : DB (comment_reward_context * list reward_fund_context) :=
  hf17 ← has_hardfork 17;
  if (hf17 : bool) then cashout_from_fund st c
  else ds ← gets (discussion (com_root_comment c));
       ctx ← fold_m (com_id <$> ds) cashout_from_gpo st.1;
       mret (ctx, st.2).

(** A round of the loop pays a comment that was due. *)
Lemma round_settles st c cs db st' db' :
  payable db → due_comments db = c :: cs → cashout_round st c db = Ok (st', db') →
  payable db' ∧ (size (due_ids db') < size (due_ids db))%nat.
Proof.
  intros Hp Hc H. assert (c ∈ due_comments db) as [[i Hi] Hd]%due_comments_spec by (rewrite Hc; left).
  assert (ckeys db !! i = Some (ckey_of c)) as Hk by (unfold ckeys; by rewrite lookup_fmap, Hi).
  destruct (proj1 Hp _ _ Hk) as [Hid _]. cbn in Hid. subst i.
  assert (com_id c ∈ due_ids db) as Hin by (apply due_ids_spec; eauto).
  assert (payable db' ∧ due_ids db' ⊆ due_ids db ∖ {[com_id c]}) as [Hp' Hsub].
  { unfold cashout_round in H. inv_db.
    match goal with H : (if ?b then _ else _) _ = _ |- _ => destruct b end; [by eapply fund_settles|].
    inv_ok. match goal with H : fold_m _ _ _ _ = Ok _ |- _ => apply discussion_settles in H as [Hp' Hsub] end;
      [|done]. split; [done|].
    assert (com_id c ∈ com_id <$> discussion (com_root_comment c) db); [|set_solver].
    apply list_elem_of_fmap. exists c. split; [done|]. apply select_elem. split; [|by eauto].
    apply Z.eqb_refl. }
  split; [done|]. apply subset_size. set_solver.
Qed.

Lemma cashout_loop_unfold n st db :
  cashout_loop n st db =
  match due_comments db with
  | [] => Ok (st.2, db)
  | c :: _ =>
      match n with
      | O => Throw (logic_error "out of rounds")
      | S n' => match cashout_round st c db with
                | Ok (st', db') => cashout_loop n' st' db'
                | Throw e => Throw e
                end
      end
  end.
Proof.
  destruct n; cbn [cashout_loop]; unfold mbind, M_bind, gets; destruct (due_comments db); done.
Qed.

(** The loop as the source has it. *)
Definition cashout_step (x : comment_reward_context * list reward_fund_context * database)
    : result (comment_reward_context * list reward_fund_context * database +
              list reward_fund_context * database) :=
  match due_comments x.2 with
  | [] => Ok (inr (x.1.2, x.2))
  | c :: _ => x' ← cashout_round x.1 c x.2; Ok (inl x')
  end.
Lemma cashout_loop_runs n st db :
  payable db → (size (due_ids db) ≤ n)%nat →
  loop_runs cashout_step (st, db) (cashout_loop n st db).
Proof.
  revert st db. induction n as [|n IH]; intros st db Hp Hn; rewrite cashout_loop_unfold;
    pose proof (due_length db) as Hl; destruct (due_comments db) as [|c cs] eqn:Hc; cbn in Hl.
  1,3: apply loop_returns; unfold cashout_step; cbn [fst snd]; by rewrite Hc.
  - lia.
  - assert (cashout_step (st, db) = (x' ← cashout_round st c db; Ok (inl x'))) as E
      by (unfold cashout_step; cbn [fst snd]; by rewrite Hc).
    destruct (cashout_round st c db) as [[st' db']|e] eqn:H; [|by apply loop_throws; rewrite E].
    destruct (round_settles _ _ _ _ _ _ Hp Hc H) as [Hp' Hlt].
    eapply loop_again; [exact E|]. apply IH; [done|lia].
Qed.
Lemma cashout_loop_done n st db fs db' : cashout_loop n st db = Ok (fs, db') → due_comments db' = [].
Proof.
  revert st db. induction n as [|n IH]; intros st db; rewrite cashout_loop_unfold;
    destruct (due_comments db) eqn:Hc; try done; try by intros [= _ <-].
  case_match; [|done]. destruct_pair. apply IH.
Qed.

(** C36: the payout of the due comments ends: with as many rounds as there are due
    comments, or more, [cashout_loop] has the outcome of the unbounded loop of
    [process_comment_cashout], which therefore ends; and when it returns no
    comment is due. *)
Theorem cashout_terminates st db :
  payable db →
  (∀ n, (length (due_comments db) ≤ n)%nat →
     loop_runs cashout_step (st, db) (cashout_loop n st db)) ∧
  (∀ n fs db', cashout_loop n st db = Ok (fs, db') → due_comments db' = []).
Proof.
  intros Hp. split.
  - intros n Hn. rewrite due_length in Hn. by apply cashout_loop_runs.
  - intros n fs db'. apply cashout_loop_done.
Qed.
End terminate.

(** ** The theorems on an example *)
#[local] Existing Instance fc_model.
#[local] Existing Instance boost_model.

(** A reward fund and a comment whose payout was due at time 10. *)
Definition small_discussion : database :=
  match (create reward_fund_object_default (set_rf_name STEEMIT_POST_REWARD_FUND_NAME);;
         create comment_object_default (set_com_cashout_time 10))
        (set_db_hpo (set_hpo_processed_hardforks (replicate 20 0) hardfork_property_object_default)
          (set_db_gpo (set_gpo_time 100 (db_gpo empty_database)) empty_database)) with
  | Ok (_, db) => db
  | Throw _ => empty_database
  end.
Definition small_funds : comment_reward_context * list reward_fund_context :=
  (initial_context (db_median_history empty_database),
   [RewardFundContext 0 (Asset 0 STEEM_SYMBOL) 0]).

Lemma cashout_terminates_witness :
  length (due_comments small_discussion) = 1%nat ∧
  is_ok (cashout_loop 1 small_funds small_discussion) = true ∧
  loop_runs cashout_step (small_funds, small_discussion) (cashout_loop 1 small_funds small_discussion).
Proof.
  split; [vm_compute; reflexivity|]. split; [vm_compute; reflexivity|].
  refine (proj1 (cashout_terminates small_funds small_discussion _) 1%nat _).
  - split; [|split; vm_compute; [discriminate|reflexivity]].
    intros i k Hk. change (ckeys small_discussion) with ({[0 := CKey 0 EmptyString 0 10]} : gmap Z ckey) in Hk.
    apply lookup_singleton_Some in Hk as [<- <-]. done.
  - vm_compute. lia.
Defined.
