(* ===== verification/Genesis.v ===== *)
(** * The genesis state

    [database::init_genesis] of chain/database.cpp, on a database without
    objects.  The 65536 empty [block_summary_object]s are the default of
    [db_block_summaries]. *)
From S2P Require Import Prelude Fc Config Asset Chainbase ChainbaseSpec Objects Database.
From S2P Require Import Supply Votes Ledger.

(** [create< T >] of the four singleton objects: what they are initialised to. *)
Definition create_singletons (g : dynamic_global_property_object) (wso : witness_schedule_object)
    (hpo : hardfork_property_object) : DB unit := λ db,
  Ok (tt, set_db_hpo hpo (set_db_wso wso (set_db_gpo g db))).

(** An account of the chain itself, with the thresholds of its authorities. *)
Definition genesis_account (name : string) (threshold : Z) : DB unit :=
  create account_object_default (set_acc_name name);;
  create account_authority_object_default (λ a,
    set_aa_active (Authority threshold [] [])
      (set_aa_owner (Authority threshold [] []) (set_aa_account name a)));;
  mret tt.

(** The account, the authority and the witness of one of the initial miners. *)
Definition genesis_miner (init_supply : Z) (i : nat) : DB unit :=
  let name := (STEEMIT_INIT_MINER_NAME +:+
                (if (i =? 0)%nat then EmptyString else pretty i))%string in
  let key := Authority 1 [] [(STEEMIT_INIT_PUBLIC_KEY, 1)] in
  create account_object_default (λ a,
    set_acc_balance (Asset (if (i =? 0)%nat then to_int64 init_supply else 0) STEEM_SYMBOL)
      (set_acc_memo_key STEEMIT_INIT_PUBLIC_KEY (set_acc_name name a)));;
  create account_authority_object_default (λ a,
    set_aa_posting key (set_aa_active key (set_aa_owner key (set_aa_account name a))));;
  create witness_object_default (λ w,
    set_wit_schedule miner
      (set_wit_signing_key STEEMIT_INIT_PUBLIC_KEY (set_wit_owner name w)));;
  mret tt.

Definition genesis_properties (init_supply : Z) : dynamic_global_property_object :=
  let supply := Asset (to_int64 init_supply) STEEM_SYMBOL in
  set_gpo_maximum_block_size STEEMIT_MAX_BLOCK_SIZE
    (set_gpo_virtual_supply supply
      (set_gpo_current_supply supply
        (set_gpo_participation_count 128
          (set_gpo_recent_slots_filled (U128 - 1)
            (set_gpo_time STEEMIT_GENESIS_TIME
              (set_gpo_current_witness STEEMIT_INIT_MINER_NAME
                dynamic_global_property_object_default)))))).

Definition init_genesis (init_supply : Z) : DB unit :=
  genesis_account STEEMIT_MINER_ACCOUNT 1;;
  genesis_account STEEMIT_NULL_ACCOUNT 1;;
  genesis_account STEEMIT_TEMP_ACCOUNT 0;;
  for_each (seq 0 STEEMIT_NUM_INIT_MINERS) (genesis_miner init_supply);;
  create_singletons (genesis_properties init_supply)
    (set_wso_current_shuffled_witnesses
       (<[0%nat := STEEMIT_INIT_MINER_NAME]>
          (wso_current_shuffled_witnesses witness_schedule_object_default))
       witness_schedule_object_default)
    (set_hpo_processed_hardforks [STEEMIT_GENESIS_TIME] hardfork_property_object_default).

(** The state after genesis. *)
Definition genesis (init_supply : Z) : database :=
  match init_genesis init_supply empty_database with
  | Ok (_, db) => db
  | Throw _ => empty_database
  end.

Section genesis.
Context {F : Fc}.

Lemma empty_table_ok {A} `{MultiIndex A} `{RowOk A} : snap_ok (A := A) empty_table.
Proof. split; [split|]; by intros ?. Qed.

Lemma empty_database_wf : db_wf empty_database.
Proof. unfold db_wf. split_and!; exact empty_table_ok. Qed.

(** An account holds nothing when it is created. *)
Lemma new_account_weight k i name :
  weight k (set_acc_name name (set_obj_id i account_object_default)) = 0.
Proof. by destruct k. Qed.
Lemma miner_weight k i name key b :
  weight k (set_acc_balance (Asset b STEEM_SYMBOL)
    (set_acc_memo_key key (set_acc_name name (set_obj_id i account_object_default))))
  = match k with KSteem => b | _ => 0 end.
Proof. destruct k; try done. cbn -[Z.add]. lia. Qed.

#[local] Instance genesis_account_conserves name t : Conserves (genesis_account name t).
Proof.
  intros db u db' Hdb H. unfold genesis_account in H. inv_db. shift_all.
  split; [done|]. intros k. at_kind k. rewrite new_account_weight in *. lia.
Qed.

#[local] Instance genesis_miner_shifts supply :
  Shifts (genesis_miner supply 0) (λ k, match k with KSteem => - to_int64 supply | _ => 0 end).
Proof.
  intros db u db' Hdb H. unfold genesis_miner in H. inv_db. shift_all.
  split; [done|]. intros k. at_kind k. cbn beta in *. rewrite miner_weight in *.
  change (0 =? 0)%nat with true in *. destruct k; lia.
Qed.
#[global] Typeclasses Opaque genesis_account genesis_miner.

Lemma create_singletons_ok g w h db u db' :
  create_singletons g w h db = Ok (u, db') →
  db' = set_db_hpo h (set_db_wso w (set_db_gpo g db)).
Proof. unfold create_singletons. by intros [= _ <-]. Qed.

Lemma create_singletons_shifts g w h db u db' :
  db_wf db → create_singletons g w h db = Ok (u, db') →
  db_wf db' ∧ ∀ k, imb k db' = imb k db - declared k (db_gpo db) + declared k g.
Proof.
  intros Hdb ->%create_singletons_ok. split; [done|]. intros k.
  unfold imb, total, trows. cbn. lia.
Qed.

Lemma genesis_gpo_kept : ∀ name t, Keeps db_gpo (genesis_account name t).
Proof. intros. unfold genesis_account. keep. Qed.
Lemma miner_gpo_kept : ∀ supply i, Keeps db_gpo (genesis_miner supply i).
Proof. intros. unfold genesis_miner. keep. Qed.

Lemma init_genesis_sound supply u db :
  init_genesis supply empty_database = Ok (u, db) → db_wf db ∧ balanced db.
Proof.
  pose proof empty_database_wf as Hdb. unfold init_genesis, STEEMIT_NUM_INIT_MINERS.
  cbn [for_each seq]. intros H. inv_db.
  repeat match goal with
  | H : genesis_account _ _ _ = _ |- _ =>
      pose proof (genesis_gpo_kept _ _ _ _ _ H); apply shifts_run in H as [? ?]; [|done]
  | H : genesis_miner _ _ _ = _ |- _ =>
      pose proof (miner_gpo_kept _ _ _ _ _ H); apply shifts_run in H as [? ?]; [|done]
  end.
  match goal with H : create_singletons _ _ _ _ = _ |- _ =>
    apply create_singletons_shifts in H as [? HI]; [|done] end.
  split; [done|]. intros k. rewrite HI. at_kind k.
  assert (imb k empty_database = 0) by by destruct k.
  assert (declared k (db_gpo empty_database) = 0) by by destruct k.
  assert (declared k (genesis_properties supply)
          = match k with KSteem => to_int64 supply | _ => 0 end)
    by (destruct k; cbn -[to_int64]; lia).
  match goal with |- context [declared k (db_gpo ?s)] =>
    replace (db_gpo s) with (db_gpo empty_database) by congruence end.
  destruct k; lia.
Qed.

Lemma genesis_run supply :
  init_genesis supply empty_database = Ok (tt, genesis supply) ∧
  db_wf (genesis supply) ∧ balanced (genesis supply).
Proof.
  unfold genesis. destruct (init_genesis supply empty_database) as [[[] db]|e] eqn:E.
  - split; [done|]. by eapply init_genesis_sound.
  - exfalso. cut (is_ok (init_genesis supply empty_database) = true); [by rewrite E|].
    vm_compute. reflexivity.
Qed.
Lemma genesis_wf supply : db_wf (genesis supply).
Proof. apply genesis_run. Qed.

(** C32: [init_genesis] does not throw on an empty database, whatever the
    initial supply, and the state it leaves has well-formed tables in which all
    supply equations hold. *)
Theorem genesis_balanced supply :
  ∃ db, init_genesis supply empty_database = Ok (tt, db) ∧ db_wf db ∧ balanced db.
Proof. exists (genesis supply). apply genesis_run. Qed.
End genesis.

#[local] Existing Instance fc_model.
(** The check of the node accepts the genesis state. *)
Lemma validate_invariants_sound_witness :
  validate_invariants (genesis 1000000) = Ok tt ∧ imb KSteem (genesis 1000000) = 0.
Proof.
  split; [vm_compute; reflexivity|]. apply validate_invariants_sound; [vm_compute; reflexivity|done].
Defined.
