(* ===== verification/Transfers.v ===== *)
(** * Transfers and savings

    The evaluators of [transfer], [transfer_to_vesting], [transfer_to_savings],
    [transfer_from_savings], [cancel_transfer_from_savings] and
    [feed_publish] of chain/steem_evaluator.cpp, and
    [process_savings_withdraws] of chain/database.cpp. *)
From S2P Require Import Prelude Fc Config Asset Chainbase ChainbaseSpec Objects Database.
From S2P Require Import Supply Protocol Votes Ledger.

Section transfers.
Context {F : Fc}.

(** [FC_ASSERT( a >= b, msg )] *)
Definition assert_ge (a b : asset) (msg : string) : DB unit :=
  ok ← lift (asset_ge a b); assert ok msg.

Definition transfer_evaluator (o : transfer_operation) : DB unit :=
  from_account ← get_account (tr_from o);
  to_account ← get_account (tr_to o);
  now ← head_block_time;
  when (acc_active_challenged from_account)
    (modify (acc_id from_account) (λ a,
      Ok (set_acc_last_active_proved now (set_acc_active_challenged false a))));;
  from ← get account_object (acc_id from_account);
  bal ← lift (get_balance from (symbol (tr_amount o)));
  assert_ge bal (tr_amount o) "Account does not have sufficient funds for transfer.";;
  minus ← lift (asset_neg (tr_amount o));
  adjust_balance (acc_id from_account) minus;;
  adjust_balance (acc_id to_account) (tr_amount o).

Definition transfer_to_vesting_evaluator (o : transfer_to_vesting_operation) : DB unit :=
  from_account ← get_account (tv_from o);
  to_account ← (if negb (bool_decide (tv_to o = EmptyString)) then get_account (tv_to o)
                else mret from_account);
  bal ← lift (get_balance from_account STEEM_SYMBOL);
  assert_ge bal (tv_amount o) "Account does not have sufficient STEEM for transfer.";;
  minus ← lift (asset_neg (tv_amount o));
  adjust_balance (acc_id from_account) minus;;
  create_vesting (acc_id to_account) (tv_amount o) false;;
  mret tt.

Definition transfer_to_savings_evaluator (o : transfer_to_savings_operation) : DB unit :=
  from ← get_account (tts_from o);
  to ← get_account (tts_to o);
  bal ← lift (get_balance from (symbol (tts_amount o)));
  assert_ge bal (tts_amount o) "Account does not have sufficient funds to transfer to savings.";;
  minus ← lift (asset_neg (tts_amount o));
  adjust_balance (acc_id from) minus;;
  adjust_savings_balance (acc_id to) (tts_amount o).

Definition transfer_from_savings_evaluator (o : transfer_from_savings_operation) : DB unit :=
  from ← get_account (tfs_from o);
  get_account (tfs_to o);;
  assert (acc_savings_withdraw_requests from <? STEEMIT_SAVINGS_WITHDRAW_REQUEST_LIMIT)
    "Account has reached limit for pending withdraw requests.";;
  bal ← lift (get_savings_balance from (symbol (tfs_amount o)));
  assert_ge bal (tfs_amount o) "savings balance >= amount";;
  minus ← lift (asset_neg (tfs_amount o));
  adjust_savings_balance (acc_id from) minus;;
  now ← head_block_time;
  create savings_withdraw_object_default (λ s,
    set_sw_complete (time_add now STEEMIT_SAVINGS_WITHDRAW_TIME)
      (set_sw_request_id (tfs_request_id o)
        (set_sw_memo (tfs_memo o)
          (set_sw_amount (tfs_amount o)
            (set_sw_to (tfs_to o) (set_sw_from (tfs_from o) s))))));;
  modify (acc_id from) (λ a,
    Ok (set_acc_savings_withdraw_requests (to_uint8 (acc_savings_withdraw_requests a + 1)) a)).

Definition cancel_transfer_from_savings_evaluator
    (o : cancel_transfer_from_savings_operation) : DB unit :=
  swo ← get_savings_withdraw (cts_from o) (cts_request_id o);
  acc ← get_account (sw_from swo);
  adjust_savings_balance (acc_id acc) (sw_amount swo);;
  remove savings_withdraw_object (sw_id swo);;
  from ← get_account (cts_from o);
  modify (acc_id from) (λ a,
    Ok (set_acc_savings_withdraw_requests (to_uint8 (acc_savings_withdraw_requests a - 1)) a)).

(** One round of the loop of [process_savings_withdraws], for the request [itr]. *)
Definition process_savings_withdraw (itr : Z) : DB unit :=
  w ← get savings_withdraw_object itr;
  to ← get_account (sw_to w);
  adjust_balance (acc_id to) (sw_amount w);;
  from ← get_account (sw_from w);
  modify (acc_id from) (λ a,
    Ok (set_acc_savings_withdraw_requests (to_uint8 (acc_savings_withdraw_requests a - 1)) a));;
  push_virtual_operation (fill_transfer_from_savings_operation (sw_from w) (sw_to w)
    (sw_amount w) (sw_request_id w) (sw_memo w));;
  remove savings_withdraw_object itr.

(** The requests that are complete, in the order of [by_complete_from_rid].  Each
    round of the loop takes the first request and removes it, and adds none. *)
Definition savings_leb (x y : savings_withdraw_object) : bool :=
  (sw_complete x <? sw_complete y)
  || ((sw_complete x =? sw_complete y)
      && (String.ltb (sw_from x) (sw_from y)
          || (String.eqb (sw_from x) (sw_from y) && (sw_request_id x <=? sw_request_id y)))).
Definition due_savings (now : Z) : database → list savings_withdraw_object :=
  select (λ w, negb (now <? sw_complete w)) savings_leb.

Definition process_savings_withdraws : DB unit :=
  now ← head_block_time;
  ws ← gets (due_savings now);
  for_each (sw_id <$> ws) process_savings_withdraw.

Definition feed_publish_evaluator (o : feed_publish_operation) : DB unit :=
  witness ← get_witness (fp_publisher o);
  now ← head_block_time;
  modify (wit_id witness) (λ w,
    Ok (set_wit_last_sbd_exchange_update now (set_wit_sbd_exchange_rate (fp_exchange_rate o) w))).
End transfers.

(** ** Conservation *)

(** Closes a conservation proof: every step shifts the equations by what the
    others take back. *)
Ltac conserved :=
  shift_all; same_rows; (split; [done|]); let k := fresh "k" in intros k; at_kind k;
  inv_ok; inv_asset; inv_safe; subst; rewrite ?by_symbol_neg in *; try lia.

Section conservation.
Context {F : Fc}.

#[export] Instance assert_ge_conserves a b msg : Conserves (assert_ge a b msg).
Proof. unfold assert_ge. conserve. Qed.

#[export] Instance transfer_conserves o : Conserves (transfer_evaluator o).
Proof.
  intros db u db' Hdb H. unfold transfer_evaluator, assert_ge in H. inv_db; conserved; ledger k.
Qed.

Lemma transfer_to_vesting_conserves o :
  transfer_to_vesting_validate o = Ok tt → Conserves (transfer_to_vesting_evaluator o).
Proof.
  intros Hv. unfold transfer_to_vesting_validate, is_asset_type in Hv. inv_okb.
  intros db u db' Hdb H. unfold transfer_to_vesting_evaluator, assert_ge in H.
  destruct (negb _); inv_db; conserved; rewrite by_symbol_steem in * by done; destruct k; lia.
Qed.

#[export] Instance transfer_to_savings_conserves o : Conserves (transfer_to_savings_evaluator o).
Proof.
  intros db u db' Hdb H. unfold transfer_to_savings_evaluator, assert_ge in H. inv_db; conserved.
Qed.

#[export] Instance transfer_from_savings_conserves o : Conserves (transfer_from_savings_evaluator o).
Proof.
  intros db u db' Hdb H. unfold transfer_from_savings_evaluator, assert_ge in H.
  inv_db; conserved; ledger k.
Qed.

#[export] Instance cancel_transfer_from_savings_conserves o :
  Conserves (cancel_transfer_from_savings_evaluator o).
Proof.
  intros db u db' Hdb H. unfold cancel_transfer_from_savings_evaluator in H. inv_db. found.
  touched savings_withdraw_object. conserved. ledger k.
Qed.

#[export] Instance process_savings_withdraw_conserves i : Conserves (process_savings_withdraw i).
Proof.
  intros db u db' Hdb H. unfold process_savings_withdraw in H. inv_db.
  touched savings_withdraw_object. conserved. ledger k.
Qed.

#[export] Instance process_savings_withdraws_conserves : Conserves process_savings_withdraws.
Proof. unfold process_savings_withdraws. conserve. Qed.

#[export] Instance feed_publish_conserves o : Conserves (feed_publish_evaluator o).
Proof. unfold feed_publish_evaluator. conserve. Qed.
End conservation.
