(* ===== verification/Market.v ===== *)
(** * The internal market and conversions

    The order book of chain/database.cpp ([apply_order], [match], [fill_order],
    [cancel_order], [clear_expired_orders], [adjust_liquidity_reward]), the
    evaluators of [limit_order_create], [limit_order_create2],
    [limit_order_cancel] and [convert] of chain/steem_evaluator.cpp, and
    [process_conversions]. *)
From S2P Require Import Prelude Fc Config Asset Chainbase ChainbaseSpec Objects Database.
From S2P Require Import Supply Protocol Votes Ledger Genesis Transfers.

Section market.
Context {F : Fc}.

(** ** Orders *)
Definition amount_for_sale (o : limit_order_object) : asset :=
  Asset (lo_for_sale o) (symbol (base (lo_sell_price o))).
Definition amount_to_receive (o : limit_order_object) : result asset :=
  asset_mul (amount_for_sale o) (lo_sell_price o).

Definition cancel_order (order : Z) : DB unit :=
  o ← get limit_order_object order;
  seller ← get_account (lo_seller o);
  adjust_balance (acc_id seller) (amount_for_sale o);;
  remove limit_order_object order.

(** Returns whether the order is gone. *)
Definition fill_order (order : Z) (pays receives : asset) : DB bool :=
  o ← get limit_order_object order;
  assert (symbol (amount_for_sale o) =? symbol pays) "order.amount_for_sale().symbol == pays.symbol";;
  assert (negb (symbol pays =? symbol receives)) "pays.symbol != receives.symbol";;
  seller ← get_account (lo_seller o);
  adjust_balance (acc_id seller) receives;;
  if asset_eq pays (amount_for_sale o) then
    remove limit_order_object order;;
    mret true
  else
    modify order (λ b, x ← safe_sub (lo_for_sale b) (amount pays); mret (set_lo_for_sale x b));;
    o' ← get limit_order_object order;
    r ← lift (amount_to_receive o');
    if amount r =? 0 then cancel_order order;; mret true
    else mret false.

(** *** Liquidity rewards *)
Definition is_positive (r : liquidity_reward_balance_object) : Z :=
  if (0 <? lrb_steem_volume r) && (0 <? lrb_sbd_volume r) then 1 else 0.
Definition update_weight (hf9 : bool) (r : liquidity_reward_balance_object)
    : liquidity_reward_balance_object :=
  set_lrb_weight (u128_of_int64
    (if hf9 then to_int64 (Z.min (lrb_steem_volume r) (lrb_sbd_volume r) * is_positive r)
     else to_int64 (lrb_steem_volume r * lrb_sbd_volume r * is_positive r))) r.

Definition adjust_liquidity_reward (owner : Z) (volume : asset) (is_sdb : bool) : DB unit :=
  now ← head_block_time;
  hf10 ← has_hardfork 10; hf9 ← has_hardfork 9;
  itr ← find_by (λ r, lrb_owner r =? owner);
  match itr with
  | Some r0 =>
      modify (lrb_id r0) (λ r,
        let r1 := if STEEMIT_LIQUIDITY_TIMEOUT_SEC <=? now - lrb_last_update r
                  then set_lrb_weight 0 (set_lrb_steem_volume 0 (set_lrb_sbd_volume 0 r)) else r in
        let r2 := if is_sdb then set_lrb_sbd_volume (to_int64 (lrb_sbd_volume r1 + amount volume)) r1
                  else set_lrb_steem_volume (to_int64 (lrb_steem_volume r1 + amount volume)) r1 in
        Ok (set_lrb_last_update now (update_weight hf10 r2)))
  | None =>
      create liquidity_reward_balance_object_default (λ r,
        let r1 := set_lrb_owner owner r in
        let r2 := if is_sdb then set_lrb_sbd_volume (amount volume) r1
                  else set_lrb_steem_volume (amount volume) r1 in
        set_lrb_last_update now (update_weight hf9 r2));;
      mret tt
  end.

(** *** Matching *)

(** What the new order receives and what the old order receives, when they
    trade at the price of the old order. *)
Definition trade (new_for_sale old_for_sale : asset) (match_price : price)
    : result (asset * asset) :=
  c ← asset_mul old_for_sale match_price;
  le ← asset_le new_for_sale c;
  if (le : bool) then
    r ← asset_mul new_for_sale match_price; mret (r, new_for_sale)
  else
    r ← asset_mul old_for_sale match_price; mret (old_for_sale, r).

Definition match_orders (new_order old_order : Z) (match_price : price) : DB Z :=
  n ← get limit_order_object new_order;
  o ← get limit_order_object old_order;
  '(new_order_receives, old_order_receives) ←
    lift (trade (amount_for_sale n) (amount_for_sale o) match_price);
  let old_order_pays := new_order_receives in
  let new_order_pays := old_order_receives in
  now ← head_block_time;
  let age := now - lo_created o in
  hf12 ← has_hardfork 12; hf10 ← has_hardfork 10;
  when (negb hf12
        && (((STEEMIT_MIN_LIQUIDITY_REWARD_PERIOD_SEC <=? age) && negb hf10)
            || ((STEEMIT_MIN_LIQUIDITY_REWARD_PERIOD_SEC_HF10 <=? age) && hf10)))
    (old_seller ← get_account (lo_seller o);
     new_seller ← get_account (lo_seller n);
     if symbol old_order_receives =? STEEM_SYMBOL then
       adjust_liquidity_reward (acc_id old_seller) old_order_receives false;;
       minus ← lift (asset_neg old_order_receives);
       adjust_liquidity_reward (acc_id new_seller) minus false
     else
       adjust_liquidity_reward (acc_id old_seller) new_order_receives true;;
       minus ← lift (asset_neg new_order_receives);
       adjust_liquidity_reward (acc_id new_seller) minus true);;
  push_virtual_operation (fill_order_operation (lo_seller n) (lo_orderid n) new_order_pays
    (lo_seller o) (lo_orderid o) old_order_pays);;
  b1 ← fill_order new_order new_order_pays new_order_receives;
  b2 ← fill_order old_order old_order_pays old_order_receives;
  mret (Z.lor (if (b1 : bool) then 1 else 0) (Z.shiftl (if (b2 : bool) then 1 else 0) 1)).

(** The order of [by_price]: the best price first, then the oldest order. *)
Definition by_price_leb (x y : limit_order_object) : bool :=
  price_gt (lo_sell_price x) (lo_sell_price y)
  || (negb (price_gt (lo_sell_price y) (lo_sell_price x)) && (lo_id x <=? lo_id y)).

(** The orders from [lower_bound( max_price.max() )] to
    [upper_bound( max_price )]. *)
Definition matching_orders (max_price top : price) : database → list limit_order_object :=
  select (λ o, negb (price_gt (lo_sell_price o) top) && negb (price_gt max_price (lo_sell_price o)))
    by_price_leb.

(** [while( !finished && limit_itr != limit_end )] *)
Fixpoint match_loop (new_order : Z) (l : list Z) : DB unit :=
  match l with
  | [] => mret tt
  | old :: l' =>
      o ← get limit_order_object old;
      r ← match_orders new_order old (lo_sell_price o);
      if Z.land r 1 =? 0 then match_loop new_order l' else mret tt
  end.

Definition apply_order (order : Z) : DB bool :=
  o ← get limit_order_object order;
  let max_price := price_inv (lo_sell_price o) in
  top ← lift (price_max (symbol (base max_price)) (symbol (quote max_price)));
  l ← gets (matching_orders max_price top);
  match_loop order (lo_id <$> l);;
  gets (λ db, bool_decide (trows (A := limit_order_object) db !! order = None)).

(** *** Expiration *)
Definition expired_orders (now : Z) : database → list limit_order_object :=
  select (λ o, lo_expiration o <? now) (λ x y, lo_expiration x <=? lo_expiration y).

(** Each round cancels the first order; the order among orders that expire at
    the same time is not specified by the index. *)
Definition clear_expired_orders : DB unit :=
  now ← head_block_time;
  l ← gets (expired_orders now);
  for_each (lo_id <$> l) cancel_order.

(** *** Evaluators *)
Definition create_order (owner : Z) (seller : string) (orderid : Z) (sell : asset) (p : price)
    (expiration : Z) (fill_or_kill : bool) : DB unit :=
  minus ← lift (asset_neg sell);
  adjust_balance owner minus;;
  now ← head_block_time;
  order ← create limit_order_object_default (λ o,
    set_lo_expiration expiration
      (set_lo_sell_price p
        (set_lo_for_sale (amount sell)
          (set_lo_orderid orderid (set_lo_seller seller (set_lo_created now o))))));
  filled ← apply_order order;
  when fill_or_kill (assert filled "Cancelling order because it was not filled.").

Definition limit_order_create_evaluator (o : limit_order_create_operation) : DB unit :=
  now ← head_block_time;
  assert (now <? loc_expiration o) "Limit order has to expire after head block time.";;
  owner ← get_account (loc_owner o);
  bal ← lift (get_balance owner (symbol (loc_amount_to_sell o)));
  assert_ge bal (loc_amount_to_sell o) "Account does not have sufficient funds for limit order.";;
  p ← lift (limit_order_get_price o);
  create_order (acc_id owner) (loc_owner o) (loc_orderid o) (loc_amount_to_sell o) p
    (loc_expiration o) (loc_fill_or_kill o).

Definition limit_order_create2_evaluator (o : limit_order_create2_operation) : DB unit :=
  now ← head_block_time;
  assert (now <? lo2_expiration o) "Limit order has to expire after head block time.";;
  owner ← get_account (lo2_owner o);
  bal ← lift (get_balance owner (symbol (lo2_amount_to_sell o)));
  assert_ge bal (lo2_amount_to_sell o) "Account does not have sufficient funds for limit order.";;
  create_order (acc_id owner) (lo2_owner o) (lo2_orderid o) (lo2_amount_to_sell o)
    (lo2_exchange_rate o) (lo2_expiration o) (lo2_fill_or_kill o).

Definition limit_order_cancel_evaluator (o : limit_order_cancel_operation) : DB unit :=
  order ← get_limit_order (lc_owner o) (lc_orderid o);
  cancel_order (lo_id order).

(** ** Conversions *)
Definition convert_evaluator (o : convert_operation) : DB unit :=
  owner ← get_account (co_owner o);
  bal ← lift (get_balance owner (symbol (co_amount o)));
  assert_ge bal (co_amount o) "Account does not have sufficient balance for conversion.";;
  minus ← lift (asset_neg (co_amount o));
  adjust_balance (acc_id owner) minus;;
  median ← current_median_history;
  assert (negb (price_is_null median)) "Cannot convert SBD because there is no price feed.";;
  now ← head_block_time;
  create convert_request_object_default (λ r,
    set_cr_conversion_date (time_add now STEEMIT_CONVERSION_DELAY)
      (set_cr_amount (co_amount o)
        (set_cr_requestid (co_requestid o) (set_cr_owner (co_owner o) r))));;
  mret tt.

(** One round of the loop of [process_conversions]. *)
Definition process_conversion (median : price) (net : asset * asset) (itr : Z)
    : DB (asset * asset) :=
  r ← get convert_request_object itr;
  user ← get_account (cr_owner r);
  amount_to_issue ← lift (asset_mul (cr_amount r) median);
  adjust_balance (acc_id user) amount_to_issue;;
  net_sbd ← lift (asset_add net.1 (cr_amount r));
  net_steem ← lift (asset_add net.2 amount_to_issue);
  push_virtual_operation (fill_convert_request_operation (acc_name user) (cr_requestid r)
    (cr_amount r) amount_to_issue);;
  remove convert_request_object itr;;
  mret (net_sbd, net_steem).

Definition due_conversions (now : Z) : database → list convert_request_object :=
  select (λ r, cr_conversion_date r <=? now)
    (λ x y, (cr_conversion_date x <? cr_conversion_date y)
            || ((cr_conversion_date x =? cr_conversion_date y) && (cr_id x <=? cr_id y))).

Definition process_conversions : DB unit :=
  now ← head_block_time;
  median ← current_median_history;
  if price_is_null median then mret tt
  else
    l ← gets (due_conversions now);
    net ← fold_m (cr_id <$> l) (process_conversion median)
            (Asset 0 SBD_SYMBOL, Asset 0 STEEM_SYMBOL);
    modify_gpo (λ p,
      s ← asset_add (gpo_current_supply p) net.2;
      d ← asset_sub (gpo_current_sbd_supply p) net.1;
      v1 ← asset_add (gpo_virtual_supply p) net.2;
      c ← asset_mul net.1 median;
      v2 ← asset_sub v1 c;
      mret (set_gpo_virtual_supply v2 (set_gpo_current_sbd_supply d (set_gpo_current_supply s p)))).
End market.

(** ** Conservation *)
Section conservation.
Context {F : Fc}.

#[export] Instance cancel_order_conserves i : Conserves (cancel_order i).
Proof.
  intros db u db' Hdb H. unfold cancel_order in H. inv_db. touched limit_order_object.
  conserved. unfold amount_for_sale in *. ledger k.
Qed.

(** Filling an order trades what it pays for what it receives. *)
#[export] Instance fill_order_shifts i pays receives :
  Shifts (fill_order i pays receives) (λ k, by_symbol k pays - by_symbol k receives).
Proof.
  intros db b db' Hdb H. unfold fill_order in H. inv_db.
  match goal with H : (if ?c then _ else _) _ = _ |- _ => destruct c eqn:Heq; inv_db end.
  - touched limit_order_object. conserved. apply asset_eq_true in Heq as ->.
    unfold amount_for_sale in *. ledger k.
  - bool_simpl. unfold amount_for_sale in *. cbn [symbol] in *.
    touched limit_order_object.
    match goal with H : (if ?c then _ else _) _ = _ |- _ => destruct c; inv_db end;
      conserved; unfold weight, order_weight in *; cbn in *;
      match goal with E : symbol (base _) = symbol pays |- _ => rewrite !E, by_symbol_sub in * end;
      lia.
Qed.

#[export] Instance adjust_liquidity_reward_conserves a v b :
  Conserves (adjust_liquidity_reward a v b).
Proof. unfold adjust_liquidity_reward. conserve. Qed.

#[export] Instance match_orders_conserves n o p : Conserves (match_orders n o p).
Proof.
  intros db b db' Hdb H. unfold match_orders in H. inv_db; destruct_pair; inv_db;
    repeat match goal with H : (if ?c then _ else _) _ = _ |- _ => destruct c; inv_db end; conserved.
Qed.

#[export] Instance match_loop_conserves n l : Conserves (match_loop n l).
Proof. induction l; simpl; conserve. Qed.

#[export] Instance apply_order_conserves i : Conserves (apply_order i).
Proof. unfold apply_order. conserve. Qed.

#[export] Instance clear_expired_orders_conserves : Conserves clear_expired_orders.
Proof. unfold clear_expired_orders. conserve. Qed.

(** The order holds what was taken from the balance. *)
Lemma create_order_conserves owner seller oid sell p e fk :
  symbol sell = symbol (base p) → Conserves (create_order owner seller oid sell p e fk).
Proof.
  intros Hs db u db' Hdb H. unfold create_order in H. inv_db; conserved;
    unfold weight, order_weight in *; cbn in *; rewrite <- Hs in *; destruct sell; cbn in *; lia.
Qed.

#[export] Instance limit_order_create_conserves o : Conserves (limit_order_create_evaluator o).
Proof.
  intros db u db' Hdb H. unfold limit_order_create_evaluator, assert_ge in H. inv_db.
  unfold limit_order_get_price, asset_div in *. inv_ok.
  eapply create_order_conserves; [|done..]. done.
Qed.

Lemma limit_order_create2_conserves o :
  limit_order_create2_validate o = Ok tt → Conserves (limit_order_create2_evaluator o).
Proof.
  intros Hv. unfold limit_order_create2_validate in Hv. inv_okb.
  unfold limit_order_create2_evaluator. conserve. by apply create_order_conserves.
Qed.

#[export] Instance limit_order_cancel_conserves o : Conserves (limit_order_cancel_evaluator o).
Proof. unfold limit_order_cancel_evaluator. conserve. Qed.

#[export] Instance convert_conserves o : Conserves (convert_evaluator o).
Proof.
  intros db u db' Hdb H. unfold convert_evaluator, assert_ge in H. inv_db; conserved; ledger k.
Qed.

(** What a conversion takes from the requests and issues is added to the net
    amounts. *)
Definition net_shift (net net' : asset * asset) (db db' : database) : Prop :=
  db_wf db' ∧ symbol net'.1 = symbol net.1 ∧ symbol net'.2 = symbol net.2 ∧
  ∀ k, imb k db' = imb k db + (by_symbol k net'.1 - by_symbol k net.1)
                   - (by_symbol k net'.2 - by_symbol k net.2).

Lemma process_conversion_imb median net i db net' db' :
  db_wf db → process_conversion median net i db = Ok (net', db') → net_shift net net' db db'.
Proof.
  intros Hdb H. unfold process_conversion in H. inv_db. touched convert_request_object.
  shift_all. same_rows. inv_asset. subst. split; [done|]. split; [done|]. split; [done|].
  intros k. at_kind k. cbn [fst snd]. rewrite !by_symbol_add by done. ledger_eq.
Qed.

Lemma process_conversion_loop median l net db net' db' :
  db_wf db → fold_m l (process_conversion median) net db = Ok (net', db') →
  net_shift net net' db db'.
Proof.
  revert net db. induction l as [|i l IH]; intros net db Hdb; cbn [fold_m].
  - intros H. inv_ok. split_and!; try done. intros k. lia.
  - intros (net1 & s & Hi & Hl)%bind_ok.
    apply process_conversion_imb in Hi as (Hs & E1 & E2 & HI); [|done].
    apply IH in Hl as (Hs' & E1' & E2' & HI'); [|done].
    split_and!; [done|congruence..|]. intros k. rewrite HI', HI. lia.
Qed.

#[export] Instance process_conversions_conserves : Conserves process_conversions.
Proof.
  intros db u db' Hdb H. unfold process_conversions in H. inv_db.
  match goal with H : (if ?c then _ else _) _ = _ |- _ => destruct c; inv_db end.
  { split; [done|]. intros k. lia. }
  match goal with H : fold_m _ _ _ _ = _ |- _ =>
    apply process_conversion_loop in H as (Hs & E1 & E2 & HI); [|done] end.
  shift_all. split; [done|]. intros k. at_kind k. inv_ok. inv_asset. subst.
  cbn [fst snd symbol amount] in *. rewrite !(by_symbol_sbd k) in HI by done.
  rewrite !(by_symbol_steem k) in HI by done. ledger k.
Qed.
End conservation.

#[global] Typeclasses Opaque cancel_order fill_order adjust_liquidity_reward match_orders match_loop
  apply_order clear_expired_orders create_order limit_order_create_evaluator
  limit_order_create2_evaluator limit_order_cancel_evaluator convert_evaluator process_conversions.

(** ** The order book *)
Section book.
Context {F : Fc}.

Definition orders (db : database) : gmap Z limit_order_object := trows db.

Lemma keeps_orders {A} (m : DB A) `{Hk : !Keeps (tbl (A := limit_order_object)) m} db a db' :
  m db = Ok (a, db') → orders db' = orders db.
Proof. unfold orders, trows. intros Hm. by rewrite (Hk _ _ _ Hm). Qed.

Lemma remove_orders i db u db' :
  remove limit_order_object i db = Ok (u, db') → orders db' = delete i (orders db).
Proof. by intros (x & _ & ->)%remove_ok. Qed.

Lemma cancel_order_orders i db u db' :
  cancel_order i db = Ok (u, db') → orders db' = delete i (orders db).
Proof.
  unfold cancel_order. intros H. inv_db.
  match goal with H : remove _ _ _ = _ |- _ => apply remove_orders in H as -> end.
  match goal with H : adjust_balance _ _ _ = _ |- _ =>
    by rewrite (keeps_orders _ _ _ _ H) end.
Qed.

(** An order that is filled leaves the book; else only its amount changes. *)
Lemma fill_order_orders i pays receives db b db' :
  db_wf db → fill_order i pays receives db = Ok (b, db') →
  ∃ o, orders db !! i = Some o ∧
  (pays = amount_for_sale o → b = true) ∧
  if b then orders db' = delete i (orders db)
  else ∃ x, orders db' = <[i := set_lo_for_sale x o]> (orders db).
Proof.
  intros Hdb H. unfold fill_order in H. inv_db. exists a. split; [done|].
  match goal with H : adjust_balance _ _ _ = _ |- _ =>
    pose proof (keeps_orders _ _ _ _ H) as Hkeep end.
  match goal with H : (if ?c then _ else _) _ = _ |- _ => destruct c eqn:Heq; inv_db end.
  { split; [done|].
    match goal with H : remove _ _ _ = _ |- _ => apply remove_orders in H as -> end.
    by rewrite Hkeep. }
  split; [intros ->; by rewrite (proj2 (asset_eq_true _ _) eq_refl) in Heq|].
  match goal with H : modify _ _ ?s = Ok (_, ?s') |- _ =>
    apply modify_ok in H as (x & y & m & Hx & Hf & Hmod & ->);
    change (orders s !! i = Some x) in Hx; change (trows s) with (orders s) in Hmod end.
  rewrite Hkeep in Hx, Hmod. inv_ok.
  assert (x = a) as -> by (unfold orders in *; congruence).
  apply container_modify_Some in Hmod as [_ ->];
    [|exact (row_id_at db i a Hdb Hx)].
  match goal with H : (if ?c then _ else _) _ = _ |- _ => destruct c; inv_db end; [|by eexists].
  match goal with H : cancel_order _ _ = _ |- _ => apply cancel_order_orders in H as -> end.
  change (delete i (<[i:=set_lo_for_sale a0 a]> (orders db)) = delete i (orders db)).
  by rewrite delete_insert_eq.
Qed.

(** Nothing is added to the book, and prices stay. *)
Definition shrinks (db db' : database) : Prop :=
  ∀ j y, orders db' !! j = Some y →
    ∃ x, orders db !! j = Some x ∧ lo_sell_price y = lo_sell_price x.

Lemma shrinks_trans db1 db2 db3 : shrinks db1 db2 → shrinks db2 db3 → shrinks db1 db3.
Proof.
  intros H1 H2 j y (x & Hx & E)%H2. apply H1 in Hx as (w & Hw & E'). exists w. by rewrite E, E'.
Qed.

Lemma fill_order_shrinks i pays receives db b db' :
  db_wf db → fill_order i pays receives db = Ok (b, db') → shrinks db db'.
Proof.
  intros Hdb H. apply fill_order_orders in H as (o & Ho & _ & Hb); [|done]. intros j y Hj.
  destruct b; [|destruct Hb as [x Hb]]; rewrite Hb in Hj.
  - apply lookup_delete_Some in Hj as [_ Hj]. eauto.
  - apply lookup_insert_Some in Hj as [[<- <-]|[_ Hj]]; eauto.
Qed.

(** The liquidity bookkeeping does not touch the orders. *)
#[export] Instance adjust_liquidity_reward_keeps a v b :
  Keeps (tbl (A := limit_order_object)) (adjust_liquidity_reward a v b).
Proof. unfold adjust_liquidity_reward. keep. Qed.

Lemma trade_fills n o p nr or :
  trade n o p = Ok (nr, or) → or = n ∨ nr = o.
Proof. unfold trade. intros H. inv_ok. case_match; inv_ok; simplify_eq; auto. Qed.

Lemma shrinks_eq db db' : orders db' = orders db → shrinks db db'.
Proof. unfold shrinks. intros ->. eauto. Qed.

Lemma shrinks_None db db' j : shrinks db db' → orders db !! j = None → orders db' !! j = None.
Proof.
  intros Hs Hj. destruct (orders db' !! j) eqn:E; [|done]. apply Hs in E as (x & Hx & _). congruence.
Qed.

(** A match fills at least one of its orders: bit 0 of the result is the new
    order, and when it is not set the old order has left the book. *)
Lemma match_orders_fills n o p db r db' :
  db_wf db → n ≠ o → match_orders n o p db = Ok (r, db') →
  shrinks db db' ∧ (Z.land r 1 = 0 → orders db' !! o = None) ∧
  (Z.land r 1 ≠ 0 → orders db' !! n = None).
Proof.
  intros Hdb Hne H. unfold match_orders in H.
  apply bind_ok in H as (no & s & [-> Hn]%get_ok & H).
  apply bind_ok in H as (oo & s & [-> Ho]%get_ok & H).
  apply bind_ok in H as ([nr or] & s & [Ht ->]%lift_ok & H). apply trade_fills in Ht.
  apply bind_ok in H as (? & s & [-> ->]%gets_ok & H).
  apply bind_ok in H as (? & s & [-> ->]%gets_ok & H).
  apply bind_ok in H as (? & s & [-> ->]%gets_ok & H).
  apply bind_ok in H as ([] & s1 & Hliq & H).
  apply bind_ok in H as ([] & s2 & Hpush & H).
  assert (db_wf s1 ∧ orders s1 = orders db) as [Hs1 E1].
  { split.
    - refine (proj1 (shifts_run (δ := λ _, 0) _ _ _ Hdb Hliq)). conserve.
    - refine (keeps_orders (Hk := _) _ _ _ _ Hliq). keep. }
  assert (db_wf s2 ∧ orders s2 = orders db) as [Hs2 E2].
  { apply push_virtual_operation_ok in Hpush as ->. by rewrite <- E1. }
  apply bind_ok in H as (b1 & s3 & Hf1 & H). apply bind_ok in H as (b2 & s4 & Hf2 & H).
  apply ret_ok in H as [-> ->].
  assert (db_wf s3) as Hs3 by exact (proj1 (shifts_run _ _ _ Hs2 Hf1)).
  pose proof (fill_order_shrinks _ _ _ _ _ _ Hs2 Hf1) as Hsh1.
  pose proof (fill_order_shrinks _ _ _ _ _ _ Hs3 Hf2) as Hsh2.
  apply fill_order_orders in Hf1 as (no' & Hn' & Hfull1 & Hb1); [|done].
  apply fill_order_orders in Hf2 as (oo' & Ho' & Hfull2 & Hb2); [|done].
  change (orders db !! n = Some no) in Hn. change (orders db !! o = Some oo) in Ho.
  rewrite E2 in Hn', Hb1. assert (no' = no) as -> by congruence.
  assert (orders s3 !! o = orders db !! o) as Eo.
  { destruct b1; [|destruct Hb1 as [x Hb1]]; rewrite Hb1;
      [by rewrite lookup_delete_ne|by rewrite lookup_insert_ne]. }
  assert (oo' = oo) as -> by congruence. split_and!.
  - eapply shrinks_trans; [by apply shrinks_eq|]. by eapply shrinks_trans.
  - intros Hr. destruct b1; [by destruct b2|].
    assert (b2 = true) as ->; [|rewrite Hb2; apply lookup_delete_eq].
    destruct Ht as [-> | ->]; [|by apply Hfull2]. by discriminate Hfull1.
  - intros Hr. destruct b1; [|by destruct b2]. eapply shrinks_None; [done|].
    rewrite Hb1. apply lookup_delete_eq.
Qed.

(** A loop that does not fill the new order empties its list of matches. *)
Lemma match_loop_fills n l db u db' :
  db_wf db → n ∉ l → match_loop n l db = Ok (u, db') →
  shrinks db db' ∧ (orders db' !! n ≠ None → ∀ j, j ∈ l → orders db' !! j = None).
Proof.
  revert db. induction l as [|o l IH]; intros db Hdb Hn; cbn [match_loop].
  { intros H. inv_ok. split; [by apply shrinks_eq|]. intros _ j Hj. by apply not_elem_of_nil in Hj. }
  intros (oo & s & [-> _]%get_ok & H)%bind_ok. apply bind_ok in H as (r & s & Hm & H).
  assert (db_wf s) as Hs by exact (proj1 (shifts_run _ _ _ Hdb Hm)).
  apply not_elem_of_cons in Hn as [Hno Hnl].
  apply match_orders_fills in Hm as (Hsh & Hr & Hnew); [|done..].
  destruct (Z.eqb_spec (Z.land r 1) 0) as [E|E].
  - apply IH in H as [Hsh' Hl]; [|done..]. split; [by eapply shrinks_trans|].
    intros Hsome j [->|Hj]%elem_of_cons; [|by apply Hl].
    eapply shrinks_None; [done|]. by apply Hr.
  - inv_ok. split; [done|]. intros Hsome. by destruct Hsome, Hnew.
Qed.

(** [o] is in the range that [apply_order] visits for an order at price [p]. *)
Definition crosses (p top : price) (o : limit_order_object) : bool :=
  negb (price_gt (lo_sell_price o) top) && negb (price_gt (price_inv p) (lo_sell_price o)).

(** An order sells what the orders it crosses buy: it does not cross itself. *)
Lemma no_self_cross (p top : price) o :
  symbol (base p) ≠ symbol (quote p) → symbol (base top) = symbol (quote p) →
  lo_sell_price o = p → crosses p top o = false.
Proof.
  intros Hne Htop E. unfold crosses, price_gt, price_le, price_eq, price_lt, price_inv.
  rewrite E. cbn [base quote]. rewrite Htop.
  destruct (Z.ltb_spec (symbol (base p)) (symbol (quote p))),
    (Z.ltb_spec (symbol (quote p)) (symbol (base p))); try lia;
    rewrite ?(proj2 (Z.eqb_neq (symbol (base p)) (symbol (quote p)))) by done;
    rewrite ?(proj2 (Z.eqb_neq (symbol (quote p)) (symbol (base p)))) by done; cbn; try done.
Qed.

Lemma price_max_base b q p : price_max b q = Ok p → symbol (base p) = b.
Proof. unfold price_max, asset_div. intros H. inv_ok. done. Qed.

(** C28: after [apply_order] the book is not crossed: it returns whether the new
    order is gone, and when the order stays, no order that it could trade with
    is left in the book. *)
Theorem apply_order_uncrosses i o db b db' :
  db_wf db → orders db !! i = Some o →
  symbol (base (lo_sell_price o)) ≠ symbol (quote (lo_sell_price o)) →
  apply_order i db = Ok (b, db') →
  (b = true ↔ orders db' !! i = None) ∧
  (b = false → ∀ top j y,
     price_max (symbol (quote (lo_sell_price o))) (symbol (base (lo_sell_price o))) = Ok top →
     orders db' !! j = Some y → crosses (lo_sell_price o) top y = false).
Proof.
  intros Hdb Ho Hne H. unfold apply_order in H.
  apply bind_ok in H as (o' & s & [-> Ho']%get_ok & H).
  assert (o' = o) as -> by (unfold orders in Ho; congruence).
  apply bind_ok in H as (top & s & [Htop ->]%lift_ok & H).
  apply bind_ok in H as (l & s & [-> ->]%gets_ok & H).
  apply bind_ok in H as ([] & s & Hloop & [-> ->]%gets_ok).
  set (l := matching_orders _ _ _) in *.
  assert (∀ x, x ∈ l ↔ crosses (lo_sell_price o) top x = true ∧
            ∃ j, orders db !! j = Some x) as Hl by (intros x; apply select_elem).
  assert (i ∉ lo_id <$> l) as Hi.
  { intros (x & -> & [Hc [j Hj]]%Hl)%list_elem_of_fmap.
    pose proof (row_id_at db j x Hdb Hj) as <-. change (obj_id x) with (lo_id x) in Hj.
    assert (x = o) as -> by congruence.
    rewrite (no_self_cross _ top o) in Hc; [done|done| |done]. by eapply price_max_base. }
  apply match_loop_fills in Hloop as [Hsh Hgone]; [|done..].
  change (trows s) with (orders s). split; [by rewrite bool_decide_eq_true|].
  intros Hb%bool_decide_eq_false top' j y Htop' Hy. cbn [price_inv base quote] in Htop.
  assert (top' = top) as -> by congruence.
  destruct (crosses (lo_sell_price o) top y) eqn:Hc; [|done].
  destruct (Hsh j y Hy) as (x & Hx & E).
  rewrite (Hgone Hb j) in Hy; [done|]. apply list_elem_of_fmap. exists x.
  split; [by rewrite <- (row_id_at db j x Hdb Hx)|]. apply Hl. split; [|eauto].
  unfold crosses in *. by rewrite <- E.
Qed.
End book.

(** ** The terms of a trade *)
Section terms.
Context {F : Fc}.

(** C29: two orders trade within their amounts and at the price of the old
    order: one of them is filled, what the other receives is the exact
    conversion rounded down, and neither pays more than it offers. *)
Theorem trade_terms n o p nn no :
  price_ok p → symbol o = symbol (base p) → symbol n = symbol (quote p) →
  symbol_name o = Ok no → symbol_name n = Ok nn → nn ≠ no →
  0 ≤ amount n ≤ INT64_MAX → 0 ≤ amount o ≤ INT64_MAX →
  amount o * amount (quote p) / amount (base p) ≤ INT64_MAX →
  ∃ nr or, trade n o p = Ok (nr, or) ∧
    symbol nr = symbol o ∧ symbol or = symbol n ∧
    0 ≤ amount nr ≤ amount o ∧ 0 ≤ amount or ≤ amount n ∧
    ((or = n ∧ amount nr = amount n * amount (base p) / amount (quote p)) ∨
     (nr = o ∧ amount or = amount o * amount (quote p) / amount (base p))).
Proof.
  intros [[Hb Hb'] [Hq Hq']] Eo En Hno Hnn Hne Hn Ho Hfit.
  set (c := amount o * amount (quote p) / amount (base p)) in *.
  assert (0 ≤ c) by (apply Z.div_pos; nia).
  assert (amount (base p) * c ≤ amount o * amount (quote p)) by (apply Z.mul_div_le; lia).
  assert (asset_mul o p = Ok (Asset c (symbol (quote p)))) as Hc.
  { rewrite (asset_mul_base o p no); [|done|by rewrite (symbol_name_sym _ o)].
    apply convert_amount_spec; unfold pos_amount; lia. }
  unfold trade. rewrite Hc. rsimpl. unfold asset_le, asset_lt. cbn [symbol amount].
  destruct (asset_eq n (Asset c (symbol (quote p)))) eqn:Eq; rsimpl.
  2: rewrite (proj2 (Z.eqb_eq _ _) En); rsimpl; destruct (Z.ltb_spec (amount n) c); rsimpl.
  3: { assert (amount n ≠ c).
       { intros E. apply not_true_iff_false in Eq. apply Eq, asset_eq_true.
         destruct n; cbn in *; congruence. }
       eexists _, _. split; [done|]. cbn [symbol amount]. split_and!; try done; try lia. by right. }
  all: assert (amount n ≤ c) by (try (apply asset_eq_true in Eq as ->; cbn); lia).
  all: set (x := amount n * amount (base p) / amount (quote p)).
  all: assert (0 ≤ x) by (apply Z.div_pos; nia).
  all: assert (x ≤ amount o) by (apply Z.div_le_upper_bound; nia).
  all: assert (asset_mul n p = Ok (Asset x (symbol (base p)))) as ->.
  1,3: rewrite (asset_mul_quote n p nn no);
      [|done|by rewrite (symbol_name_sym _ o)|done|by rewrite (symbol_name_sym _ n)];
      apply convert_amount_spec; unfold pos_amount; fold x; lia.
  all: rsimpl; eexists _, _; split; [done|]; cbn [symbol amount]; split_and!; try done; try lia; by left.
Qed.
End terms.

(** ** The theorems on a small book *)
#[local] Existing Instance fc_model.

(** [alice] sells 100 STEEM at 2 STEEM a dollar, [bob] 30 dollars at 1.5 STEEM a
    dollar. *)
Definition small_order (seller : string) (id for_sale : Z) (p : price) : DB Z :=
  create limit_order_object_default (λ o,
    set_lo_sell_price p (set_lo_for_sale for_sale (set_lo_seller seller (set_lo_orderid id o)))).
Definition small_book : DB unit :=
  create account_object_default (set_acc_name "alice");;
  create account_object_default (set_acc_name "bob");;
  small_order "alice" 1 100 (Price (Asset 2 STEEM_SYMBOL) (Asset 1 SBD_SYMBOL));;
  small_order "bob" 1 30 (Price (Asset 2 SBD_SYMBOL) (Asset 3 STEEM_SYMBOL));;
  mret tt.
Definition run_state {A} (m : DB A) (db : database) : database :=
  match m db with Ok (_, db') => db' | Throw _ => db end.

Lemma small_book_wf : db_wf (run_state small_book (genesis 1000)).
Proof.
  assert (∀ db u db', db_wf db → small_book db = Ok (u, db') → db_wf db') as Hbook.
  { intros db u db' Hdb H. unfold small_book, small_order in H. inv_db. shift_all. done. }
  pose proof (genesis_wf 1000) as Hdb. revert Hdb. generalize (genesis 1000). intros db Hdb.
  unfold run_state. destruct (small_book db) as [[u db']|e] eqn:E; [by eapply Hbook|done].
Qed.

Lemma apply_order_uncrosses_witness :
  ∃ b db', apply_order 1 (run_state small_book (genesis 1000)) = Ok (b, db') ∧
    (b = true ↔ orders db' !! 1 = None).
Proof.
  destruct (apply_order 1 (run_state small_book (genesis 1000))) as [[b db']|e] eqn:H.
  2: { exfalso. cut (is_ok (apply_order 1 (run_state small_book (genesis 1000))) = true);
       [by rewrite H|]. vm_compute. reflexivity. }
  exists b, db'. split; [done|].
  eapply (apply_order_uncrosses 1); [apply small_book_wf|vm_compute; reflexivity|done|exact H].
Defined.

Lemma trade_terms_witness :
  ∃ nr or, trade (Asset 30 SBD_SYMBOL) (Asset 100 STEEM_SYMBOL)
             (Price (Asset 2 STEEM_SYMBOL) (Asset 1 SBD_SYMBOL)) = Ok (nr, or) ∧
    amount nr ≤ 100 ∧ amount or ≤ 30.
Proof.
  destruct (trade_terms (Asset 30 SBD_SYMBOL) (Asset 100 STEEM_SYMBOL)
    (Price (Asset 2 STEEM_SYMBOL) (Asset 1 SBD_SYMBOL)) [83; 66; 68] [83; 84; 69; 69; 77])
    as (nr & or & Ht & _ & _ & Hn & Ho & _);
    try done; [by vm_compute..|]. exists nr, or. split; [exact Ht|]. cbn in Hn, Ho. lia.
Defined.
