(* ===== verification/Inflation.v ===== *)
(** * The creation of new STEEM

    [process_funds], the rewards per block of chain/compound.hpp with their
    minima, [pay_reward_funds] and [pay_liquidity_reward] of
    chain/database.cpp. *)
From S2P Require Import Prelude Fc Config Asset Chainbase ChainbaseSpec Objects Database.
From S2P Require Import Names Supply Protocol Votes Ledger Rewards Genesis Transfers Market.

Section inflation.
Context {F : Fc}.

(** [std::max( percent, minimum )] *)
Definition asset_max (a b : asset) : result asset :=
  lt ← asset_lt a b; mret (if (lt : bool) then b else a).
Definition at_least (minimum : Z) (percent : result Z) : result asset :=
  p ← percent; asset_max (Asset p STEEM_SYMBOL) (Asset minimum STEEM_SYMBOL).
Definition virtual_amount (g : dynamic_global_property_object) : Z := amount (gpo_virtual_supply g).

Definition get_liquidity_reward : DB asset :=
  hf12 ← has_hardfork 12;
  if (hf12 : bool) then mret (Asset 0 STEEM_SYMBOL)
  else
    props ← get_dynamic_global_properties;
    lift (at_least STEEMIT_MIN_LIQUIDITY_REWARD
            (calc_percent_reward_per_hour STEEMIT_LIQUIDITY_APR_PERCENT (virtual_amount props))).

Definition get_content_reward : DB asset :=
  props ← get_dynamic_global_properties;
  lift (at_least STEEMIT_MIN_CONTENT_REWARD
          (calc_percent_reward_per_block STEEMIT_CONTENT_APR_PERCENT (virtual_amount props))).

Definition get_curation_reward : DB asset :=
  props ← get_dynamic_global_properties;
  lift (at_least STEEMIT_MIN_CURATE_REWARD
          (calc_percent_reward_per_block STEEMIT_CURATE_APR_PERCENT (virtual_amount props))).

(** Unlike the others it pays what it computes. *)
Definition get_producer_reward : DB asset :=
  props ← get_dynamic_global_properties;
  pay ← lift (at_least STEEMIT_MIN_PRODUCER_REWARD
                (calc_percent_reward_per_block STEEMIT_PRODUCER_APR_PERCENT (virtual_amount props)));
  witness_account ← get_account (gpo_current_witness props);
  (if (STEEMIT_START_MINER_VOTING_BLOCK <=? gpo_head_block_number props)
      || (amount (acc_vesting_shares witness_account) =? 0) then
     producer_reward ← create_vesting (acc_id witness_account) pay false;
     push_virtual_operation (producer_reward_operation (acc_name witness_account) producer_reward)
   else
     modify (acc_id witness_account) (λ a,
       b ← asset_add (acc_balance a) pay; mret (set_acc_balance b a)));;
  mret pay.

Definition get_pow_reward : DB asset :=
  props ← get_dynamic_global_properties;
  if (gpo_num_pow_witnesses props <? STEEMIT_MAX_WITNESSES)
     && (gpo_head_block_number props <? STEEMIT_START_VESTING_BLOCK)
  then mret (Asset 0 STEEM_SYMBOL)
  else lift (at_least STEEMIT_MIN_POW_REWARD
               (calc_percent_reward_per_round STEEMIT_POW_APR_PERCENT (virtual_amount props))).

(** A round of the loop over the funds: the rewards used so far. *)
Definition pay_reward_fund (reward used : Z) (id : Z) : DB Z :=
  f ← get reward_fund_object id;
  r ← lift (x ← safe_mul reward (rf_percent_content_rewards f); safe_div x STEEMIT_100_PERCENT);
  modify id (λ rfo : reward_fund_object,
    b ← asset_add (rf_reward_balance rfo) (Asset r STEEM_SYMBOL); mret (set_rf_reward_balance b rfo));;
  used' ← lift (safe_add used r);
  assert (used' <=? reward) "used_rewards <= reward";;
  mret used'.
Definition pay_reward_funds (reward : Z) : DB Z :=
  rfs ← gets (all_rows (A := reward_fund_object));
  fold_m (rf_id <$> rfs) (pay_reward_fund reward) 0.

(** The inflation rate: it starts at 9.78% and narrows by 0.01% every 250000
    blocks, down to 0.95%. *)
Definition inflation_rate (head_block_num : Z) : Z :=
  Z.max (STEEMIT_INFLATION_RATE_START_PERCENT - head_block_num / STEEMIT_INFLATION_NARROWING_PERIOD)
    STEEMIT_INFLATION_RATE_STOP_PERCENT.

(** The branch of [process_funds] from hardfork 16 on. *)
Definition process_funds_16 : DB unit :=
  props ← get_dynamic_global_properties;
  wso ← get_witness_schedule_object;
  num ← head_block_num;
  new_steem ← lift (x ← safe_mul (virtual_amount props) (inflation_rate num);
                    safe_div x (STEEMIT_100_PERCENT * STEEMIT_BLOCKS_PER_YEAR));
  content_reward ← lift (x ← safe_mul new_steem STEEMIT_CONTENT_REWARD_PERCENT;
                         safe_div x STEEMIT_100_PERCENT);
  hf17 ← has_hardfork 17;
  content_reward ← (if (hf17 : bool) then pay_reward_funds content_reward else mret content_reward);
  vesting_reward ← lift (x ← safe_mul new_steem STEEMIT_VESTING_FUND_PERCENT;
                         safe_div x STEEMIT_100_PERCENT);
  witness_reward ← lift (x ← safe_sub new_steem content_reward; safe_sub x vesting_reward);
  cwit ← get_witness (gpo_current_witness props);
  witness_reward ← lift (safe_mul witness_reward STEEMIT_MAX_WITNESSES);
  witness_reward ← lift (match wit_schedule cwit with
                         | timeshare => safe_mul witness_reward (wso_timeshare_weight wso)
                         | miner => safe_mul witness_reward (wso_miner_weight wso)
                         | top19 => safe_mul witness_reward (wso_top19_weight wso)
                         | none => mret witness_reward
                         end);
  witness_reward ← lift (safe_div witness_reward (wso_witness_pay_normalization_factor wso));
  new_steem ← lift (x ← safe_add content_reward vesting_reward; safe_add x witness_reward);
  modify_gpo (λ p,
    v ← asset_add (gpo_total_vesting_fund_steem p) (Asset vesting_reward STEEM_SYMBOL);
    r ← (if (hf17 : bool) then mret (gpo_total_reward_fund_steem p)
         else asset_add (gpo_total_reward_fund_steem p) (Asset content_reward STEEM_SYMBOL));
    c ← asset_add (gpo_current_supply p) (Asset new_steem STEEM_SYMBOL);
    s ← asset_add (gpo_virtual_supply p) (Asset new_steem STEEM_SYMBOL);
    mret (set_gpo_virtual_supply s (set_gpo_current_supply c
           (set_gpo_total_reward_fund_steem r (set_gpo_total_vesting_fund_steem v p)))));;
  a ← get_account (wit_owner cwit);
  producer_reward ← create_vesting (acc_id a) (Asset witness_reward STEEM_SYMBOL) false;
  push_virtual_operation (producer_reward_operation (wit_owner cwit) producer_reward).

(** The branch before it. *)
Definition process_funds_0 : DB unit :=
  content_reward ← get_content_reward;
  curate_reward ← get_curation_reward;
  witness_pay ← get_producer_reward;
  x ← lift (asset_add content_reward curate_reward);
  vesting_reward ← lift (asset_add x witness_pay);
  content_reward ← lift (asset_add content_reward curate_reward);
  props ← get_dynamic_global_properties;
  let vesting_reward :=
    Asset (if gpo_head_block_number props <? STEEMIT_START_VESTING_BLOCK then 0
           else to_int64 (amount vesting_reward * 9)) (symbol vesting_reward) in
  modify_gpo (λ p,
    v ← asset_add (gpo_total_vesting_fund_steem p) vesting_reward;
    r ← asset_add (gpo_total_reward_fund_steem p) content_reward;
    x ← asset_add content_reward witness_pay;
    new ← asset_add x vesting_reward;
    c ← asset_add (gpo_current_supply p) new;
    s ← asset_add (gpo_virtual_supply p) new;
    mret (set_gpo_virtual_supply s (set_gpo_current_supply c
           (set_gpo_total_reward_fund_steem r (set_gpo_total_vesting_fund_steem v p))))).

Definition process_funds : DB unit :=
  hf16 ← has_hardfork 16;
  if (hf16 : bool) then process_funds_16 else process_funds_0.

(** ** Liquidity rewards *)
Definition volume_weight (l : liquidity_reward_balance_object) : Z :=
  u128_of_int64 (to_int64 (lrb_steem_volume l * lrb_sbd_volume l * is_positive l)).

(** The order of [by_volume_weight]. *)
Definition volume_leb (x y : liquidity_reward_balance_object) : bool :=
  (lrb_weight y <? lrb_weight x)
  || ((lrb_weight x =? lrb_weight y) && (lrb_owner x <=? lrb_owner y)).

Definition pay_liquidity_reward : DB unit :=
  num ← head_block_num;
  if num mod STEEMIT_LIQUIDITY_REWARD_BLOCKS =? 0 then
    reward ← get_liquidity_reward;
    if amount reward =? 0 then mret tt
    else
      ridx ← gets (select (λ _, true) volume_leb);
      match ridx with
      | itr :: _ =>
          when (0 <? volume_weight itr)
            (adjust_supply reward true;;
             owner ← get account_object (lrb_owner itr);
             adjust_balance (acc_id owner) reward;;
             now ← head_block_time;
             modify (lrb_id itr) (λ l,
               Ok (set_lrb_weight 0 (set_lrb_last_update now
                    (set_lrb_sbd_volume 0 (set_lrb_steem_volume 0 l)))));;
             owner ← get account_object (lrb_owner itr);
             push_virtual_operation (liquidity_reward_operation (acc_name owner) reward))
      | [] => mret tt
      end
  else mret tt.
End inflation.

(** ** New STEEM is declared where it is paid *)
Section conserve.
Context {F : Fc}.

Lemma at_least_symbol m p a : at_least m p = Ok a → symbol a = STEEM_SYMBOL.
Proof. unfold at_least, asset_max. intros H. inv_ok. by case_match. Qed.
Lemma at_least_ge m p a : at_least m p = Ok a → m ≤ amount a.
Proof.
  unfold at_least, asset_max, asset_lt. intros H. inv_ok. case_match eqn:E; [cbn; lia|].
  cbn in *. bool_simpl. lia.
Qed.

#[export] Instance get_liquidity_reward_conserves : Conserves get_liquidity_reward.
Proof. unfold get_liquidity_reward. conserve. Qed.
#[export] Instance get_content_reward_conserves : Conserves get_content_reward.
Proof. unfold get_content_reward. conserve. Qed.
#[export] Instance get_curation_reward_conserves : Conserves get_curation_reward.
Proof. unfold get_curation_reward. conserve. Qed.

(** The producer of a block is paid before the supply grows. *)
Lemma get_producer_reward_imb db pay db' :
  db_wf db → get_producer_reward db = Ok (pay, db') →
  db_wf db' ∧ symbol pay = STEEM_SYMBOL ∧ ∀ k, imb k db' = imb k db - by_symbol k pay.
Proof.
  intros Hdb H. unfold get_producer_reward in H. inv_db.
  match goal with H : at_least _ _ = Ok _ |- _ => apply at_least_symbol in H end.
  match goal with H : (if ?c then _ else _) _ = _ |- _ => destruct c; inv_db end; shift_all;
    (split_and!; [done..|]); intros k; at_kind k; inv_ok; inv_asset; subst;
    rewrite by_symbol_steem by done; ledger k.
Qed.

Lemma pay_reward_fund_imb reward used i db used' db' :
  db_wf db → pay_reward_fund reward used i db = Ok (used', db') →
  db_wf db' ∧ ∀ k, imb k db' = imb k db - match k with KSteem => used' - used | _ => 0 end.
Proof.
  intros Hdb H. unfold pay_reward_fund in H. inv_db. shift_all. split; [done|]. intros k. at_kind k.
  inv_ok. inv_asset. inv_safe. subst. ledger k.
Qed.
Lemma pay_reward_fund_list_imb reward l u db used db' :
  db_wf db → fold_m l (pay_reward_fund reward) u db = Ok (used, db') →
  db_wf db' ∧ ∀ k, imb k db' = imb k db - match k with KSteem => used - u | _ => 0 end.
Proof.
  revert u db. induction l as [|i l IH]; intros u db Hdb H; cbn [fold_m] in H; inv_ok.
  - split; [done|]. intros []; lia.
  - match goal with H : pay_reward_fund _ _ _ _ = _ |- _ => apply pay_reward_fund_imb in H as [Hs1 HI1]; [|done] end.
    match goal with H : fold_m _ _ _ _ = _ |- _ => apply IH in H as [Hs2 HI2]; [|done] end.
    split; [done|]. intros k. rewrite HI2, HI1. destruct k; lia.
Qed.
Lemma pay_reward_funds_imb reward db used db' :
  db_wf db → pay_reward_funds reward db = Ok (used, db') →
  db_wf db' ∧ ∀ k, imb k db' = imb k db - match k with KSteem => used | _ => 0 end.
Proof.
  intros Hdb H. unfold pay_reward_funds in H. inv_ok.
  match goal with H : fold_m _ _ _ _ = _ |- _ => apply pay_reward_fund_list_imb in H as [Hs HI]; [|done] end.
  split; [done|]. intros k. rewrite HI. destruct k; lia.
Qed.

#[export] Instance process_funds_conserves : Conserves process_funds.
Proof.
  intros db u db' Hdb H. unfold process_funds in H. inv_db.
  match goal with H : (if ?c then _ else _) _ = _ |- _ => destruct c end.
  - unfold process_funds_16 in *. inv_db.
    match goal with H : (if ?c then _ else _) _ = _ |- _ => destruct c; inv_db end;
      try match goal with H : pay_reward_funds _ _ = _ |- _ =>
        apply pay_reward_funds_imb in H as [? ?]; [|done] end;
      shift_all; (split; [done|]); intros k; at_kind k; inv_ok; inv_asset; inv_safe; subst; ledger k.
  - unfold process_funds_0 in *. inv_ok.
    unfold get_content_reward, get_curation_reward in *. inv_db.
    repeat match goal with H : at_least _ _ = Ok _ |- _ => apply at_least_symbol in H end.
    match goal with H : get_producer_reward _ = _ |- _ =>
      apply get_producer_reward_imb in H as (? & ? & ?); [|done] end.
    shift_all. split; [done|]. intros k. at_kind k. rewrite by_symbol_steem in * by done.
    inv_ok. inv_asset. subst. ledger k.
Qed.

#[export] Instance pay_liquidity_reward_conserves : Conserves pay_liquidity_reward.
Proof.
  intros db u db' Hdb H. unfold pay_liquidity_reward in H. inv_db.
  match goal with H : (if ?c then _ else _) _ = _ |- _ => destruct c; inv_db end;
    [|split; [done|]; intros; lia].
  match goal with H : (if ?c then _ else _) _ = _ |- _ => destruct c; inv_db end; shift_all;
    [split; [done|]; intros k; at_kind k; lia|].
  match goal with H : (match ?l with [] => _ | _ => _ end) _ = _ |- _ => destruct l; inv_db end;
    shift_all; (split; [done|]); intros k; at_kind k; lia.
Qed.
End conserve.
