(* ===== verification/Escrow.v ===== *)
(** * Escrow

    The evaluators of [escrow_transfer], [escrow_approve], [escrow_dispute] and
    [escrow_release] of chain/steem_evaluator.cpp, and
    [expire_escrow_ratification] of chain/database.cpp.

    An escrow is created unapproved, with its fee pending; the receiver and the
    agent approve it, and the fee is paid when both have; either can reject it,
    and it is returned when the deadline passes before both approved.  Once
    approved, its funds are released in parts, by the parties, or by the agent
    alone after a dispute. *)
From S2P Require Import Prelude Fc Config Asset Chainbase ChainbaseSpec Objects Database.
From S2P Require Import Supply Protocol Votes Ledger Genesis Transfers.

Section escrow.
Context {F : Fc}.

Definition escrow_transfer_evaluator (o : escrow_transfer_operation) : DB unit :=
  from_account ← get_account (et_from o);
  get_account (et_to o);;
  get_account (et_agent o);;
  now ← head_block_time;
  assert (now <? et_ratification_deadline o)
    "The escorw ratification deadline must be after head block time.";;
  assert (now <? et_escrow_expiration o) "The escrow expiration must be after head block time.";;
  '(steem_spent, sbd_spent) ← lift
    (if symbol (et_fee o) =? STEEM_SYMBOL
     then s ← asset_add (et_steem_amount o) (et_fee o); mret (s, et_sbd_amount o)
     else s ← asset_add (et_sbd_amount o) (et_fee o); mret (et_steem_amount o, s));
  assert_ge (acc_balance from_account) steem_spent "Account cannot cover STEEM costs of escrow.";;
  assert_ge (acc_sbd_balance from_account) sbd_spent "Account cannot cover SBD costs of escrow.";;
  minus1 ← lift (asset_neg steem_spent);
  adjust_balance (acc_id from_account) minus1;;
  minus2 ← lift (asset_neg sbd_spent);
  adjust_balance (acc_id from_account) minus2;;
  create escrow_object_default (λ esc,
    set_esc_pending_fee (et_fee o)
      (set_esc_steem_balance (et_steem_amount o)
        (set_esc_sbd_balance (et_sbd_amount o)
          (set_esc_escrow_expiration (et_escrow_expiration o)
            (set_esc_ratification_deadline (et_ratification_deadline o)
              (set_esc_agent (et_agent o)
                (set_esc_to (et_to o)
                  (set_esc_from (et_from o) (set_esc_escrow_id (et_escrow_id o) esc)))))))));;
  mret tt.

(** The funds and the fee of an escrow go back to the sender. *)
Definition return_escrow (from_account escrow : Z) : DB unit :=
  e ← get escrow_object escrow;
  adjust_balance from_account (esc_steem_balance e);;
  adjust_balance from_account (esc_sbd_balance e);;
  adjust_balance from_account (esc_pending_fee e);;
  remove escrow_object escrow.

(** The agent gets the fee. *)
Definition pay_agent (agent_account escrow : Z) : DB unit :=
  e ← get escrow_object escrow;
  adjust_balance agent_account (esc_pending_fee e);;
  modify escrow (λ esc, Ok (set_esc_pending_fee (Asset 0 (symbol (esc_pending_fee esc))) esc)).

Definition escrow_approve_evaluator (o : escrow_approve_operation) : DB unit :=
  escrow0 ← get_escrow (ea_from o) (ea_escrow_id o);
  let escrow := esc_id escrow0 in
  assert (bool_decide (esc_to escrow0 = ea_to o)) "Operation 'to' does not match escrow 'to'.";;
  assert (bool_decide (esc_agent escrow0 = ea_agent o))
    "Operation 'agent' does not match escrow 'agent'.";;
  now ← head_block_time;
  assert (now <=? esc_ratification_deadline escrow0)
    "The escrow ratification deadline has passed. Escrow can no longer be ratified.";;
  let reject_escrow := negb (ea_approve o) in
  when (bool_decide (ea_who o = ea_to o))
    (e ← get escrow_object escrow;
     assert (negb (esc_to_approved e)) "Account 'to' has already approved the escrow.";;
     when (negb reject_escrow) (modify escrow (λ esc, Ok (set_esc_to_approved true esc))));;
  when (bool_decide (ea_who o = ea_agent o))
    (e ← get escrow_object escrow;
     assert (negb (esc_agent_approved e)) "Account 'agent' has already approved the escrow.";;
     when (negb reject_escrow) (modify escrow (λ esc, Ok (set_esc_agent_approved true esc))));;
  if reject_escrow then
    from_account ← get_account (ea_from o);
    return_escrow (acc_id from_account) escrow
  else
    e ← get escrow_object escrow;
    when (esc_to_approved e && esc_agent_approved e)
      (agent_account ← get_account (ea_agent o);
       pay_agent (acc_id agent_account) escrow).

Definition escrow_dispute_evaluator (o : escrow_dispute_operation) : DB unit :=
  get_account (ed_from o);;
  e ← get_escrow (ed_from o) (ed_escrow_id o);
  now ← head_block_time;
  assert (now <? esc_escrow_expiration e) "Disputing the escrow must happen before expiration.";;
  assert (esc_to_approved e && esc_agent_approved e)
    "The escrow must be approved by all parties before a dispute can be raised.";;
  assert (negb (esc_disputed e)) "The escrow is already under dispute.";;
  assert (bool_decide (esc_to e = ed_to o)) "Operation 'to' does not match escrow 'to'.";;
  assert (bool_decide (esc_agent e = ed_agent o)) "Operation 'agent' does not match escrow 'agent'.";;
  modify (esc_id e) (λ esc, Ok (set_esc_disputed true esc)).

(** Who may release an approved escrow, and to whom. *)
Definition release_allowed (now : Z) (who receiver : string) (e : escrow_object) : result unit :=
  if esc_disputed e then
    FC_ASSERT (bool_decide (who = esc_agent e)) "Only 'agent' can release funds in a disputed escrow."
  else
    FC_ASSERT (bool_decide (who = esc_from e) || bool_decide (who = esc_to e))
      "Only 'from' and 'to' can release funds from a non-disputed escrow";;
    if now <? esc_escrow_expiration e then
      if bool_decide (who = esc_from e) then
        FC_ASSERT (bool_decide (receiver = esc_to e)) "Only 'from' can release funds to 'to'."
      else if bool_decide (who = esc_to e) then
        FC_ASSERT (bool_decide (receiver = esc_from e)) "Only 'to' can release funds to 'from'."
      else mret tt
    else mret tt.

Definition escrow_release_evaluator (o : escrow_release_operation) : DB unit :=
  get_account (er_from o);;
  receiver_account ← get_account (er_receiver o);
  e ← get_escrow (er_from o) (er_escrow_id o);
  assert_ge (esc_steem_balance e) (er_steem_amount o) "Release amount exceeds escrow balance.";;
  assert_ge (esc_sbd_balance e) (er_sbd_amount o) "Release amount exceeds escrow balance.";;
  assert (bool_decide (esc_to e = er_to o)) "Operation 'to' does not match escrow 'to'.";;
  assert (bool_decide (esc_agent e = er_agent o)) "Operation 'agent' does not match escrow 'agent'.";;
  assert (bool_decide (er_receiver o = esc_from e) || bool_decide (er_receiver o = esc_to e))
    "Funds must be released to 'from' or 'to'";;
  assert (esc_to_approved e && esc_agent_approved e)
    "Funds cannot be released prior to escrow approval.";;
  now ← head_block_time;
  lift (release_allowed now (er_who o) (er_receiver o) e);;
  adjust_balance (acc_id receiver_account) (er_steem_amount o);;
  adjust_balance (acc_id receiver_account) (er_sbd_amount o);;
  modify (esc_id e) (λ esc,
    s ← asset_sub (esc_steem_balance esc) (er_steem_amount o);
    d ← asset_sub (esc_sbd_balance esc) (er_sbd_amount o);
    mret (set_esc_sbd_balance d (set_esc_steem_balance s esc)));;
  e' ← get escrow_object (esc_id e);
  when ((amount (esc_steem_balance e') =? 0) && (amount (esc_sbd_balance e') =? 0))
    (remove escrow_object (esc_id e)).

(** One round of the loop of [expire_escrow_ratification]. *)
Definition expire_escrow (itr : Z) : DB unit :=
  old_escrow ← get escrow_object itr;
  from_account ← get_account (esc_from old_escrow);
  return_escrow (acc_id from_account) itr.

Definition is_approved (e : escrow_object) : bool := esc_to_approved e && esc_agent_approved e.

(** The escrows that were not approved in time, in the order of
    [by_ratification_deadline]. *)
Definition unratified (now : Z) : database → list escrow_object :=
  select (λ e, negb (is_approved e) && (esc_ratification_deadline e <=? now))
    (λ x y, (esc_ratification_deadline x <? esc_ratification_deadline y)
            || ((esc_ratification_deadline x =? esc_ratification_deadline y)
                && (esc_id x <=? esc_id y))).

Definition expire_escrow_ratification : DB unit :=
  now ← head_block_time;
  l ← gets (unratified now);
  for_each (esc_id <$> l) expire_escrow.
End escrow.

(** ** Conservation *)
Section conservation.
Context {F : Fc}.

Lemma escrow_row_at db i e :
  db_wf db → trows db !! i = Some e →
  symbol (esc_steem_balance e) = STEEM_SYMBOL ∧ symbol (esc_sbd_balance e) = SBD_SYMBOL.
Proof. intros Hdb Hi. exact (row_ok_at db i e Hdb Hi). Qed.

(** What an escrow holds, by symbol. *)
Lemma escrow_weight_eq k e :
  symbol (esc_steem_balance e) = STEEM_SYMBOL → symbol (esc_sbd_balance e) = SBD_SYMBOL →
  weight k e = by_symbol k (esc_steem_balance e) + by_symbol k (esc_sbd_balance e)
               + by_symbol k (esc_pending_fee e).
Proof.
  intros H1 H2. rewrite (by_symbol_steem k _ H1), (by_symbol_sbd k _ H2).
  unfold weight, escrow_weight. destruct k; lia.
Qed.

Ltac escrow_rows :=
  repeat match goal with
  | Hdb : db_wf ?s, H : trows ?s !! _ = Some ?e |- _ =>
      lazymatch goal with
      | _ : symbol (esc_steem_balance e) = STEEM_SYMBOL |- _ => fail
      | _ => destruct (escrow_row_at _ _ e Hdb H) as [? ?]
      end
  end.

#[export] Instance return_escrow_conserves a i : Conserves (return_escrow a i).
Proof.
  intros db u db' Hdb H. unfold return_escrow in H. inv_db. touched escrow_object.
  escrow_rows. conserved. rewrite escrow_weight_eq in * by done. lia.
Qed.

Lemma by_symbol_zero k s : by_symbol k (Asset 0 s) = 0.
Proof. unfold by_symbol. cbn. destruct k; try case_match; done. Qed.

#[export] Instance pay_agent_conserves a i : Conserves (pay_agent a i).
Proof.
  intros db u db' Hdb H. unfold pay_agent in H. inv_db. touched escrow_object.
  escrow_rows. conserved. rewrite !escrow_weight_eq in * by done. cbn in *.
  rewrite by_symbol_zero in *. lia.
Qed.

#[export] Instance expire_escrow_conserves i : Conserves (expire_escrow i).
Proof. unfold expire_escrow. conserve. Qed.

#[export] Instance expire_escrow_ratification_conserves : Conserves expire_escrow_ratification.
Proof. unfold expire_escrow_ratification. conserve. Qed.

Lemma escrow_transfer_conserves o :
  escrow_transfer_validate o = Ok tt → Conserves (escrow_transfer_evaluator o).
Proof.
  intros Hv. unfold escrow_transfer_validate in Hv. inv_ok.
  intros db u db' Hdb H. unfold escrow_transfer_evaluator, assert_ge in H. inv_db.
  destruct_pair. inv_db. bool_simpl.
  shift_all.
  split; [done|]. intros k. at_kind k. rewrite escrow_weight_eq in * by done. cbn in *.
  match goal with H : (if ?c then _ else _) = Ok _ |- _ => destruct c; inv_ok; inv_asset; simplify_eq; subst end;
  inv_asset; subst; rewrite !by_symbol_neg, ?by_symbol_add in * by done; lia.
Qed.

#[export] Instance escrow_approve_conserves o : Conserves (escrow_approve_evaluator o).
Proof.
  unfold escrow_approve_evaluator. conserve.
Qed.

#[export] Instance escrow_dispute_conserves o : Conserves (escrow_dispute_evaluator o).
Proof. unfold escrow_dispute_evaluator. conserve. Qed.

(** An approved escrow has paid its fee. *)
Definition fees_paid (db : database) : Prop :=
  ∀ i e, trows db !! i = Some e → is_approved e = true → amount (esc_pending_fee e) = 0.

Lemma by_symbol_null k a : amount a = 0 → by_symbol k a = 0.
Proof. unfold by_symbol. intros ->. destruct k; try case_match; done. Qed.

Lemma escrow_release_conserves o db u db' :
  escrow_release_validate o = Ok tt → db_wf db → fees_paid db →
  escrow_release_evaluator o db = Ok (u, db') →
  db_wf db' ∧ ∀ k, imb k db' = imb k db.
Proof.
  intros Hv Hdb Hfee H. unfold escrow_release_validate in Hv. inv_okb.
  unfold escrow_release_evaluator, assert_ge in H. inv_db; found; touched escrow_object;
  match goal with
  | H1 : modify _ ?f ?s = Ok (_, ?s'), H2 : trows ?s' !! _ = Some ?z |- _ =>
      destruct (modify_lookup _ _ _ _ _ _ H1 H2) as (w & Hw & Hfw)
  end; same_rows; bool_simpl; escrow_rows; shift_all; same_rows; (split; [done|]); intros k; at_kind k;
  inv_ok; inv_asset; subst; rewrite !escrow_weight_eq in * by (cbn; congruence); cbn in *;
  rewrite !(by_symbol_steem k (er_steem_amount o)), !(by_symbol_sbd k (er_sbd_amount o)) in * by done;
  rewrite (by_symbol_steem k (esc_steem_balance x)), (by_symbol_sbd k (esc_sbd_balance x)),
    (by_symbol_steem k (Asset (amount (esc_steem_balance x) - _) _)),
    (by_symbol_sbd k (Asset (amount (esc_sbd_balance x) - _) _)) in * by done;
  assert (by_symbol k (esc_pending_fee x) = 0) by
    (eapply by_symbol_null, Hfee; [done|by apply andb_true_iff]);
  destruct k; cbn -[by_symbol Z.add Z.sub] in *; lia.
Qed.
End conservation.

#[global] Typeclasses Opaque return_escrow pay_agent expire_escrow expire_escrow_ratification
  escrow_transfer_evaluator escrow_approve_evaluator escrow_dispute_evaluator
  escrow_release_evaluator.
