(* ===== verification/EscrowSpec.v ===== *)
(** * What an escrow promises

    The abstract life of an escrow: it is proposed, approved by the receiver and
    by the agent, rejected or expired before that, disputed, and released in
    parts.  [deal_step] says who may do what when, without accounts or objects;
    the evaluators of [Escrow.v] implement it, and its invariants hold of every
    state they reach. *)
From S2P Require Import Prelude Fc Config Asset Chainbase ChainbaseSpec Objects Database.
From S2P Require Import Supply Protocol Votes Ledger Genesis Transfers Escrow.

Inductive phase := Pending (to_ok agent_ok : bool) | Approved.

Record deal := Deal {
  d_from : string; d_to : string; d_agent : string; d_deadline : Z; d_expiration : Z;
  d_phase : phase; d_disputed : bool; d_steem : Z; d_sbd : Z; d_fee : Z }.

(** ** The specification *)
Definition set_phase (p : phase) (fee : Z) (d : deal) : deal :=
  Deal (d_from d) (d_to d) (d_agent d) (d_deadline d) (d_expiration d) p (d_disputed d)
    (d_steem d) (d_sbd d) fee.
Definition dispute (d : deal) : deal :=
  Deal (d_from d) (d_to d) (d_agent d) (d_deadline d) (d_expiration d) (d_phase d) true
    (d_steem d) (d_sbd d) (d_fee d).
Definition pay_out (steem sbd : Z) (d : deal) : deal :=
  Deal (d_from d) (d_to d) (d_agent d) (d_deadline d) (d_expiration d) (d_phase d) (d_disputed d)
    (d_steem d - steem) (d_sbd d - sbd) (d_fee d).

(** The approval of [who]: the fee is paid when it is the second one. *)
Definition approve (who : string) (t a : bool) (d : deal) : deal :=
  let t' := t || bool_decide (who = d_to d) in
  let a' := a || bool_decide (who = d_agent d) in
  if t' && a' then set_phase Approved 0 d else set_phase (Pending t' a') (d_fee d) d.

(** Who may release funds to whom: the agent of a disputed deal; before the
    expiration only the other party can be paid. *)
Definition may_release (now : Z) (who receiver : string) (d : deal) : Prop :=
  (receiver = d_from d ∨ receiver = d_to d) ∧
  match d_phase d with
  | Pending _ _ => False
  | Approved =>
      if d_disputed d then who = d_agent d
      else (who = d_from d ∨ who = d_to d) ∧
        (now < d_expiration d → (who = d_from d ∧ receiver = d_to d) ∨
                                (who = d_to d ∧ receiver = d_from d))
  end.

Inductive deal_step (now : Z) (M : gmap Z deal) : gmap Z deal → Prop :=
| Propose i d :
    M !! i = None → d_phase d = Pending false false → d_disputed d = false →
    0 ≤ d_steem d → 0 ≤ d_sbd d → 0 ≤ d_fee d → 0 < d_steem d + d_sbd d →
    d_from d ≠ d_agent d → d_to d ≠ d_agent d → now < d_deadline d → now < d_expiration d →
    deal_step now M (<[i := d]> M)
| Approve i d who t a :
    M !! i = Some d → d_phase d = Pending t a → now ≤ d_deadline d →
    (who = d_to d ∧ t = false) ∨ (who = d_agent d ∧ a = false) →
    deal_step now M (<[i := approve who t a d]> M)
| Reject i d t a :
    M !! i = Some d → d_phase d = Pending t a → now ≤ d_deadline d → deal_step now M (delete i M)
| Expire i d t a :
    M !! i = Some d → d_phase d = Pending t a → d_deadline d ≤ now → deal_step now M (delete i M)
| Dispute i d :
    M !! i = Some d → d_phase d = Approved → d_disputed d = false → now < d_expiration d →
    deal_step now M (<[i := dispute d]> M)
| Release i d who receiver steem sbd :
    M !! i = Some d → may_release now who receiver d →
    0 ≤ steem ≤ d_steem d → 0 ≤ sbd ≤ d_sbd d → 0 < steem + sbd →
    deal_step now M
      (if (d_steem d - steem =? 0) && (d_sbd d - sbd =? 0) then delete i M
       else <[i := pay_out steem sbd d]> M).

(** What holds of every deal. *)
Definition deal_ok (d : deal) : Prop :=
  0 ≤ d_steem d ∧ 0 ≤ d_sbd d ∧ 0 ≤ d_fee d ∧ 0 < d_steem d + d_sbd d ∧
  d_from d ≠ d_agent d ∧ d_to d ≠ d_agent d ∧
  match d_phase d with
  | Pending t a => t && a = false ∧ d_disputed d = false
  | Approved => d_fee d = 0
  end.
Definition deals_ok (M : gmap Z deal) : Prop := ∀ i d, M !! i = Some d → deal_ok d.

Lemma deal_step_ok now M M' : deal_step now M M' → deals_ok M → deals_ok M'.
Proof.
  intros Hstep Hok.
  assert (∀ i, deals_ok (delete i M)) as Hdel by (intros i j d [_ ?]%lookup_delete_Some; by eapply Hok).
  assert (∀ i d, deal_ok d → deals_ok (<[i := d]> M)) as Hins.
  { intros i d Hd j e [[_ <-]|[_ ?]]%lookup_insert_Some; [done|by eapply Hok]. }
  destruct Hstep as [i d _ Hp Hnd|i d who t a Hi Hp|i d t a|i d t a|i d Hi Hp|i d who r s b Hi Hm].
  - apply Hins. unfold deal_ok. by rewrite Hp.
  - apply Hins. destruct (Hok _ _ Hi) as (? & ? & ? & ? & ? & ? & Hph). rewrite Hp in Hph.
    destruct Hph. unfold approve. cbv zeta. destruct ((t || _) && (a || _)) eqn:E; unfold deal_ok; cbn;
      split_and!; try done; lia.
  - apply Hdel.
  - apply Hdel.
  - apply Hins. destruct (Hok _ _ Hi) as (? & ? & ? & ? & ? & ? & Hph). rewrite Hp in Hph.
    unfold deal_ok. cbn. by rewrite Hp.
  - destruct (Hok _ _ Hi) as (? & ? & ? & ? & ? & ? & Hph).
    destruct (Z.eqb_spec (d_steem d - s) 0), (Z.eqb_spec (d_sbd d - b) 0); cbn [andb];
      try apply Hdel; apply Hins; unfold deal_ok; cbn; split_and!; try done; lia.
Qed.

(** ** The evaluators implement it *)
Definition phase_of (e : escrow_object) : phase :=
  if is_approved e then Approved else Pending (esc_to_approved e) (esc_agent_approved e).
Definition deal_of (e : escrow_object) : deal :=
  Deal (esc_from e) (esc_to e) (esc_agent e) (esc_ratification_deadline e)
    (esc_escrow_expiration e) (phase_of e) (esc_disputed e) (amount (esc_steem_balance e))
    (amount (esc_sbd_balance e)) (amount (esc_pending_fee e)).
Definition deals (db : database) : gmap Z deal := deal_of <$> trows (A := escrow_object) db.
Definition now_of (db : database) : Z := gpo_time (db_gpo db).

Section refinement.
Context {F : Fc}.

Lemma adjust_balance_escrows a d db u db' :
  adjust_balance a d db = Ok (u, db') → trows (A := escrow_object) db' = trows db.
Proof.
  intros H. unfold trows. cbn [tbl escrows_table].
  by rewrite (adjust_balance_keeps db_escrows a d ltac:(done) ltac:(done) ltac:(done) _ _ _ H).
Qed.
Ltac kept :=
  repeat match goal with H : adjust_balance _ _ _ = Ok _ |- _ =>
    apply adjust_balance_escrows in H; rewrite ?H in * |- end.

Lemma escrow_transfer_step o db u db' :
  escrow_transfer_validate o = Ok tt → escrow_transfer_evaluator o db = Ok (u, db') →
  deal_step (now_of db) (deals db) (deals db').
Proof.
  intros Hv H. unfold escrow_transfer_validate in Hv. inv_okb.
  unfold escrow_transfer_evaluator, assert_ge in H. inv_db. destruct_pair. inv_db. bool_simpl.
  match goal with H : create _ _ _ = Ok (?i, _) |- _ =>
    apply create_rows in H as [Hn E]; [|done] end.
  kept. unfold deals. rewrite E, fmap_insert.
  apply Propose; cbn; try done; [by rewrite lookup_fmap, Hn|lia..].
Qed.

Lemma deals_lookup db i e :
  trows db !! i = Some e → deals db !! i = Some (deal_of e).
Proof. intros H. unfold deals. by rewrite lookup_fmap, H. Qed.

Lemma escrow_dispute_step o db u db' :
  db_wf db → escrow_dispute_evaluator o db = Ok (u, db') →
  deal_step (now_of db) (deals db) (deals db').
Proof.
  intros Hdb H. unfold escrow_dispute_evaluator in H. inv_db. found. bool_simpl.
  match goal with H : modify _ _ db = _, Hr : trows db !! esc_id ?e = Some ?e |- _ =>
    eapply modify_rows in H as (y & [= <-] & E); [|exact Hr|by intros ? [= <-]];
    pose proof (deals_lookup _ _ _ Hr) as Hd; rename e into e0 end.
  unfold deals. rewrite E, fmap_insert.
  assert (is_approved e0 = true) as Ha by (unfold is_approved; by apply andb_true_iff).
  apply (Dispute _ _ _ (deal_of e0)); [done| |done..]. cbn. unfold phase_of. by rewrite Ha.
Qed.

Lemma either_decide (P Q : Prop) `{Decision P, Decision Q} :
  bool_decide P || bool_decide Q = true → P ∨ Q.
Proof. intros [?%bool_decide_eq_true|?%bool_decide_eq_true]%orb_true_iff; tauto. Qed.
Lemma either_positive x y : (0 <? x) || (0 <? y) = true → 0 < x ∨ 0 < y.
Proof. intros [?%Z.ltb_lt|?%Z.ltb_lt]%orb_true_iff; tauto. Qed.

Lemma phase_approved e : is_approved e = true → phase_of e = Approved.
Proof. unfold phase_of. by intros ->. Qed.

Lemma release_allowed_ok now who receiver e :
  is_approved e = true → receiver = esc_from e ∨ receiver = esc_to e →
  release_allowed now who receiver e = Ok tt → may_release now who receiver (deal_of e).
Proof.
  intros Ha Hr. unfold release_allowed, may_release. cbn. rewrite phase_approved by done.
  destruct (esc_disputed e); intros H; (split; [done|]); inv_okb; [done|].
  split; [apply orb_true_iff in Hm as [?%bool_decide_eq_true|?%bool_decide_eq_true]; tauto|].
  intros Hlt. rewrite (proj2 (Z.ltb_lt _ _) Hlt) in *.
  repeat case_bool_decide; inv_okb; tauto.
Qed.

Lemma escrow_release_step o db u db' :
  escrow_release_validate o = Ok tt → db_wf db → escrow_release_evaluator o db = Ok (u, db') →
  deal_step (now_of db) (deals db) (deals db').
Proof.
  intros Hv Hdb H. unfold escrow_release_validate in Hv. inv_okb.
  unfold escrow_release_evaluator, assert_ge in H. inv_db; found; bool_simpl;
  repeat match goal with H : asset_ge _ _ = Ok true |- _ => apply asset_ge_ok in H as [_ ?] end;
  kept;
  match goal with H : modify (esc_id ?e) _ ?s = Ok (_, ?s'), Hr : trows db !! esc_id ?e = Some ?e |- _ =>
    eapply modify_rows in H as (y & Hy & E);
      [|match goal with E : trows s = _ |- _ => rewrite E; exact Hr end|by intros; inv_ok];
    assert (is_approved e = true) by (unfold is_approved; by apply andb_true_iff);
    pose proof (Release (now_of db) (deals db) (esc_id e) (deal_of e) (er_who o) (er_receiver o)
      (amount (er_steem_amount o)) (amount (er_sbd_amount o)) (deals_lookup _ _ _ Hr)) as Hs
  end; cbn in Hs;
  match goal with E : trows ?s = <[?i := _]> _, H : trows ?s !! ?i = Some ?e' |- _ =>
    rewrite E, lookup_insert_eq in H; injection H as <- end;
  inv_ok; inv_asset; subst; cbn in *;
  match goal with
  | H : remove _ _ _ = _ |- _ =>
      apply remove_rows in H; unfold deals; rewrite H, E, fmap_delete, fmap_insert, delete_insert_eq
  | _ => unfold deals; rewrite E, fmap_insert
  end;
  match goal with E : trows ?s = trows db |- context [trows ?s] => rewrite E end;
  match type of Hs with _ → _ → _ → _ → deal_step _ _ (if ?b then _ else _) =>
    destruct b eqn:Eb end;
  first
    [ by apply Hs; [by apply release_allowed_ok; [|by eapply either_decide|]|lia|lia|];
      match goal with H : (0 <? _) || (0 <? _) = true |- _ => apply either_positive in H; lia end
    | exfalso; apply andb_false_iff in Eb as [?%Z.eqb_neq|?%Z.eqb_neq]; lia
    | exfalso; bool_simpl; congruence ].
Qed.

(** One of the two approvals: nothing, a refusal, or the mark on the row. *)
Lemma approval_mark (b ap : bool) (flag : escrow_object → bool) set msg i e db u db' :
  trows db !! i = Some e → esc_id (set e) = i →
  when b (e ← get escrow_object i; assert (negb (flag e)) msg;;
          when ap (modify i (λ esc, Ok (set esc)))) db = Ok (u, db') →
  (b = true → flag e = false) ∧
  trows db' = <[i := if b && ap then set e else e]> (trows db) ∧ db_gpo db' = db_gpo db.
Proof.
  intros He Hid H.
  assert (<[i := e]> (trows db) = trows db) as Esame by (by apply insert_id).
  inv_db; same_rows; bool_simpl; cbn [andb]; rewrite ?andb_false_r.
  - match goal with H : modify ?j ?f _ = _ |- _ =>
      assert (Keeps db_gpo (modify j f)) as Hk by apply _;
      rewrite (Hk _ _ _ H); eapply modify_rows in H as (y & [= <-] & E); [|done|by intros ? [= <-]] end.
    done.
  - by rewrite Esame.
  - by rewrite Esame.
Qed.

Lemma pay_agent_rows a i e db u db' :
  trows db !! i = Some e → esc_id e = i → pay_agent a i db = Ok (u, db') →
  trows db' = <[i := set_esc_pending_fee (Asset 0 (symbol (esc_pending_fee e))) e]> (trows db).
Proof.
  intros He Hid H. unfold pay_agent in H. inv_db. same_rows. kept.
  match goal with H : modify _ _ ?s = _, E : trows ?s = trows db |- _ =>
    eapply modify_rows in H as (y & [= <-] & Ey); [|by rewrite E|by intros ? [= <-]] end.
  by rewrite Ey; f_equal.
Qed.

Lemma return_escrow_rows a i db u db' :
  return_escrow a i db = Ok (u, db') → trows db' = delete i (trows (A := escrow_object) db).
Proof.
  intros H. unfold return_escrow in H. inv_db. kept.
  match goal with H : remove _ _ _ = _ |- _ => apply remove_rows in H; rewrite H end. by f_equal.
Qed.

(** The row of an escrow after an approval. *)
Definition marked (bt ba : bool) (e : escrow_object) : escrow_object :=
  let e1 := if bt then set_esc_to_approved true e else e in
  if ba then set_esc_agent_approved true e1 else e1.
Lemma marked_id bt ba e : esc_id (marked bt ba e) = esc_id e.
Proof. by destruct bt, ba. Qed.
Lemma marked_deal who e :
  let e1 := marked (bool_decide (who = esc_to e)) (bool_decide (who = esc_agent e)) e in
  deal_of (if is_approved e1
           then set_esc_pending_fee (Asset 0 (symbol (esc_pending_fee e1))) e1 else e1)
  = approve who (esc_to_approved e) (esc_agent_approved e) (deal_of e).
Proof.
  unfold approve, marked. cbn -[deal_of]. change (d_to (deal_of e)) with (esc_to e).
  change (d_agent (deal_of e)) with (esc_agent e).
  destruct (bool_decide (who = esc_to e)), (bool_decide (who = esc_agent e)), e as
    [? ? ? ? ? ? ? ? ? ? [] [] ?]; done.
Qed.

Lemma escrow_approve_step o db u db' :
  escrow_approve_validate o = Ok tt → db_wf db → escrow_approve_evaluator o db = Ok (u, db') →
  deal_step (now_of db) (deals db) (deals db').
Proof.
  intros Hv Hdb H. unfold escrow_approve_validate in Hv. inv_ok.
  match goal with H : bool_decide _ || bool_decide _ = true |- _ =>
    eapply either_decide in H; rename H into Hwho end.
  unfold escrow_approve_evaluator in H.
  apply bind_ok in H as (e & s & He & H). unfold get_escrow in He. apply get_by_ok in He as [-> He].
  destruct (find_row_at _ _ _ Hdb He) as [Hrow _]. change (obj_id e) with (esc_id e) in Hrow.
  apply bind_ok in H as (? & s & [Hto ->]%assert_ok & H).
  apply bind_ok in H as (? & s & [Hag ->]%assert_ok & H).
  apply bind_ok in H as (now & s & [-> ->]%gets_ok & H).
  apply bind_ok in H as (? & s & [Hdl ->]%assert_ok & H).
  apply bind_ok in H as (? & s1 & H1 & H). apply bind_ok in H as (? & s2 & H2 & H).
  apply bool_decide_eq_true in Hto, Hag. apply Z.leb_le in Hdl.
  apply (approval_mark _ _ esc_to_approved (set_esc_to_approved true) _ _ e) in H1
    as (Hf1 & E1 & _); [|done|done].
  eapply (approval_mark _ _ esc_agent_approved (set_esc_agent_approved true)) in H2
    as (Hf2 & E2 & _); [|by rewrite E1, lookup_insert_eq|by destruct (_ && _)].
  rewrite E1, insert_insert_eq in E2.
  assert ((ea_who o = esc_to e ∧ esc_to_approved e = false) ∨
          (ea_who o = esc_agent e ∧ esc_agent_approved e = false)) as Hmark.
  { rewrite Hto, Hag. destruct Hwho as [Hw|Hw]; [left|right]; (split; [done|]).
    - apply Hf1. by apply bool_decide_eq_true.
    - destruct (bool_decide (ea_who o = ea_to o) && negb (negb (ea_approve o)));
        apply Hf2; by apply bool_decide_eq_true. }
  assert (is_approved e = false) as Hp.
  { unfold is_approved. destruct Hmark as [[_ ->]|[_ ->]]; [done|apply andb_false_r]. }
  assert (phase_of e = Pending (esc_to_approved e) (esc_agent_approved e)) as Hphase
    by (unfold phase_of; by rewrite Hp).
  pose proof (deals_lookup _ _ _ Hrow) as Hlook. destruct (ea_approve o); cbn [negb] in *.
  - rewrite !andb_true_r in *.
    pose proof (Approve (now_of db) _ _ _ (ea_who o) _ _ Hlook Hphase Hdl Hmark) as Hstep.
    match type of E2 with _ = <[_ := ?e2]> _ => set (e' := e2) in E2 end.
    assert (e' = marked (bool_decide (ea_who o = esc_to e)) (bool_decide (ea_who o = esc_agent e)) e)
      as -> by (by rewrite Hto, Hag).
    apply bind_ok in H as (e' & s & [-> He']%get_ok & H).
    rewrite E2, lookup_insert_eq in He'. injection He' as <-.
    rewrite <- marked_deal in Hstep. cbv zeta in Hstep. unfold is_approved in Hstep.
    inv_db; match goal with H : _ && _ = _ |- _ => rewrite H in Hstep end.
    + match goal with H : pay_agent _ _ _ = _ |- _ =>
        eapply pay_agent_rows in H as E; [|by rewrite E2, lookup_insert_eq|apply marked_id] end.
      unfold deals at 2. by rewrite E, E2, insert_insert_eq, fmap_insert.
    + unfold deals at 2. by rewrite E2, fmap_insert.
  - rewrite !andb_false_r, insert_id in E2 by done. inv_db.
    match goal with H : return_escrow _ _ _ = _ |- _ => apply return_escrow_rows in H as E end.
    unfold deals. rewrite E, E2, fmap_delete. by eapply Reject.
Qed.

Lemma select_NoDup {A} `{MultiIndex A} `{!MultiIndexLaws A} `{Table A} `{RowOk A} `{!WfTable A} (P : A → bool) leb db :
  db_wf db → NoDup (obj_id <$> select P leb db).
Proof.
  intros Hdb. unfold select. rewrite sort_by_perm.
  assert (obj_id <$> (map_to_list (trows (A := A) db)).*2 = (map_to_list (trows db)).*1) as E.
  { rewrite <- list_fmap_compose. apply list_fmap_ext. intros n [i x] Hn.
    apply list_elem_of_lookup_2, elem_of_map_to_list in Hn. exact (row_id_at db i x Hdb Hn). }
  pose proof (NoDup_fst_map_to_list (trows (A := A) db)) as Hnd. rewrite <- E in Hnd.
  eapply sublist_NoDup; [exact Hnd|]. apply fmap_sublist, sublist_filter.
Qed.

Lemma expire_escrows_step now l db u db' :
  NoDup l → (∀ i, i ∈ l → ∃ e, trows db !! i = Some e ∧ is_approved e = false ∧
                             esc_ratification_deadline e ≤ now) →
  for_each l expire_escrow db = Ok (u, db') → rtc (deal_step now) (deals db) (deals db').
Proof.
  revert db. induction l as [|i l IH]; intros db Hnd Hl H; cbn [for_each] in H.
  { inv_ok. done. }
  apply NoDup_cons in Hnd as [Hi Hnd]. apply bind_ok in H as (v & s & H1 & H2).
  destruct (Hl i ltac:(by left)) as (e & He & Ha & Hd).
  unfold expire_escrow in H1. inv_db.
  match goal with H : return_escrow _ _ _ = _ |- _ => apply return_escrow_rows in H as E end.
  apply rtc_l with (deals s); [|apply IH; [done| |done]].
  - unfold deals. rewrite E, fmap_delete.
    eapply (Expire _ _ _ (deal_of e)); [by apply deals_lookup| |done]. cbn. unfold phase_of. by rewrite Ha.
  - intros j Hj. destruct (Hl j ltac:(by right)) as (e' & He' & ? & ?). exists e'.
    rewrite E, lookup_delete_ne; [done|]. intros ->. done.
Qed.

Lemma expire_ratification_step db u db' :
  db_wf db → expire_escrow_ratification db = Ok (u, db') →
  rtc (deal_step (now_of db)) (deals db) (deals db').
Proof.
  intros Hdb H. unfold expire_escrow_ratification in H. inv_db.
  eapply expire_escrows_step; [| |done].
  - exact (select_NoDup (A := escrow_object) _ _ db Hdb).
  - intros i (e & -> & He)%list_elem_of_fmap. apply select_elem in He as [Hp [j Hj]].
    exists e.
    pose proof (row_id_at db j e Hdb Hj) as Hid. change (obj_id e) with (esc_id e) in Hid.
    rewrite Hid. bool_simpl. done.
Qed.
End refinement.

(** ** The refinement *)

(** A run of one of the operations on escrows. *)
Inductive escrow_run `{F : Fc} (db : database) : database → Prop :=
| run_escrow_transfer o u db' :
    escrow_transfer_validate o = Ok tt → escrow_transfer_evaluator o db = Ok (u, db') →
    escrow_run db db'
| run_escrow_approve o u db' :
    escrow_approve_validate o = Ok tt → escrow_approve_evaluator o db = Ok (u, db') →
    escrow_run db db'
| run_escrow_dispute o u db' : escrow_dispute_evaluator o db = Ok (u, db') → escrow_run db db'
| run_escrow_release o u db' :
    escrow_release_validate o = Ok tt → escrow_release_evaluator o db = Ok (u, db') →
    escrow_run db db'
| run_expire_ratification u db' :
    expire_escrow_ratification db = Ok (u, db') → escrow_run db db'.

Lemma escrow_run_steps `{F : Fc} db db' :
  db_wf db → escrow_run db db' → rtc (deal_step (now_of db)) (deals db) (deals db').
Proof.
  intros Hdb [o u s Hv H|o u s Hv H|o u s H|o u s Hv H|u s H].
  - by eapply rtc_once, escrow_transfer_step.
  - by eapply rtc_once, escrow_approve_step.
  - by eapply rtc_once, escrow_dispute_step.
  - by eapply rtc_once, escrow_release_step.
  - by eapply expire_ratification_step.
Qed.

Lemma deal_steps_ok now M M' : rtc (deal_step now) M M' → deals_ok M → deals_ok M'.
Proof. induction 1; eauto using deal_step_ok. Qed.

(** An approved escrow has paid its fee. *)
Lemma deals_fees_paid db : deals_ok (deals db) → fees_paid db.
Proof.
  intros Hok i e He Ha. destruct (Hok i (deal_of e)) as (_ & _ & _ & _ & _ & _ & Hf).
  - by apply deals_lookup.
  - cbn in Hf. by rewrite phase_approved in Hf.
Qed.

(** C30: the escrow evaluators and the expiration of escrows implement the
    abstract life of a deal: every successful run takes the deals of the database
    through steps of [deal_step], so funds leave a deal only by a release that
    its parties (or, once disputed, its agent) may make, by a rejection or by the
    expiration of its deadline; and every deal keeps non-negative, non-zero
    funds, three different roles for its agent, and no unpaid fee once it is
    approved. *)
Theorem escrow_refinement `{F : Fc} db db' :
  db_wf db → deals_ok (deals db) → escrow_run db db' →
  rtc (deal_step (now_of db)) (deals db) (deals db') ∧ deals_ok (deals db').
Proof.
  intros Hdb Hok H. apply escrow_run_steps in H; [|done]. split; [done|].
  by eapply deal_steps_ok.
Qed.

(** ** A deal on the genesis state *)
#[local] Existing Instance fc_model.

(** [initminer] pays 40 STEEM into a deal with [miners], with [temp] as agent. *)
Definition small_deal : escrow_transfer_operation :=
  EscrowTransfer STEEMIT_INIT_MINER_NAME STEEMIT_MINER_ACCOUNT STEEMIT_TEMP_ACCOUNT 7
    (Asset 0 SBD_SYMBOL) (Asset 40 STEEM_SYMBOL) (Asset 2 STEEM_SYMBOL)
    (STEEMIT_GENESIS_TIME + 100) (STEEMIT_GENESIS_TIME + 200) EmptyString.

Lemma escrow_refinement_witness :
  ∃ db', escrow_transfer_evaluator small_deal (genesis 1000) = Ok (tt, db') ∧
    rtc (deal_step (now_of (genesis 1000))) (deals (genesis 1000)) (deals db') ∧ deals_ok (deals db').
Proof.
  destruct (escrow_transfer_evaluator small_deal (genesis 1000)) as [[[] db']|e] eqn:H.
  2: { exfalso. cut (is_ok (escrow_transfer_evaluator small_deal (genesis 1000)) = true);
       [by rewrite H|]. vm_compute. reflexivity. }
  exists db'. split; [done|]. apply (escrow_refinement (genesis 1000) db').
  - apply genesis_wf.
  - intros i d Hd. exfalso. revert Hd. replace (deals (genesis 1000)) with (∅ : gmap Z deal)
      by (vm_compute; reflexivity). by rewrite lookup_empty.
  - eapply run_escrow_transfer; [|exact H]. vm_compute. reflexivity.
Defined.
