(* ===== verification/Vesting.v ===== *)
(** * Vesting shares: withdrawals, routes, rewards, delegation

    The evaluators of [withdraw_vesting], [set_withdraw_vesting_route],
    [claim_reward_balance] and [delegate_vesting_shares] of
    chain/steem_evaluator.cpp, and [process_vesting_withdrawals] and
    [clear_expired_delegations] of chain/database.cpp. *)
From S2P Require Import Prelude Fc Config Asset Chainbase ChainbaseSpec Objects Database.
From S2P Require Import Supply Protocol Votes Ledger Genesis Transfers.

Section vesting.
Context {F : Fc}.

(** ** Withdrawals *)
Definition withdraw_vesting_evaluator (o : withdraw_vesting_operation) : DB unit :=
  account ← get_account (wdv_account o);
  assert_ge (acc_vesting_shares account) (Asset 0 VESTS_SYMBOL)
    "Account does not have sufficient Steem Power for withdraw.";;
  free ← lift (asset_sub (acc_vesting_shares account) (acc_delegated_vesting_shares account));
  assert_ge free (wdv_vesting_shares o)
    "Account does not have sufficient Steem Power for withdraw.";;
  props ← get_dynamic_global_properties;
  wso ← get_witness_schedule_object;
  min_vests ← lift (asset_mul (account_creation_fee (wso_median_props wso))
                              (get_vesting_share_price props));
  let min_vests := Asset (to_int64 (amount min_vests * 10)) (symbol min_vests) in
  gt ← lift (asset_gt (acc_vesting_shares account) min_vests);
  assert (gt || (amount (wdv_vesting_shares o) =? 0))
    "Account registered by another account requires 10x account creation fee worth of Steem Power before it can be powered down.";;
  now ← head_block_time;
  if amount (wdv_vesting_shares o) =? 0 then
    assert (negb (amount (acc_vesting_withdraw_rate account) =? 0))
      "This operation would not change the vesting withdraw rate.";;
    modify (acc_id account) (λ a,
      Ok (set_acc_withdrawn 0
           (set_acc_to_withdraw 0
             (set_acc_next_vesting_withdrawal time_max
               (set_acc_vesting_withdraw_rate (Asset 0 VESTS_SYMBOL) a)))))
  else
    modify (acc_id account) (λ a,
      q ← safe_div (amount (wdv_vesting_shares o)) STEEMIT_VESTING_WITHDRAW_INTERVALS;
      let new_rate := Asset (if q =? 0 then 1 else q) VESTS_SYMBOL in
      FC_ASSERT (negb (asset_eq (acc_vesting_withdraw_rate a) new_rate))
        "This operation would not change the vesting withdraw rate.";;
      mret (set_acc_withdrawn 0
             (set_acc_to_withdraw (amount (wdv_vesting_shares o))
               (set_acc_next_vesting_withdrawal
                 (time_add now STEEMIT_VESTING_WITHDRAW_INTERVAL_SECONDS)
                 (set_acc_vesting_withdraw_rate new_rate a))))).

(** *** Routes *)

(** The routes from [upper_bound( from, account_id_type() )] on: the iteration
    starts after the key [(from, 0)], so a route to the account with id 0 is
    not visited. *)
Definition routes_of (from : Z) : database → list withdraw_vesting_route_object :=
  select (λ r, (wr_from_account r =? from) && (0 <? wr_to_account r))
    (λ x y, wr_to_account x <=? wr_to_account y).

Definition set_withdraw_vesting_route_evaluator (o : set_withdraw_vesting_route_operation) : DB unit :=
  from_account ← get_account (swr_from_account o);
  to_account ← get_account (swr_to_account o);
  itr ← find_by (λ r, (wr_from_account r =? acc_id from_account)
                      && (wr_to_account r =? acc_id to_account));
  let fill := λ r, set_wr_auto_vest (swr_auto_vest o)
                     (set_wr_percent (swr_percent o)
                       (set_wr_to_account (acc_id to_account)
                         (set_wr_from_account (acc_id from_account) r))) in
  match itr with
  | None =>
      assert (negb (swr_percent o =? 0)) "Cannot create a 0% destination.";;
      assert (acc_withdraw_routes from_account <? STEEMIT_MAX_WITHDRAW_ROUTES)
        "Account already has the maximum number of routes.";;
      create withdraw_vesting_route_object_default fill;;
      modify (acc_id from_account) (λ a,
        Ok (set_acc_withdraw_routes (to_uint16 (acc_withdraw_routes a + 1)) a))
  | Some r =>
      if swr_percent o =? 0 then
        remove withdraw_vesting_route_object (wr_id r);;
        modify (acc_id from_account) (λ a,
          Ok (set_acc_withdraw_routes (to_uint16 (acc_withdraw_routes a - 1)) a))
      else modify (wr_id r) (λ r, Ok (fill r))
  end;;
  routes ← gets (routes_of (acc_id from_account));
  let total_percent := foldl (λ s r, to_uint16 (s + wr_percent r)) 0 routes in
  assert (total_percent <=? STEEMIT_100_PERCENT)
    "More than 100% of vesting withdrawals allocated to destinations.".

(** *** [process_vesting_withdrawals] *)

(** What is withdrawn this time. *)
Definition withdrawal_amount (a : account_object) : result Z :=
  rest ← safe_sub (acc_to_withdraw a) (acc_withdrawn a);
  if rest <? amount (acc_vesting_withdraw_rate a) then
    m ← safe_mod (acc_to_withdraw a) (amount (acc_vesting_withdraw_rate a));
    mret (Z.min (amount (acc_vesting_shares a)) m)
  else mret (Z.min (amount (acc_vesting_shares a)) (amount (acc_vesting_withdraw_rate a))).

(** The part of the withdrawal that a route takes. *)
Definition route_share (to_withdraw : Z) (percent : Z) : result Z :=
  q ← u128_div (u128_mul (u128_of_int64 to_withdraw) percent) STEEMIT_100_PERCENT;
  x ← u128_to_uint64 q;
  mret (to_int64 x).

(** [vesting_shares.amount += x] *)
Definition add_shares (x : Z) (a : account_object) : result account_object :=
  v ← safe_add (amount (acc_vesting_shares a)) x;
  mret (set_acc_vesting_shares (Asset v (symbol (acc_vesting_shares a))) a).

(** A round of the first loop over the routes: shares that stay vested. *)
Definition deposit_vests (from : Z) (to_withdraw : Z) (deposited : Z) (route : Z) : DB Z :=
  r ← get withdraw_vesting_route_object route;
  if wr_auto_vest r then
    to_deposit ← lift (route_share to_withdraw (wr_percent r));
    deposited' ← lift (safe_add deposited to_deposit);
    when (0 <? to_deposit)
      (modify (wr_to_account r) (add_shares to_deposit);;
       adjust_proxied_witness_votes (wr_to_account r) to_deposit;;
       f ← get account_object from; t ← get account_object (wr_to_account r);
       push_virtual_operation (fill_vesting_withdraw_operation (acc_name f) (acc_name t)
         (Asset to_deposit VESTS_SYMBOL) (Asset to_deposit VESTS_SYMBOL)));;
    mret deposited'
  else mret deposited.

(** [total_vesting_fund_steem -= steem; total_vesting_shares.amount -= shares] *)
Definition take_from_fund (steem : asset) (shares : Z) : DB unit :=
  modify_gpo (λ g,
    f ← asset_sub (gpo_total_vesting_fund_steem g) steem;
    v ← safe_sub (amount (gpo_total_vesting_shares g)) shares;
    mret (set_gpo_total_vesting_shares (Asset v (symbol (gpo_total_vesting_shares g)))
           (set_gpo_total_vesting_fund_steem f g))).

(** A round of the second loop: shares that are paid out as STEEM. *)
Definition deposit_steem (from : Z) (to_withdraw : Z) (deposited : Z) (route : Z) : DB Z :=
  r ← get withdraw_vesting_route_object route;
  if negb (wr_auto_vest r) then
    get account_object (wr_to_account r);;
    to_deposit ← lift (route_share to_withdraw (wr_percent r));
    deposited' ← lift (safe_add deposited to_deposit);
    cprops ← get_dynamic_global_properties;
    converted_steem ← lift (asset_mul (Asset to_deposit VESTS_SYMBOL) (get_vesting_share_price cprops));
    when (0 <? to_deposit)
      (modify (wr_to_account r) (λ a,
         b ← asset_add (acc_balance a) converted_steem; mret (set_acc_balance b a));;
       take_from_fund converted_steem to_deposit;;
       f ← get account_object from; t ← get account_object (wr_to_account r);
       push_virtual_operation (fill_vesting_withdraw_operation (acc_name f) (acc_name t)
         (Asset to_deposit VESTS_SYMBOL) converted_steem));;
    mret deposited'
  else mret deposited.

(** The change of the account itself. *)
Definition pay_withdrawal (to_withdraw : Z) (converted_steem : asset) (a : account_object)
    : result account_object :=
  v ← safe_sub (amount (acc_vesting_shares a)) to_withdraw;
  b ← asset_add (acc_balance a) converted_steem;
  w ← safe_add (acc_withdrawn a) to_withdraw;
  let a1 := set_acc_withdrawn w (set_acc_balance b
              (set_acc_vesting_shares (Asset v (symbol (acc_vesting_shares a))) a)) in
  mret (if (acc_to_withdraw a1 <=? acc_withdrawn a1) || (amount (acc_vesting_shares a1) =? 0)
        then set_acc_next_vesting_withdrawal time_max
               (set_acc_vesting_withdraw_rate (Asset 0 (symbol (acc_vesting_withdraw_rate a1))) a1)
        else set_acc_next_vesting_withdrawal
               (time_add (acc_next_vesting_withdrawal a1) STEEMIT_VESTING_WITHDRAW_INTERVAL_SECONDS) a1).

(** One round of the [while] loop, for the account [from]. *)
Definition process_vesting_withdrawal (from : Z) : DB unit :=
  from_account ← get account_object from;
  to_withdraw ← lift (withdrawal_amount from_account);
  routes ← gets (routes_of from);
  vests_deposited_as_vests ← fold_m (wr_id <$> routes) (deposit_vests from to_withdraw) 0;
  routes' ← gets (routes_of from);
  vests_deposited_as_steem ← fold_m (wr_id <$> routes') (deposit_steem from to_withdraw) 0;
  to_convert ← lift (x ← safe_sub to_withdraw vests_deposited_as_steem;
                     safe_sub x vests_deposited_as_vests);
  assert (0 <=? to_convert) "Deposited more vests than were supposed to be withdrawn";;
  cprops ← get_dynamic_global_properties;
  converted_steem ← lift (asset_mul (Asset to_convert VESTS_SYMBOL) (get_vesting_share_price cprops));
  modify from (pay_withdrawal to_withdraw converted_steem);;
  take_from_fund converted_steem to_convert;;
  when (0 <? to_withdraw)
    (minus ← lift (safe_neg to_withdraw); adjust_proxied_witness_votes from minus);;
  f ← get account_object from;
  push_virtual_operation (fill_vesting_withdraw_operation (acc_name f) (acc_name f)
    (Asset to_withdraw VESTS_SYMBOL) converted_steem).

(** The order of [by_next_vesting_withdrawal]. *)
Definition withdrawal_leb (x y : account_object) : bool :=
  (acc_next_vesting_withdrawal x <? acc_next_vesting_withdrawal y)
  || ((acc_next_vesting_withdrawal x =? acc_next_vesting_withdrawal y) && (acc_id x <=? acc_id y)).
Definition withdrawals_begin (db : database) : option Z :=
  acc_id <$> head (select (λ _, true) withdrawal_leb db).
(** [++current] *)
Definition withdrawals_next (a : account_object) (db : database) : option Z :=
  acc_id <$> head (select (λ b, negb (withdrawal_leb b a)) withdrawal_leb db).

(** The loop follows an iterator: the account it has just processed may come
    again, further on.  An account is processed at most once per
    [STEEMIT_VESTING_WITHDRAW_INTERVAL_SECONDS] of the 32-bit clock, which
    bounds the rounds. *)
Fixpoint withdrawal_loop (fuel : nat) (current : option Z) : DB unit :=
  match current with
  | None => mret tt
  | Some from =>
      from_account ← get account_object from;
      now ← head_block_time;
      if acc_next_vesting_withdrawal from_account <=? now then
        match fuel with
        | O => throw (logic_error "out of rounds")
        | S fuel' =>
            next ← gets (withdrawals_next from_account);
            process_vesting_withdrawal from;;
            withdrawal_loop fuel' next
        end
      else mret tt
  end.

Definition withdrawal_rounds (db : database) : nat :=
  (size (trows (A := account_object) db)
   * Z.to_nat (U32 / STEEMIT_VESTING_WITHDRAW_INTERVAL_SECONDS + 2))%nat.

Definition process_vesting_withdrawals : DB unit :=
  rounds ← gets withdrawal_rounds;
  first ← gets withdrawals_begin;
  withdrawal_loop rounds first.

(** ** Rewards *)
Definition claim_reward_balance_evaluator (op : claim_reward_balance_operation) : DB unit :=
  acnt ← get_account (crb_account op);
  le1 ← lift (asset_le (crb_reward_steem op) (acc_reward_steem_balance acnt));
  assert le1 "Cannot claim that much STEEM.";;
  le2 ← lift (asset_le (crb_reward_sbd op) (acc_reward_sbd_balance acnt));
  assert le2 "Cannot claim that much SBD.";;
  le3 ← lift (asset_le (crb_reward_vests op) (acc_reward_vesting_balance acnt));
  assert le3 "Cannot claim that much VESTS.";;
  reward_vesting_steem_to_move ← lift
    (if asset_eq (crb_reward_vests op) (acc_reward_vesting_balance acnt)
     then Ok (acc_reward_vesting_steem acnt)
     else
       q ← u128_div (u128_mul (u128_of_int64 (amount (crb_reward_vests op)))
                              (u128_of_int64 (amount (acc_reward_vesting_steem acnt))))
                    (u128_of_int64 (amount (acc_reward_vesting_balance acnt)));
       x ← u128_to_uint64 q;
       mret (Asset (to_int64 x) STEEM_SYMBOL));
  minus1 ← lift (asset_neg (crb_reward_steem op));
  adjust_reward_balance (acc_id acnt) minus1;;
  minus2 ← lift (asset_neg (crb_reward_sbd op));
  adjust_reward_balance (acc_id acnt) minus2;;
  adjust_balance (acc_id acnt) (crb_reward_steem op);;
  adjust_balance (acc_id acnt) (crb_reward_sbd op);;
  modify (acc_id acnt) (λ a,
    v ← asset_add (acc_vesting_shares a) (crb_reward_vests op);
    b ← asset_sub (acc_reward_vesting_balance a) (crb_reward_vests op);
    s ← asset_sub (acc_reward_vesting_steem a) reward_vesting_steem_to_move;
    mret (set_acc_reward_vesting_steem s
           (set_acc_reward_vesting_balance b (set_acc_vesting_shares v a))));;
  modify_gpo (λ gpo,
    v ← asset_add (gpo_total_vesting_shares gpo) (crb_reward_vests op);
    f ← asset_add (gpo_total_vesting_fund_steem gpo) reward_vesting_steem_to_move;
    pv ← asset_sub (gpo_pending_rewarded_vesting_shares gpo) (crb_reward_vests op);
    ps ← asset_sub (gpo_pending_rewarded_vesting_steem gpo) reward_vesting_steem_to_move;
    mret (set_gpo_pending_rewarded_vesting_steem ps
           (set_gpo_pending_rewarded_vesting_shares pv
             (set_gpo_total_vesting_fund_steem f (set_gpo_total_vesting_shares v gpo)))));;
  adjust_proxied_witness_votes (acc_id acnt) (amount (crb_reward_vests op)).

(** ** Delegation *)
Definition add_delegated (x : asset) (a : account_object) : result account_object :=
  v ← asset_add (acc_delegated_vesting_shares a) x; mret (set_acc_delegated_vesting_shares v a).
Definition sub_delegated (x : asset) (a : account_object) : result account_object :=
  v ← asset_sub (acc_delegated_vesting_shares a) x; mret (set_acc_delegated_vesting_shares v a).
Definition add_received (x : asset) (a : account_object) : result account_object :=
  v ← asset_add (acc_received_vesting_shares a) x; mret (set_acc_received_vesting_shares v a).
Definition sub_received (x : asset) (a : account_object) : result account_object :=
  v ← asset_sub (acc_received_vesting_shares a) x; mret (set_acc_received_vesting_shares v a).

Definition by_delegation (delegator delegatee : string) (d : vesting_delegation_object) : bool :=
  bool_decide (vd_delegator d = delegator) && bool_decide (vd_delegatee d = delegatee).

Definition delegate_vesting_shares_evaluator (op : delegate_vesting_shares_operation) : DB unit :=
  delegator ← get_account (dvs_delegator op);
  delegatee ← get_account (dvs_delegatee op);
  delegation ← find_by (by_delegation (dvs_delegator op) (dvs_delegatee op));
  available_shares ← lift
    (x ← asset_sub (acc_vesting_shares delegator) (acc_delegated_vesting_shares delegator);
     y ← safe_sub (acc_to_withdraw delegator) (acc_withdrawn delegator);
     asset_sub x (Asset y VESTS_SYMBOL));
  wso ← get_witness_schedule_object;
  gpo ← get_dynamic_global_properties;
  min_delegation ← lift
    (f ← safe_mul (amount (account_creation_fee (wso_median_props wso))) 10;
     asset_mul (Asset f STEEM_SYMBOL) (get_vesting_share_price gpo));
  min_update ← lift (asset_mul (account_creation_fee (wso_median_props wso))
                               (get_vesting_share_price gpo));
  now ← head_block_time;
  match delegation with
  | None =>
      assert_ge available_shares (dvs_vesting_shares op)
        "Account does not have enough vesting shares to delegate.";;
      assert_ge (dvs_vesting_shares op) min_delegation "Account must delegate a minimum";;
      create vesting_delegation_object_default (λ d,
        set_vd_min_delegation_time now
          (set_vd_vesting_shares (dvs_vesting_shares op)
            (set_vd_delegatee (dvs_delegatee op) (set_vd_delegator (dvs_delegator op) d))));;
      modify (acc_id delegator) (add_delegated (dvs_vesting_shares op));;
      modify (acc_id delegatee) (add_received (dvs_vesting_shares op))
  | Some d =>
      ge ← lift (asset_ge (dvs_vesting_shares op) (vd_vesting_shares d));
      if (ge : bool) then
        delta ← lift (asset_sub (dvs_vesting_shares op) (vd_vesting_shares d));
        assert_ge delta min_update "Steem Power increase is not enough of a difference.";;
        assert_ge available_shares delta
          "Account does not have enough vesting shares to delegate.";;
        modify (acc_id delegator) (add_delegated delta);;
        modify (acc_id delegatee) (add_received delta);;
        modify (vd_id d) (λ d, Ok (set_vd_vesting_shares (dvs_vesting_shares op) d))
      else
        delta ← lift (asset_sub (vd_vesting_shares d) (dvs_vesting_shares op));
        (if 0 <? amount (dvs_vesting_shares op) then
           assert_ge delta min_update "Steem Power decrease is not enough of a difference.";;
           assert_ge (dvs_vesting_shares op) min_delegation
             "Delegation must be removed or leave minimum delegation amount"
         else
           assert (0 <? amount (vd_vesting_shares d))
             "Delegation would set vesting_shares to zero, but it is already zero");;
        create vesting_delegation_expiration_object_default (λ e,
          set_vde_expiration
            (Z.max (time_add now STEEMIT_CASHOUT_WINDOW_SECONDS) (vd_min_delegation_time d))
            (set_vde_vesting_shares delta (set_vde_delegator (dvs_delegator op) e)));;
        modify (acc_id delegatee) (sub_received delta);;
        if 0 <? amount (dvs_vesting_shares op) then
          modify (vd_id d) (λ d, Ok (set_vd_vesting_shares (dvs_vesting_shares op) d))
        else remove vesting_delegation_object (vd_id d)
  end.

(** One round of the loop of [clear_expired_delegations]. *)
Definition clear_expired_delegation (itr : Z) : DB unit :=
  e ← get vesting_delegation_expiration_object itr;
  a ← get_account (vde_delegator e);
  modify (acc_id a) (sub_delegated (vde_vesting_shares e));;
  push_virtual_operation
    (return_vesting_delegation_operation (vde_delegator e) (vde_vesting_shares e));;
  remove vesting_delegation_expiration_object itr.

Definition expired_delegations (now : Z) : database → list vesting_delegation_expiration_object :=
  select (λ e, vde_expiration e <? now)
    (λ x y, (vde_expiration x <? vde_expiration y)
            || ((vde_expiration x =? vde_expiration y) && (vde_id x <=? vde_id y))).

Definition clear_expired_delegations : DB unit :=
  now ← head_block_time;
  l ← gets (expired_delegations now);
  for_each (vde_id <$> l) clear_expired_delegation.
End vesting.

(** ** Effects on the supply equations *)
Section vesting_shifts.
Context {F : Fc}.

(** A route takes its percentage of the withdrawal, rounded down, and never a
    negative amount. *)
Lemma route_share_ok w p x :
  in_int64 w = true → 0 ≤ p ≤ STEEMIT_100_PERCENT → route_share w p = Ok x →
  0 ≤ x ∧ (w < 0 → x = 0) ∧ (0 ≤ w → x = w * p / STEEMIT_100_PERCENT).
Proof.
  intros Hw%in_int64_spec Hp H. unfold route_share, STEEMIT_100_PERCENT in *.
  rewrite u128_div_spec in H by lia. unfold INT64_MIN, INT64_MAX in *. inv_ok.
  rewrite u128_mul_spec, u128_of_int64_spec in *.
  destruct (decide (0 ≤ w)) as [Hnn|Hneg].
  - rewrite (Z.mod_small w), (Z.mod_small (w * p)) in * by (unfold U128; nia).
    match goal with H : u128_to_uint64 _ = _ |- _ => apply u128_to_uint64_ok in H as [-> ?] end;
      [|apply Z.div_pos; nia].
    assert (w * p / 10000 ≤ w) by (apply Z.div_le_upper_bound; nia).
    assert (0 ≤ w * p / 10000) by (apply Z.div_pos; nia).
    rewrite to_int64_id by (unfold INT64_MIN, INT64_MAX; lia). lia.
  - destruct (decide (p = 0)) as [->|Hp0].
    + rewrite Z.mul_0_r, Z.mod_0_l, Z.div_0_l, u128_to_uint64_spec in * by done. inv_ok.
      change (to_int64 0) with 0. lia.
    + exfalso.
      assert (w mod U128 * p mod U128 = U128 + w * p) as E.
      { rewrite Z.mul_mod_idemp_l by done.
        rewrite <- (Z.mod_add (w * p) 1) by done. rewrite Z.mod_small; unfold U128; nia. }
      rewrite E in *. pose proof (u128_to_uint64_hi ((U128 + w * p) / 10000)) as Hhi.
      match goal with H : u128_to_uint64 _ = _ |- _ => rewrite H in Hhi end.
      assert (U64 ≤ (U128 + w * p) / 10000); [|by specialize (Hhi ltac:(done))].
      apply Z.div_le_lower_bound; unfold U64, U128; nia.
Qed.

Lemma withdrawal_amount_int64 a x :
  row_ok a → withdrawal_amount a = Ok x → in_int64 x = true.
Proof.
  unfold withdrawal_amount. intros (Hv & Hw & Hr) H. rewrite in_int64_spec in *.
  unfold INT64_MIN, INT64_MAX in *. inv_ok. split_cases; inv_ok; inv_safe; subst; [|lia].
  pose proof (Z.rem_bound_abs (acc_to_withdraw a) (amount (acc_vesting_withdraw_rate a)) ltac:(done)).
  lia.
Qed.

(** A change of the shares of an account by [x], then of its votes. *)
Lemma shares_then_votes a f x db u1 s1 u2 db' :
  db_wf db → db_wf s1 →
  (∀ y y', f y = Ok y' → vsf y' + reaches 4 y' x = vsf y + x) →
  modify (A := account_object) a f db = Ok (u1, s1) →
  adjust_proxied_witness_votes a x s1 = Ok (u2, db') →
  ∃ y y', trows db !! a = Some y ∧ f y = Ok y' ∧ db_wf db' ∧
  ∀ k, imb k db' = imb k db + match k with KVsf => - x | _ => weight k y - weight k y' end.
Proof.
  intros Hdb Hs1 Hf Hmod Hadj.
  destruct (shares_and_votes a f x (mret tt : DB unit) db u1 s1 tt s1 u2 db') as (y & y' & Hy & Hfy & Hw & HI);
    [done..|apply keeps_read; intros; by inv_ok|done|done|].
  exists y, y'. split_and!; [done..|]. intros k. destruct (HI k) as [HI1 HI2]. rewrite HI2, HI1.
  change (weight KVsf) with vsf. destruct k; try lia. change (weight KVsf) with vsf. lia.
Qed.

Lemma add_shares_votes x y y' :
  add_shares x y = Ok y' → vsf y' + reaches 4 y' x = vsf y + x.
Proof. unfold add_shares. intros. inv_ok. inv_safe. subst. by apply vsf_add_shares. Qed.

(** What a loop over routes does, for a withdrawal of [w]: the deposits are
    not negative, and they are taken from the shares. *)
Definition deposits (w d d' : Z) (db db' : database) : Prop :=
  db_wf db' ∧ d ≤ d' ∧ (w < 0 → d' = d) ∧
  ∀ k, imb k db' = imb k db - match k with KVests | KVsf => d' - d | _ => 0 end.

Lemma deposit_vests_deposits from w d r db d' db' :
  in_int64 w = true → db_wf db → deposit_vests from w d r db = Ok (d', db') →
  deposits w d d' db db'.
Proof.
  intros Hw Hdb H. unfold deposit_vests in H. inv_db.
  match goal with H : trows db !! r = Some ?x |- _ => pose proof (row_ok_at db r x Hdb H) as Hr end.
  split_cases; inv_db.
  3: { split_and!; [done|lia|done|]. intros k. destruct k; lia. }
  all: match goal with H : route_share _ _ = _ |- _ => apply route_share_ok in H as (? & ? & ?); [|done..] end.
  all: inv_safe; bool_simpl; subst.
  2: { split_and!; [done|lia|lia|]. intros k. destruct k; lia. }
  match goal with
  | H1 : modify _ _ db = Ok (_, ?s1), H2 : adjust_proxied_witness_votes _ _ ?s1 = Ok _ |- _ =>
      assert (db_wf s1) by (refine (modify_wf _ _ _ _ _ Hdb _ H1); unfold add_shares; solve_row);
      destruct (shares_then_votes _ _ _ _ _ _ _ _ Hdb ltac:(done) (add_shares_votes _) H1 H2)
        as (y & y' & _ & Hy & Hs2 & HI); clear H1 H2
  end.
  shift_all. split_and!; [done|lia|lia|]. intros k. at_kind k. unfold add_shares in Hy.
  inv_ok. inv_safe. subst. destruct k; ledger_eq.
Qed.

Lemma deposit_steem_deposits from w d r db d' db' :
  in_int64 w = true → db_wf db → deposit_steem from w d r db = Ok (d', db') →
  deposits w d d' db db'.
Proof.
  intros Hw Hdb H. unfold deposit_steem in H. inv_db.
  match goal with H : trows db !! r = Some ?x |- _ => pose proof (row_ok_at db r x Hdb H) as Hr end.
  split_cases; inv_db.
  3: { split_and!; [done|lia|done|]. intros k. destruct k; lia. }
  all: match goal with H : route_share _ _ = _ |- _ => apply route_share_ok in H as (? & ? & ?); [|done..] end.
  all: inv_safe; bool_simpl; subst.
  2: { split_and!; [done|lia|lia|]. intros k. destruct k; lia. }
  unfold take_from_fund in *. shift_all. split_and!; [done|lia|lia|]. intros k. at_kind k.
  inv_ok. inv_asset. inv_safe. subst. ledger k.
Qed.

Lemma fold_deposits w (f : Z → Z → DB Z) l d db d' db' :
  (∀ d r db d' db', db_wf db → f d r db = Ok (d', db') → deposits w d d' db db') →
  db_wf db → fold_m l f d db = Ok (d', db') → deposits w d d' db db'.
Proof.
  intros Hf. revert d db. induction l as [|r l IH]; intros d db Hdb H; cbn [fold_m] in H.
  { inv_ok. split_and!; [done|lia|done|]. intros k. destruct k; lia. }
  apply bind_ok in H as (d1 & s & H1 & H2).
  destruct (Hf _ _ _ _ _ Hdb H1) as (Hs & Hd1 & Hn1 & HI1).
  destruct (IH _ _ Hs H2) as (Hs' & Hd2 & Hn2 & HI2).
  split_and!; [done|lia|intros Hneg; rewrite Hn2, Hn1 by done; done|].
  intros k. rewrite HI2, HI1. destruct k; lia.
Qed.

Lemma pay_withdrawal_row w c y y' : pay_withdrawal w c y = Ok y' → row_ok y → row_ok y'.
Proof.
  unfold pay_withdrawal. intros H (? & ? & ?). inv_ok. inv_safe. split_cases; done.
Qed.

Lemma pay_withdrawal_ok w c y y' :
  pay_withdrawal w c y = Ok y' →
  vsf y' + reaches 4 y' (- w) = vsf y - w ∧
  ∀ k, k ≠ KVsf → weight k y' = weight k y
    + match k with KSteem => amount c | KVests => - w | _ => 0 end.
Proof.
  unfold pay_withdrawal. intros. inv_ok. inv_safe. inv_asset. subst. split.
  - match goal with |- vsf ?t + _ = _ =>
      assert (∀ v, vsf t = vsf (set_acc_vesting_shares (Asset (amount (acc_vesting_shares y) + - w) v) y)
        ∧ reaches 4 t (- w) = reaches 4 (set_acc_vesting_shares (Asset (amount (acc_vesting_shares y) + - w) v) y) (- w)) as E
        by (intros v; split_cases; done) end.
    destruct (E 0) as [-> ->]. rewrite (vsf_add_shares y _ (- w)) by done. lia.
  - intros k Hk. split_cases; destruct k; try done; ledger_eq.
Qed.

Lemma process_vesting_withdrawal_conserves from : Conserves (process_vesting_withdrawal from).
Proof.
  intros db u db' Hdb H. unfold process_vesting_withdrawal in H.
  inv_db;
  match goal with H : trows db !! from = Some ?x, H' : withdrawal_amount ?x = Ok ?w |- _ =>
    pose proof (withdrawal_amount_int64 x w (row_ok_at db from x Hdb H) H') as Hw; clear H' end;
  repeat match goal with
  | H : fold_m _ (deposit_vests _ _) _ _ = Ok _ |- _ =>
      eapply fold_deposits in H as (? & ? & ? & HI1); [|intros; by eapply deposit_vests_deposits|done]
  | H : fold_m _ (deposit_steem _ _) _ _ = Ok _ |- _ =>
      eapply fold_deposits in H as (? & ? & ? & HI2); [|intros; by eapply deposit_steem_deposits|done]
  end; inv_safe; bool_simpl; subst.
  2: assert (a0 = 0) as -> by lia.
  all: match goal with H1 : modify _ _ ?s0 = Ok (_, ?s1) |- _ => assert (db_wf s1)
    by (refine (modify_wf _ _ _ _ _ _ _ H1); [done|]; intros ?? _; apply pay_withdrawal_row) end.
  all: match goal with H2 : take_from_fund _ _ ?s = _ |- _ => unfold take_from_fund in H2;
         pose proof (modify_gpo_wf _ _ _ _ ltac:(done) H2);
         pose proof (modify_gpo_imb _ _ _ _ H2) as (g & Hg & HIg) end.
  - match goal with H3 : adjust_proxied_witness_votes _ _ _ = _,
      H2 : modify_gpo ?f _ = _, H1 : modify _ _ _ = _ |- _ =>
        eapply (shares_and_votes _ _ _ (modify_gpo f)) in H3 as (y & y' & Hy & Hf & Hwf & HI);
          [|idtac| |exact H1|exact H2|by apply keeps_gpo|done]; [|done|] end.
    2: { intros y y' Hy%pay_withdrawal_ok. lia. }
    clear Hm8 Hm9. shift_all. split; [done|]. intros k. destruct (HI k) as [HI3 HI4].
    destruct (pay_withdrawal_ok _ _ _ _ Hf) as [Hvsf Hwt]. specialize (Hwt k).
    at_kind k. clear HI. inv_ok. inv_asset. inv_safe. subst.
    change (weight KVsf) with vsf in *.
    destruct k; try (specialize (Hwt ltac:(done))); ledger_eq.
  - match goal with H1 : modify _ _ _ = _ |- _ =>
      apply modify_imb in H1 as (y & y' & Hy & Hf & HI) end.
    clear Hm9. shift_all. split; [done|]. intros k.
    destruct (pay_withdrawal_ok _ _ _ _ Hf) as [Hvsf Hwt]. specialize (Hwt k).
    assert (reaches 4 y' (- 0) = 0) as E by (unfold reaches; split_cases; lia). rewrite E in Hvsf.
    at_kind k. inv_ok. inv_asset. inv_safe. subst. change (weight KVsf) with vsf in *.
    destruct k; try (specialize (Hwt ltac:(done))); ledger_eq.
Qed.

#[local] Existing Instance process_vesting_withdrawal_conserves.
#[local] Typeclasses Opaque process_vesting_withdrawal.

#[export] Instance withdrawal_loop_conserves fuel c : Conserves (withdrawal_loop fuel c).
Proof.
  revert c. induction fuel as [|fuel IH]; intros [from|]; cbn [withdrawal_loop]; conserve.
Qed.
#[export] Instance process_vesting_withdrawals_conserves : Conserves process_vesting_withdrawals.
Proof. unfold process_vesting_withdrawals. conserve. Qed.

(** The amount of the operation is a 64-bit value. *)
Lemma withdraw_vesting_conserves o :
  in_int64 (amount (wdv_vesting_shares o)) = true → Conserves (withdraw_vesting_evaluator o).
Proof.
  intros Hi. unfold withdraw_vesting_evaluator. conserve; try apply modify_conserves;
  intros x y Hy; inv_ok; (split; [|by intros []]); intros (? & ? & ?); split_and!; cbn; try done.
  inv_safe. subst. case_match; done.
Qed.

Lemma set_withdraw_vesting_route_conserves o :
  set_withdraw_vesting_route_validate o = Ok tt → Conserves (set_withdraw_vesting_route_evaluator o).
Proof.
  unfold set_withdraw_vesting_route_validate. intros Hv. inv_okb. bool_simpl.
  unfold set_withdraw_vesting_route_evaluator. conserve;
    first [apply create_weightless_row | apply modify_weightless_row]; intros; inv_ok; by split.
Qed.

#[export] Instance delegate_vesting_shares_conserves o :
  Conserves (delegate_vesting_shares_evaluator o).
Proof.
  unfold delegate_vesting_shares_evaluator, add_delegated, add_received, sub_received. conserve.
Qed.
#[export] Instance clear_expired_delegations_conserves : Conserves clear_expired_delegations.
Proof.
  unfold clear_expired_delegations, clear_expired_delegation, sub_delegated. conserve.
Qed.

#[export] Instance claim_reward_balance_conserves o :
  Conserves (claim_reward_balance_evaluator o).
Proof.
  intros db u db' Hdb H. unfold claim_reward_balance_evaluator in H. inv_db; shift_all.
  match goal with H : (if asset_eq _ _ then _ else _) = Ok _ |- _ => clear H end.
  match goal with
  | Hs : db_wf ?s, H1 : modify _ _ ?s = Ok (_, ?s1), H2 : modify_gpo ?f ?s1 = Ok (_, ?s2),
    H3 : adjust_proxied_witness_votes _ _ ?s2 = Ok (_, _) |- _ =>
      assert (db_wf s1) by (refine (modify_wf _ _ _ _ _ Hs _ H1); solve_row);
      assert (db_wf s2) by (by eapply modify_gpo_wf);
      pose proof (modify_gpo_imb _ _ _ _ H2) as (g & Hg & HIg);
      eapply (shares_and_votes _ _ _ (modify_gpo f)) in H3 as (y & y' & Hy & Hf & Hw & HI3);
        [|exact Hs| |exact H1|exact H2|by apply keeps_gpo|done]
  end.
  - split; [done|]. intros k. destruct (HI3 k) as [HI4 HI5]. clear HI3. at_kind k.
    change (weight KVsf) with vsf in *. clear Hm12 Hm13. inv_ok. inv_asset. subst.
    rewrite !by_symbol_neg in *.
    destruct k; ledger_eq.
  - intros y y' Hy. inv_ok. inv_asset. subst.
    match goal with |- vsf ?t + reaches _ ?t _ = _ => match t with context [set_acc_vesting_shares ?b y] =>
      change (vsf t) with (vsf (set_acc_vesting_shares b y));
      change (reaches 4 t) with (reaches 4 (set_acc_vesting_shares b y)) end end.
    by apply vsf_add_shares.
Qed.
End vesting_shifts.
