(* ===== verification/Frames.v ===== *)
(** * What operations leave alone

    [links db] is what ties the accounts together: for every account its name,
    its proxy and the shares it has delegated and received.  [KeepsLinks m] says
    that a successful run of [m] keeps them.  Most operations do; the ones that
    change the proxies ([Proxies.v]) or the delegations ([Delegations.v]) keep
    the invariants of these files instead. *)
From S2P Require Import Prelude Fc Config Asset Chainbase ChainbaseSpec Objects Database.
From S2P Require Import Supply Protocol Votes Ledger Genesis Transfers Market Escrow Vesting.

Record link := Link {
  link_id : Z; link_name : string; link_proxy : string; link_delegated : asset;
  link_received : asset }.
Definition link_of (a : account_object) : link :=
  Link (acc_id a) (acc_name a) (acc_proxy a) (acc_delegated_vesting_shares a)
    (acc_received_vesting_shares a).

Definition links (db : database) : gmap Z link := link_of <$> trows (A := account_object) db.

(** Every account is filed under its id. *)
Definition account_ids (db : database) : Prop :=
  ∀ i a, trows (A := account_object) db !! i = Some a → acc_id a = i.

Class KeepsLinks {A} (m : DB A) : Prop :=
  keeps_links_run : ∀ db a db', account_ids db → m db = Ok (a, db') →
    account_ids db' ∧ links db' = links db.

Lemma wf_account_ids db : db_wf db → account_ids db.
Proof. intros Hdb i a Hi. exact (row_id_at db i a Hdb Hi). Qed.

Lemma links_bind {A B} (m : DB A) (f : A → DB B) :
  KeepsLinks m → (∀ a, KeepsLinks (f a)) → KeepsLinks (m ≫= f).
Proof.
  intros H1 H2 db b db' Hdb (a & s & Hm & Hk)%bind_ok.
  destruct (H1 _ _ _ Hdb Hm) as [Hs E1]. destruct (H2 _ _ _ _ Hs Hk) as [Hs' E2].
  split; [done|]. congruence.
Qed.
Lemma links_keeps {A} (m : DB A) : Keeps db_accounts m → KeepsLinks m.
Proof.
  intros Hk db a db' Hdb Hm. specialize (Hk _ _ _ Hm).
  unfold account_ids, links, trows in *. cbn [tbl accounts_table] in *. by rewrite Hk.
Qed.
Lemma links_when b (m : DB unit) : KeepsLinks m → KeepsLinks (when b m).
Proof. intros Hm. destruct b; [done|]. apply links_keeps, keeps_read. intros. by inv_ok. Qed.
Lemma links_for_each {A} (l : list A) (f : A → DB unit) :
  (∀ x, KeepsLinks (f x)) → KeepsLinks (for_each l f).
Proof.
  intros Hf. induction l as [|x l IH]; simpl;
    [apply links_keeps, keeps_read; intros; by inv_ok|by apply links_bind].
Qed.
Lemma links_modify_at i (f : account_object → result account_object) db u db' :
  account_ids db → (∀ x y, trows db !! i = Some x → f x = Ok y → link_of y = link_of x) →
  modify i f db = Ok (u, db') → account_ids db' ∧ links db' = links db.
Proof.
  intros Hdb Hf (x & y & m & Hx & Hy & Hm & ->)%modify_ok.
  specialize (Hf x y Hx Hy). assert (acc_id y = i) as Hid.
  { rewrite <- (Hdb _ _ Hx). by injection Hf. }
  apply container_modify_Some in Hm as [_ ->]; [|done].
  unfold account_ids, links. rewrite trows_set. cbn [Abs.rows]. split.
  - intros j z [[<- <-]|[_ Hz]]%lookup_insert_Some; [done|by apply Hdb].
  - rewrite fmap_insert, Hf. apply insert_id. by rewrite lookup_fmap, Hx.
Qed.
Lemma links_modify i (f : account_object → result account_object) :
  (∀ x y, f x = Ok y → link_of y = link_of x) → KeepsLinks (modify i f).
Proof. intros Hf db u db' Hdb. apply links_modify_at; auto. Qed.
Lemma links_fold {A B} (l : list A) (f : B → A → DB B) b :
  (∀ b x, KeepsLinks (f b x)) → KeepsLinks (fold_m l f b).
Proof.
  intros Hf. revert b. induction l as [|x l IH]; intros b; simpl;
    [apply links_keeps, keeps_read; intros; by inv_ok|by apply links_bind].
Qed.

(** Goes through a program and shows that it keeps the links. *)
Ltac link1 :=
  match goal with
  | |- ∀ _, _ => intros ?
  | |- KeepsLinks (_ ≫= _) => apply links_bind
  | |- KeepsLinks (when _ _) => apply links_when
  | |- KeepsLinks (for_each _ _) => apply links_for_each
  | |- KeepsLinks (fold_m _ _ _) => apply links_fold
  | |- KeepsLinks (match ?x with _ => _ end) => destruct x
  | |- KeepsLinks (modify _ _) =>
      first [ apply links_keeps, keeps_modify; reflexivity
            | apply links_modify; intros ?? ?; split_cases; inv_ok; split_cases; reflexivity ]
  | |- KeepsLinks _ => solve [apply _]
  | |- KeepsLinks _ => apply links_keeps; solve [keep1]
  end.
Ltac link := repeat link1.

Section keeps_links.
Context {F : Fc}.

Lemma add_proxied_link d x a b : add_proxied d x a = Ok b → link_of b = link_of a.
Proof. unfold add_proxied. case_match; [|done]. intros. by inv_ok. Qed.
Lemma add_proxied_upto_link n d l a b : add_proxied_upto n d l a = Ok b → link_of b = link_of a.
Proof.
  revert a. induction n as [|n IH]; intros a; simpl; [by intros [= ->]|].
  case_match; [|done]. intros. inv_ok. etrans; [by apply IH|]. by eapply add_proxied_link.
Qed.

#[export] Instance adjust_witness_votes_links a d : KeepsLinks (adjust_witness_votes a d).
Proof. apply links_keeps, adjust_witness_votes_keeps. done. Qed.
#[export] Instance adjust_witness_vote_links a d : KeepsLinks (adjust_witness_vote a d).
Proof. unfold adjust_witness_vote. link. Qed.
#[export] Instance adjust_proxied_scalar_links n a d : KeepsLinks (adjust_proxied_scalar n a d).
Proof.
  revert a. induction n as [|n IH]; intros a; cbn [adjust_proxied_scalar]; link.
  apply links_modify. intros. by eapply add_proxied_link.
Qed.
#[export] Instance adjust_proxied_array_links n a d : KeepsLinks (adjust_proxied_array n a d).
Proof.
  revert a. induction n as [|n IH]; intros a; cbn [adjust_proxied_array]; link.
  apply links_modify. intros. by eapply add_proxied_upto_link.
Qed.
#[export] Instance adjust_proxied_links a d : KeepsLinks (adjust_proxied_witness_votes a d).
Proof. apply adjust_proxied_scalar_links. Qed.
#[export] Instance adjust_proxied_all_links a d :
  KeepsLinks (adjust_proxied_witness_votes_array a d).
Proof. apply adjust_proxied_array_links. Qed.
#[export] Instance clear_witness_votes_links a : KeepsLinks (clear_witness_votes a).
Proof. unfold clear_witness_votes. link. Qed.
#[export] Instance account_witness_vote_links o : KeepsLinks (account_witness_vote_evaluator o).
Proof. unfold account_witness_vote_evaluator. link. Qed.
#[export] Instance decline_voting_rights_links o : KeepsLinks (decline_voting_rights_evaluator o).
Proof. unfold decline_voting_rights_evaluator. link. Qed.

(** *** Balances *)
Lemma adjust_balance_of_link now rate d a b paid :
  adjust_balance_of now rate d a = Ok (b, paid) → link_of b = link_of a.
Proof.
  unfold adjust_balance_of. repeat case_match; intros; inv_okb; [done|].
  destruct_pair. inv_ok. by simplify_eq.
Qed.
Lemma adjust_savings_balance_of_link now rate d a b paid :
  adjust_savings_balance_of now rate d a = Ok (b, paid) → link_of b = link_of a.
Proof.
  unfold adjust_savings_balance_of. repeat case_match; intros; inv_okb; [done|].
  destruct_pair. inv_ok. by simplify_eq.
Qed.

(** The row that [adjust_balance] writes is made from the one it read. *)
Lemma links_replace {A} (m : DB A) a x y db u db' :
  account_ids db → trows (A := account_object) db !! a = Some x → link_of y = link_of x →
  Keeps db_accounts m → (m;; modify a (λ _, Ok y)) db = Ok (u, db') →
  account_ids db' ∧ links db' = links db.
Proof.
  intros Hdb Hx Hy Hkeep (v & s & Hm & Hmod)%bind_ok.
  destruct (links_keeps m Hkeep _ _ _ Hdb Hm) as [Hs <-].
  eapply links_modify_at; [done| |done]. intros x' y' Hx' [= <-].
  specialize (Hkeep _ _ _ Hm). unfold trows in *. cbn [tbl accounts_table] in *. congruence.
Qed.

#[export] Instance adjust_balance_links a d : KeepsLinks (adjust_balance a d).
Proof.
  intros db u db' Hdb H. unfold adjust_balance in H. inv_db. destruct_pair.
  eapply links_replace; [done..| | |done].
  - by eapply adjust_balance_of_link.
  - by apply pay_interest_keeps.
Qed.
#[export] Instance adjust_savings_balance_links a d : KeepsLinks (adjust_savings_balance a d).
Proof.
  intros db u db' Hdb H. unfold adjust_savings_balance in H. inv_db. destruct_pair.
  eapply links_replace; [done..| | |done].
  - by eapply adjust_savings_balance_of_link.
  - by apply pay_interest_keeps.
Qed.
#[export] Instance adjust_reward_balance_links a d : KeepsLinks (adjust_reward_balance a d).
Proof. unfold adjust_reward_balance. link. Qed.
#[export] Instance adjust_supply_links d b : KeepsLinks (adjust_supply d b).
Proof. unfold adjust_supply. link. Qed.
#[export] Instance create_sbd_links a s b : KeepsLinks (create_sbd a s b).
Proof. unfold create_sbd. link. Qed.
#[export] Instance create_vesting_links a s b : KeepsLinks (create_vesting a s b).
Proof. unfold create_vesting. link. Qed.
#[export] Instance pay_fee_links a f : KeepsLinks (pay_fee a f).
Proof. unfold pay_fee. link. Qed.

(** *** Transfers and savings *)
#[export] Instance assert_ge_links a b msg : KeepsLinks (assert_ge a b msg).
Proof. unfold assert_ge. link. Qed.
#[export] Instance transfer_links o : KeepsLinks (transfer_evaluator o).
Proof. unfold transfer_evaluator. link. Qed.
#[export] Instance transfer_to_vesting_links o : KeepsLinks (transfer_to_vesting_evaluator o).
Proof. unfold transfer_to_vesting_evaluator. link. Qed.
#[export] Instance transfer_to_savings_links o : KeepsLinks (transfer_to_savings_evaluator o).
Proof. unfold transfer_to_savings_evaluator. link. Qed.
#[export] Instance transfer_from_savings_links o : KeepsLinks (transfer_from_savings_evaluator o).
Proof. unfold transfer_from_savings_evaluator. link. Qed.
#[export] Instance cancel_transfer_from_savings_links o :
  KeepsLinks (cancel_transfer_from_savings_evaluator o).
Proof. unfold cancel_transfer_from_savings_evaluator. link. Qed.
#[export] Instance feed_publish_links o : KeepsLinks (feed_publish_evaluator o).
Proof. unfold feed_publish_evaluator. link. Qed.

(** *** The market *)
#[export] Instance cancel_order_links o : KeepsLinks (cancel_order o).
Proof. unfold cancel_order. link. Qed.
#[export] Instance fill_order_links o p r : KeepsLinks (fill_order o p r).
Proof. unfold fill_order. link. Qed.
#[export] Instance adjust_liquidity_reward_links o v b : KeepsLinks (adjust_liquidity_reward o v b).
Proof. unfold adjust_liquidity_reward. link. Qed.
#[export] Instance match_orders_links n o p : KeepsLinks (match_orders n o p).
Proof. unfold match_orders. link. Qed.
#[export] Instance match_loop_links l i : KeepsLinks (match_loop l i).
Proof. induction i; simpl; link. Qed.
#[export] Instance apply_order_links i : KeepsLinks (apply_order i).
Proof. unfold apply_order. link. Qed.
#[export] Instance limit_order_create_links o : KeepsLinks (limit_order_create_evaluator o).
Proof. unfold limit_order_create_evaluator, create_order. link. Qed.
#[export] Instance limit_order_create2_links o : KeepsLinks (limit_order_create2_evaluator o).
Proof. unfold limit_order_create2_evaluator, create_order. link. Qed.
#[export] Instance limit_order_cancel_links o : KeepsLinks (limit_order_cancel_evaluator o).
Proof. unfold limit_order_cancel_evaluator. link. Qed.
#[export] Instance convert_links o : KeepsLinks (convert_evaluator o).
Proof. unfold convert_evaluator. link. Qed.

(** *** Escrows *)
#[export] Instance return_escrow_links a i : KeepsLinks (return_escrow a i).
Proof. unfold return_escrow. link. Qed.
#[export] Instance pay_agent_links a i : KeepsLinks (pay_agent a i).
Proof. unfold pay_agent. link. Qed.
#[export] Instance escrow_transfer_links o : KeepsLinks (escrow_transfer_evaluator o).
Proof. unfold escrow_transfer_evaluator. link. Qed.
#[export] Instance escrow_approve_links o : KeepsLinks (escrow_approve_evaluator o).
Proof. unfold escrow_approve_evaluator. link. Qed.
#[export] Instance escrow_dispute_links o : KeepsLinks (escrow_dispute_evaluator o).
Proof. unfold escrow_dispute_evaluator. link. Qed.
#[export] Instance escrow_release_links o : KeepsLinks (escrow_release_evaluator o).
Proof. unfold escrow_release_evaluator. link. Qed.

(** *** Vesting *)
#[export] Instance withdraw_vesting_links o : KeepsLinks (withdraw_vesting_evaluator o).
Proof. unfold withdraw_vesting_evaluator. link. Qed.
#[export] Instance set_withdraw_vesting_route_links o :
  KeepsLinks (set_withdraw_vesting_route_evaluator o).
Proof. unfold set_withdraw_vesting_route_evaluator. link. Qed.
#[export] Instance claim_reward_balance_links o : KeepsLinks (claim_reward_balance_evaluator o).
Proof. unfold claim_reward_balance_evaluator. link. Qed.
End keeps_links.
