(* ===== verification/Proxies.v ===== *)
(** * Voting proxies form no loops

    [account_witness_proxy_evaluator] refuses a proxy that would close a loop.
    [no_proxy_loops] is the invariant it maintains: the chain of proxies of every
    account ends.  Under it the evaluator and [process_decline_voting_rights]
    move the votes of an account without losing or doubling any. *)
From S2P Require Import Prelude Fc Config Asset Chainbase ChainbaseSpec Objects Database.
From S2P Require Import Supply Protocol Votes Ledger Genesis Transfers Market Escrow Vesting.
From S2P Require Import Frames.

(** The account [a] has handed its votes to the account [b]. *)
Definition proxy_edge (L : gmap Z link) (a b : Z) : Prop :=
  ∃ x y, L !! a = Some x ∧ L !! b = Some y ∧
    link_proxy x ≠ STEEMIT_PROXY_TO_SELF_ACCOUNT ∧ link_name y = link_proxy x.

Definition loop_free (L : gmap Z link) : Prop := ∀ a, Acc (flip (proxy_edge L)) a.
Definition no_proxy_loops (db : database) : Prop := loop_free (links db).

(** An account is not behind itself. *)
Lemma loop_free_irrefl L a : loop_free L → ¬ tc (proxy_edge L) a a.
Proof.
  intros Hl. specialize (Hl a). induction Hl as [a _ IH].
  intros Ha. inversion Ha as [? ? H1|? y ? H1 H2]; subst; [by eapply (IH a), tc_once|].
  apply (IH y H1). eapply tc_r; done.
Qed.

Section redirect.
Context (L : gmap Z link) (A : Z) (q : string).
Definition set_link_proxy (x : link) : link :=
  Link (link_id x) (link_name x) q (link_delegated x) (link_received x).
Let L' := alter set_link_proxy A L.

Lemma redirect_edge a b : a ≠ A → proxy_edge L' a b → proxy_edge L a b.
Proof.
  intros Ha (x & y & Hx & Hy & Hp & Hn). unfold L' in *. rewrite lookup_alter_ne in Hx by done.
  apply lookup_alter_Some in Hy as [(<- & z & Hz & ->)|[_ Hy]]; by exists x; eexists.
Qed.

(** Handing votes to an account that is not behind [A] closes no loop. *)
Lemma redirect_loop_free :
  loop_free L →
  (q ≠ STEEMIT_PROXY_TO_SELF_ACCOUNT → ∀ y n, L !! y = Some n → link_name n = q →
     y ≠ A ∧ ¬ tc (proxy_edge L) y A) →
  loop_free L'.
Proof.
  intros Hl Hq.
  assert (∀ n, n ≠ A → ¬ tc (proxy_edge L) n A → Acc (flip (proxy_edge L')) n) as Hout.
  { intros n. induction (Hl n) as [n _ IH]. intros Hn Hna. constructor. intros y Hy.
    apply redirect_edge in Hy; [|done]. apply IH; [done| |].
    - intros ->. by apply Hna, tc_once.
    - intros Hy'. apply Hna. by eapply tc_l. }
  intros n. induction (Hl n) as [n _ IH]. constructor. intros y Hy.
  destruct (decide (n = A)) as [->|Hn]; [|by apply IH, redirect_edge].
  destruct Hy as (x & z & Hx & Hz & Hp & Hname). unfold L' in *.
  apply lookup_alter_Some in Hx as [(_ & x' & Hx' & ->)|[? _]]; [|done]. cbn in *.
  apply lookup_alter_Some in Hz as [(<- & z' & Hz' & ->)|[_ Hz]].
  - destruct (Hq Hp A z'); done.
  - apply Hout; by eapply Hq.
Qed.
End redirect.

Section walk.
Context {F : Fc}.

Lemma links_lookup db i a :
  trows (A := account_object) db !! i = Some a → links db !! i = Some (link_of a).
Proof. intros H. unfold links. by rewrite lookup_fmap, H. Qed.

Lemma links_lookup_inv db i x :
  links db !! i = Some x → ∃ a, trows (A := account_object) db !! i = Some a ∧ x = link_of a.
Proof. unfold links. rewrite lookup_fmap. intros (a & -> & ->)%fmap_Some. eauto. Qed.

Lemma account_name_inj db i j a b :
  db_wf db → trows db !! i = Some a → trows db !! j = Some b → acc_name a = acc_name b → i = j.
Proof.
  intros [[_ Hcl] _]%(wf_rows (A := account_object)) Ha Hb Hn.
  destruct (decide (i = j)) as [|Hne]; [done|]. specialize (Hcl _ _ _ _ Ha Hb Hne).
  cbn in Hcl. by rewrite bool_decide_true in Hcl.
Qed.

(** The proxy that the code looks up is the one account behind the edge. *)
Lemma proxy_lookup db a acc p :
  db_wf db → trows db !! a = Some acc → acc_proxy acc ≠ STEEMIT_PROXY_TO_SELF_ACCOUNT →
  find_row (by_name (acc_proxy acc)) db = Some p →
  trows db !! acc_id p = Some p ∧ proxy_edge (links db) a (acc_id p) ∧
  ∀ y, proxy_edge (links db) a y → y = acc_id p.
Proof.
  intros Hdb Ha Hp Hf. destruct (find_row_at _ _ _ Hdb Hf) as [Hrow Hname].
  change (obj_id p) with (acc_id p) in Hrow. apply bool_decide_eq_true in Hname.
  split_and!; [done| |].
  - exists (link_of acc), (link_of p). split_and!; [by apply links_lookup..|done|done].
  - intros y (x & z & Hx & Hz & _ & Hn).
    rewrite (links_lookup _ _ _ Ha) in Hx. simplify_eq.
    apply links_lookup_inv in Hz as (b & Hb & ->). cbn in Hn.
    eapply account_name_inj; [done..|]. congruence.
Qed.

Lemma modify_other {A} `{MultiIndex A} `{Table A} `{!TableLaws A} i (f : A → result A) db u db' j :
  (∀ x y, trows db !! i = Some x → f x = Ok y → obj_id y = i) →
  modify i f db = Ok (u, db') → j ≠ i → trows (A := A) db' !! j = trows db !! j.
Proof.
  intros Hid (x & y & m & Hx & Hy & Hm & ->)%modify_ok Hj. rewrite trows_set. cbn [Abs.rows].
  apply container_modify_Some in Hm as [_ ->]; [by rewrite lookup_insert_ne|by eapply Hid].
Qed.

(** The recursion writes only the accounts behind the one it starts from. *)
Lemma array_row_kept n a delta db u db' x :
  db_wf db → adjust_proxied_array n a delta db = Ok (u, db') →
  ¬ tc (proxy_edge (links db)) a x →
  trows (A := account_object) db' !! x = trows db !! x.
Proof.
  revert a db. induction n as [|n IH]; intros a db Hdb; cbn [adjust_proxied_array];
    intros (acc & s & [-> Hacc]%get_ok & H)%bind_ok Hx;
    destruct (bool_decide_reflect (acc_proxy acc = STEEMIT_PROXY_TO_SELF_ACCOUNT)) as [Hp|Hp];
    cbn [negb] in H; [inv_ok..|inv_ok|].
  1,3: match goal with H : adjust_witness_votes _ _ _ = _ |- _ =>
         pose proof (adjust_witness_votes_keeps db_accounts _ _ ltac:(done) _ _ _ H) as E end;
       unfold trows; cbn [tbl accounts_table]; by rewrite E.
  { done. }
  apply bind_ok in H as (p & s & [-> Hf]%get_by_ok & H).
  apply bind_ok in H as ([] & s & Hmod & H).
  destruct (proxy_lookup db a acc p Hdb Hacc Hp Hf) as (Hrow & Hedge & _).
  assert (db_wf s) as Hs
    by (refine (modify_wf _ _ _ _ _ Hdb _ Hmod); intros ?? _; apply add_proxied_upto_row).
  destruct (links_modify (acc_id p) _ (add_proxied_upto_link _ _ _) _ _ _
              (wf_account_ids _ Hdb) Hmod) as [_ Hl].
  rewrite (IH _ _ Hs H).
  - eapply modify_other; [|done|].
    + intros y z Hy Hz%add_proxied_upto_link. cbn. injection Hz as -> _ _ _ _.
      by apply (wf_account_ids _ Hdb).
    + intros ->. by apply Hx, tc_once.
  - rewrite Hl. intros Ht. apply Hx. by eapply tc_l.
Qed.

(** The loop of the evaluator visits every account behind the new proxy. *)
Lemma check_proxy_chain_ok fuel p chain db u db' x :
  db_wf db → trows db !! acc_id p = Some p → check_proxy_chain fuel p chain db = Ok (u, db') →
  tc (proxy_edge (links db)) (acc_id p) x → x ∉ chain.
Proof.
  intros Hdb. revert p chain. induction fuel as [|fuel IH]; intros p chain Hp; simpl;
    destruct (bool_decide_reflect (acc_proxy p = EmptyString)) as [He|He]; intros H Ht; inv_db.
  1,2: exfalso; inversion Ht as [? ? (y & z & Hy & _ & Hn & _)|? ? ? (y & z & Hy & _ & Hn & _)];
       subst; rewrite (links_lookup _ _ _ Hp) in Hy; by simplify_eq.
  match goal with H : find_row _ db = Some ?q |- _ =>
    destruct (proxy_lookup db _ p q Hdb Hp He H) as (Hq & _ & Huniq) end.
  bool_simpl. inversion Ht as [? ? Hedge|? y ? Hedge Hrest]; subst.
  - by rewrite (Huniq _ Hedge).
  - rewrite (Huniq _ Hedge) in Hrest. 
    match goal with H : check_proxy_chain _ _ _ _ = _ |- _ => pose proof (IH _ _ Hq H Hrest) end.
    set_solver.
Qed.
End walk.

Section redirection.
Context {F : Fc}.

(** The votes that an account passes on to its proxy. *)
Definition own_votes (a : account_object) : Z :=
  amount (acc_vesting_shares a) + zsum (take 3 (acc_proxied_vsf_votes a)).
(** What the votes of an account depend on. *)
Definition votes_row (a : account_object) : string * asset * list Z :=
  (acc_proxy a, acc_vesting_shares a, acc_proxied_vsf_votes a).

Lemma vsf_split a :
  vsf a = (if bool_decide (acc_proxy a = STEEMIT_PROXY_TO_SELF_ACCOUNT) then own_votes a else 0)
          + default 0 (acc_proxied_vsf_votes a !! 3%nat).
Proof.
  unfold vsf, own_votes, STEEMIT_MAX_PROXY_RECURSION_DEPTH.
  assert (∀ l, zsum (take 4 l) = zsum (take 3 l) + default 0 (l !! 3%nat)) as Hl.
  { intros [|? [|? [|? [|? ?]]]]; unfold zsum; simpl; lia. }
  specialize (Hl (acc_proxied_vsf_votes a)). destruct (bool_decide _); lia.
Qed.

Lemma negate_all_ok l l' : negate_all l = Ok l' → l' = Z.opp <$> l.
Proof.
  revert l'. induction l as [|x l IH]; intros l'; simpl; [by intros [= <-]|].
  intros. inv_ok. inv_safe. subst. f_equal. by apply IH.
Qed.
Lemma negated_votes_ok a l :
  negated_votes a = Ok l → zsum (take 4 l) = - own_votes a.
Proof.
  intros ->%negate_all_ok. unfold own_votes.
  destruct (acc_proxied_vsf_votes a) as [|? [|? [|? [|? ?]]]]; unfold zsum; simpl; lia.
Qed.
Lemma negate_all_sum l l' : negate_all l = Ok l' → zsum (take 4 l') = - zsum (take 4 l).
Proof.
  intros ->%negate_all_ok. destruct l as [|? [|? [|? [|? ?]]]]; unfold zsum; simpl; lia.
Qed.

(** Taking the votes away from the chain leaves the row of the account. *)
Lemma withdraw_votes a acc delta db u db' :
  db_wf db → no_proxy_loops db → trows db !! a = Some acc → negated_votes acc = Ok delta →
  adjust_proxied_witness_votes_array a delta db = Ok (u, db') →
  db_wf db' ∧ links db' = links db ∧ trows db' !! a = Some acc ∧
  ∀ k, imb k db' = imb k db
    + match k with KVsf => reaches 4 acc (own_votes acc) | _ => 0 end.
Proof.
  intros Hdb Hloop Ha Hd H. unfold adjust_proxied_witness_votes_array in H.
  destruct (adjust_proxied_array_links _ _ _ _ _ _ (wf_account_ids _ Hdb) H) as [_ Hl].
  pose proof (array_row_kept _ _ _ _ _ _ a Hdb H (loop_free_irrefl _ a Hloop)) as Hrow.
  apply adjust_proxied_array_imb in H as (Hdb' & acc' & Ha' & HI); [|done..].
  split_and!; [done..|congruence|]. intros k. rewrite HI.
  assert (acc' = acc) as -> by congruence. unfold STEEMIT_MAX_PROXY_RECURSION_DEPTH.
  rewrite (negated_votes_ok _ _ Hd). unfold reaches. destruct k; try lia. destruct (bool_decide _); lia.
Qed.

(** What a modification of the accounts keeps of their votes. *)
Lemma modify_votes_row j (f : account_object → result account_object) i db u db' y :
  account_ids db → (∀ x y, f x = Ok y → link_of y = link_of x ∧ votes_row y = votes_row x) →
  modify j f db = Ok (u, db') → trows (A := account_object) db' !! i = Some y →
  ∃ x, trows db !! i = Some x ∧ votes_row y = votes_row x.
Proof.
  intros Hdb Hf Hm Hy. destruct (decide (i = j)) as [->|Hij].
  - destruct (modify_lookup _ _ _ _ _ _ Hm Hy) as (x & Hx & Hxy). exists x.
    split; [done|]. by apply Hf.
  - erewrite (modify_other j f db) in Hy; [by eexists| |done|done].
    intros x z Hx Hz. destruct (Hf _ _ Hz) as [E _]. rewrite <- (Hdb _ _ Hx). by injection E.
Qed.

Lemma clear_witness_votes_row a i db u db' y :
  account_ids db → clear_witness_votes a db = Ok (u, db') →
  trows (A := account_object) db' !! i = Some y →
  ∃ x, trows db !! i = Some x ∧ votes_row y = votes_row x.
Proof.
  intros Hdb H Hy. unfold clear_witness_votes in H. inv_db;
  match goal with H : for_each ?l ?f db = Ok (_, ?s) |- _ =>
    assert (Keeps db_accounts (for_each l f)) as Hk by keep;
    specialize (Hk _ _ _ H); assert (trows (A := account_object) s = trows db) as E
      by (unfold trows; cbn [tbl accounts_table]; by rewrite Hk) end.
  - rewrite <- E. eapply modify_votes_row; [| |done|done].
    + intros j z. rewrite E. apply Hdb.
    + by intros x z [= <-].
  - exists y. by rewrite <- E.
Qed.
End redirection.

Section moves.
Context {F : Fc}.

(** [f] sets the proxy to [q] and nothing else that counts. *)
Definition redirects (q : string) (f : account_object → result account_object) : Prop :=
  ∀ x y, f x = Ok y →
    link_of y = set_link_proxy q (link_of x) ∧ votes_row y = (q, acc_vesting_shares x, acc_proxied_vsf_votes x) ∧
    (row_ok x → row_ok y) ∧ ∀ k, k ≠ KVsf → weight k y = weight k x.

Lemma redirect_imb a f q db u db' x :
  db_wf db → redirects q f → trows db !! a = Some x → modify a f db = Ok (u, db') →
  db_wf db' ∧ links db' = alter (set_link_proxy q) a (links db) ∧
  (∃ y, trows db' !! a = Some y ∧ acc_proxy y = q ∧ own_votes y = own_votes x) ∧
  ∀ k, imb k db' = imb k db + match k with
    | KVsf => (if bool_decide (acc_proxy x = STEEMIT_PROXY_TO_SELF_ACCOUNT) then own_votes x else 0)
              - (if bool_decide (q = STEEMIT_PROXY_TO_SELF_ACCOUNT) then own_votes x else 0)
    | _ => 0 end.
Proof.
  intros Hdb Hf Hx Hm.
  assert (db_wf db') as Hdb' by (refine (modify_wf _ _ _ _ _ Hdb _ Hm); intros ?? _ Hy; by apply (Hf _ _ Hy)).
  pose proof Hm as (x' & y & Hx' & Hy & HI)%modify_imb. assert (x' = x) as -> by congruence.
  apply modify_ok in Hm as (x' & y' & m & Hx2 & Hy2 & Hm & ->).
  assert (x' = x) as -> by congruence. assert (y' = y) as -> by congruence.
  destruct (Hf _ _ Hy) as (Hlink & Hrow & _ & Hw).
  assert (acc_id y = a) as Hid.
  { rewrite <- (wf_account_ids _ Hdb _ _ Hx). by injection Hlink. }
  apply container_modify_Some in Hm as [_ ->]; [|done].
  injection Hrow as Hp Hs Hv.
  split_and!; [done|..].
  - unfold links. rewrite trows_set. cbn [Abs.rows]. rewrite fmap_insert, Hlink.
    apply map_eq. intros i. destruct (decide (i = a)) as [->|Hi].
    + by rewrite lookup_insert_eq, lookup_alter_eq, lookup_fmap, Hx.
    + by rewrite lookup_insert_ne, lookup_alter_ne.
  - exists y. rewrite trows_set. cbn [Abs.rows]. rewrite lookup_insert_eq.
    split_and!; [done|done|]. unfold own_votes. congruence.
  - intros k. rewrite HI. destruct (decide (k = KVsf)) as [->|Hk].
    + change (weight KVsf) with vsf. rewrite !vsf_split, Hp, Hv.
      assert (own_votes y = own_votes x) as -> by (unfold own_votes; congruence). lia.
    + rewrite Hw by done. destruct k; try lia. done.
Qed.

Lemma set_proxy_redirects q : redirects q (λ a, Ok (set_acc_proxy q a)).
Proof. intros x y [= <-]. split_and!; [done..|]. by intros []. Qed.

(** Handing over the votes again. *)
Lemma give_votes a acc delta delta' old db u db' :
  db_wf db → trows db !! a = Some acc → negated_votes old = Ok delta →
  own_votes acc = own_votes old → negate_all delta = Ok delta' →
  adjust_proxied_witness_votes_array a delta' db = Ok (u, db') →
  db_wf db' ∧ links db' = links db ∧
  ∀ k, imb k db' = imb k db
    - match k with KVsf => reaches 4 acc (own_votes acc) | _ => 0 end.
Proof.
  intros Hdb Ha Hd Ho Hd' H. unfold adjust_proxied_witness_votes_array in H.
  destruct (adjust_proxied_array_links _ _ _ _ _ _ (wf_account_ids _ Hdb) H) as [_ Hl].
  apply adjust_proxied_array_imb in H as (Hdb' & acc' & Ha' & HI); [|done..].
  split_and!; [done..|]. intros k. rewrite HI.
  assert (acc' = acc) as -> by congruence. unfold STEEMIT_MAX_PROXY_RECURSION_DEPTH.
  rewrite (negate_all_sum _ _ Hd'), (negated_votes_ok _ _ Hd), Ho.
  destruct k; try lia. f_equal. f_equal. lia.
Qed.

Lemma proxy_clear_loop_free L a : loop_free L → loop_free (alter (set_link_proxy EmptyString) a L).
Proof. intros. by apply redirect_loop_free. Qed.

(** Taking the votes away, then setting the proxy to [q]. *)
Lemma move_votes acc f q delta db u1 s1 s2 u3 s3 :
  db_wf db → no_proxy_loops db → trows db !! acc_id acc = Some acc →
  negated_votes acc = Ok delta →
  adjust_proxied_witness_votes_array (acc_id acc) delta db = Ok (u1, s1) →
  (s2 = s1 ∨ ∃ u2, clear_witness_votes (acc_id acc) s1 = Ok (u2, s2)) →
  redirects q f → modify (acc_id acc) f s2 = Ok (u3, s3) →
  db_wf s3 ∧ links s3 = alter (set_link_proxy q) (acc_id acc) (links db) ∧
  (∃ y, trows s3 !! acc_id acc = Some y ∧ acc_proxy y = q ∧ own_votes y = own_votes acc) ∧
  ∀ k, imb k s3 = imb k db + match k with
    | KVsf => if bool_decide (q = STEEMIT_PROXY_TO_SELF_ACCOUNT) then 0 else own_votes acc
    | _ => 0 end.
Proof.
  intros Hdb Hloop Ha Hd H1 H2 Hf H3.
  destruct (withdraw_votes _ _ _ _ _ _ Hdb Hloop Ha Hd H1) as (Hs1 & Hl1 & Ha1 & HI1).
  assert (db_wf s2 ∧ links s2 = links db ∧ (∀ k, imb k s2 = imb k s1) ∧
          ∀ y, trows s2 !! acc_id acc = Some y → votes_row y = votes_row acc)
    as (Hs2 & Hl2 & HI2 & Hrow).
  { destruct H2 as [->|[u2 H2]].
    - split_and!; [done..|]. intros y Hy. congruence.
    - destruct (shifts_run _ _ _ Hs1 H2) as [? HI].
      destruct (clear_witness_votes_links _ _ _ _ (wf_account_ids _ Hs1) H2) as [_ ?].
      split_and!; [done|congruence|intros k; rewrite HI; lia|]. intros y Hy.
      destruct (clear_witness_votes_row _ _ _ _ _ y (wf_account_ids _ Hs1) H2 Hy) as (x & Hx & ->).
      congruence. }
  pose proof H3 as (x & _ & _ & Hx & _)%modify_ok. specialize (Hrow _ Hx).
  injection Hrow as Hp Hv Hr.
  destruct (redirect_imb _ _ _ _ _ _ _ Hs2 Hf Hx H3) as (Hs3 & Hl3 & (y & Hy & Hyp & Hyo) & HI3).
  assert (own_votes x = own_votes acc) as Ho by (unfold own_votes; congruence).
  split_and!; [done|congruence|exists y; split_and!; [done..|congruence]|].
  intros k. rewrite HI3, HI2, HI1, Hp, Ho. unfold reaches. cbn iota. destruct k; try lia.
  repeat case_bool_decide; lia.
Qed.

Lemma check_proxy_chain_reads n p c db u db' :
  check_proxy_chain n p c db = Ok (u, db') → db' = db.
Proof.
  revert p c. induction n; intros p c; simpl; case_match; intros; inv_db; [done..|]. eauto.
Qed.

(** The new proxy is not the account itself, and not behind it. *)
Lemma new_proxy_not_behind db s acc q p n u s' :
  db_wf s → links s = links db → links db !! acc_id acc = Some (link_of acc) → q ≠ acc_name acc →
  find_row (by_name q) s = Some p →
  check_proxy_chain n p ({[acc_id acc]} ∪ {[acc_id p]}) s = Ok (u, s') →
  q ≠ STEEMIT_PROXY_TO_SELF_ACCOUNT → ∀ y l, links db !! y = Some l → link_name l = q →
  y ≠ acc_id acc ∧ ¬ tc (proxy_edge (links db)) y (acc_id acc).
Proof.
  intros Hs Hl Ha Hq Hf Hc _ y l Hy Hn. destruct (find_row_at _ _ _ Hs Hf) as [Hp Hpn].
  change (obj_id p) with (acc_id p) in Hp. apply bool_decide_eq_true in Hpn.
  split.
  - intros ->. rewrite Ha in Hy. by simplify_eq.
  - rewrite <- Hl in Hy |- *. apply links_lookup_inv in Hy as (b & Hb & ->). cbn in Hn.
    assert (y = acc_id p) as -> by (eapply account_name_inj; [done..|congruence]).
    intros Ht. pose proof (check_proxy_chain_ok _ _ _ _ _ _ _ Hs Hp Hc Ht). set_solver.
Qed.

Lemma account_witness_proxy_conserves o db u db' :
  account_witness_proxy_validate o = Ok tt → db_wf db → no_proxy_loops db →
  account_witness_proxy_evaluator o db = Ok (u, db') →
  db_wf db' ∧ no_proxy_loops db' ∧ ∀ k, imb k db' = imb k db.
Proof.
  unfold account_witness_proxy_validate. intros Hv Hdb Hloop H. inv_ok.
  unfold account_witness_proxy_evaluator in H. inv_db. found. bool_simpl.
  match goal with H : by_name _ a = true |- _ => apply bool_decide_eq_true in H; rename H into Hname end.
  destruct (bool_decide_reflect (awp_proxy o = EmptyString)) as [He|He]; cbn [negb] in *.
  - edestruct (move_votes a) as (Hs3 & Hl3 & _ & HI3);
      [done..|by left|apply set_proxy_redirects|done|].
    split_and!; [done| |].
    + unfold no_proxy_loops. rewrite Hl3, He. by apply proxy_clear_loop_free.
    + intros k. rewrite HI3, He. rewrite bool_decide_true by done. destruct k; lia.
  - inv_db.
    match goal with H : check_proxy_chain _ _ _ ?s = Ok (_, ?s') |- _ =>
      assert (s' = s) as -> by (by eapply check_proxy_chain_reads) end.
    match goal with
    | Hn : negated_votes a = Ok _, H1 : adjust_proxied_witness_votes_array _ _ db = Ok (_, ?s),
      H2 : clear_witness_votes _ ?s = Ok _, H3 : modify _ _ _ = Ok (_, ?s3),
      Hn' : negate_all _ = Ok _, H4 : adjust_proxied_witness_votes_array _ _ ?s3 = _ |- _ =>
        destruct (withdraw_votes _ _ _ _ _ _ Hdb Hloop Hrow Hn H1) as (Hs2 & Hl2 & _ & _);
        destruct (move_votes _ _ _ _ _ _ _ _ _ _ Hdb Hloop Hrow Hn H1
                    (or_intror (ex_intro _ _ H2)) (set_proxy_redirects _) H3)
          as (Hs3 & Hl3 & (y & Hy & Hyp & Hyo) & HI3);
        destruct (give_votes _ _ _ _ _ _ _ _ Hs3 Hy Hn Hyo Hn' H4) as (Hs4 & Hl4 & HI4)
    end.
    split_and!; [done| |].
    + unfold no_proxy_loops. rewrite Hl4, Hl3. apply redirect_loop_free; [done|].
      eapply new_proxy_not_behind; [exact Hs2|done|by apply links_lookup|congruence|done..].
    + intros k. rewrite HI4, HI3. unfold reaches. rewrite Hyp, bool_decide_false by done.
      destruct k; lia.
Qed.

Lemma process_decline_request_conserves r db u db' :
  db_wf db → no_proxy_loops db → process_decline_request r db = Ok (u, db') →
  db_wf db' ∧ no_proxy_loops db' ∧ ∀ k, imb k db' = imb k db.
Proof.
  intros Hdb Hloop H. unfold process_decline_request in H. inv_db.
  match goal with H : trows db !! dvr_account r = Some _ |- _ => rename H into Hrow end.
  pose proof (wf_account_ids _ Hdb _ _ Hrow) as Hid. rewrite <- Hid in *.
  match goal with
  | Hn : negated_votes a = Ok _, H1 : adjust_proxied_witness_votes_array _ _ db = Ok (_, ?s),
    H2 : clear_witness_votes _ ?s = Ok _, H3 : modify _ ?f _ = Ok (_, ?s3) |- _ =>
      assert (redirects STEEMIT_PROXY_TO_SELF_ACCOUNT f) as Hf
        by (intros x y [= <-]; split_and!; [done..|]; by intros []);
      destruct (move_votes _ _ _ _ _ _ _ _ _ _ Hdb Hloop Hrow Hn H1
                  (or_intror (ex_intro _ _ H2)) Hf H3) as (Hs3 & Hl3 & _ & HI3)
  end.
  match goal with H : remove ?T ?i ?s = Ok (_, db') |- _ =>
    destruct (shifts_run (m := remove T i) _ _ _ Hs3 H) as [Hdb' HI];
    assert (links db' = links s) as Hl4
      by (eapply (links_keeps (remove T i)); [apply _|by apply wf_account_ids|done]) end.
  split_and!; [done| |].
  - unfold no_proxy_loops. rewrite Hl4, Hl3. by apply proxy_clear_loop_free.
  - intros k. rewrite HI, HI3, bool_decide_true by done. destruct k; lia.
Qed.

Lemma process_decline_voting_rights_conserves db u db' :
  db_wf db → no_proxy_loops db → process_decline_voting_rights db = Ok (u, db') →
  db_wf db' ∧ no_proxy_loops db' ∧ ∀ k, imb k db' = imb k db.
Proof.
  intros Hdb Hloop H. unfold process_decline_voting_rights in H. inv_db.
  match goal with H : for_each ?l _ _ = _ |- _ => revert H; generalize l end. intros l.
  revert db Hdb Hloop. induction l as [|r l IH]; intros db Hdb Hloop H; cbn [for_each] in H.
  { by inv_ok. }
  apply bind_ok in H as (v & s & H1 & H2).
  destruct (process_decline_request_conserves _ _ _ _ Hdb Hloop H1) as (Hs & Hls & HI1).
  destruct (IH _ Hs Hls H2) as (Hs' & Hls' & HI2). split_and!; [done..|].
  intros k. by rewrite HI2, HI1.
Qed.

(** Operations that keep the links keep the proxies free of loops. *)
Lemma links_no_loops {A} (m : DB A) db a db' :
  KeepsLinks m → db_wf db → no_proxy_loops db → m db = Ok (a, db') → no_proxy_loops db'.
Proof.
  intros Hm Hdb Hl H. unfold no_proxy_loops.
  by rewrite (proj2 (Hm _ _ _ (wf_account_ids _ Hdb) H)).
Qed.
End moves.

(** ** Steps that keep the proxies *)

(** No loops, and every account under its id. *)
Definition loops_inv (db : database) : Prop := account_ids db ∧ no_proxy_loops db.

Lemma loop_free_same L L' :
  (∀ i x', L' !! i = Some x' → ∃ x, L !! i = Some x ∧ link_name x' = link_name x ∧
     link_proxy x' = link_proxy x) →
  loop_free L → loop_free L'.
Proof.
  intros Hsame Hl a. induction (Hl a) as [a _ IH]. constructor. intros y Hy. apply IH.
  destruct Hy as (x' & z' & Hx & Hz & Hp & Hn).
  destruct (Hsame _ _ Hx) as (x & ? & _ & Ep). destruct (Hsame _ _ Hz) as (z & ? & En & _).
  exists x, z. rewrite <- Ep, <- En. done.
Qed.

Lemma loops_modify i (f : account_object → result account_object) db u db' :
  (∀ x y, f x = Ok y → acc_id y = acc_id x ∧ acc_name y = acc_name x ∧ acc_proxy y = acc_proxy x) →
  modify i f db = Ok (u, db') → loops_inv db → loops_inv db'.
Proof.
  intros Hf (x & y & m & Hx & Hy & Hm & ->)%modify_ok [Hids Hl].
  destruct (Hf _ _ Hy) as (Hid & Hn & Hp).
  apply container_modify_Some in Hm as [_ ->]; [|cbn; rewrite Hid; by apply Hids].
  unfold loops_inv, account_ids, no_proxy_loops, links. rewrite trows_set. cbn [Abs.rows]. split.
  - intros j z [[<- <-]|[_ Hz]]%lookup_insert_Some; [rewrite Hid|]; by apply Hids.
  - eapply loop_free_same; [|done]. intros j z'. rewrite fmap_insert.
    intros [[<- <-]|[_ Hz]]%lookup_insert_Some; [|by exists z'].
    exists (link_of x). split; [by apply links_lookup|done].
Qed.

Lemma loops_keeps {A} (m : DB A) db a db' :
  KeepsLinks m → m db = Ok (a, db') → loops_inv db → loops_inv db'.
Proof.
  intros Hm H [Hids Hl]. destruct (Hm _ _ _ Hids H) as [? E]. split; [done|].
  unfold no_proxy_loops. by rewrite E.
Qed.

(** A new account that votes itself closes no loop. *)
Lemma insert_loop_free L i l :
  L !! i = None → link_proxy l = STEEMIT_PROXY_TO_SELF_ACCOUNT → loop_free L → loop_free (<[i := l]> L).
Proof.
  intros Hi Hl Hloop.
  assert (∀ y, ¬ proxy_edge (<[i := l]> L) i y) as Hend.
  { intros y (x & z & Hx & _ & Hp & _). rewrite lookup_insert_eq in Hx. by simplify_eq. }
  intros a. induction (Hloop a) as [a _ IH]. constructor. intros y Hy.
  destruct (decide (y = i)) as [->|Hyi]; [constructor; intros z Hz; by apply Hend in Hz|].
  apply IH. destruct Hy as (x & z & Hx & Hz & Hp & Hn).
  rewrite lookup_insert_ne in Hz by done.
  apply lookup_insert_Some in Hx as [[-> <-]|[_ Hx]]; [done|]. by exists x, z.
Qed.

Lemma loops_create c v0 db i db' :
  (∀ j, acc_id (c (set_acc_id j v0)) = j ∧
        acc_proxy (c (set_acc_id j v0)) = STEEMIT_PROXY_TO_SELF_ACCOUNT) →
  create v0 c db = Ok (i, db') → loops_inv db → loops_inv db'.
Proof.
  intros Hc H [Hids Hl]. apply create_rows in H as [Hn E]; [|apply Hc].
  unfold loops_inv, no_proxy_loops, links, account_ids. rewrite E. split.
  - intros j a [[<- <-]|[_ Ha]]%lookup_insert_Some; [apply Hc|by apply Hids].
  - rewrite fmap_insert. apply insert_loop_free; [by rewrite lookup_fmap, Hn|apply Hc|done].
Qed.

(** Goes through the steps of a run that keeps the proxies. *)
Ltac loops_step :=
  match goal with
  | Hl : loops_inv ?s, H : modify (A := account_object) _ _ ?s = Ok (_, ?s') |- _ =>
      apply loops_modify in H; [|intros; inv_ok; done|exact Hl]
  | Hl : loops_inv ?s, H : create (A := account_object) _ _ ?s = Ok (_, ?s') |- _ =>
      apply loops_create in H; [|done|exact Hl]
  | Hl : loops_inv ?s, H : ?m ?s = Ok (_, ?s') |- _ =>
      apply (loops_keeps m) in H; [|solve [first [apply _|apply links_keeps; keep]]|exact Hl]
  end.
Ltac loops_done :=
  match goal with H : loops_inv ?s |- no_proxy_loops ?s => apply H end.
