(* ===== verification/Delegations.v ===== *)
(** * Delegated shares are accounted for

    [delegations_ok]: what an account has delegated is the sum of its delegations
    and of the delegations that are still on their way back to it, and what it
    has received is the sum of the delegations to it.
    [delegate_vesting_shares_evaluator], [clear_expired_delegations] and the
    creation of accounts keep it, so the shares that an account may not use are
    exactly the ones it lent. *)
From S2P Require Import Prelude Fc Config Asset Chainbase ChainbaseSpec Objects Database.
From S2P Require Import Supply Protocol Votes Ledger Genesis Transfers Market Escrow Vesting.
From S2P Require Import Frames Proxies.

(** [x], when it belongs to the account [n]. *)
Definition if_named (m : string) (x : Z) (n : string) : Z := if bool_decide (m = n) then x else 0.

(** What the objects record for the account [n]. *)
Definition acc_lent (n : string) (a : account_object) : Z :=
  if_named (acc_name a) (amount (acc_delegated_vesting_shares a)) n.
Definition acc_borrowed (n : string) (a : account_object) : Z :=
  if_named (acc_name a) (amount (acc_received_vesting_shares a)) n.
Definition lent (n : string) (d : vesting_delegation_object) : Z :=
  if_named (vd_delegator d) (amount (vd_vesting_shares d)) n.
Definition borrowed (n : string) (d : vesting_delegation_object) : Z :=
  if_named (vd_delegatee d) (amount (vd_vesting_shares d)) n.
Definition returning (n : string) (e : vesting_delegation_expiration_object) : Z :=
  if_named (vde_delegator e) (amount (vde_vesting_shares e)) n.

(** The delegations of [n] that are running or returning, and the ones to [n]. *)
Definition delegated_by (n : string) (db : database) : Z :=
  msum (lent n) (trows db) + msum (returning n) (trows db).
Definition received_by (n : string) (db : database) : Z := msum (borrowed n) (trows db).

(** What the accounts record, less what the delegations say. *)
Definition lent_gap (n : string) (db : database) : Z := msum (acc_lent n) (trows db) - delegated_by n db.
Definition borrowed_gap (n : string) (db : database) : Z :=
  msum (acc_borrowed n) (trows db) - received_by n db.

Definition delegations_ok (db : database) : Prop :=
  ∀ n, lent_gap n db = 0 ∧ borrowed_gap n db = 0.

(** ** How a change of a table shifts the gaps *)
Definition gap_shift (dl dr : string → Z) (db db' : database) : Prop :=
  ∀ n, lent_gap n db' = lent_gap n db + dl n ∧ borrowed_gap n db' = borrowed_gap n db + dr n.

Lemma gap_shift_ok dl dr db db' :
  delegations_ok db → gap_shift dl dr db db' → (∀ n, dl n = 0 ∧ dr n = 0) → delegations_ok db'.
Proof. intros Hok Hs Hz n. destruct (Hok n), (Hs n), (Hz n). lia. Qed.

Lemma gap_trans dl dr dl' dr' db s db' :
  gap_shift dl dr db s → gap_shift dl' dr' s db' →
  gap_shift (λ n, dl n + dl' n) (λ n, dr n + dr' n) db db'.
Proof. intros H1 H2 n. destruct (H1 n), (H2 n). lia. Qed.

Section shifts.
Context {F : Fc}.

(** The table [T] is one of the three. *)
Ltac gaps_open := unfold lent_gap, borrowed_gap, delegated_by, received_by.
Ltac gap_table := intros n; gaps_open; rewrite !trows_set; cbn [Abs.rows];
  match goal with
  | Hm : container_emplace _ _ = Some _ |- _ => rewrite !(msum_emplace _ _ _ _ Hm)
  | Hx : trows _ !! _ = Some _, Hm : container_modify _ _ _ = Some _ |- _ =>
      rewrite !(msum_modify _ _ _ _ _ _ Hx Hm)
  | Hx : trows _ !! _ = Some _ |- _ => rewrite !(msum_delete _ _ _ _ Hx)
  end; unfold trows; cbn; lia.

Lemma create_account_gap v0 (c : account_object → account_object) db i db' :
  create v0 c db = Ok (i, db') →
  gap_shift (λ n, acc_lent n (c (set_obj_id i v0))) (λ n, acc_borrowed n (c (set_obj_id i v0))) db db'.
Proof. intros (-> & m & Hm & ->)%create_ok. gap_table. Qed.
Lemma modify_account_gap i (f : account_object → result account_object) db u db' :
  modify i f db = Ok (u, db') →
  ∃ x y, trows db !! i = Some x ∧ f x = Ok y ∧
  gap_shift (λ n, acc_lent n y - acc_lent n x) (λ n, acc_borrowed n y - acc_borrowed n x) db db'.
Proof.
  intros (x & y & m & Hx & Hy & Hm & ->)%modify_ok. exists x, y. split_and!; [done..|]. gap_table.
Qed.
Lemma create_delegation_gap v0 (c : vesting_delegation_object → vesting_delegation_object) db i db' :
  create v0 c db = Ok (i, db') →
  gap_shift (λ n, - lent n (c (set_obj_id i v0))) (λ n, - borrowed n (c (set_obj_id i v0))) db db'.
Proof. intros (-> & m & Hm & ->)%create_ok. gap_table. Qed.
Lemma modify_delegation_gap i (f : vesting_delegation_object → result vesting_delegation_object) db u db' :
  modify i f db = Ok (u, db') →
  ∃ x y, trows db !! i = Some x ∧ f x = Ok y ∧
  gap_shift (λ n, lent n x - lent n y) (λ n, borrowed n x - borrowed n y) db db'.
Proof.
  intros (x & y & m & Hx & Hy & Hm & ->)%modify_ok. exists x, y. split_and!; [done..|]. gap_table.
Qed.
Lemma remove_delegation_gap i db u db' :
  remove vesting_delegation_object i db = Ok (u, db') →
  ∃ x, trows db !! i = Some x ∧ gap_shift (λ n, lent n x) (λ n, borrowed n x) db db'.
Proof. intros (x & Hx & ->)%remove_ok. exists x. split; [done|]. gap_table. Qed.
Lemma create_expiration_gap v0
    (c : vesting_delegation_expiration_object → vesting_delegation_expiration_object) db i db' :
  create v0 c db = Ok (i, db') →
  gap_shift (λ n, - returning n (c (set_obj_id i v0))) (λ n, 0) db db'.
Proof. intros (-> & m & Hm & ->)%create_ok. gap_table. Qed.
Lemma remove_expiration_gap i db u db' :
  remove vesting_delegation_expiration_object i db = Ok (u, db') →
  ∃ x, trows db !! i = Some x ∧ gap_shift (λ n, returning n x) (λ n, 0) db db'.
Proof. intros (x & Hx & ->)%remove_ok. exists x. split; [done|]. gap_table. Qed.
Lemma virtual_gap op db u db' :
  push_virtual_operation op db = Ok (u, db') → gap_shift (λ _, 0) (λ _, 0) db db'.
Proof. intros ->%push_virtual_operation_ok n. gaps_open. unfold trows. cbn. lia. Qed.
End shifts.

(** Computations that do not change the delegations of any account. *)
Class KeepsGaps {A} (m : DB A) : Prop :=
  keeps_gaps : ∀ db a db', account_ids db → m db = Ok (a, db') → gap_shift (λ _, 0) (λ _, 0) db db'.

Lemma msum_fmap {A B} (f : B → Z) (g : A → B) (m : gmap Z A) : msum f (g <$> m) = msum (f ∘ g) m.
Proof.
  induction m as [|i x m Hi IH] using map_ind; [by rewrite fmap_empty, !msum_empty|].
  rewrite fmap_insert, !msum_insert, IH by (done || by rewrite lookup_fmap, Hi). done.
Qed.

(** The gaps depend on the links and on the two tables. *)
Lemma links_gaps {A} (m : DB A) :
  KeepsLinks m → Keeps db_delegations m → Keeps db_expirations m → KeepsGaps m.
Proof.
  intros Hl Hd He db a db' Hids H n.
  pose proof (proj2 (Hl _ _ _ Hids H)) as E.
  assert (∀ s, msum (acc_lent n) (trows s)
    = msum (λ l, if_named (link_name l) (amount (link_delegated l)) n) (links s)) as E1
    by (intros s; unfold links; by rewrite msum_fmap).
  assert (∀ s, msum (acc_borrowed n) (trows s)
    = msum (λ l, if_named (link_name l) (amount (link_received l)) n) (links s)) as E2
    by (intros s; unfold links; by rewrite msum_fmap).
  unfold lent_gap, borrowed_gap, delegated_by, received_by. rewrite !E1, !E2, E.
  unfold trows. cbn [tbl delegations_table expirations_table].
  rewrite (Hd _ _ _ H), (He _ _ _ H). lia.
Qed.

(** ** The operations *)
Section operations.
Context {F : Fc}.

(** The account with id [i] is the one named [n]. *)
Lemma found_name n a i db x :
  db_wf db → find_row (by_name n) db = Some a → acc_id a = i →
  links db !! i = Some x → link_name x = n.
Proof.
  intros Hdb Hf <- Hx. destruct (find_row_at _ _ _ Hdb Hf) as [Ha Hn].
  change (obj_id a) with (acc_id a) in Ha. apply bool_decide_eq_true in Hn.
  rewrite (links_lookup _ _ _ Ha) in Hx. by simplify_eq.
Qed.

(** Changes of the shares of one account. *)
Definition lends (d r : Z) (f : account_object → result account_object) : Prop :=
  ∀ x y, f x = Ok y → acc_id y = acc_id x ∧ acc_name y = acc_name x ∧
    amount (acc_delegated_vesting_shares y) = amount (acc_delegated_vesting_shares x) + d ∧
    amount (acc_received_vesting_shares y) = amount (acc_received_vesting_shares x) + r.

(** The name of the account with id [i]. *)
Definition named (i : Z) (m : string) (db : database) : Prop :=
  ∀ a, trows (A := account_object) db !! i = Some a → acc_name a = m.

Lemma lends_gap i m d r f db u db' :
  account_ids db → named i m db → lends d r f → modify i f db = Ok (u, db') →
  account_ids db' ∧ (∀ j m', named j m' db → named j m' db') ∧
  gap_shift (if_named m d) (if_named m r) db db'.
Proof.
  intros Hids Hn Hf H.
  pose proof H as (x & y & Hx & Hy & Hgap)%modify_account_gap. destruct (Hf _ _ Hy) as (Hid & Hname & Hd & Hr).
  assert (acc_id y = i) as Hi by (rewrite Hid; by apply Hids).
  assert (trows (A := account_object) db' = <[i := y]> (trows db)) as E.
  { apply modify_ok in H as (x' & y' & c & Hx' & Hy' & Hc & ->). rewrite trows_set. cbn [Abs.rows].
    assert (y' = y) as -> by congruence. by apply container_modify_Some in Hc as [_ ->]. }
  split_and!.
  - intros j z. rewrite E. intros [[<- <-]|[_ Hz]]%lookup_insert_Some; [done|by apply Hids].
  - intros j m' Hj z. rewrite E. intros [[<- <-]|[_ Hz]]%lookup_insert_Some; [|by apply Hj].
    rewrite Hname. by apply Hj.
  - intros n. destruct (Hgap n) as [-> ->].
    unfold acc_lent, acc_borrowed, if_named. rewrite Hname, <- (Hn _ Hx), Hd, Hr.
    destruct (bool_decide _); lia.
Qed.

Ltac solve_lends := intros x y; unfold add_delegated, sub_delegated, add_received, sub_received;
  intros; inv_ok; inv_asset; subst; cbn; split_and!; [done..| |]; lia.
Lemma add_delegated_lends v : lends (amount v) 0 (add_delegated v).
Proof. solve_lends. Qed.
Lemma sub_delegated_lends v : lends (- amount v) 0 (sub_delegated v).
Proof. solve_lends. Qed.
Lemma add_received_lends v : lends 0 (amount v) (add_received v).
Proof. solve_lends. Qed.
Lemma sub_received_lends v : lends 0 (- amount v) (sub_received v).
Proof. solve_lends. Qed.

(** Steps on other tables keep the accounts. *)
Lemma accounts_step {A} (m : DB A) db a db' :
  Keeps db_accounts m → m db = Ok (a, db') → account_ids db →
  account_ids db' ∧ ∀ j n, named j n db → named j n db'.
Proof.
  intros Hk H. specialize (Hk _ _ _ H). unfold account_ids, named, trows.
  cbn [tbl accounts_table]. by rewrite Hk.
Qed.

Lemma found_named n a db : db_wf db → find_row (by_name n) db = Some a → named (acc_id a) n db.
Proof.
  intros Hdb Hf x Hx. destruct (find_row_at _ _ _ Hdb Hf) as [Ha Hn].
  change (obj_id a) with (acc_id a) in Ha. apply bool_decide_eq_true in Hn. congruence.
Qed.
End operations.

(** Goes through the steps of a run: each keeps the names of the accounts and
    shifts the gaps. *)
Ltac gap_lends lem :=
  match goal with
  | Hids : account_ids ?s, Hn : named ?i _ ?s, H : modify ?i _ ?s = Ok (_, ?s') |- _ =>
      let Hids' := fresh "Hids" in let Hnm := fresh "Hnm" in let Hg := fresh "Hgap" in
      destruct (lends_gap _ _ _ _ _ _ _ _ Hids Hn (lem _) H) as (Hids' & Hnm & Hg);
      repeat match goal with
      | Hj : named ?j ?m s |- _ =>
          lazymatch goal with _ : named j m s' |- _ => fail | _ => pose proof (Hnm j m Hj) end
      end; clear Hnm H
  end.
Ltac gap_other H lem :=
  match type of H with ?m ?s = Ok (_, ?s') =>
    let Hids' := fresh "Hids" in let Hnm := fresh "Hnm" in let Hg := fresh "Hgap" in
    destruct (accounts_step m s _ s' ltac:(apply _) H ltac:(assumption)) as [Hids' Hnm];
    repeat match goal with
    | Hj : named ?j ?m s |- _ =>
        lazymatch goal with _ : named j m s' |- _ => fail | _ => pose proof (Hnm j m Hj) end
    end; clear Hnm; first [pose proof (lem _ _ _ _ _ H) as Hg | pose proof (lem _ _ _ _ H) as Hg]; clear H
  end.
Ltac gap_step :=
  match goal with
  | H : modify _ (@add_delegated _ _) ?s = Ok _, _ : account_ids ?s |- _ => gap_lends (@add_delegated_lends _)
  | H : modify _ (@sub_delegated _ _) ?s = Ok _, _ : account_ids ?s |- _ => gap_lends (@sub_delegated_lends _)
  | H : modify _ (@add_received _ _) ?s = Ok _, _ : account_ids ?s |- _ => gap_lends (@add_received_lends _)
  | H : modify _ (@sub_received _ _) ?s = Ok _, _ : account_ids ?s |- _ => gap_lends (@sub_received_lends _)
  | H : create (A := vesting_delegation_object) _ _ ?s = Ok _, _ : account_ids ?s |- _ =>
      gap_other H create_delegation_gap
  | H : create (A := vesting_delegation_expiration_object) _ _ ?s = Ok _, _ : account_ids ?s |- _ =>
      gap_other H create_expiration_gap
  | H : modify (A := vesting_delegation_object) _ _ ?s = Ok _, _ : account_ids ?s |- _ =>
      gap_other H modify_delegation_gap
  | H : remove vesting_delegation_object _ ?s = Ok _, _ : account_ids ?s |- _ =>
      gap_other H remove_delegation_gap
  | H : remove vesting_delegation_expiration_object _ ?s = Ok _, _ : account_ids ?s |- _ =>
      gap_other H remove_expiration_gap
  | H : push_virtual_operation _ ?s = Ok _, _ : account_ids ?s |- _ => gap_other H virtual_gap
  end.
(** The shifts of all steps, for one account. *)
Ltac gaps_at n :=
  repeat match goal with H : gap_shift _ _ _ _ |- _ => specialize (H n); destruct H end;
  unfold lent, borrowed, returning, acc_lent, acc_borrowed, if_named in *;
  cbn -[Z.add Z.sub Z.opp] in *; repeat case_bool_decide; subst; try congruence; lia.

(** The rows that the steps changed are the ones that were read. *)
Ltac gap_rows :=
  repeat match goal with
  | H : ∃ _, _ |- _ => destruct H
  | H : _ ∧ _ |- _ => destruct H
  end; same_rows; simplify_eq.
Ltac close_gaps :=
  let n := fresh "n" in intros n; match goal with Hok : delegations_ok _ |- _ => destruct (Hok n) end;
  inv_asset; subst; gaps_at n.

Section evaluators.
Context {F : Fc}.

Lemma delegate_vesting_shares_keeps o db u db' :
  delegate_vesting_shares_validate o = Ok tt → db_wf db → delegations_ok db →
  delegate_vesting_shares_evaluator o db = Ok (u, db') → delegations_ok db'.
Proof.
  unfold delegate_vesting_shares_validate, delegate_vesting_shares_evaluator, assert_ge.
  intros Hv Hdb Hok H. inv_okb. inv_db.
  pose proof (wf_account_ids _ Hdb) as Hids.
  repeat match goal with Hf : find_row (by_name ?n) db = Some ?a |- _ =>
    pose proof (found_named n a db Hdb Hf); clear Hf end.
  destruct (find_row (by_delegation _ _) db) as [d|] eqn:Hd.
  - destruct (find_row_at _ _ _ Hdb Hd) as [Hrow [Hfrom Hto]%andb_true_iff].
    change (obj_id d) with (vd_id d) in Hrow. apply bool_decide_eq_true in Hfrom, Hto. clear Hd.
    inv_db. match goal with H : (if ?b then _ else _) db = Ok _ |- _ => destruct b end.
    + inv_db. touched vesting_delegation_object. repeat gap_step. gap_rows. close_gaps.
    + inv_db. destruct (Z.ltb_spec 0 (amount (dvs_vesting_shares o))); inv_db;
      touched vesting_delegation_object; repeat gap_step; gap_rows;
      match goal with H : asset_ge (dvs_vesting_shares o) (Asset 0 _) = Ok true |- _ =>
        apply asset_ge_ok in H as [_ ?] end; close_gaps.
  - inv_db. repeat gap_step. close_gaps.
Qed.

Lemma clear_expired_delegation_keeps i db u db' :
  db_wf db → delegations_ok db → clear_expired_delegation i db = Ok (u, db') → delegations_ok db'.
Proof.
  unfold clear_expired_delegation. intros Hdb Hok H. inv_db.
  pose proof (wf_account_ids _ Hdb) as Hids.
  match goal with Hf : find_row (by_name ?n) db = Some ?a |- _ =>
    pose proof (found_named n a db Hdb Hf) end.
  touched vesting_delegation_expiration_object. repeat gap_step.
  gap_rows. close_gaps.
Qed.

Lemma clear_expired_delegations_keeps db u db' :
  db_wf db → delegations_ok db → clear_expired_delegations db = Ok (u, db') → delegations_ok db'.
Proof.
  unfold clear_expired_delegations. intros Hdb Hok H. inv_db.
  match goal with H : for_each ?l _ _ = _ |- _ => revert H; generalize l end. intros l.
  revert db Hdb Hok. induction l as [|i l IH]; intros db Hdb Hok H; cbn [for_each] in H; [by inv_ok|].
  apply bind_ok in H as (v & s & H1 & H2).
  pose proof (clear_expired_delegation_keeps _ _ _ _ Hdb Hok H1) as Hs.
  assert (Conserves (clear_expired_delegation i)) as Hc
    by (unfold clear_expired_delegation, sub_delegated; conserve).
  apply (IH s); [by eapply Hc|done..].
Qed.

(** What [delegations_ok] says of one account. *)
Lemma delegations_account db i a :
  db_wf db → delegations_ok db → trows db !! i = Some a →
  amount (acc_delegated_vesting_shares a) = delegated_by (acc_name a) db ∧
  amount (acc_received_vesting_shares a) = received_by (acc_name a) db.
Proof.
  intros Hdb Hok Ha. destruct (Hok (acc_name a)) as [H1 H2]. unfold lent_gap, borrowed_gap in *.
  assert (∀ g : account_object → Z, msum (λ x, if_named (acc_name x) (g x) (acc_name a))
            (trows db) = g a) as Hone.
  { intros g. rewrite <- (insert_delete_id (trows db) i a) by done.
    rewrite msum_insert by apply lookup_delete_eq. rewrite msum_zero.
    - unfold if_named. rewrite bool_decide_true by done. lia.
    - intros j x [Hj Hx]%lookup_delete_Some. unfold if_named. rewrite bool_decide_false; [done|].
      intros E. apply Hj. by eapply account_name_inj. }
  unfold acc_lent, acc_borrowed in *. rewrite Hone in H1, H2. lia.
Qed.

(** Delegations do not touch the proxies. *)
Lemma delegate_vesting_shares_loops o db u db' :
  db_wf db → no_proxy_loops db → delegate_vesting_shares_evaluator o db = Ok (u, db') →
  no_proxy_loops db'.
Proof.
  unfold delegate_vesting_shares_evaluator, assert_ge. intros Hdb Hloop H.
  assert (loops_inv db) as Hl by (split; [by apply wf_account_ids|done]).
  inv_db. repeat (case_match; inv_db); unfold add_delegated, add_received, sub_received in *;
    repeat loops_step; loops_done.
Qed.

Lemma clear_expired_delegation_loops i db u db' :
  loops_inv db → clear_expired_delegation i db = Ok (u, db') → loops_inv db'.
Proof.
  intros Hl H. unfold clear_expired_delegation, sub_delegated in H. inv_db. repeat loops_step. done.
Qed.
Lemma clear_expired_delegations_loops db u db' :
  db_wf db → no_proxy_loops db → clear_expired_delegations db = Ok (u, db') → no_proxy_loops db'.
Proof.
  unfold clear_expired_delegations. intros Hdb Hloop H.
  assert (loops_inv db) as Hl by (split; [by apply wf_account_ids|done]). clear Hdb Hloop.
  inv_db. match goal with H : for_each ?l _ _ = _ |- _ => revert H; generalize l end. intros l.
  revert db Hl. induction l as [|i l IH]; intros db Hl H; cbn [for_each] in H;
    [inv_ok; apply Hl|].
  apply bind_ok in H as (v & s & H1 & H2).
  apply (IH s); [by eapply clear_expired_delegation_loops|done].
Qed.
End evaluators.
