(* ===== verification/Accounts.v ===== *)
(** * Accounts, authorities and their recovery

    The evaluators of [account_create], [account_create_with_delegation],
    [account_update], [witness_update], [challenge_authority],
    [prove_authority], [request_account_recovery], [recover_account] and
    [change_recovery_account] of chain/steem_evaluator.cpp, and
    [update_owner_authority] and [account_recovery_processing] of
    chain/database.cpp. *)
From S2P Require Import Prelude Fc Config Asset Chainbase ChainbaseSpec Objects Database.
From S2P Require Import Supply Protocol Votes Ledger Genesis Transfers Market Escrow Vesting.
From S2P Require Import Frames Proxies Delegations.

Section accounts.
Context {F : Fc}.

(** [for( auto& a : auth.account_auths ) _db.get_account( a.first );] *)
Definition check_auths (a : authority) : DB unit :=
  for_each (account_auths a) (λ p, get_account p.1;; mret tt).

(** The members that both kinds of creation set. *)
Definition init_account (name memo_key creator json : string) (now : Z) (received : asset)
    (a : account_object) : account_object :=
  set_acc_json_metadata json
    (set_acc_received_vesting_shares received
      (set_acc_recovery_account creator
        (set_acc_mined false
          (set_acc_last_vote_time now
            (set_acc_created now (set_acc_memo_key memo_key (set_acc_name name a))))))).
Definition init_authority (name : string) (owner active posting : authority)
    (a : account_authority_object) : account_authority_object :=
  set_aa_last_owner_update time_min
    (set_aa_posting posting
      (set_aa_active active (set_aa_owner owner (set_aa_account name a)))).

Definition account_create_evaluator (o : account_create_operation) : DB unit :=
  creator ← get_account (ac_creator o);
  props ← get_dynamic_global_properties;
  assert_ge (acc_balance creator) (ac_fee o) "Insufficient balance to create account.";;
  wso ← get_witness_schedule_object;
  required ← lift (safe_mul (amount (account_creation_fee (wso_median_props wso)))
                            STEEMIT_CREATE_ACCOUNT_WITH_STEEM_MODIFIER);
  assert_ge (ac_fee o) (Asset required STEEM_SYMBOL) "Insufficient Fee: required, provided.";;
  check_auths (ac_owner o);;
  check_auths (ac_active o);;
  check_auths (ac_posting o);;
  modify (acc_id creator) (λ c, b ← asset_sub (acc_balance c) (ac_fee o); mret (set_acc_balance b c));;
  new_account ← create account_object_default
    (init_account (ac_new_account_name o) (ac_memo_key o) (ac_creator o) (ac_json_metadata o)
       (gpo_time props) (acc_received_vesting_shares account_object_default));
  create account_authority_object_default
    (init_authority (ac_new_account_name o) (ac_owner o) (ac_active o) (ac_posting o));;
  when (0 <? amount (ac_fee o)) (create_vesting new_account (ac_fee o) false;; mret tt).

Definition account_create_with_delegation_evaluator
    (o : account_create_with_delegation_operation) : DB unit :=
  creator ← get_account (acd_creator o);
  props ← get_dynamic_global_properties;
  wso ← get_witness_schedule_object;
  assert_ge (acc_balance creator) (acd_fee o) "Insufficient balance to create account.";;
  free ← lift
    (x ← asset_sub (acc_vesting_shares creator) (acc_delegated_vesting_shares creator);
     y ← safe_sub (acc_to_withdraw creator) (acc_withdrawn creator);
     asset_sub x (Asset y VESTS_SYMBOL));
  assert_ge free (acd_delegation o) "Insufficient vesting shares to delegate to new account.";;
  target_delegation ← lift
    (x ← safe_mul (amount (account_creation_fee (wso_median_props wso)))
                  STEEMIT_CREATE_ACCOUNT_WITH_STEEM_MODIFIER;
     y ← safe_mul x STEEMIT_CREATE_ACCOUNT_DELEGATION_RATIO;
     asset_mul (Asset y STEEM_SYMBOL) (get_vesting_share_price props));
  current_delegation ← lift
    (x ← safe_mul (amount (acd_fee o)) STEEMIT_CREATE_ACCOUNT_DELEGATION_RATIO;
     y ← asset_mul (Asset x STEEM_SYMBOL) (get_vesting_share_price props);
     asset_add y (acd_delegation o));
  assert_ge current_delegation target_delegation "Inssufficient Delegation required, provided.";;
  assert_ge (acd_fee o) (account_creation_fee (wso_median_props wso))
    "Insufficient Fee: required, provided.";;
  check_auths (acd_owner o);;
  check_auths (acd_active o);;
  check_auths (acd_posting o);;
  modify (acc_id creator) (λ c,
    b ← asset_sub (acc_balance c) (acd_fee o);
    d ← asset_add (acc_delegated_vesting_shares c) (acd_delegation o);
    mret (set_acc_delegated_vesting_shares d (set_acc_balance b c)));;
  new_account ← create account_object_default
    (init_account (acd_new_account_name o) (acd_memo_key o) (acd_creator o) (acd_json_metadata o)
       (gpo_time props) (acd_delegation o));
  create account_authority_object_default
    (init_authority (acd_new_account_name o) (acd_owner o) (acd_active o) (acd_posting o));;
  now ← head_block_time;
  when (0 <? amount (acd_delegation o))
    (create vesting_delegation_object_default (λ d,
       set_vd_min_delegation_time (time_add now STEEMIT_CREATE_ACCOUNT_DELEGATION_TIME)
         (set_vd_vesting_shares (acd_delegation o)
           (set_vd_delegatee (acd_new_account_name o) (set_vd_delegator (acd_creator o) d))));;
     mret tt);;
  when (0 <? amount (acd_fee o)) (create_vesting new_account (acd_fee o) false;; mret tt).

Definition update_owner_authority (account : account_object) (owner_authority : authority) : DB unit :=
  num ← head_block_num; now ← head_block_time;
  when (STEEMIT_OWNER_AUTH_HISTORY_TRACKING_START_BLOCK_NUM <=? num)
    (auth ← get_authority (acc_name account);
     create owner_authority_history_object_default (λ h,
       set_oah_last_valid_time now
         (set_oah_previous_owner_authority (aa_owner auth) (set_oah_account (acc_name account) h)));;
     mret tt);;
  auth ← get_authority (acc_name account);
  modify (aa_id auth) (λ a, Ok (set_aa_last_owner_update now (set_aa_owner owner_authority a))).

(** [if( opt ) f( *opt );] *)
Definition when_some {A} (x : option A) (f : A → DB unit) : DB unit :=
  match x with None => mret tt | Some a => f a end.
Definition has {A} (x : option A) : bool := match x with Some _ => true | None => false end.

(** A default-constructed [public_key_type] is the empty string here. *)
Definition account_update_evaluator (o : account_update_operation) : DB unit :=
  assert (negb (bool_decide (au_account o = STEEMIT_TEMP_ACCOUNT))) "Cannot update temp account.";;
  when_some (au_posting o) (λ p, lift (authority_validate p));;
  account ← get_account (au_account o);
  account_auth ← get_authority (au_account o);
  now ← head_block_time;
  when_some (au_owner o) (λ owner,
    assert (STEEMIT_OWNER_UPDATE_LIMIT <? now - aa_last_owner_update account_auth)
      "Owner authority can only be updated once an hour.";;
    check_auths owner;;
    update_owner_authority account owner);;
  when_some (au_active o) check_auths;;
  when_some (au_posting o) check_auths;;
  modify (acc_id account) (λ a,
    let a1 := if negb (bool_decide (au_memo_key o = EmptyString))
              then set_acc_memo_key (au_memo_key o) a else a in
    let a2 := if (has (au_active o) || has (au_owner o)) && acc_active_challenged a1
              then set_acc_last_active_proved now (set_acc_active_challenged false a1) else a1 in
    let a3 := set_acc_last_account_update now a2 in
    Ok (if (0 <? String.length (au_json_metadata o))%nat
        then set_acc_json_metadata (au_json_metadata o) a3 else a3));;
  when (has (au_active o) || has (au_posting o))
    (modify (aa_id account_auth) (λ a,
       let a1 := match au_active o with Some x => set_aa_active x a | None => a end in
       Ok (match au_posting o with Some x => set_aa_posting x a1 | None => a1 end))).

Definition witness_update_evaluator (o : witness_update_operation) : DB unit :=
  get_account (wu_owner o);;
  assert (Z.of_nat (String.length (wu_url o)) <=? STEEMIT_MAX_WITNESS_URL_LENGTH) "URL is too long";;
  assert (symbol (account_creation_fee (wu_props o)) =? STEEM_SYMBOL)
    "o.props.account_creation_fee.symbol == STEEM_SYMBOL";;
  now ← head_block_time;
  wit ← find_witness (wu_owner o);
  match wit with
  | Some w =>
      modify (wit_id w) (λ w,
        Ok (set_wit_props (wu_props o)
             (set_wit_signing_key (wu_block_signing_key o) (set_wit_url (wu_url o) w))))
  | None =>
      create witness_object_default (λ w,
        set_wit_props (wu_props o)
          (set_wit_created now
            (set_wit_signing_key (wu_block_signing_key o)
              (set_wit_url (wu_url o) (set_wit_owner (wu_owner o) w)))));;
      mret tt
  end.

(** The first statement throws; the others are not reached. *)
Definition challenge_authority_evaluator (o : challenge_authority_operation) : DB unit :=
  assert false "Challenge authority operation is currently disabled.".

Definition prove_authority_evaluator (o : prove_authority_operation) : DB unit :=
  challenged ← get_account (pa_challenged o);
  assert (acc_owner_challenged challenged || acc_active_challenged challenged)
    "Account is not challeneged. No need to prove authority.";;
  now ← head_block_time;
  modify (acc_id challenged) (λ a,
    let a1 := set_acc_last_active_proved now (set_acc_active_challenged false a) in
    Ok (if pa_require_owner o
        then set_acc_last_owner_proved now (set_acc_owner_challenged false a1) else a1)).

(** *** Recovery *)

(** The order of [by_vote_name]. *)
Definition vote_name_leb (x y : witness_object) : bool :=
  (wit_votes y <? wit_votes x)
  || ((wit_votes x =? wit_votes y) && String.leb (wit_owner x) (wit_owner y)).
(** [begin()->owner]; [begin()] of an empty index cannot be read. *)
Definition top_witness : DB string :=
  l ← gets (select (λ _ : witness_object, true) vote_name_leb);
  match l with [] => throw out_of_range | w :: _ => mret (wit_owner w) end.

Definition request_account_recovery_evaluator (o : request_account_recovery_operation) : DB unit :=
  account_to_recover ← get_account (rar_account_to_recover o);
  (if negb (bool_decide (acc_recovery_account account_to_recover = EmptyString)) then
     assert (bool_decide (acc_recovery_account account_to_recover = rar_recovery_account o))
       "Cannot recover an account that does not have you as there recovery partner."
   else
     top ← top_witness;
     assert (bool_decide (top = rar_recovery_account o))
       "Top witness must recover an account with no recovery partner.");;
  now ← head_block_time;
  request ← find_by (λ r, bool_decide (arr_account_to_recover r = rar_account_to_recover o));
  let expires := time_add now STEEMIT_ACCOUNT_RECOVERY_REQUEST_EXPIRATION_PERIOD in
  match request with
  | None =>
      assert (negb (is_impossible (rar_new_owner_authority o)))
        "Cannot recover using an impossible authority.";;
      assert (negb (weight_threshold (rar_new_owner_authority o) =? 0))
        "Cannot recover using an open authority.";;
      check_auths (rar_new_owner_authority o);;
      create account_recovery_request_object_default (λ r,
        set_arr_expires expires
          (set_arr_new_owner_authority (rar_new_owner_authority o)
            (set_arr_account_to_recover (rar_account_to_recover o) r)));;
      mret tt
  | Some r =>
      if weight_threshold (rar_new_owner_authority o) =? 0 then
        remove account_recovery_request_object (arr_id r)
      else
        assert (negb (is_impossible (rar_new_owner_authority o)))
          "Cannot recover using an impossible authority.";;
        check_auths (rar_new_owner_authority o);;
        modify (arr_id r) (λ r,
          Ok (set_arr_expires expires
               (set_arr_new_owner_authority (rar_new_owner_authority o) r)))
  end.

(** [while( ... && !found )] over the history of the account. *)
Definition in_history (account : string) (auth : authority) (db : database) : bool :=
  existsb (λ h, bool_decide (oah_previous_owner_authority h = auth))
    (select (λ h, bool_decide (oah_account h = account))
       (λ x y, oah_last_valid_time x <=? oah_last_valid_time y) db).

Definition recover_account_evaluator (o : recover_account_operation) : DB unit :=
  account ← get_account (ra_account_to_recover o);
  now ← head_block_time;
  assert (STEEMIT_OWNER_UPDATE_LIMIT <? now - acc_last_account_recovery account)
    "Owner authority can only be updated once an hour.";;
  request ← find_by (λ r, bool_decide (arr_account_to_recover r = ra_account_to_recover o));
  match request with
  | None => throw (assert_exception "There are no active recovery requests for this account.")
  | Some r =>
      assert (bool_decide (arr_new_owner_authority r = ra_new_owner_authority o))
        "New owner authority does not match recovery request.";;
      found ← gets (in_history (ra_account_to_recover o) (ra_recent_owner_authority o));
      assert found "Recent authority not found in authority history.";;
      remove account_recovery_request_object (arr_id r);;
      update_owner_authority account (ra_new_owner_authority o);;
      modify (acc_id account) (λ a, Ok (set_acc_last_account_recovery now a))
  end.

Definition change_recovery_account_evaluator (o : change_recovery_account_operation) : DB unit :=
  get_account (cra_new_recovery_account o);;
  account_to_recover ← get_account (cra_account_to_recover o);
  now ← head_block_time;
  request ← find_by (λ r, bool_decide (crr_account_to_recover r = cra_account_to_recover o));
  let effective_on := time_add now STEEMIT_OWNER_AUTH_RECOVERY_PERIOD in
  match request with
  | None =>
      create change_recovery_account_request_object_default (λ r,
        set_crr_effective_on effective_on
          (set_crr_recovery_account (cra_new_recovery_account o)
            (set_crr_account_to_recover (cra_account_to_recover o) r)));;
      mret tt
  | Some r =>
      if negb (bool_decide (acc_recovery_account account_to_recover = cra_new_recovery_account o)) then
        modify (crr_id r) (λ r,
          Ok (set_crr_effective_on effective_on
               (set_crr_recovery_account (cra_new_recovery_account o) r)))
      else remove change_recovery_account_request_object (crr_id r)
  end.

(** *** [account_recovery_processing] *)
Fixpoint take_while {A} (P : A → bool) (l : list A) : list A :=
  match l with [] => [] | x :: l' => if P x then x :: take_while P l' else [] end.

(** The requests that have expired, in the order of [by_expiration]. *)
Definition expired_requests (now : Z) : database → list account_recovery_request_object :=
  select (λ r, arr_expires r <=? now) (λ x y, arr_expires x <=? arr_expires y).
(** The history is visited by id, up to the first entry that is still valid. *)
Definition stale_history (now : Z) (db : database) : list owner_authority_history_object :=
  take_while (λ h, time_add (oah_last_valid_time h) STEEMIT_OWNER_AUTH_RECOVERY_PERIOD <? now)
    (select (λ _, true) (λ x y, oah_id x <=? oah_id y) db).
Definition due_changes (now : Z) : database → list change_recovery_account_request_object :=
  select (λ r, crr_effective_on r <=? now) (λ x y, crr_effective_on x <=? crr_effective_on y).

Definition account_recovery_processing : DB unit :=
  now ← head_block_time;
  rs ← gets (expired_requests now);
  for_each rs (λ r, remove account_recovery_request_object (arr_id r));;
  hs ← gets (stale_history now);
  for_each hs (λ h, remove owner_authority_history_object (oah_id h));;
  cs ← gets (due_changes now);
  for_each cs (λ c,
    a ← get_account (crr_account_to_recover c);
    modify (acc_id a) (λ a, Ok (set_acc_recovery_account (crr_recovery_account c) a));;
    remove change_recovery_account_request_object (crr_id c)).
End accounts.

(** ** What these operations keep *)
Section effects.
Context {F : Fc}.

Lemma check_auths_reads a db u db' : check_auths a db = Ok (u, db') → db' = db.
Proof.
  unfold check_auths. generalize (account_auths a). intros l. revert db.
  induction l as [|p l IH]; intros db H; cbn [for_each] in H; inv_db; [done|]. by apply IH.
Qed.
#[export] Instance check_auths_conserves a : Conserves (check_auths a).
Proof. apply shifts_read. intros. by eapply check_auths_reads. Qed.
#[export] Instance check_auths_keeps {B} (obs : database → B) a : Keeps obs (check_auths a).
Proof. apply keeps_read. intros. by eapply check_auths_reads. Qed.
#[export] Instance check_auths_links a : KeepsLinks (check_auths a).
Proof. apply links_keeps, check_auths_keeps. Qed.
#[local] Typeclasses Opaque check_auths.

#[export] Instance update_owner_authority_conserves a o : Conserves (update_owner_authority a o).
Proof. unfold update_owner_authority. conserve. Qed.
#[export] Instance account_update_conserves o : Conserves (account_update_evaluator o).
Proof.
  unfold account_update_evaluator, when_some. conserve;
    apply modify_conserves; intros ?? [= <-]; split_cases; (split; [done|by intros []]).
Qed.
#[export] Instance witness_update_conserves o : Conserves (witness_update_evaluator o).
Proof. unfold witness_update_evaluator. conserve. Qed.
#[export] Instance challenge_authority_conserves o : Conserves (challenge_authority_evaluator o).
Proof. unfold challenge_authority_evaluator. conserve. Qed.
#[export] Instance prove_authority_conserves o : Conserves (prove_authority_evaluator o).
Proof.
  unfold prove_authority_evaluator. conserve;
    apply modify_conserves; intros ?? [= <-]; split_cases; (split; [done|by intros []]).
Qed.
#[export] Instance request_account_recovery_conserves o :
  Conserves (request_account_recovery_evaluator o).
Proof. unfold request_account_recovery_evaluator, top_witness. conserve. Qed.
#[export] Instance recover_account_conserves o : Conserves (recover_account_evaluator o).
Proof. unfold recover_account_evaluator. conserve. Qed.
#[export] Instance change_recovery_account_conserves o :
  Conserves (change_recovery_account_evaluator o).
Proof. unfold change_recovery_account_evaluator. conserve. Qed.
#[export] Instance account_recovery_processing_conserves : Conserves account_recovery_processing.
Proof. unfold account_recovery_processing. conserve. Qed.

#[export] Instance update_owner_authority_links a o : KeepsLinks (update_owner_authority a o).
Proof. unfold update_owner_authority. link. Qed.
#[export] Instance account_update_links o : KeepsLinks (account_update_evaluator o).
Proof. unfold account_update_evaluator, when_some. link. Qed.
#[export] Instance witness_update_links o : KeepsLinks (witness_update_evaluator o).
Proof. unfold witness_update_evaluator. link. Qed.
#[export] Instance challenge_authority_links o : KeepsLinks (challenge_authority_evaluator o).
Proof. unfold challenge_authority_evaluator. link. Qed.
#[export] Instance prove_authority_links o : KeepsLinks (prove_authority_evaluator o).
Proof. unfold prove_authority_evaluator. link. Qed.
#[export] Instance request_account_recovery_links o :
  KeepsLinks (request_account_recovery_evaluator o).
Proof. unfold request_account_recovery_evaluator, top_witness. link. Qed.
#[export] Instance recover_account_links o : KeepsLinks (recover_account_evaluator o).
Proof. unfold recover_account_evaluator. link. Qed.
#[export] Instance change_recovery_account_links o :
  KeepsLinks (change_recovery_account_evaluator o).
Proof. unfold change_recovery_account_evaluator. link. Qed.
#[export] Instance account_recovery_processing_links : KeepsLinks account_recovery_processing.
Proof. unfold account_recovery_processing. link. Qed.

(** A new account holds nothing. *)
Lemma init_account_weight k i name key creator json now r :
  weight k (init_account name key creator json now r (set_obj_id i account_object_default)) = 0.
Proof. by destruct k. Qed.
Lemma init_account_row i name key creator json now r :
  row_ok (init_account name key creator json now r (set_obj_id i account_object_default)).
Proof. done. Qed.

(** The fee of the creation is vested for the new account. *)
Ltac created :=
  shift_all; (split; [done|]); let k := fresh "k" in intros k; at_kind k;
  rewrite init_account_weight in *;
  match goal with H : asset_ge _ (Asset 0 STEEM_SYMBOL) = Ok true |- _ =>
    apply asset_ge_ok in H as [_ ?] end;
  inv_ok; inv_asset; subst; cbn [amount] in *; ledger k.

Lemma account_create_conserves o :
  account_create_validate o = Ok tt → Conserves (account_create_evaluator o).
Proof.
  intros Hv. unfold account_create_validate in Hv. inv_okb. intros db u db' Hdb H.
  unfold account_create_evaluator in H. inv_db; created.
Qed.
Lemma account_create_with_delegation_conserves o :
  account_create_with_delegation_validate o = Ok tt →
  Conserves (account_create_with_delegation_evaluator o).
Proof.
  intros Hv. unfold account_create_with_delegation_validate in Hv. inv_okb.
  intros db u db' Hdb H. unfold account_create_with_delegation_evaluator in H. inv_db; created.
Qed.

End effects.

(** ** New accounts, the proxies and the delegations *)
Section creation.
Context {F : Fc}.

(** Steps that keep the links keep the names and the gaps. *)
Lemma links_step {A} (m : DB A) db a db' :
  KeepsLinks m → Keeps db_delegations m → Keeps db_expirations m →
  account_ids db → m db = Ok (a, db') →
  account_ids db' ∧ (∀ j n, named j n db → named j n db') ∧ gap_shift (λ _, 0) (λ _, 0) db db'.
Proof.
  intros Hl Hd He Hids H. destruct (Hl _ _ _ Hids H) as [? E]. split_and!; [done| |].
  - intros j n Hn x Hx. pose proof (links_lookup _ _ _ Hx) as Hx'. rewrite E in Hx'.
    unfold links in Hx'. apply lookup_fmap_Some in Hx' as (y & Hy & Hrow).
    injection Hy as _ <- _ _ _. by apply Hn.
  - by apply (links_gaps m Hl Hd He _ a).
Qed.

Lemma create_account_step c v0 db i db' :
  (∀ j, acc_id (c (set_acc_id j v0)) = j) → account_ids db → create v0 c db = Ok (i, db') →
  account_ids db' ∧
  gap_shift (λ n, acc_lent n (c (set_obj_id i v0))) (λ n, acc_borrowed n (c (set_obj_id i v0))) db db'.
Proof.
  intros Hid Hids H. pose proof (create_account_gap _ _ _ _ _ H).
  apply create_rows in H as [Hn E]; [|done]. split; [|done].
  unfold account_ids. rewrite E. intros j a [[<- <-]|[_ Ha]]%lookup_insert_Some; [apply Hid|by apply Hids].
Qed.

#[export] Instance create_vesting_keeps_delegations a s b : Keeps db_delegations (create_vesting a s b).
Proof. unfold create_vesting. keep. by apply adjust_proxied_keeps. Qed.
#[export] Instance create_vesting_keeps_expirations a s b : Keeps db_expirations (create_vesting a s b).
Proof. unfold create_vesting. keep. by apply adjust_proxied_keeps. Qed.

Lemma account_create_loops o db u db' :
  db_wf db → no_proxy_loops db → account_create_evaluator o db = Ok (u, db') → no_proxy_loops db'.
Proof.
  unfold account_create_evaluator, assert_ge. intros Hdb Hloop H.
  assert (loops_inv db) as Hl by (split; [by apply wf_account_ids|done]).
  inv_db; repeat loops_step; loops_done.
Qed.
Lemma account_create_with_delegation_loops o db u db' :
  db_wf db → no_proxy_loops db → account_create_with_delegation_evaluator o db = Ok (u, db') →
  no_proxy_loops db'.
Proof.
  unfold account_create_with_delegation_evaluator, assert_ge. intros Hdb Hloop H.
  assert (loops_inv db) as Hl by (split; [by apply wf_account_ids|done]).
  inv_db; repeat loops_step; loops_done.
Qed.
End creation.

(** One more kind of step of [gap_step]: creations of accounts and steps that
    keep the links. *)
Ltac creation_step :=
  match goal with
  | Hids : account_ids ?s, H : create (A := account_object) _ _ ?s = Ok _ |- _ =>
      apply create_account_step in H as [? ?]; [|done|exact Hids]
  | Hids : account_ids ?s, H : create (A := vesting_delegation_object) _ _ ?s = Ok _ |- _ =>
      gap_other H create_delegation_gap
  | Hids : account_ids ?s, H : ?m ?s = Ok (_, ?s') |- _ =>
      apply (links_step m) in H as (? & ? & ?);
      [|solve [link]|solve [apply _|keep]|solve [apply _|keep]|exact Hids]
  end.
Section creation_gaps.
Context {F : Fc}.

Lemma account_create_keeps o db u db' :
  db_wf db → delegations_ok db → account_create_evaluator o db = Ok (u, db') → delegations_ok db'.
Proof.
  unfold account_create_evaluator, assert_ge. intros Hdb Hok H.
  pose proof (wf_account_ids _ Hdb) as Hids. inv_db; repeat creation_step; close_gaps.
Qed.

(** The creator lends what the new account is lent. *)
Lemma creator_lends fee d :
  lends (amount d) 0 (λ c,
    b ← asset_sub (acc_balance c) fee;
    d ← asset_add (acc_delegated_vesting_shares c) d;
    mret (set_acc_delegated_vesting_shares d (set_acc_balance b c))).
Proof. intros x y H. inv_ok. inv_asset. subst. cbn. split_and!; [done..| |]; lia. Qed.

Lemma account_create_with_delegation_keeps o db u db' :
  account_create_with_delegation_validate o = Ok tt → db_wf db → delegations_ok db →
  account_create_with_delegation_evaluator o db = Ok (u, db') → delegations_ok db'.
Proof.
  intros Hv. unfold account_create_with_delegation_validate in Hv. inv_okb.
  match goal with H : asset_ge (acd_delegation o) _ = Ok true |- _ => apply asset_ge_ok in H as [_ Hd] end.
  cbn [amount] in Hd.
  unfold account_create_with_delegation_evaluator, assert_ge. intros Hdb Hok H.
  pose proof (wf_account_ids _ Hdb) as Hids. inv_db;
  repeat match goal with H : check_auths _ _ = Ok _ |- _ => apply check_auths_reads in H as -> end;
  match goal with Hf : find_row (by_name ?n) db = Some ?a, Hmod : modify _ _ db = Ok _ |- _ =>
    pose proof (lends_gap _ _ _ _ _ _ _ _ Hids (found_named n a db Hdb Hf) (creator_lends _ _) Hmod)
      as (? & _ & ?); clear Hids Hmod end;
  repeat match goal with H : (0 <? _) = _ |- _ => apply Z.ltb_lt in H || apply Z.ltb_ge in H end;
  repeat creation_step; close_gaps.
Qed.
End creation_gaps.
