(* ===== verification/WitnessSchedule.v ===== *)
(** * The witness schedule

    chain/witness_schedule.cpp: which witnesses produce the blocks of a round
    ([update_witness_schedule4]), the virtual time by which the witnesses that
    are not in the top of the votes take turns, the shuffle of a round, the
    votes for versions and hardforks, and the medians of the chain properties. *)
From S2P Require Import Prelude Fc Config Asset Chainbase ChainbaseSpec Objects Database.
From S2P Require Import Supply Votes Ledger Genesis Accounts.

Section schedule.
Context {F : Fc}.

(** ** Virtual time *)

(** [VIRTUAL_SCHEDULE_LAP_LENGTH2 / ( votes.value + 1 )] *)
Definition lap_time (votes : Z) : result Z :=
  u128_div VIRTUAL_SCHEDULE_LAP_LENGTH2 (u128_of_int64 (to_int64 (votes + 1))).

Definition set_virtual_schedule (last_update scheduled_time : Z) (w : witness_object) : witness_object :=
  set_wit_virtual_scheduled_time scheduled_time
    (set_wit_virtual_last_update last_update (set_wit_virtual_position 0 w)).

Definition reset_virtual_schedule_time : DB unit :=
  modify_the (λ o : witness_schedule_object, mret (set_wso_current_virtual_time 0 o));;
  ws ← gets (all_rows (A := witness_object));
  for_each ws (λ witness,
    wso ← get_witness_schedule_object;
    modify (wit_id witness) (λ wobj,
      t ← lap_time (wit_votes wobj);
      mret (set_virtual_schedule (wso_current_virtual_time wso) t wobj))).

(** ** Medians *)

Definition add_scheduled (wso : witness_schedule_object) (active : list witness_object) (i : nat)
    : DB (list witness_object) :=
  match wso_current_shuffled_witnesses wso !! i with
  | Some name => w ← get_witness name; mret (active ++ [w])
  | None => throw out_of_range
  end.
(** The witnesses of the current round:
    [get_witness( wso.current_shuffled_witnesses[i] )] for every [i]. *)
Definition scheduled_witnesses : DB (list witness_object) :=
  wso ← get_witness_schedule_object;
  fold_m (seq 0 (Z.to_nat (wso_num_scheduled_witnesses wso))) (add_scheduled wso) [].

(** [std::sort] and the element in the middle. *)
Definition median {A} (leb : A → A → bool) (l : list A) : result A :=
  match sort_by leb l !! (length l / 2)%nat with
  | Some x => Ok x
  | None => Throw out_of_range
  end.

Definition update_median_witness_props : DB unit :=
  active ← scheduled_witnesses;
  fee ← lift (median (λ a b, amount (account_creation_fee (wit_props a))
                             <=? amount (account_creation_fee (wit_props b))) active);
  size ← lift (median (λ a b, maximum_block_size (wit_props a) <=? maximum_block_size (wit_props b)) active);
  rate ← lift (median (λ a b, sbd_interest_rate (wit_props a) <=? sbd_interest_rate (wit_props b)) active);
  let median_account_creation_fee := account_creation_fee (wit_props fee) in
  let median_maximum_block_size := maximum_block_size (wit_props size) in
  let median_sbd_interest_rate := sbd_interest_rate (wit_props rate) in
  modify_the (λ wso : witness_schedule_object, mret
    (set_wso_median_props
       (ChainProperties median_account_creation_fee median_maximum_block_size median_sbd_interest_rate)
       wso));;
  modify_gpo (λ dgpo, mret
    (set_gpo_sbd_interest_rate median_sbd_interest_rate
      (set_gpo_maximum_block_size median_maximum_block_size dgpo))).

(** ** The witnesses of the next round *)

(** [public_key_type()], the key of a witness that was shut down. *)
Definition has_signing_key (w : witness_object) : bool :=
  negb (bool_decide (wit_signing_key w = EmptyString)).

(** The loop over [by_vote_name]: the first [n] witnesses with a signing key. *)
Fixpoint elect (n : nat) (ws : list witness_object) : list witness_object :=
  match n, ws with
  | S n', w :: ws' => if has_signing_key w then w :: elect n' ws' else elect n ws'
  | _, _ => []
  end.

(** [by_schedule_time] *)
Definition schedule_time_leb (x y : witness_object) : bool :=
  (wit_virtual_scheduled_time x <? wit_virtual_scheduled_time y)
  || ((wit_virtual_scheduled_time x =? wit_virtual_scheduled_time y) && (wit_id x <=? wit_id y)).

(** The loop over [by_schedule_time]: the witnesses it goes through, the ones it
    adds, and the virtual time it reaches. *)
Record running := Running {
  processed_witnesses : list witness_object;
  timeshare_witnesses : list witness_object;
  new_virtual_time : Z }.
Fixpoint run_witnesses (selected_voted : list Z) (witness_count : nat) (time : Z)
    (ws : list witness_object) : running :=
  match ws with
  | [] => Running [] [] time
  | w :: ws' =>
      if (Z.to_nat STEEMIT_MAX_WITNESSES <=? witness_count)%nat then Running [] [] time
      else
        let time' := wit_virtual_scheduled_time w in
        let added := has_signing_key w && negb (bool_decide (wit_id w ∈ selected_voted)) in
        let r := run_witnesses selected_voted (if added then S witness_count else witness_count) time' ws' in
        Running (w :: processed_witnesses r)
          (if added then w :: timeshare_witnesses r else timeshare_witnesses r) (new_virtual_time r)
  end.

(** The processed witnesses start a new lap; true when the virtual time wraps around. *)
Fixpoint start_laps (time : Z) (ws : list witness_object) : DB bool :=
  match ws with
  | [] => mret false
  | w :: ws' =>
      lap ← lift (lap_time (wit_votes w));
      let new_virtual_scheduled_time := u128_add time lap in
      if new_virtual_scheduled_time <? time then mret true
      else
        modify (wit_id w) (λ wo, mret (set_virtual_schedule time new_virtual_scheduled_time wo));;
        start_laps time ws'
  end.

(** ** Versions and hardforks

    A [flat_map] that counts votes, sorted by its keys. *)
Fixpoint tally_vote {K} (ltb : K → K → bool) (k : K) (m : list (K * Z)) : list (K * Z) :=
  match m with
  | [] => [(k, 1)]
  | (k', n) :: m' =>
      if ltb k k' then (k, 1) :: m
      else if ltb k' k then (k', n) :: tally_vote ltb k m'
      else (k', n + 1) :: m'
  end.
Definition tally {K} (ltb : K → K → bool) (l : list K) : list (K * Z) :=
  foldl (λ m k, tally_vote ltb k m) [] l.

(** The highest version that [required] witnesses run at least. *)
Fixpoint version_majority (required on_version : Z) (m : list (Z * Z)) : option Z :=
  match m with
  | [] => None
  | (v, n) :: m' =>
      if required <=? on_version + n then Some v else version_majority required (on_version + n) m'
  end.

Definition vote_ltb (x y : Z * Z) : bool :=
  (x.1 <? y.1) || ((x.1 =? y.1) && (x.2 <? y.2)).

Definition count_hardfork_votes (required : Z) (votes : list (Z * Z)) : DB unit :=
  match find (λ p, required <=? p.2) (tally vote_ltb votes) with
  | Some ((v, t), _) =>
      hfp ← get_hardfork_property_object;
      when (negb (hpo_next_hardfork hfp =? v) || negb (hpo_next_hardfork_time hfp =? t))
        (modify_the (λ hpo, mret (set_hpo_next_hardfork_time t (set_hpo_next_hardfork v hpo))))
  | None =>
      modify_the (λ hpo, mret (set_hpo_next_hardfork (hpo_current_hardfork_version hpo) hpo))
  end.

(** ** The shuffle *)
Definition shuffle_random (now_hi i : Z) : Z :=
  let c := 2685821657736338717 in
  let k := to_uint64 (now_hi + to_uint64 (i * c)) in
  let k := Z.lxor k (Z.shiftr k 12) in
  let k := Z.lxor k (to_uint64 (Z.shiftl k 25)) in
  let k := Z.lxor k (Z.shiftr k 27) in
  to_uint64 (k * c).

Definition swap {A} (i j : nat) (l : list A) : list A :=
  match l !! i, l !! j with
  | Some x, Some y => <[j := x]> (<[i := y]> l)
  | _, _ => l
  end.
Definition shuffle_step (now_hi : Z) (n : nat) (l : list string) (i : nat) : list string :=
  let jmax := Z.of_nat n - Z.of_nat i in
  swap i (i + Z.to_nat (shuffle_random now_hi (Z.of_nat i) mod jmax)) l.
Definition shuffle (now_hi : Z) (n : nat) (l : list string) : list string :=
  foldl (shuffle_step now_hi n) l (seq 0 n).

(** ** The update of the schedule

    Both indices are read at the start: the loops only change [schedule] while
    they iterate, which is not part of an index. *)
Definition update_witness_schedule4 : DB unit :=
  wso ← get_witness_schedule_object;
  by_vote_name ← gets (select (λ _ : witness_object, true) vote_name_leb);
  by_schedule_time ← gets (select (λ _ : witness_object, true) schedule_time_leb);
  let voted := elect (Z.to_nat (wso_max_voted_witnesses wso)) by_vote_name in
  for_each voted (λ w, modify (wit_id w) (λ wo, mret (set_wit_schedule top19 wo)));;
  let r := run_witnesses (wit_id <$> voted) (length voted) (wso_current_virtual_time wso)
             by_schedule_time in
  for_each (timeshare_witnesses r) (λ w, modify (wit_id w) (λ wo, mret (set_wit_schedule timeshare wo)));;
  let active_witnesses := wit_owner <$> voted ++ timeshare_witnesses r in
  let num_elected := Z.of_nat (length voted) in
  let num_timeshare := Z.of_nat (length active_witnesses) in
  reset_virtual_time ← start_laps (new_virtual_time r) (processed_witnesses r);
  let new_time := if (reset_virtual_time : bool) then 0 else new_virtual_time r in
  when reset_virtual_time reset_virtual_schedule_time;;
  assert (length active_witnesses =? min (Z.to_nat STEEMIT_MAX_WITNESSES) (length by_vote_name))%nat
    "number of active witnesses does not equal expected_active_witnesses=${expected_active_witnesses}";;
  ws ← scheduled_witnesses;
  let required := wso_hardfork_required_witnesses wso in
  let majority := default (wso_majority_version wso)
    (version_majority required 0 (tally (λ x y, y <? x) (wit_running_version <$> ws))) in
  count_hardfork_votes required ((λ w, (wit_hardfork_version_vote w, wit_hardfork_time_vote w)) <$> ws);;
  now ← head_block_time;
  num ← head_block_num;
  modify_the (λ _wso,
    let names := active_witnesses ++
      replicate (Z.to_nat STEEMIT_MAX_WITNESSES - length active_witnesses) EmptyString in
    let num_scheduled := Z.max (Z.of_nat (length active_witnesses)) 1 in
    let now_hi := to_uint64 (Z.shiftl now 32) in
    mret
      (set_wso_majority_version majority
        (set_wso_next_shuffle_block_num (to_uint32 (num + num_scheduled))
          (set_wso_current_virtual_time new_time
            (set_wso_current_shuffled_witnesses (shuffle now_hi (Z.to_nat num_scheduled) names)
              (set_wso_witness_pay_normalization_factor
                 (to_uint32 (wso_top19_weight _wso * num_elected + wso_timeshare_weight _wso * num_timeshare))
                (set_wso_num_scheduled_witnesses num_scheduled _wso)))))));;
  update_median_witness_props.

Definition update_witness_schedule : DB unit :=
  num ← head_block_num;
  if num mod STEEMIT_MAX_WITNESSES =? 0 then update_witness_schedule4 else mret tt.
End schedule.

(** ** The shuffle is a permutation *)
Section shuffle.
Context {F : Fc}.

Lemma swap_perm {A} i j (l : list A) : swap i j l ≡ₚ l.
Proof. unfold swap. repeat case_match; try done. by apply Permutation_insert_swap. Qed.
Lemma swap_length {A} i j (l : list A) : length (swap i j l) = length l.
Proof. by rewrite swap_perm. Qed.
Lemma swap_take {A} i j n (l : list A) :
  (i < n)%nat → (j < n)%nat → take n (swap i j l) = swap i j (take n l) ∧ drop n (swap i j l) = drop n l.
Proof.
  intros Hi Hj. unfold swap. rewrite !lookup_take_lt by done.
  repeat case_match; try done.
  by rewrite !take_insert_lt, !drop_insert_lt.
Qed.

Lemma shuffle_steps now n js l :
  Forall (λ i, i < n)%nat js →
  take n (foldl (shuffle_step now n) l js) ≡ₚ take n l ∧
  drop n (foldl (shuffle_step now n) l js) = drop n l.
Proof.
  revert l. induction js as [|i js IH]; intros l; [done|]. intros [Hi Hjs]%Forall_cons. cbn [foldl].
  destruct (IH (shuffle_step now n l i) Hjs) as [-> ->]. unfold shuffle_step.
  set (j := (i + _)%nat). destruct (swap_take i j n l) as [-> ->]; [done| |split; [apply swap_perm|done]].
  pose proof (Z.mod_pos_bound (shuffle_random now (Z.of_nat i)) (Z.of_nat n - Z.of_nat i)). lia.
Qed.
Lemma shuffle_perm now n l :
  take n (shuffle now n l) ≡ₚ take n l ∧ drop n (shuffle now n l) = drop n l.
Proof. apply shuffle_steps, Forall_forall. intros i Hi%elem_of_seq. lia. Qed.

Lemma shuffle_all now n l : shuffle now n l ≡ₚ l.
Proof.
  destruct (shuffle_perm now n l) as [Ht Hd].
  rewrite <- (take_drop n (shuffle now n l)), Ht, Hd. by rewrite take_drop.
Qed.

(** ** Who is selected *)
Lemma elect_spec n ws : elect n ws = take n (filter (λ w, has_signing_key w = true) ws).
Proof.
  revert n. induction ws as [|w ws IH]; intros [|n]; cbn [elect]; [done..|].
  rewrite filter_cons. destruct (has_signing_key w); [|apply IH].
  rewrite decide_True by done. cbn. by rewrite IH.
Qed.

(** A witness that is not voted in and can sign. *)
Definition takes_turns (voted : list Z) (w : witness_object) : bool :=
  has_signing_key w && negb (bool_decide (wit_id w ∈ voted)).
Lemma run_witnesses_spec voted n time ws :
  timeshare_witnesses (run_witnesses voted n time ws)
  = take (Z.to_nat STEEMIT_MAX_WITNESSES - n) (filter (λ w, takes_turns voted w = true) ws).
Proof.
  revert n time. induction ws as [|w ws IH]; intros n time; cbn [run_witnesses]; [symmetry; apply take_nil|].
  rewrite filter_cons. destruct (_ <=? _)%nat eqn:E.
  - apply Nat.leb_le in E. by replace (_ - n)%nat with 0%nat by lia.
  - apply Nat.leb_gt in E. cbn [timeshare_witnesses]. rewrite IH.
    change (has_signing_key w && _) with (takes_turns voted w).
    destruct (takes_turns voted w); [|done]. rewrite decide_True by done.
    by replace (Z.to_nat STEEMIT_MAX_WITNESSES - n)%nat with (S (Z.to_nat STEEMIT_MAX_WITNESSES - S n)) by lia.
Qed.
End shuffle.

(** ** The round that is scheduled *)
Section round.
Context {F : Fc}.

Lemma scheduled_witnesses_reads db ws db' :
  scheduled_witnesses db = Ok (ws, db') → db' = db.
Proof.
  unfold scheduled_witnesses. intros H. inv_db.
  match goal with H : fold_m _ _ _ _ = _ |- _ => revert H end. generalize (@nil witness_object).
  induction (seq _ _) as [|i is' IH]; intros l H; cbn [fold_m] in H; [by inv_ok|].
  inv_db. match goal with H : add_scheduled _ _ _ _ = _ |- _ => unfold add_scheduled in H end.
  case_match; inv_db. by eapply IH.
Qed.

Lemma median_props_keep db u db' :
  update_median_witness_props db = Ok (u, db') →
  wso_num_scheduled_witnesses (db_wso db') = wso_num_scheduled_witnesses (db_wso db) ∧
  wso_current_shuffled_witnesses (db_wso db') = wso_current_shuffled_witnesses (db_wso db).
Proof.
  unfold update_median_witness_props. intros H. inv_db.
  match goal with H : scheduled_witnesses _ = _ |- _ => apply scheduled_witnesses_reads in H as -> end.
  match goal with H : modify_the _ _ = _ |- _ => apply modify_the_ok in H as (x & [= <-] & ->) end.
  match goal with H : modify_gpo _ _ = _ |- _ => apply modify_gpo_ok in H as (g & _ & ->) end.
  done.
Qed.

(** The witnesses selected for the next round. *)
Definition voted_in (db : database) : list witness_object :=
  take (Z.to_nat (wso_max_voted_witnesses (db_wso db)))
    (filter (λ w, has_signing_key w = true) (select (λ _ : witness_object, true) vote_name_leb db)).
Definition next_in_turn (db : database) : list witness_object :=
  take (Z.to_nat STEEMIT_MAX_WITNESSES - length (voted_in db))
    (filter (λ w, takes_turns (wit_id <$> voted_in db) w = true)
       (select (λ _ : witness_object, true) schedule_time_leb db)).

Lemma update_witness_schedule4_ok db u db' :
  update_witness_schedule4 db = Ok (u, db') →
  let active := wit_owner <$> voted_in db ++ next_in_turn db in
  length active = min (Z.to_nat STEEMIT_MAX_WITNESSES) (length (select (λ _ : witness_object, true) vote_name_leb db)) ∧
  let n := Z.max (Z.of_nat (length active)) 1 in
  wso_num_scheduled_witnesses (db_wso db') = n ∧
  ∃ now_hi, wso_current_shuffled_witnesses (db_wso db')
  = shuffle now_hi (Z.to_nat n)
      (active ++ replicate (Z.to_nat STEEMIT_MAX_WITNESSES - length active) EmptyString).
Proof.
  unfold update_witness_schedule4, next_in_turn, voted_in. intros H. cbn zeta.
  rewrite <- elect_spec. inv_db. all: rewrite <- run_witnesses_spec with (time := wso_current_virtual_time (db_wso db)).
  all: match goal with H : (length _ =? _)%nat = true |- _ => apply Nat.eqb_eq in H; rewrite <- H end.
  all: split; [done|].
  all: match goal with H : update_median_witness_props _ = _ |- _ => apply median_props_keep in H as [-> ->] end.
  all: match goal with H : modify_the _ _ = Ok (_, ?s) |- context [db_wso ?s] =>
         apply modify_the_ok in H as (x & [= <-] & ->) end.
  all: split; [done|]; eexists; reflexivity.
Qed.

Lemma select_ids_NoDup {A} `{MultiIndex A} `{Table A} `{RowOk A} `{!WfTable A} P leb db :
  db_wf db → NoDup (obj_id (A := A) <$> select P leb db).
Proof.
  intros [[Hids _] _]%(wf_tbl (A := A)). unfold select. rewrite sort_by_perm.
  eapply sublist_NoDup; [|apply fmap_sublist, sublist_filter].
  assert (obj_id <$> (map_to_list (trows db)).*2 = (map_to_list (trows db)).*1) as ->;
    [|apply NoDup_fst_map_to_list].
  rewrite <- list_fmap_compose. apply list_fmap_ext. intros k [i x] Hx%list_elem_of_lookup_2.
  cbn. apply Hids. by apply elem_of_map_to_list.
Qed.

Lemma same_owner db i j (x y : witness_object) :
  db_wf db → trows db !! i = Some x → trows db !! j = Some y → wit_owner x = wit_owner y → x = y.
Proof.
  intros [[_ Hc] _]%(wf_tbl (A := witness_object)) Hx Hy E.
  destruct (decide (i = j)) as [->|Hne]; [congruence|].
  specialize (Hc i j x y Hx Hy Hne). cbn in Hc. by rewrite bool_decide_eq_true_2 in Hc.
Qed.

Lemma taken_elem {A} (P : A → Prop) `{!∀ x, Decision (P x)} n (l : list A) x :
  x ∈ take n (filter P l) → P x ∧ x ∈ l.
Proof.
  intros Hx. apply (list_elem_of_filter P l x). eapply elem_of_sublist; [done|apply sublist_take].
Qed.
Lemma round_row db w :
  w ∈ voted_in db ++ next_in_turn db → has_signing_key w = true ∧ ∃ i, trows db !! i = Some w.
Proof.
  intros [[Hw [_ Hr]%select_elem]%taken_elem|[Hw [_ Hr]%select_elem]%taken_elem]%elem_of_app; [done|].
  unfold takes_turns in Hw. apply andb_true_iff in Hw as [? _]. done.
Qed.
Lemma round_NoDup db : db_wf db → NoDup (wit_owner <$> voted_in db ++ next_in_turn db).
Proof.
  intros Hdb.
  assert (NoDup (wit_id <$> voted_in db ++ next_in_turn db)) as Hids.
  { rewrite fmap_app. apply NoDup_app. split_and!.
    - eapply sublist_NoDup; [apply (select_ids_NoDup (λ _, true) vote_name_leb db Hdb)|].
      apply fmap_sublist. etrans; [apply sublist_take|apply sublist_filter].
    - intros i Hi (w & -> & Hw)%list_elem_of_fmap. apply taken_elem in Hw as [Hw _]. unfold takes_turns in Hw.
      apply andb_true_iff in Hw as [_ Hw]. by rewrite bool_decide_eq_true_2 in Hw.
    - eapply sublist_NoDup; [apply (select_ids_NoDup (λ _, true) schedule_time_leb db Hdb)|].
      apply fmap_sublist. etrans; [apply sublist_take|apply sublist_filter]. }
  apply NoDup_fmap_2_strong; [|by apply NoDup_fmap_1 in Hids].
  intros x y [_ [i Hx]]%round_row [_ [j Hy]]%round_row E. by eapply same_owner.
Qed.
End round.

(** ** The schedule holds no assets *)
Section conserve.
Context {F : Fc}.

#[export] Instance scheduled_witnesses_conserves : Conserves scheduled_witnesses.
Proof. apply shifts_read. intros. by eapply scheduled_witnesses_reads. Qed.
#[export] Instance scheduled_witnesses_keeps {B} (obs : database → B) : Keeps obs scheduled_witnesses.
Proof. apply keeps_read. intros. by eapply scheduled_witnesses_reads. Qed.
#[export] Instance reset_virtual_schedule_time_conserves : Conserves reset_virtual_schedule_time.
Proof. unfold reset_virtual_schedule_time. conserve. Qed.
#[export] Instance start_laps_conserves t ws : Conserves (start_laps t ws).
Proof. induction ws as [|w ws IH]; cbn [start_laps]; conserve. Qed.
#[export] Instance update_median_witness_props_conserves : Conserves update_median_witness_props.
Proof.
  unfold update_median_witness_props. conserve. intros db u db' Hdb H. shift_all.
  split; [done|]. intros k. at_kind k. inv_ok. rewrite HI. destruct k; cbn; lia.
Qed.
#[export] Instance update_witness_schedule_conserves : Conserves update_witness_schedule.
Proof. unfold update_witness_schedule, update_witness_schedule4, count_hardfork_votes. conserve. Qed.
End conserve.

(** ** The theorems *)
Section theorems.
Context {F : Fc}.

Lemma select_length {A} `{Table A} leb db :
  length (select (A := A) (λ _, true) leb db) = size (trows (A := A) db).
Proof.
  unfold select. rewrite sort_by_perm, <- length_map_to_list, <- (length_fmap snd).
  f_equal. induction (map_to_list (trows db)).*2 as [|x l IH]; [done|].
  by rewrite filter_cons_True, IH.
Qed.

(** C38: the update of the schedule fills the next round with distinct witnesses:
    as many as there are, up to 21, each of them registered and with a signing
    key.  They are the most voted ones and, for the other places, the ones whose
    virtual time comes first; the shuffle only changes their order. *)
Theorem schedule_round db db' :
  db_wf db → (0 < size (trows (A := witness_object) db))%nat →
  update_witness_schedule4 db = Ok (tt, db') →
  let n := Z.to_nat (wso_num_scheduled_witnesses (db_wso db')) in
  let round := take n (wso_current_shuffled_witnesses (db_wso db')) in
  n = min 21 (size (trows (A := witness_object) db)) ∧
  length (wso_current_shuffled_witnesses (db_wso db')) = 21%nat ∧
  round ≡ₚ wit_owner <$> voted_in db ++ next_in_turn db ∧
  NoDup round ∧
  ∀ name, name ∈ round →
    ∃ i w, trows db !! i = Some w ∧ wit_owner w = name ∧ has_signing_key w = true.
Proof.
  intros Hdb Hw (Hlen & Hn & now_hi & Hs)%update_witness_schedule4_ok. cbn zeta in *.
  rewrite select_length in Hlen. rewrite Hn, Hs.
  set (active := wit_owner <$> voted_in db ++ next_in_turn db) in *.
  change (Z.to_nat STEEMIT_MAX_WITNESSES) with 21%nat in *.
  replace (Z.to_nat (Z.max _ 1)) with (length active) by lia.
  destruct (shuffle_perm now_hi (length active) (active ++ replicate (21 - length active) EmptyString))
    as [Hp Hd].
  rewrite take_app_length in Hp.
  split; [done|]. split_and!.
  - etrans; [apply (Permutation_length (shuffle_all _ _ _))|]. rewrite length_app, length_replicate. lia.
  - done.
  - rewrite Hp. by apply round_NoDup.
  - intros name Hin. rewrite Hp in Hin. apply list_elem_of_fmap in Hin as (w & -> & [? [i Hi]]%round_row). eauto.
Qed.

(** The update of the schedule throws when fewer witnesses can sign than the
    round has places for registered witnesses: one witness without a signing key
    among 21 or fewer stops the chain at the end of the round. *)
Theorem schedule_needs_keys db db' :
  db_wf db → update_witness_schedule4 db = Ok (tt, db') →
  (min 21 (size (trows (A := witness_object) db)) ≤
   length (filter (λ w, has_signing_key w = true) (all_rows (A := witness_object) db)))%nat.
Proof.
  intros Hdb (Hlen & _)%update_witness_schedule4_ok. rewrite select_length in Hlen.
  change (Z.to_nat STEEMIT_MAX_WITNESSES) with 21%nat in Hlen. rewrite <- Hlen, length_fmap.
  apply submseteq_length, NoDup_submseteq.
  - by eapply NoDup_fmap_1, round_NoDup.
  - intros w [Hk Hr]%round_row. apply list_elem_of_filter. split; [done|].
    apply select_elem. done.
Qed.
End theorems.

(** ** Medians *)
Section medians.
Context {A : Type} (f : A → Z) (lo hi : Z).

Definition within (x : A) : Prop := lo ≤ f x ∧ f x ≤ hi.
#[export] Instance within_dec x : Decision (within x).
Proof. unfold within. apply _. Defined.

Lemma none_within (l : list A) : (∀ x, x ∈ l → ¬ within x) → length (filter within l) = 0%nat.
Proof.
  induction l as [|x l IH]; intros Hl; [done|]. rewrite filter_cons_False by (apply Hl; left).
  apply IH. intros y Hy. apply Hl. by right.
Qed.

(** A strict majority decides a median. *)
Lemma median_majority (l : list A) x :
  median (λ a b, f a <=? f b) l = Ok x →
  (length l < 2 * length (filter within l))%nat → within x.
Proof.
  unfold median. set (s := sort_by _ l). destruct (s !! _) as [y|] eqn:Hx; [|done]. intros [= <-] Hmaj.
  assert (s ≡ₚ l) as Hp by apply sort_by_perm.
  assert (StronglySorted (brel (λ a b, f a <=? f b)) s) as Hs.
  { apply Sorted_StronglySorted, sort_by_sorted.
    - intros a b c Hab Hbc. unfold brel, Is_true in *. repeat case_match; try done. lia.
    - intros a b. lia. }
  rewrite <- Hp in Hmaj. rewrite <- Hp in Hx. clearbody s. clear l Hp.
  set (n := (length s / 2)%nat) in *. pose proof (take_drop_middle s n y Hx) as E.
  set (before := take n s) in *. set (after := drop (S n) s) in *.
  assert (length s = length before + S (length after))%nat as Hl by (by rewrite <- E, length_app).
  apply lookup_lt_Some in Hx.
  assert (length before = n) as Hn by (subst before n; rewrite length_take; lia).
  assert (length s < 2 * S n ∧ 2 * n ≤ length s)%nat as Hh.
  { subst n. pose proof (Nat.div_mod_eq (length s) 2). pose proof (Nat.mod_upper_bound (length s) 2). lia. }
  clearbody before after n. subst s. rewrite filter_app, filter_cons, !length_app in Hmaj.
  apply StronglySorted_app in Hs as (Hba & _ & [Ha _]%StronglySorted_cons).
  pose proof (length_filter within before) as H1. pose proof (length_filter within after) as H2.
  rewrite ?length_app in *. cbn [length] in *. split; apply Z.nlt_ge; intros Hlt.
  - rewrite decide_False in Hmaj by (intros [? ?]; lia). rewrite (none_within before) in Hmaj; [lia|].
    intros z Hz [? ?]. specialize (Hba z y Hz ltac:(left)). unfold brel in Hba.
    apply Is_true_true in Hba. lia.
  - rewrite decide_False in Hmaj by (intros [? ?]; lia). rewrite (none_within after) in Hmaj; [lia|].
    intros z Hz [? ?]. rewrite Forall_forall in Ha. specialize (Ha z Hz). unfold brel in Ha.
    apply Is_true_true in Ha. lia.
Qed.
End medians.

Section majority.
Context {F : Fc}.

(** C39: no minority of the scheduled witnesses moves a chain property: when more
    than half of them set the account creation fee, the block size or the
    interest rate within some bounds, the value the chain adopts is within them. *)
Theorem median_props_majority db db' ws :
  scheduled_witnesses db = Ok (ws, db) → update_median_witness_props db = Ok (tt, db') →
  let majority f lo hi :=
    (length ws < 2 * length (filter (within (λ w, f (wit_props w)) lo hi) ws))%nat in
  ∀ lo hi,
    (majority (λ p, amount (account_creation_fee p)) lo hi →
     lo ≤ amount (account_creation_fee (wso_median_props (db_wso db'))) ≤ hi) ∧
    (majority maximum_block_size lo hi →
     lo ≤ gpo_maximum_block_size (db_gpo db') ≤ hi ∧
     maximum_block_size (wso_median_props (db_wso db')) = gpo_maximum_block_size (db_gpo db')) ∧
    (majority sbd_interest_rate lo hi →
     lo ≤ gpo_sbd_interest_rate (db_gpo db') ≤ hi ∧
     sbd_interest_rate (wso_median_props (db_wso db')) = gpo_sbd_interest_rate (db_gpo db')).
Proof.
  intros Hws H majority lo hi. unfold update_median_witness_props in H. inv_db.
  match goal with H : scheduled_witnesses _ = Ok (?a, ?s) |- _ =>
    pose proof (scheduled_witnesses_reads _ _ _ H) as ->; rewrite Hws in H; injection H as <- end.
  match goal with H : modify_the _ _ = _ |- _ => apply modify_the_ok in H as (x & [= <-] & ->) end.
  match goal with H : modify_gpo _ _ = _ |- _ => apply modify_gpo_ok in H as (g & [= <-] & ->) end.
  cbn. split_and!; intros Hmaj.
  - exact (median_majority (λ w, amount (account_creation_fee (wit_props w))) lo hi ws a0 H1 Hmaj).
  - split; [|done]. exact (median_majority (λ w, maximum_block_size (wit_props w)) lo hi ws a1 H0 Hmaj).
  - split; [|done]. exact (median_majority (λ w, sbd_interest_rate (wit_props w)) lo hi ws a2 H Hmaj).
Qed.
End majority.

(** ** The theorems on an example *)
#[local] Existing Instance fc_model.

Definition next_round : database :=
  match update_witness_schedule4 (genesis 1000) with Ok (_, db) => db | Throw _ => genesis 1000 end.
Lemma next_round_run : update_witness_schedule4 (genesis 1000) = Ok (tt, next_round).
Proof. vm_compute. reflexivity. Qed.

Lemma schedule_round_witness :
  take 1 (wso_current_shuffled_witnesses (db_wso next_round)) = [STEEMIT_INIT_MINER_NAME] ∧
  NoDup (take (Z.to_nat (wso_num_scheduled_witnesses (db_wso next_round)))
           (wso_current_shuffled_witnesses (db_wso next_round))).
Proof.
  split; [vm_compute; reflexivity|].
  apply (schedule_round (genesis 1000) next_round); [apply genesis_run| |exact next_round_run].
  vm_compute. lia.
Defined.
Lemma schedule_needs_keys_witness :
  (min 21 (size (trows (A := witness_object) (genesis 1000))) ≤
   length (filter (λ w, has_signing_key w = true) (all_rows (A := witness_object) (genesis 1000))))%nat.
Proof. apply (schedule_needs_keys (genesis 1000) next_round); [apply genesis_run|exact next_round_run]. Defined.

Definition median_demo : database :=
  match update_median_witness_props (genesis 1000) with Ok (_, db) => db | Throw _ => genesis 1000 end.
Lemma median_props_majority_witness :
  1000 ≤ gpo_sbd_interest_rate (db_gpo median_demo) ≤ 1000.
Proof.
  refine (proj1 (proj2 (proj2 (median_props_majority (genesis 1000) median_demo
    (all_rows (A := witness_object) (genesis 1000)) _ _ 1000 1000)) _)); vm_compute; [reflexivity..|lia].
Defined.
