(* ===== verification/Soundness.v ===== *)
(** * The invariant of the chain, operation by operation

    [chain_inv]: well-formed tables, proxies without loops, delegations that add
    up, and escrows with their funds and paid fees.  [Sound m] says that a
    successful run of [m] keeps the invariant and all six supply equations.
    This file shows it for every evaluator and every step of block processing
    that moves assets; [Operations.v] composes them. *)
From S2P Require Import Prelude Fc Config Asset Chainbase ChainbaseSpec Objects Database.
From S2P Require Import Supply Protocol Votes Ledger Genesis Transfers Market Escrow.
From S2P Require Import EscrowSpec Vesting Frames Proxies Delegations Accounts.
From S2P Require Import Rewards Comments Cashout Inflation WitnessSchedule.

Record chain_inv (db : database) : Prop := ChainInv {
  inv_wf : db_wf db;
  inv_proxies : no_proxy_loops db;
  inv_delegations : delegations_ok db;
  inv_deals : deals_ok (deals db) }.

Class Sound {A} (m : DB A) : Prop :=
  sound_run : ∀ db a db', chain_inv db → m db = Ok (a, db') →
    chain_inv db' ∧ ∀ k, imb k db' = imb k db.

Lemma sound_bind {A B} (m : DB A) (f : A → DB B) : Sound m → (∀ a, Sound (f a)) → Sound (m ≫= f).
Proof.
  intros Hm Hf db b db' Hdb (a & s & H1 & H2)%bind_ok.
  destruct (Hm _ _ _ Hdb H1) as [Hs E1], (Hf _ _ _ _ Hs H2) as [Hs' E2].
  split; [done|]. intros k. by rewrite E2, E1.
Qed.
Lemma sound_for_each {A} (l : list A) (f : A → DB unit) : (∀ x, Sound (f x)) → Sound (for_each l f).
Proof.
  intros Hf. induction l as [|x l IH]; simpl; [|by apply sound_bind].
  intros db u db' Hdb H. by inv_ok.
Qed.

(** What the invariant reads besides the accounts. *)
Definition bonds (db : database) :=
  (db_delegations db, db_expirations db, db_escrows db).

Lemma bonds_deals db db' : bonds db' = bonds db → deals db' = deals db.
Proof. unfold bonds, deals, trows. cbn [tbl escrows_table]. by intros [= _ _ ->]. Qed.

(** The invariant besides the supplies depends on the links and the bonds. *)
Lemma frame_inv {A} (m : DB A) db a db' :
  KeepsLinks m → Keeps bonds m → chain_inv db → db_wf db' → m db = Ok (a, db') → chain_inv db'.
Proof.
  intros Hl Hb [Hwf Hloop Hdel Hdeals] Hwf' H. pose proof (Hb _ _ _ H) as E. split.
  - done.
  - exact (links_no_loops m _ _ _ Hl Hwf Hloop H).
  - eapply gap_shift_ok; [done| |done]. apply (links_gaps m Hl) with a;
      [| |by apply wf_account_ids|done]; intros s x s' Hs; apply Hb in Hs; by injection Hs.
  - by rewrite (bonds_deals _ _ E).
Qed.
(** Most operations: they conserve, and keep the links and the bonds. *)
Lemma sound_frame {A} (m : DB A) : Conserves m → KeepsLinks m → Keeps bonds m → Sound m.
Proof.
  intros Hc Hl Hb db a db' Hdb H. destruct (Hc _ _ _ (inv_wf _ Hdb) H) as [Hwf' HI].
  split; [by eapply (frame_inv m)|]. intros k. rewrite HI. lia.
Qed.

Lemma read_sound {A} (m : DB A) : (∀ db a db', m db = Ok (a, db') → db' = db) → Sound m.
Proof. intros Hm db a db' Hdb ->%Hm. done. Qed.

(** Composes the steps of a run: binds and branches, and in the leaves runs that
    conserve and keep the links and the bonds. *)
Ltac sound1 :=
  match goal with
  | |- ∀ _, _ => intros ?
  | |- Sound (_ ≫= _) => apply sound_bind
  | |- Sound (if _ then _ else _) => case_match
  | |- Sound (match ?x with _ => _ end) => destruct x
  | |- Sound _ => first [apply _ | apply read_sound; intros; by inv_db
                        | apply sound_frame; [solve [conserve]|solve [link]|solve [keep]]]
  end.
Ltac sound := repeat sound1.

(** Steps that keep the delegations of every account. *)
Definition gaps_inv (db : database) : Prop := account_ids db ∧ delegations_ok db.
Lemma gaps_keeps {A} (m : DB A) db a db' :
  KeepsLinks m → Keeps bonds m → m db = Ok (a, db') → gaps_inv db → gaps_inv db'.
Proof.
  intros Hl Hb H [Hids Hok]. split; [by apply (Hl _ _ _ Hids H)|].
  eapply gap_shift_ok; [done| |done]. apply (links_gaps m Hl) with a; [| |done|done];
    intros s x s' Hs; apply Hb in Hs; by injection Hs.
Qed.
Lemma gaps_modify i (f : account_object → result account_object) db u db' :
  (∀ x y, f x = Ok y → acc_id y = acc_id x ∧ acc_name y = acc_name x ∧
     acc_delegated_vesting_shares y = acc_delegated_vesting_shares x ∧
     acc_received_vesting_shares y = acc_received_vesting_shares x) →
  modify i f db = Ok (u, db') → gaps_inv db → gaps_inv db'.
Proof.
  intros Hf H [Hids Hok]. pose proof H as (x & y & Hx & Hy & Hgap)%modify_account_gap.
  destruct (Hf _ _ Hy) as (Hid & Hn & Hd & Hr).
  split.
  - apply modify_ok in H as (x' & y' & c & Hx' & Hy' & Hc & ->).
    assert (y' = y) as -> by congruence. apply container_modify_Some in Hc as [_ ->].
    2: { cbn. rewrite Hid. by apply Hids. }
    unfold account_ids. rewrite trows_set. cbn [Abs.rows].
    intros j z [[<- <-]|[_ Hz]]%lookup_insert_Some; [rewrite Hid|]; by apply Hids.
  - eapply gap_shift_ok; [done|exact Hgap|].
    intros n. unfold acc_lent, acc_borrowed. rewrite Hn, Hd, Hr. lia.
Qed.


Section bonds.
Context {F : Fc}.

#[export] Instance adjust_proxied_bonds a d : Keeps bonds (adjust_proxied_witness_votes a d).
Proof. unfold adjust_proxied_witness_votes. apply _. Qed.
#[export] Instance adjust_proxied_array_bonds a d : Keeps bonds (adjust_proxied_witness_votes_array a d).
Proof.
  unfold adjust_proxied_witness_votes_array. generalize STEEMIT_MAX_PROXY_RECURSION_DEPTH.
  intros n. revert a. induction n as [|n IH]; intros a; cbn [adjust_proxied_array]; keep.
Qed.
#[export] Instance adjust_supply_bonds s b : Keeps bonds (adjust_supply s b).
Proof. unfold adjust_supply. keep. Qed.
#[export] Instance adjust_reward_balance_bonds a d : Keeps bonds (adjust_reward_balance a d).
Proof. unfold adjust_reward_balance. keep. Qed.
#[export] Instance match_loop_bonds n l : Keeps bonds (match_loop n l).
Proof.
  induction l as [|x l IH]; simpl; keep; unfold match_orders, fill_order, cancel_order; keep.
  all: unfold adjust_liquidity_reward; keep.
Qed.
End bonds.

(** ** Operations that keep the links and the bonds *)
Section frames.
Context {F : Fc}.

#[export] Instance transfer_sound o : Sound (transfer_evaluator o).
Proof. apply sound_frame; try apply _. unfold transfer_evaluator, assert_ge; keep. Qed.
Lemma transfer_to_vesting_sound o :
  transfer_to_vesting_validate o = Ok tt → Sound (transfer_to_vesting_evaluator o).
Proof.
  intros Hv. apply sound_frame; [by apply transfer_to_vesting_conserves|apply _|].
  unfold transfer_to_vesting_evaluator, assert_ge; keep.
Qed.
#[export] Instance transfer_to_savings_sound o : Sound (transfer_to_savings_evaluator o).
Proof. apply sound_frame; try apply _. unfold transfer_to_savings_evaluator, assert_ge. keep. Qed.
#[export] Instance transfer_from_savings_sound o : Sound (transfer_from_savings_evaluator o).
Proof. apply sound_frame; try apply _. unfold transfer_from_savings_evaluator, assert_ge. keep. Qed.
#[export] Instance cancel_transfer_from_savings_sound o :
  Sound (cancel_transfer_from_savings_evaluator o).
Proof. apply sound_frame; try apply _. unfold cancel_transfer_from_savings_evaluator. keep. Qed.
#[export] Instance process_savings_withdraws_sound : Sound process_savings_withdraws.
Proof.
  apply sound_frame; [apply _|..]; unfold process_savings_withdraws, process_savings_withdraw;
    [link|keep].
Qed.
#[export] Instance feed_publish_sound o : Sound (feed_publish_evaluator o).
Proof. apply sound_frame; try apply _. unfold feed_publish_evaluator. keep. Qed.

(** *** The market *)
#[export] Instance cancel_order_bonds o : Keeps bonds (cancel_order o).
Proof. unfold cancel_order. keep. Qed.
#[export] Instance clear_expired_orders_sound : Sound clear_expired_orders.
Proof. apply sound_frame; [apply _|..]; unfold clear_expired_orders; [link|keep]. Qed.
#[export] Instance limit_order_create_sound o : Sound (limit_order_create_evaluator o).
Proof.
  apply sound_frame; try apply _.
  unfold limit_order_create_evaluator, create_order, apply_order, assert_ge; keep.
Qed.
Lemma limit_order_create2_sound o :
  limit_order_create2_validate o = Ok tt → Sound (limit_order_create2_evaluator o).
Proof.
  intros Hv. apply sound_frame; [by apply limit_order_create2_conserves|apply _|].
  unfold limit_order_create2_evaluator, create_order, apply_order, assert_ge; keep.
Qed.
#[export] Instance limit_order_cancel_sound o : Sound (limit_order_cancel_evaluator o).
Proof. apply sound_frame; try apply _. unfold limit_order_cancel_evaluator. keep. Qed.
#[export] Instance convert_sound o : Sound (convert_evaluator o).
Proof. apply sound_frame; try apply _. unfold convert_evaluator, assert_ge. keep. Qed.
#[export] Instance process_conversions_sound : Sound process_conversions.
Proof.
  apply sound_frame; [apply _|..]; unfold process_conversions, process_conversion; [link|keep].
Qed.

(** *** Vesting *)
Lemma withdraw_vesting_sound o :
  in_int64 (amount (wdv_vesting_shares o)) = true → Sound (withdraw_vesting_evaluator o).
Proof.
  intros Hv. apply sound_frame; [by apply withdraw_vesting_conserves|apply _|].
  unfold withdraw_vesting_evaluator, assert_ge; keep.
Qed.
Lemma set_withdraw_vesting_route_sound o :
  set_withdraw_vesting_route_validate o = Ok tt → Sound (set_withdraw_vesting_route_evaluator o).
Proof.
  intros Hv. apply sound_frame; [by apply set_withdraw_vesting_route_conserves|apply _|].
  unfold set_withdraw_vesting_route_evaluator; keep.
Qed.
#[export] Instance claim_reward_balance_sound o : Sound (claim_reward_balance_evaluator o).
Proof. apply sound_frame; try apply _. unfold claim_reward_balance_evaluator, assert_ge. keep. Qed.
#[export] Instance process_vesting_withdrawal_links i : KeepsLinks (process_vesting_withdrawal i).
Proof.
  unfold process_vesting_withdrawal, deposit_vests, deposit_steem, take_from_fund, add_shares,
    pay_withdrawal; link.
Qed.
#[export] Instance process_vesting_withdrawal_bonds i : Keeps bonds (process_vesting_withdrawal i).
Proof. unfold process_vesting_withdrawal, deposit_vests, deposit_steem, take_from_fund; keep. Qed.
#[export] Instance process_vesting_withdrawals_sound : Sound process_vesting_withdrawals.
Proof.
  apply sound_frame; [apply _|..]; unfold process_vesting_withdrawals; [link|keep].
  - revert a0. induction a as [|n IH]; intros [i|]; cbn [withdrawal_loop]; link.
  - revert a0. induction a as [|n IH]; intros [i|]; cbn [withdrawal_loop]; keep.
Qed.

(** *** Witnesses and votes *)
#[export] Instance clear_witness_votes_bonds a : Keeps bonds (clear_witness_votes a).
Proof. unfold clear_witness_votes. keep. Qed.
#[export] Instance account_witness_vote_sound o : Sound (account_witness_vote_evaluator o).
Proof.
  apply sound_frame; try apply _.
  unfold account_witness_vote_evaluator, adjust_witness_vote; keep.
Qed.
#[export] Instance decline_voting_rights_sound o : Sound (decline_voting_rights_evaluator o).
Proof. apply sound_frame; try apply _. unfold decline_voting_rights_evaluator. keep. Qed.
#[export] Instance witness_update_sound o : Sound (witness_update_evaluator o).
Proof. apply sound_frame; try apply _. unfold witness_update_evaluator. keep. Qed.

(** *** Authorities and recovery *)
#[export] Instance update_owner_authority_bonds a o : Keeps bonds (update_owner_authority a o).
Proof. unfold update_owner_authority. keep. Qed.
#[export] Instance account_update_sound o : Sound (account_update_evaluator o).
Proof. apply sound_frame; try apply _. unfold account_update_evaluator, when_some. keep. Qed.
#[export] Instance challenge_authority_sound o : Sound (challenge_authority_evaluator o).
Proof. apply sound_frame; try apply _. unfold challenge_authority_evaluator. keep. Qed.
#[export] Instance prove_authority_sound o : Sound (prove_authority_evaluator o).
Proof. apply sound_frame; try apply _. unfold prove_authority_evaluator. keep. Qed.
#[export] Instance request_account_recovery_sound o : Sound (request_account_recovery_evaluator o).
Proof. apply sound_frame; try apply _. unfold request_account_recovery_evaluator, top_witness. keep. Qed.
#[export] Instance recover_account_sound o : Sound (recover_account_evaluator o).
Proof. apply sound_frame; try apply _. unfold recover_account_evaluator. keep. Qed.
#[export] Instance change_recovery_account_sound o : Sound (change_recovery_account_evaluator o).
Proof. apply sound_frame; try apply _. unfold change_recovery_account_evaluator. keep. Qed.
#[export] Instance account_recovery_processing_sound : Sound account_recovery_processing.
Proof. apply sound_frame; try apply _. unfold account_recovery_processing. keep. Qed.
End frames.

(** ** The other operations *)
Section other.
Context {F : Fc}.

(** *** Escrows: they keep the links and the delegations. *)
Definition loans (db : database) := (db_delegations db, db_expirations db).
Lemma sound_escrow {A} (m : DB A) db a db' :
  KeepsLinks m → Keeps loans m → chain_inv db → m db = Ok (a, db') → escrow_run db db' →
  db_wf db' → (∀ k, imb k db' = imb k db) → chain_inv db' ∧ ∀ k, imb k db' = imb k db.
Proof.
  intros Hl Hb [Hwf Hloop Hdel Hdeals] H Hrun Hwf' HI. split; [split|]; [done| | | |done].
  - exact (links_no_loops m _ _ _ Hl Hwf Hloop H).
  - eapply gap_shift_ok; [done| |done]. apply (links_gaps m Hl) with a;
      [| |by apply wf_account_ids|done]; intros s x s' Hs; apply Hb in Hs; by injection Hs.
  - eapply deal_steps_ok; [|done]. by apply escrow_run_steps.
Qed.
(** The same when the whole computation conserves. *)
Lemma sound_escrow_run {A} (m : DB A) :
  Conserves m → KeepsLinks m → Keeps loans m →
  (∀ db a db', m db = Ok (a, db') → escrow_run db db') → Sound m.
Proof.
  intros Hc Hl Hb Hrun db a db' Hdb H. pose proof (inv_wf _ Hdb) as Hwf.
  destruct (Hc _ _ _ Hwf H) as [Hwf' HI].
  eapply (sound_escrow m); eauto. intros k. rewrite HI. lia.
Qed.

#[export] Instance return_escrow_loans a i : Keeps loans (return_escrow a i).
Proof. unfold return_escrow. keep. Qed.
#[export] Instance pay_agent_loans a i : Keeps loans (pay_agent a i).
Proof. unfold pay_agent. keep. Qed.

Lemma escrow_transfer_sound o :
  escrow_transfer_validate o = Ok tt → Sound (escrow_transfer_evaluator o).
Proof.
  intros Hv. apply sound_escrow_run; [by apply escrow_transfer_conserves|apply _| |].
  - unfold escrow_transfer_evaluator, assert_ge. keep.
  - intros. by eapply run_escrow_transfer.
Qed.
Lemma escrow_approve_sound o :
  escrow_approve_validate o = Ok tt → Sound (escrow_approve_evaluator o).
Proof.
  intros Hv. apply sound_escrow_run; [apply _..| |].
  - unfold escrow_approve_evaluator. keep.
  - intros. by eapply run_escrow_approve.
Qed.
#[export] Instance escrow_dispute_sound o : Sound (escrow_dispute_evaluator o).
Proof.
  apply sound_escrow_run; [apply _..| |].
  - unfold escrow_dispute_evaluator. keep.
  - intros. by eapply run_escrow_dispute.
Qed.
Lemma escrow_release_sound o :
  escrow_release_validate o = Ok tt → Sound (escrow_release_evaluator o).
Proof.
  intros Hv db u db' Hdb H.
  destruct (escrow_release_conserves o db u db' Hv) as [Hwf' HI];
    [by apply inv_wf|by apply deals_fees_paid, inv_deals|done|].
  eapply (sound_escrow (escrow_release_evaluator o)); [apply _| |done..| |done|done].
  - unfold escrow_release_evaluator, assert_ge. keep.
  - by eapply run_escrow_release.
Qed.
#[export] Instance expire_escrow_ratification_sound : Sound expire_escrow_ratification.
Proof.
  apply sound_escrow_run; [apply _|..].
  - unfold expire_escrow_ratification, expire_escrow. link.
  - unfold expire_escrow_ratification, expire_escrow. keep.
  - intros. by eapply run_expire_ratification.
Qed.

(** *** Proxies *)
#[export] Instance check_proxy_chain_reads_keeps {B} (obs : database → B) n p c :
  Keeps obs (check_proxy_chain n p c).
Proof. apply keeps_read. intros. by eapply check_proxy_chain_reads. Qed.
End other.

Ltac gaps_step :=
  match goal with
  | Hl : gaps_inv ?s, H : modify (A := account_object) _ _ ?s = Ok (_, ?s') |- _ =>
      apply gaps_modify in H; [|intros; inv_ok; done|exact Hl]
  | Hl : gaps_inv ?s, H : ?m ?s = Ok (_, ?s') |- _ =>
      apply (gaps_keeps m) in H;
      [|solve [first [apply _|apply links_keeps; keep]]|solve [keep]|exact Hl]
  end.

Section others.
Context {F : Fc}.

Lemma account_witness_proxy_sound o :
  account_witness_proxy_validate o = Ok tt → Sound (account_witness_proxy_evaluator o).
Proof.
  intros Hv db u db' [Hwf Hloop Hdel Hdeals] H.
  destruct (account_witness_proxy_conserves _ _ _ _ Hv Hwf Hloop H) as (Hwf' & Hloop' & HI).
  split; [split|]; [done|done| | |done].
  - assert (gaps_inv db) as Hg by (split; [by apply wf_account_ids|done]). clear -Hg H.
    unfold account_witness_proxy_evaluator in H. inv_db. case_match; inv_db; repeat gaps_step;
      match goal with H : gaps_inv ?s |- delegations_ok ?s => apply H end.
  - assert (Keeps bonds (account_witness_proxy_evaluator o)) as Hk
      by (unfold account_witness_proxy_evaluator; keep).
    by rewrite (bonds_deals _ _ (Hk _ _ _ H)).
Qed.

Lemma process_decline_request_gaps r db u db' :
  gaps_inv db → process_decline_request r db = Ok (u, db') → gaps_inv db'.
Proof.
  intros Hg H. unfold process_decline_request in H. inv_db; repeat gaps_step; done.
Qed.
#[export] Instance process_decline_voting_rights_sound : Sound process_decline_voting_rights.
Proof.
  intros db u db' [Hwf Hloop Hdel Hdeals] H.
  destruct (process_decline_voting_rights_conserves _ _ _ Hwf Hloop H) as (Hwf' & Hloop' & HI).
  split; [split|]; [done|done| | |done].
  - assert (gaps_inv db) as Hg by (split; [by apply wf_account_ids|done]). clear -Hg H.
    unfold process_decline_voting_rights in H. inv_db.
    match goal with H : for_each ?l _ _ = _ |- _ => revert H; generalize l end. intros l.
    revert db Hg. induction l as [|r l IH]; intros db Hg H; cbn [for_each] in H;
      [inv_ok; apply Hg|].
    apply bind_ok in H as (v & s & H1 & H2).
    apply (IH s); [by eapply process_decline_request_gaps|done].
  - assert (Keeps bonds process_decline_voting_rights) as Hk
      by (unfold process_decline_voting_rights, process_decline_request; keep).
    by rewrite (bonds_deals _ _ (Hk _ _ _ H)).
Qed.

(** *** Delegations and new accounts: they keep the escrows. *)
Lemma kept_deals {A} (m : DB A) db a db' :
  Keeps db_escrows m → m db = Ok (a, db') → deals_ok (deals db) → deals_ok (deals db').
Proof.
  intros Hk H. unfold deals, trows. cbn [tbl escrows_table]. by rewrite (Hk _ _ _ H).
Qed.

Lemma delegate_vesting_shares_sound o :
  delegate_vesting_shares_validate o = Ok tt → Sound (delegate_vesting_shares_evaluator o).
Proof.
  intros Hv db u db' [Hwf Hloop Hdel Hdeals] H.
  destruct (delegate_vesting_shares_conserves _ _ _ _ Hwf H) as [Hwf' HI].
  split; [split|]; [done| | | |intros k; rewrite HI; lia].
  - exact (delegate_vesting_shares_loops _ _ _ _ Hwf Hloop H).
  - exact (delegate_vesting_shares_keeps _ _ _ _ Hv Hwf Hdel H).
  - eapply (kept_deals (delegate_vesting_shares_evaluator o)); [|exact H|exact Hdeals].
    unfold delegate_vesting_shares_evaluator, assert_ge; keep.
Qed.
#[export] Instance clear_expired_delegations_sound : Sound clear_expired_delegations.
Proof.
  intros db u db' [Hwf Hloop Hdel Hdeals] H.
  destruct (clear_expired_delegations_conserves _ _ _ Hwf H) as [Hwf' HI].
  split; [split|]; [done| | | |intros k; rewrite HI; lia].
  - exact (clear_expired_delegations_loops _ _ _ Hwf Hloop H).
  - exact (clear_expired_delegations_keeps _ _ _ Hwf Hdel H).
  - eapply (kept_deals clear_expired_delegations); [|exact H|exact Hdeals].
    unfold clear_expired_delegations, clear_expired_delegation; keep.
Qed.
Lemma account_create_sound o :
  account_create_validate o = Ok tt → Sound (account_create_evaluator o).
Proof.
  intros Hv db u db' [Hwf Hloop Hdel Hdeals] H.
  destruct (account_create_conserves _ Hv _ _ _ Hwf H) as [Hwf' HI].
  split; [split|]; [done| | | |intros k; rewrite HI; lia].
  - exact (account_create_loops _ _ _ _ Hwf Hloop H).
  - exact (account_create_keeps _ _ _ _ Hwf Hdel H).
  - eapply (kept_deals (account_create_evaluator o)); [|exact H|exact Hdeals].
    unfold account_create_evaluator, assert_ge; keep.
Qed.
Lemma account_create_with_delegation_sound o :
  account_create_with_delegation_validate o = Ok tt →
  Sound (account_create_with_delegation_evaluator o).
Proof.
  intros Hv db u db' [Hwf Hloop Hdel Hdeals] H.
  destruct (account_create_with_delegation_conserves _ Hv _ _ _ Hwf H) as [Hwf' HI].
  split; [split|]; [done| | | |intros k; rewrite HI; lia].
  - exact (account_create_with_delegation_loops _ _ _ _ Hwf Hloop H).
  - exact (account_create_with_delegation_keeps _ _ _ _ Hv Hwf Hdel H).
  - eapply (kept_deals (account_create_with_delegation_evaluator o)); [|exact H|exact Hdeals].
    unfold account_create_with_delegation_evaluator, assert_ge; keep.
Qed.
End others.

(** ** Content: comments, votes and their rewards *)
Section content.
Context {F : Fc} {B : Boost} {D : DiffMatchPatch}.

#[export] Instance touch_ancestors_links n d now p : KeepsLinks (touch_ancestors n d now p).
Proof. revert p. induction n as [|n IH]; intros p; cbn [touch_ancestors]; link. Qed.
#[export] Instance touch_ancestors_bonds n d now p : Keeps bonds (touch_ancestors n d now p).
Proof. revert p. induction n as [|n IH]; intros p; cbn [touch_ancestors]; keep. Qed.
#[export] Instance comment_sound o : Sound (comment_evaluator o).
Proof.
  apply sound_frame; [apply _|..]; unfold comment_evaluator, new_comment, edit_comment, not_challenged;
    [link|keep].
Qed.
#[export] Instance delete_comment_sound o : Sound (delete_comment_evaluator o).
Proof.
  apply sound_frame; [apply _|..]; unfold delete_comment_evaluator, not_challenged; [link|keep].
Qed.
#[export] Instance comment_options_sound o : Sound (comment_options_evaluator o).
Proof.
  apply sound_frame; [apply _|..]; unfold comment_options_evaluator, set_beneficiaries, not_challenged;
    [link|keep].
Qed.
#[export] Instance vote_sound o : Sound (vote_evaluator o).
Proof.
  apply sound_frame; [apply _|..];
    unfold vote_evaluator, vote_by, first_vote, change_vote, adjust_rshares2, spend_power,
      not_challenged, vote_weight, curve_weight; [link|keep].
Qed.

(** *** Rewards *)
#[export] Instance pay_curators_links c m : KeepsLinks (pay_curators c m).
Proof. unfold pay_curators, pay_curator. link. Qed.
#[export] Instance pay_curators_bonds c m : Keeps bonds (pay_curators c m).
Proof. unfold pay_curators, pay_curator. keep. Qed.
#[export] Instance cashout_comment_helper_links ctx c : KeepsLinks (cashout_comment_helper ctx c).
Proof.
  unfold cashout_comment_helper, pay_reward, pay_beneficiary, pay_author, close_payout, retire_votes,
    retire_vote, adjust_total_payout, fill_comment_reward_context_local_state, adjust_rshares2. link.
Qed.
#[export] Instance cashout_comment_helper_bonds ctx c : Keeps bonds (cashout_comment_helper ctx c).
Proof.
  unfold cashout_comment_helper, pay_reward, pay_beneficiary, pay_author, close_payout, retire_votes,
    retire_vote, adjust_total_payout, fill_comment_reward_context_local_state, adjust_rshares2. keep.
Qed.
#[export] Instance cashout_loop_links n st : KeepsLinks (cashout_loop n st).
Proof.
  revert st. induction n as [|n IH]; intros st; cbn [cashout_loop]; link.
  all: unfold cashout_from_fund, cashout_from_gpo, discussion; link.
Qed.
#[export] Instance cashout_loop_bonds n st : Keeps bonds (cashout_loop n st).
Proof.
  revert st. induction n as [|n IH]; intros st; cbn [cashout_loop]; keep.
  all: unfold cashout_from_fund, cashout_from_gpo, discussion; keep.
Qed.
#[export] Instance write_funds_links i fs : KeepsLinks (write_funds i fs).
Proof. revert i. induction fs as [|f fs IH]; intros i; cbn [write_funds]; unfold write_fund; link. Qed.
#[export] Instance write_funds_bonds i fs : Keeps bonds (write_funds i fs).
Proof. revert i. induction fs as [|f fs IH]; intros i; cbn [write_funds]; unfold write_fund; keep. Qed.
#[export] Instance process_comment_cashout_sound : Sound process_comment_cashout.
Proof.
  apply sound_frame; [apply _|..];
    unfold process_comment_cashout, decay_fund, count_claim; [link|keep].
Qed.
#[export] Instance process_funds_sound : Sound process_funds.
Proof.
  apply sound_frame; [apply _|..];
    unfold process_funds, process_funds_16, process_funds_0, pay_reward_funds, pay_reward_fund,
      get_content_reward, get_curation_reward, get_producer_reward; [link|keep].
Qed.
#[export] Instance pay_liquidity_reward_sound : Sound pay_liquidity_reward.
Proof.
  apply sound_frame; [apply _|..]; unfold pay_liquidity_reward, get_liquidity_reward; [link|keep].
Qed.
End content.

(** ** The witness schedule *)
Section schedule.
Context {F : Fc}.

#[export] Instance start_laps_links t ws : KeepsLinks (start_laps t ws).
Proof. induction ws as [|w ws IH]; cbn [start_laps]; link. Qed.
#[export] Instance start_laps_bonds t ws : Keeps bonds (start_laps t ws).
Proof. induction ws as [|w ws IH]; cbn [start_laps]; keep. Qed.
#[export] Instance update_witness_schedule_sound : Sound update_witness_schedule.
Proof.
  apply sound_frame; [apply _|..]; unfold update_witness_schedule, update_witness_schedule4,
    reset_virtual_schedule_time, count_hardfork_votes, update_median_witness_props; [link|keep].
Qed.
End schedule.

(** ** The genesis state satisfies the invariant *)
Section genesis_inv.
Context {F : Fc}.

(** What the creation of the first accounts keeps. *)
Definition early_inv (db : database) : Prop :=
  account_ids db ∧ no_proxy_loops db ∧ delegations_ok db ∧ deals_ok (deals db).

Lemma early_account c db i db' :
  (∀ j, let a := c (set_acc_id j account_object_default) in
     acc_id a = j ∧ acc_proxy a = STEEMIT_PROXY_TO_SELF_ACCOUNT ∧
     amount (acc_delegated_vesting_shares a) = 0 ∧ amount (acc_received_vesting_shares a) = 0) →
  create account_object_default c db = Ok (i, db') → early_inv db → early_inv db'.
Proof.
  intros Hc H (Hids & Hl & Hd & He).
  pose proof (loops_create c account_object_default db i db') as [Hids' Hl'];
    [intros j; destruct (Hc j) as (? & ? & _); done|done|done|].
  destruct (create_account_step c account_object_default db i db') as [_ Hg];
    [intros j; apply Hc|done|done|].
  split_and!; [done|done| |].
  - eapply gap_shift_ok; [done|exact Hg|]. intros n. cbn beta.
    change (set_obj_id i account_object_default) with (set_acc_id i account_object_default).
    destruct (Hc i) as (_ & _ & E1 & E2).
    unfold acc_lent, acc_borrowed. rewrite E1, E2. unfold if_named. by case_bool_decide.
  - revert He. eapply (kept_deals (create account_object_default c)); [apply _|exact H].
Qed.
Lemma early_other {A} (m : DB A) db a db' :
  Keeps db_accounts m → Keeps bonds m → m db = Ok (a, db') → early_inv db → early_inv db'.
Proof.
  intros Ha Hb H (Hids & Hl & Hd & He). destruct (gaps_keeps m db a db') as [Hids' Hd'];
    [by apply links_keeps|done..|].
  split_and!; [done| |done|by rewrite (bonds_deals _ _ (Hb _ _ _ H))].
  unfold no_proxy_loops. by rewrite (proj2 (links_keeps m Ha _ _ _ Hids H)).
Qed.

Ltac early_step :=
  match goal with
  | Hdb : early_inv ?s, H : create account_object_default _ ?s = Ok _ |- _ =>
      apply early_account in H; [|done|exact Hdb]
  | Hdb : early_inv ?s, H : ?m ?s = Ok _ |- _ => apply (early_other m) in H; [|apply _|apply _|exact Hdb]
  end.
Lemma genesis_account_early name t db u db' :
  genesis_account name t db = Ok (u, db') → early_inv db → early_inv db'.
Proof.
  intros H Hdb. unfold genesis_account in H. inv_db.
  early_step. early_step. done.
Qed.
Lemma genesis_miner_early supply i db u db' :
  genesis_miner supply i db = Ok (u, db') → early_inv db → early_inv db'.
Proof.
  intros H Hdb. unfold genesis_miner in H. inv_db.
  do 3 early_step. done.
Qed.
Lemma miners_early supply l db u db' :
  for_each l (genesis_miner supply) db = Ok (u, db') → early_inv db → early_inv db'.
Proof.
  revert db. induction l as [|i l IH]; intros db H Hdb; cbn [for_each] in H; [by inv_ok|].
  apply bind_ok in H as (v & s & H1 & H2). eapply IH; [done|]. by eapply genesis_miner_early.
Qed.

Lemma genesis_inv supply : chain_inv (genesis supply).
Proof.
  destruct (genesis_run supply) as (H & Hwf & _).
  assert (early_inv empty_database) as Hdb.
  { split_and!.
    - intros i a Ha. discriminate Ha.
    - intros a. constructor. intros b (x & y & Hx & _). discriminate Hx.
    - intros n. split; reflexivity.
    - intros i d Hd. discriminate Hd. }
  unfold init_genesis in H.
  apply bind_ok in H as (? & s1 & H1 & H). apply bind_ok in H as (? & s2 & H2 & H).
  apply bind_ok in H as (? & s3 & H3 & H). apply bind_ok in H as (? & s4 & H4 & H).
  apply genesis_account_early in H1; [|done]. apply genesis_account_early in H2; [|done].
  apply genesis_account_early in H3; [|done]. apply miners_early in H4; [|done].
  apply create_singletons_ok in H. rewrite H. destruct H4 as (? & ? & ? & ?). split; [|done..].
  by rewrite <- H.
Qed.
End genesis_inv.
