(* ===== verification/Hardforks.v ===== *)
(** * Hardforks

    [database::init_hardforks], [process_hardforks] and [apply_hardfork] of
    chain/database.cpp with the migrations they run, and the data of
    chain/hardfork.d.  [set_hardfork], which the tests use to change the times,
    is not modelled: the times and versions are constants here. *)
From S2P Require Import Prelude Fc Config Asset Chainbase ChainbaseSpec Objects Database.
From S2P Require Import Supply Votes Ledger Rewards Comments Cashout Genesis Market Accounts.
From S2P Require Import WitnessSchedule EscrowSpec Frames Proxies Delegations Soundness.

(** ** Data *)

(** [hardfork9::get_compromised_accounts], a sorted set. *)
Definition compromised_accounts : list string := [
  "aeico"; "aenor"; "aizensou"; "albertogm"; "alibaba"; "alyssas"; "amartinezque"; "amazon";
  "animalrobot"; "arsahk"; "arwani-wawan"; "auxon"; "b0y2k"; "binwah-de-rese"; "bitcube";
  "blackjincrypto"; "boatymcboatface"; "boy"; "bravenewcoin"; "bryner"; "btcturbo"; "bu328281";
  "bue"; "bue-witness"; "bunny"; "cheftony"; "chhayll"; "chitty"; "chryspano"; "citibank";
  "cmtzco"; "coinbitgold"; "coinfund"; "complexring"; "cyrano.witness3"; "dahaz159"; "dan";
  "dantheman"; "daycrypter"; "dragonslayer109"; "dulila"; "ebay"; "elyaque"; "estin";
  "expanse"; "fanie-vanhoten"; "felipemachado"; "fex"; "fishayley"; "fminerten1"; "gabbans";
  "gatoso"; "gazm"; "gottahaveit"; "graavor"; "gregm"; "grumpymutt"; "gtg"; "hcf27"; "hello";
  "hipster"; "hsbc"; "ibnu"; "ihashfury"; "ikigai"; "jacor"; "james1337"; "jamie";
  "john-kimmel"; "jpmorgan"; "justiciar"; "kaptainkrayola"; "karen13"; "kevinwong";
  "kingofchaos"; "lighthil"; "linouxis9"; "loewan"; "luiz-marchi"; "lux"; "marcelhattingh";
  "mathiasbaer"; "mauricemikkers"; "mexbit"; "mikemiziner"; "mldorton"; "mynameisbrian"; "ned";
  "ned-scott"; "news"; "nicolaswsk"; "norbu"; "nuno-nutcrusherz"; "omarb"; "omarbitcoin";
  "opengas"; "ossama-benjohn"; "owdy"; "ozmaster"; "ozzy-vega"; "pal"; "penambang"; "pierregi";
  "pwlaslo"; "qamarpinkpanda"; "recursive"; "reddit2steem"; "rimantas"; "rok-sivante";
  "rseixas"; "samuel-stone"; "samupaha"; "schro"; "sebastien"; "signalandnoise";
  "simoneighties"; "slocum"; "softbank"; "sonzweil"; "spartako"; "stan"; "steem-id";
  "steemit1"; "steemitblog"; "steempower"; "steemychicken1"; "str11ngfello"; "streemian";
  "streetstyle"; "summon"; "teatree"; "techemist"; "the-alien"; "thecryptodrive"; "thegoodguy";
  "tonykent"; "top10"; "trevonjb"; "troller"; "trung81"; "ukon"; "val"; "vippero"; "walmart";
  "windsok"; "wingz"; "world"; "worldfamous"; "yan-kovalenko"; "zebbra2014"; "zer0sum"
]%string.

(** [_hardfork_times] *)
Definition hardfork_times : list Z := [
  STEEMIT_GENESIS_TIME; 1461605400; 1461693600; 1461762000; 1462028400; 1464714000; 1467295200;
  1467590400; 1467594000; 1468454400; 1468584000; 1468767600; 1469545200; 1471269600;
  1474383600; 1478620800; 1481040000; 1490886000; 1490886000; 1497970800
].

(** [version( m, h, r )] of protocol/version.hpp. *)
Definition version (m h r : Z) : Z :=
  Z.lor (to_uint32 (Z.shiftl (Z.lor (Z.shiftl m 8) h) 16)) r.
Definition hardfork_version (m h : Z) : Z := version m h 0.
(** [_hardfork_versions] *)
Definition hardfork_versions : list Z :=
  (λ n, hardfork_version 0 (Z.of_nat n)) <$> seq 0 20.

Definition compromised_key : string :=
  "STM7sw22HqsXbz7D2CmJfmMwt9rimtk518dRzsR1f8Cgw52dQR1pR".
Definition at_index (l : list Z) (i : Z) : result Z :=
  match l !! Z.to_nat i with Some x => Ok x | None => Throw out_of_range end.

Section hardforks.
Context {F : Fc} {B : Boost}.

(** ** Migrations *)

(** *** The split of the vesting shares *)
Definition scale (magnitude : Z) (a : asset) : result asset :=
  x ← safe_mul (amount a) magnitude; mret (Asset x (symbol a)).

Definition split_votes (magnitude : Z) (votes : list Z) : result (list Z) :=
  rfoldl (λ l v, x ← safe_mul v magnitude; mret (l ++ [x])) votes [].
Definition split_account (magnitude : Z) (a : account_object) : result account_object :=
  vs ← scale magnitude (acc_vesting_shares a);
  withdrawn ← safe_mul (acc_withdrawn a) magnitude;
  to_withdraw ← safe_mul (acc_to_withdraw a) magnitude;
  rate ← safe_div to_withdraw STEEMIT_VESTING_WITHDRAW_INTERVALS_PRE_HF_16;
  votes ← split_votes magnitude (take STEEMIT_MAX_PROXY_RECURSION_DEPTH (acc_proxied_vsf_votes a));
  mret (set_acc_proxied_vsf_votes
          (votes ++ drop STEEMIT_MAX_PROXY_RECURSION_DEPTH (acc_proxied_vsf_votes a))
         (set_acc_vesting_withdraw_rate (Asset (if rate =? 0 then 1 else rate) VESTS_SYMBOL)
           (set_acc_to_withdraw to_withdraw
             (set_acc_withdrawn withdrawn (set_acc_vesting_shares vs a))))).
Definition split_comment (magnitude : Z) (c : comment_object) : result comment_object :=
  net ← safe_mul (com_net_rshares c) magnitude;
  abs ← safe_mul (com_abs_rshares c) magnitude;
  vote ← safe_mul (com_vote_rshares c) magnitude;
  mret (set_com_vote_rshares vote (set_com_abs_rshares abs (set_com_net_rshares net c))).

Definition perform_vesting_share_split (magnitude : Z) : DB unit :=
  modify_gpo (λ d,
    total ← scale magnitude (gpo_total_vesting_shares d);
    mret (set_gpo_total_reward_shares2 0 (set_gpo_total_vesting_shares total d)));;
  accounts ← gets (all_rows (A := account_object));
  for_each accounts (λ a, modify (acc_id a) (split_account magnitude));;
  comments ← gets (all_rows (A := comment_object));
  for_each comments (λ c, modify (com_id c) (split_comment magnitude));;
  comments ← gets (all_rows (A := comment_object));
  for_each comments (λ c,
    when (0 <? com_net_rshares c)
      (claim ← lift (evaluate_default_curve (com_net_rshares c)); adjust_rshares2 0 claim)).

(** *** Recounts *)
Fixpoint count_child (fuel : nat) (parent : Z) : DB unit :=
  modify parent (λ c : comment_object, mret (set_com_children (to_uint32 (com_children c + 1)) c));;
  p ← get comment_object parent;
  if bool_decide (com_parent_author p = STEEMIT_ROOT_POST_PARENT) then mret tt
  else
    pp ← get_comment (com_parent_author p) (com_parent_permlink p);
    match fuel with
    | O => throw (logic_error "out of rounds")
    | S fuel' => count_child fuel' (com_id pp)
    end.
Definition retally_comment_children : DB unit :=
  comments ← gets (all_rows (A := comment_object));
  for_each comments (λ c, modify (com_id c) (λ c, mret (set_com_children 0 c)));;
  for_each comments (λ c,
    if bool_decide (com_parent_author c = STEEMIT_ROOT_POST_PARENT) then mret tt
    else parent ← get_comment (com_parent_author c) (com_parent_permlink c);
         count_child (length comments) (com_id parent)).

Definition retally_witness_votes : DB unit :=
  ws ← gets (all_rows (A := witness_object));
  for_each ws (λ w, modify (wit_id w) (λ w, mret (set_wit_virtual_position 0 (set_wit_votes 0 w))));;
  accounts ← gets (all_rows (A := account_object));
  for_each accounts (λ a,
    if negb (bool_decide (acc_proxy a = STEEMIT_PROXY_TO_SELF_ACCOUNT)) then mret tt
    else
      votes ← gets (votes_of (acc_id a));
      for_each votes (λ v,
        weight ← lift (witness_vote_weight a);
        adjust_witness_vote (wv_witness v) weight)).

Definition retally_witness_vote_counts (force : bool) : DB unit :=
  accounts ← gets (all_rows (A := account_object));
  for_each accounts (λ a,
    votes ← gets (votes_of (acc_id a));
    let witnesses_voted_for :=
      if force || negb (bool_decide (acc_proxy a = STEEMIT_PROXY_TO_SELF_ACCOUNT))
      then to_uint16 (Z.of_nat (length votes)) else 0 in
    when (negb (acc_witnesses_voted_for a =? witnesses_voted_for))
      (modify (acc_id a) (λ account, mret (set_acc_witnesses_voted_for witnesses_voted_for account)))).

Definition retally_liquidity_weight : DB unit :=
  rs ← gets (select (λ _ : liquidity_reward_balance_object, true) (λ x y, lrb_owner x <=? lrb_owner y));
  for_each rs (λ r, modify (lrb_id r) (λ o, mret (update_weight true o))).

(** *** The cases of [apply_hardfork] *)
Definition reset_compromised (acc : string) : DB unit :=
  account ← find_account acc;
  match account with
  | None => mret tt
  | Some account =>
      let key := Authority 1 [] [(compromised_key, 1)] in
      update_owner_authority account key;;
      auth ← get_authority (acc_name account);
      modify (aa_id auth) (λ auth, mret (set_aa_posting key (set_aa_active key auth)))
  end.

Definition open_posting (name : string) : DB unit :=
  auth ← get_authority name;
  modify (aa_id auth) (λ auth, mret (set_aa_posting (Authority 1 [] []) auth)).

Definition hardfork_12_comment (c : comment_object) : DB unit :=
  if bool_decide (com_parent_author c = STEEMIT_ROOT_POST_PARENT) then
    if (com_last_payout c =? time_min) && (com_cashout_time c =? time_max) then
      now ← head_block_time;
      modify (com_id c) (λ c,
        mret (set_com_cashout_time (time_add now STEEMIT_CASHOUT_WINDOW_SECONDS_PRE_HF17) c))
    else when (0 <? com_last_payout c)
      (modify (com_id c) (λ c,
        mret (set_com_cashout_time (time_add (com_last_payout c) STEEMIT_SECOND_CASHOUT_WINDOW) c)))
  else mret tt.
Definition hardfork_12 : DB unit :=
  comments ← gets (all_rows (A := comment_object));
  for_each comments hardfork_12_comment;;
  open_posting STEEMIT_MINER_ACCOUNT;;
  open_posting STEEMIT_NULL_ACCOUNT;;
  open_posting STEEMIT_TEMP_ACCOUNT.

Definition hardfork_16 : DB unit :=
  modify_the (λ fho : list price * price,
    mret (drop (length fho.1 - Z.to_nat STEEMIT_FEED_HISTORY_WINDOW) fho.1, fho.2)).

Definition hardfork_17_fund : DB unit :=
  modify_the (λ wso, mret
    (set_wso_max_runner_witnesses STEEMIT_MAX_RUNNER_WITNESSES_HF17
      (set_wso_max_miner_witnesses STEEMIT_MAX_MINER_WITNESSES_HF17
        (set_wso_max_voted_witnesses STEEMIT_MAX_VOTED_WITNESSES_HF17 wso))));;
  gpo ← get_dynamic_global_properties;
  now ← head_block_time;
  post_rf ← create reward_fund_object_default (λ rfo,
    set_rf_curation_reward_curve quadratic_curation
      (set_rf_author_reward_curve quadratic
        (set_rf_recent_claims STEEMIT_HF_17_RECENT_CLAIMS
          (set_rf_reward_balance (gpo_total_reward_fund_steem gpo)
            (set_rf_percent_content_rewards STEEMIT_100_PERCENT
              (set_rf_percent_curation_rewards (STEEMIT_1_PERCENT * 25)
                (set_rf_content_constant STEEMIT_CONTENT_CONSTANT_HF0
                  (set_rf_last_update now
                    (set_rf_name STEEMIT_POST_REWARD_FUND_NAME rfo)))))))));
  assert (post_rf =? 0) "post_rf.id._id == 0";;
  modify_gpo (λ g, mret
    (set_gpo_total_reward_shares2 0 (set_gpo_total_reward_fund_steem (Asset 0 STEEM_SYMBOL) g))).
Definition hardfork_17_comments : DB unit :=
  root_posts ← gets (select (λ c, com_cashout_time c <? time_max) cashout_leb);
  replies ← gets (λ db, concat ((λ c, discussion (com_id c) db) <$> root_posts));
  for_each root_posts (λ c, modify (com_id c) (λ c,
    mret (set_com_cashout_time
            (Z.max (time_add (com_created c) STEEMIT_CASHOUT_WINDOW_SECONDS) (com_cashout_time c)) c)));;
  for_each replies (λ c, modify (com_id c) (λ c,
    mret (set_com_cashout_time
            (Z.max (calculate_discussion_payout_time c)
               (time_add (com_created c) STEEMIT_CASHOUT_WINDOW_SECONDS)) c))).

Definition hardfork_19 : DB unit :=
  modify_gpo (λ gpo, mret (set_gpo_vote_power_reserve_rate 10 gpo));;
  rf ← get_by (fund_by_name STEEMIT_POST_REWARD_FUND_NAME);
  modify (rf_id rf) (λ rfo, mret
    (set_rf_curation_reward_curve square_root
      (set_rf_author_reward_curve linear
        (set_rf_recent_claims STEEMIT_HF_19_RECENT_CLAIMS rfo))));;
  to_remove ← gets (select (λ d, amount (vd_vesting_shares d) =? 0) (λ x y, vd_id x <=? vd_id y));
  for_each to_remove (λ d, remove vesting_delegation_object (vd_id d)).

Definition migrate (hardfork : Z) : DB unit :=
  match hardfork with
  | 1 => perform_vesting_share_split 1000000
  | 2 => retally_witness_votes
  | 3 => retally_witness_votes
  | 4 => reset_virtual_schedule_time
  | 6 => retally_witness_vote_counts false;; retally_comment_children
  | 8 => retally_witness_vote_counts true
  | 9 => for_each compromised_accounts reset_compromised
  | 10 => retally_liquidity_weight
  | 12 => hardfork_12
  | 16 => hardfork_16
  | 17 => hardfork_17_fund;; hardfork_17_comments
  | 19 => hardfork_19
  | _ => mret tt
  end.

(** ** Applying hardforks *)
Definition record_hardfork (hardfork : Z) (hfp : hardfork_property_object)
    : result hardfork_property_object :=
  FC_ASSERT (hardfork =? hpo_last_hardfork hfp + 1) "Hardfork being applied out of order";;
  FC_ASSERT (Z.of_nat (length (hpo_processed_hardforks hfp)) =? hardfork)
    "Hardfork being applied out of order";;
  t ← at_index hardfork_times hardfork;
  v ← at_index hardfork_versions hardfork;
  let hfp := set_hpo_current_hardfork_version v
    (set_hpo_last_hardfork hardfork
      (set_hpo_processed_hardforks (hpo_processed_hardforks hfp ++ [t]) hfp)) in
  t' ← at_index (hpo_processed_hardforks hfp) (hpo_last_hardfork hfp);
  t'' ← at_index hardfork_times (hpo_last_hardfork hfp);
  FC_ASSERT (t' =? t'') "Hardfork processing failed sanity check...";;
  mret hfp.

Definition apply_hardfork (hardfork : Z) : DB unit :=
  migrate hardfork;;
  modify_the (record_hardfork hardfork);;
  push_virtual_operation (hardfork_operation hardfork).

(** The loop over the hardforks the witnesses voted for. *)
Fixpoint voted_hardforks (fuel : nat) : DB unit :=
  hardforks ← get_hardfork_property_object;
  now ← head_block_time;
  v ← lift (at_index hardfork_versions (hpo_last_hardfork hardforks));
  if (v <? hpo_next_hardfork hardforks) && (hpo_next_hardfork_time hardforks <=? now) then
    if hpo_last_hardfork hardforks <? STEEMIT_NUM_HARDFORKS then
      match fuel with
      | O => throw (logic_error "out of rounds")
      | S fuel' => apply_hardfork (hpo_last_hardfork hardforks + 1);; voted_hardforks fuel'
      end
    else throw unknown_hardfork_exception
  else mret tt.
(** The loop over the hardforks with a fixed time, up to hardfork 5. *)
Fixpoint timed_hardforks (fuel : nat) : DB unit :=
  hardforks ← get_hardfork_property_object;
  now ← head_block_time;
  if hpo_last_hardfork hardforks <? STEEMIT_NUM_HARDFORKS then
    t ← lift (at_index hardfork_times (hpo_last_hardfork hardforks + 1));
    if (t <=? now) && (hpo_last_hardfork hardforks <? 5) then
      match fuel with
      | O => throw (logic_error "out of rounds")
      | S fuel' => apply_hardfork (hpo_last_hardfork hardforks + 1);; timed_hardforks fuel'
      end
    else mret tt
  else mret tt.

(** Each round records the next hardfork (see [process_hardforks_bound]). *)
Definition process_hardforks : DB unit :=
  hf5 ← has_hardfork 5;
  if (hf5 : bool) then voted_hardforks (Z.to_nat STEEMIT_NUM_HARDFORKS) else timed_hardforks 5.
End hardforks.

(** ** The migrations keep the invariant and the supplies *)
Section sound.
Context {F : Fc} {B : Boost}.

#[export] Instance adjust_witness_vote_bonds w d : Keeps bonds (adjust_witness_vote w d).
Proof. unfold adjust_witness_vote. keep. Qed.
#[export] Instance retally_witness_votes_sound : Sound retally_witness_votes.
Proof.
  apply sound_frame; unfold retally_witness_votes; [conserve|link|keep].
Qed.
#[export] Instance reset_virtual_schedule_time_sound : Sound reset_virtual_schedule_time.
Proof. apply sound_frame; [apply _|..]; unfold reset_virtual_schedule_time; [link|keep]. Qed.
#[export] Instance retally_witness_vote_counts_sound b : Sound (retally_witness_vote_counts b).
Proof. apply sound_frame; unfold retally_witness_vote_counts; [conserve|link|keep]. Qed.
#[export] Instance count_child_conserves n p : Conserves (count_child n p).
Proof. revert p. induction n as [|n IH]; intros p; cbn [count_child]; conserve. Qed.
#[export] Instance count_child_links n p : KeepsLinks (count_child n p).
Proof. revert p. induction n as [|n IH]; intros p; cbn [count_child]; link. Qed.
#[export] Instance count_child_bonds n p : Keeps bonds (count_child n p).
Proof. revert p. induction n as [|n IH]; intros p; cbn [count_child]; keep. Qed.
#[export] Instance retally_comment_children_sound : Sound retally_comment_children.
Proof. apply sound_frame; unfold retally_comment_children; [conserve|link|keep]. Qed.
#[export] Instance reset_compromised_sound a : Sound (reset_compromised a).
Proof. apply sound_frame; unfold reset_compromised; [conserve|link|keep]. Qed.
#[export] Instance retally_liquidity_weight_sound : Sound retally_liquidity_weight.
Proof. apply sound_frame; unfold retally_liquidity_weight; [conserve|link|keep]. Qed.
#[export] Instance hardfork_12_sound : Sound hardfork_12.
Proof.
  apply sound_frame; unfold hardfork_12, hardfork_12_comment, open_posting; [conserve|link|keep].
Qed.
#[export] Instance hardfork_16_sound : Sound hardfork_16.
Proof. apply sound_frame; unfold hardfork_16; [conserve|link|keep]. Qed.

(** The balance of the old fund moves to the new one. *)
#[export] Instance hardfork_17_fund_conserves : Conserves hardfork_17_fund.
Proof.
  intros db u db' Hdb H. unfold hardfork_17_fund in H. inv_db.
  match goal with H : create _ _ ?s = Ok (_, ?s') |- _ =>
    assert (db_gpo s' = db_gpo s) as E by exact (keeps_run (obs := db_gpo) _ _ _ H) end.
  shift_all. split; [done|]. intros k. at_kind k. inv_ok.
  rewrite HI1, E, HI0, HI. destruct k; cbn -[Z.add Z.sub]; lia.
Qed.
#[export] Instance hardfork_17_sound : Sound (hardfork_17_fund;; hardfork_17_comments).
Proof.
  apply sound_frame; unfold hardfork_17_comments; [conserve|unfold hardfork_17_fund; link|unfold hardfork_17_fund; keep].
Qed.

(** *** The delegations of nothing are dropped *)
Lemma drop_delegation_sound d db u db' :
  chain_inv db → trows db !! vd_id d = Some d → amount (vd_vesting_shares d) = 0 →
  remove vesting_delegation_object (vd_id d) db = Ok (u, db') →
  chain_inv db' ∧ ∀ k, imb k db' = imb k db.
Proof.
  intros [Hwf Hloop Hdel Hdeals] Hd Hz H.
  assert (Conserves (remove vesting_delegation_object (vd_id d))) as Hc by apply _.
  destruct (Hc _ _ _ Hwf H) as [Hwf' HI]. split; [split|intros k; rewrite HI; lia].
  - done.
  - refine (links_no_loops (remove vesting_delegation_object (vd_id d)) _ _ _ _ Hwf Hloop H).
    apply links_keeps. apply _.
  - pose proof H as (x & Hx & Hg)%remove_delegation_gap. rewrite Hd in Hx. injection Hx as <-.
    eapply gap_shift_ok; [done|exact Hg|]. intros n. unfold lent, borrowed, if_named. rewrite Hz.
    by split; case_match.
  - revert Hdeals. eapply (kept_deals (remove vesting_delegation_object (vd_id d))); [apply _|exact H].
Qed.
Lemma drop_delegations_sound l db u db' :
  NoDup (vd_id <$> l) → (∀ d, d ∈ l → trows db !! vd_id d = Some d ∧ amount (vd_vesting_shares d) = 0) →
  chain_inv db → for_each l (λ d, remove vesting_delegation_object (vd_id d)) db = Ok (u, db') →
  chain_inv db' ∧ ∀ k, imb k db' = imb k db.
Proof.
  revert db. induction l as [|d l IH]; intros db Hnd Hl Hdb H; cbn [for_each] in H; [by inv_ok|].
  apply bind_ok in H as (v & s & H1 & H2). rewrite fmap_cons in Hnd. apply NoDup_cons in Hnd as [Hd Hnd].
  destruct (Hl d) as [Hrow Hz]; [by left|].
  pose proof (drop_delegation_sound d db v s Hdb Hrow Hz H1) as [Hs E].
  destruct (IH s) as [Hdb' E']; [done| |done|done|].
  - intros d' Hin. destruct (Hl d') as [Hr' ?]; [by right|]. split; [|done].
    apply remove_ok in H1 as (x & Hx & ->). rewrite trows_set. cbn [Abs.rows].
    rewrite lookup_delete_ne; [done|]. intros E'. apply Hd. rewrite E'. apply list_elem_of_fmap. eauto.
  - split; [done|]. intros k. by rewrite E', E.
Qed.
#[export] Instance hardfork_19_sound : Sound hardfork_19.
Proof.
  unfold hardfork_19. apply sound_bind; [|intros _; apply sound_bind; [|intros rf; apply sound_bind]].
  - apply sound_frame; [|link|keep]. intros db u db' Hdb H. shift_all. split; [done|].
    intros k. at_kind k. inv_ok. rewrite HI. destruct k; cbn; lia.
  - apply sound_frame; [apply _|link|keep].
  - apply sound_frame; [|link|keep]. intros db u db' Hdb H. shift_all. split; [done|].
    intros k. at_kind k. inv_ok. rewrite HI. destruct k; cbn; lia.
  - intros _ db u db' Hdb H. inv_db. eapply drop_delegations_sound; [| |done|done].
    + exact (select_ids_NoDup (A := vesting_delegation_object) _ _ _ (inv_wf _ Hdb)).
    + intros d [Hz [i Hi]]%select_elem. split; [|lia].
      pose proof (inv_wf _ Hdb) as [[Hids _] _]%(wf_tbl (A := vesting_delegation_object)).
      by rewrite (Hids _ _ Hi : vd_id d = i).
Qed.
End sound.

(** ** The split of the vesting shares *)
Section split.
Context {F : Fc} {B : Boost}.

Lemma split_votes_ok m l votes acc :
  rfoldl (λ l v, x ← safe_mul v m; mret (l ++ [x])) l acc = Ok votes → votes = acc ++ ((λ v, v * m) <$> l).
Proof.
  revert acc. induction l as [|v l IH]; intros acc; cbn [rfoldl].
  - intros [= <-]. by rewrite app_nil_r.
  - case_match eqn:E; [|done]. intros H. apply IH in H as ->. inv_ok. inv_safe. subst.
    rewrite fmap_cons. by rewrite <- app_assoc.
Qed.
Lemma zsum_scale l m : zsum ((λ v, v * m) <$> l) = zsum l * m.
Proof. unfold zsum. induction l as [|v l IH]; [done|]. rewrite fmap_cons. cbn [foldr]. rewrite IH. lia. Qed.

(** What the split adds to the weights of an account. *)
Definition split_gain (m : Z) (k : kind) (a : account_object) : Z :=
  match k with
  | KVests => (m - 1) * amount (acc_vesting_shares a)
  | KVsf => (m - 1) * vsf a
  | _ => 0
  end.
Lemma split_vsf m a b : split_account m a = Ok b → vsf b = vsf a * m.
Proof.
  unfold split_account, split_votes, scale. intros H. inv_ok. inv_safe. subst.
  match goal with H : rfoldl _ _ _ = Ok _ |- _ => apply split_votes_ok in H as -> end.
  unfold vsf, STEEMIT_MAX_PROXY_RECURSION_DEPTH. cbn -[take drop Z.mul lookup].
  case_bool_decide; destruct (acc_proxied_vsf_votes a) as [|x0 [|x1 [|x2 [|x3 l]]]];
    cbn -[Z.mul Z.add]; unfold zsum; cbn -[Z.mul Z.add]; rewrite ?take_0; cbn -[Z.mul Z.add]; lia.
Qed.
Lemma split_weight m k a b : split_account m a = Ok b → weight k b = weight k a + split_gain m k a.
Proof.
  intros H. destruct (decide (k = KVsf)) as [->|Hk].
  - change (vsf b = vsf a + (m - 1) * vsf a). rewrite (split_vsf _ _ _ H). lia.
  - unfold split_account, scale in H. inv_ok. inv_safe. subst.
    destruct k; try done; cbn -[Z.mul Z.add]; lia.
Qed.

Lemma split_row m a b : row_ok a → split_account m a = Ok b → row_ok b.
Proof.
  intros _ H. unfold split_account, scale in H. inv_ok. inv_safe. subst.
  split_and!; cbn; [done|done|]. by case_match.
Qed.
Lemma split_link m a b : split_account m a = Ok b → link_of b = link_of a.
Proof. intros H. unfold split_account, scale in H. by inv_ok. Qed.
Lemma split_accounts_shift m l db u db' :
  NoDup (acc_id <$> l) → (∀ a, a ∈ l → trows db !! acc_id a = Some a) →
  db_wf db → for_each l (λ a, modify (acc_id a) (split_account m)) db = Ok (u, db') →
  db_wf db' ∧ ∀ k, imb k db' = imb k db - zsum (split_gain m k <$> l).
Proof.
  revert db. induction l as [|a l IH]; intros db Hnd Hl Hdb H; cbn [for_each] in H.
  { inv_ok. split; [done|]. intros k. unfold zsum. cbn. lia. }
  apply bind_ok in H as (v & s & H1 & H2). rewrite fmap_cons in Hnd. apply NoDup_cons in Hnd as [Ha Hnd].
  assert (db_wf s) as Hs by (refine (modify_wf _ _ _ _ _ Hdb _ H1); intros; by eapply split_row).
  pose proof H1 as (x & y & Hx & Hy & HI)%modify_imb. rewrite (Hl a) in Hx by left. injection Hx as <-.
  destruct (IH s) as [Hdb' HI']; [done| |done|done|].
  - intros b Hb. rewrite <- (Hl b) by (by right).
    apply modify_ok in H1 as (x' & y' & c & Hx' & Hy' & Hc & ->). rewrite trows_set. cbn [Abs.rows].
    unfold container_modify in Hc. apply container_emplace_Some in Hc as (_ & _ & ->).
    assert (acc_id y' = acc_id x') as Hid by (pose proof (split_link _ _ _ Hy') as E; by injection E).
    rewrite (Hl a) in Hx' by left. injection Hx' as <-.
    assert (acc_id a ≠ acc_id b) by (intros E; apply Ha; rewrite E; apply list_elem_of_fmap; eauto).
    cbn. rewrite lookup_insert_ne by (by rewrite Hid). by rewrite lookup_delete_ne.
  - split; [done|]. intros k. rewrite HI', HI, (split_weight _ k _ _ Hy), fmap_cons.
    unfold zsum. cbn [foldr]. lia.
Qed.
End split.

(** ** Steps that keep the invariant and the balance of the supplies *)
Class Safe {A} (m : DB A) : Prop :=
  safe_run : ∀ db a db', chain_inv db → balanced db → m db = Ok (a, db') → chain_inv db' ∧ balanced db'.

#[export] Instance sound_safe {A} (m : DB A) : Sound m → Safe m | 10.
Proof.
  intros Hm db a db' Hdb Hbal H. destruct (Hm _ _ _ Hdb H) as [Hdb' E].
  split; [done|]. intros k. by rewrite E.
Qed.
Lemma safe_bind {A B} (m : DB A) (f : A → DB B) : Safe m → (∀ a, Safe (f a)) → Safe (m ≫= f).
Proof.
  intros Hm Hf db b db' Hdb Hbal (a & s & H1 & H2)%bind_ok.
  destruct (Hm _ _ _ Hdb Hbal H1) as [Hs Hb]. by eapply Hf.
Qed.

Section split_safe.
Context {F : Fc} {B : Boost}.

Lemma msum_scale {A} (f : A → Z) c (m : gmap Z A) : msum (λ x, c * f x) m = c * msum f m.
Proof.
  induction m as [|i x m Hi IH] using map_ind; [rewrite !msum_empty; lia|].
  rewrite !msum_insert by done. lia.
Qed.

(** The shares of the accounts are the total when both equations hold. *)
Lemma vests_gap db :
  imb KVests db - imb KRewards db
  = amount (gpo_total_vesting_shares (db_gpo db))
    - msum (λ a, amount (acc_vesting_shares a)) (trows db).
Proof.
  unfold imb, total.
  change (weight (A := account_object) KVests)
    with (λ a, amount (acc_vesting_shares a) + weight KRewards a).
  rewrite msum_add.
  change (weight (A := convert_request_object) KVests) with (weight (A := convert_request_object) KRewards).
  change (weight (A := limit_order_object) KVests) with (weight (A := limit_order_object) KRewards).
  change (weight (A := escrow_object) KVests) with (weight (A := escrow_object) KRewards).
  change (weight (A := savings_withdraw_object) KVests) with (weight (A := savings_withdraw_object) KRewards).
  change (weight (A := reward_fund_object) KVests) with (weight (A := reward_fund_object) KRewards).
  cbn -[msum]. lia.
Qed.
Lemma vsf_gap db :
  imb KVsf db = amount (gpo_total_vesting_shares (db_gpo db)) - msum vsf (trows db).
Proof.
  unfold imb, total. change (weight (A := account_object) KVsf) with vsf.
  change (weight (A := convert_request_object) KVsf) with (λ _ : convert_request_object, 0).
  change (weight (A := limit_order_object) KVsf) with (λ _ : limit_order_object, 0).
  change (weight (A := escrow_object) KVsf) with (λ _ : escrow_object, 0).
  change (weight (A := savings_withdraw_object) KVsf) with (λ _ : savings_withdraw_object, 0).
  change (weight (A := reward_fund_object) KVsf) with (λ _ : reward_fund_object, 0).
  rewrite !(msum_zero (λ _, 0)) by done. cbn -[msum]. lia.
Qed.

Lemma split_gain_sum m k db :
  balanced db →
  msum (split_gain m k) (trows db) =
  match k with
  | KVests | KVsf => (m - 1) * amount (gpo_total_vesting_shares (db_gpo db))
  | _ => 0
  end.
Proof.
  intros Hbal. pose proof (vests_gap db) as E1. pose proof (vsf_gap db) as E2.
  rewrite (Hbal KVests), (Hbal KRewards) in E1. rewrite (Hbal KVsf) in E2. unfold split_gain.
  destruct k; rewrite ?(msum_zero (λ _, 0)) by done; rewrite ?msum_scale; [done|done| |done| |done]; f_equal; lia.
Qed.

Lemma all_rows_at db (a : account_object) :
  db_wf db → a ∈ all_rows db → trows db !! acc_id a = Some a.
Proof.
  intros [[Hids _] _]%(wf_tbl (A := account_object)) [_ [i Hi]]%select_elem.
  by rewrite (Hids _ _ Hi : acc_id a = i).
Qed.

#[export] Instance split_safe m : Safe (perform_vesting_share_split m).
Proof.
  intros db u db' Hdb Hbal H.
  assert (KeepsLinks (perform_vesting_share_split m)) as Hl.
  { unfold perform_vesting_share_split, split_account, scale, adjust_rshares2. link. }
  assert (Keeps bonds (perform_vesting_share_split m)) as Hb.
  { unfold perform_vesting_share_split, adjust_rshares2. keep. }
  cut (db_wf db' ∧ balanced db').
  { intros [Hwf' Hbal']. split; [|done]. by eapply (frame_inv (perform_vesting_share_split m)). }
  clear Hl Hb. pose proof (inv_wf _ Hdb) as Hwf. unfold perform_vesting_share_split in H. inv_db.
  assert (Conserves (for_each (all_rows s1) (λ c : comment_object, modify (com_id c) (split_comment m))))
    as Hc1 by conserve.
  match goal with H : for_each (all_rows s3) ?f s3 = _ |- _ =>
    assert (Conserves (for_each (all_rows s3) f)) as Hc2 by conserve end.
  pose proof (modify_gpo_wf _ _ _ _ Hwf Hm) as Hs. apply modify_gpo_ok in Hm as (g & Hg & ->).
  apply split_accounts_shift in Hm1 as [Hs1 HI];
    [|exact (select_ids_NoDup (A := account_object) _ _ _ Hs)|intros a Ha; exact (all_rows_at _ a Hs Ha)|done].
  destruct (Hc1 _ _ _ Hs1 Hm3) as [Hs3 HI3], (Hc2 _ _ _ Hs3 Hk0) as [Hdb' HI'].
  split; [done|]. intros k. rewrite HI', HI3, HI, !Z.add_0_r.
  unfold all_rows. rewrite zsum_select. change (trows (set_db_gpo g db)) with (trows (A := account_object) db).
  rewrite (split_gain_sum _ _ _ Hbal). specialize (Hbal k). unfold imb, total, trows in *. unfold scale in Hg.
  inv_ok. inv_safe. subst. destruct k; cbn -[msum Z.mul] in *; lia.
Qed.
End split_safe.

(** ** Hardforks are applied in order *)
Section order.
Context {F : Fc} {B : Boost}.

#[export] Instance hardfork_6_sound : Sound (retally_witness_vote_counts false;; retally_comment_children).
Proof. apply sound_bind; intros; apply _. Qed.
#[export] Instance hardfork_9_sound : Sound (for_each compromised_accounts reset_compromised).
Proof. apply sound_for_each. apply _. Qed.
#[export] Instance migrate_safe n : Safe (migrate n).
Proof.
  assert (Sound (mret tt : DB unit)) by (apply sound_frame; [apply _|link|keep]).
  unfold migrate. repeat case_match; apply _.
Qed.
#[export] Instance apply_hardfork_safe n : Safe (apply_hardfork n).
Proof.
  unfold apply_hardfork. apply safe_bind; [apply _|intros _]. apply sound_safe, sound_bind; [|intros _].
  - apply sound_frame; [apply _|link|keep].
  - apply sound_frame; [apply _|link|keep].
Qed.
#[export] Instance voted_hardforks_safe n : Safe (voted_hardforks n).
Proof.
  induction n as [|n IH]; cbn [voted_hardforks];
    repeat (apply safe_bind; [apply sound_safe, read_sound; intros; by inv_db|intros ?]);
    repeat case_match; try (apply sound_safe, read_sound; intros; by inv_db).
  apply safe_bind; [apply _|done].
Qed.
#[export] Instance timed_hardforks_safe n : Safe (timed_hardforks n).
Proof.
  induction n as [|n IH]; cbn [timed_hardforks];
    repeat (apply safe_bind; [apply sound_safe, read_sound; intros; by inv_db|intros ?]);
    repeat case_match; try (apply sound_safe, read_sound; intros; by inv_db).
  all: repeat (apply safe_bind; [apply sound_safe, read_sound; intros; by inv_db|intros ?]).
  all: repeat case_match; try (apply sound_safe, read_sound; intros; by inv_db).
  all: apply safe_bind; [apply _|done].
Qed.
#[export] Instance process_hardforks_safe : Safe process_hardforks.
Proof.
  unfold process_hardforks. apply safe_bind; [apply sound_safe, read_sound; intros; by inv_db|].
  intros b. case_match; apply _.
Qed.

(** The state of the hardforks: the first ones of the list were applied. *)
Definition hardforks_ok (db : database) : Prop :=
  let h := db_hpo db in
  0 ≤ hpo_last_hardfork h ≤ STEEMIT_NUM_HARDFORKS ∧
  hpo_processed_hardforks h = take (S (Z.to_nat (hpo_last_hardfork h))) hardfork_times ∧
  at_index hardfork_versions (hpo_last_hardfork h) = Ok (hpo_current_hardfork_version h).

(** What the migrations do not touch. *)
Definition marks (db : database) : hardfork_property_object * list virtual_operation * Z :=
  (db_hpo db, db_virtual_ops db, gpo_time (db_gpo db)).
Lemma keeps_gpo_marks f : (∀ g g', f g = Ok g' → gpo_time g' = gpo_time g) → Keeps marks (modify_gpo f).
Proof.
  intros Hf db a db' (g & Hg & ->)%modify_gpo_ok. unfold marks. cbn. by rewrite (Hf _ _ Hg).
Qed.
Ltac keep_marks := keep; try (apply keeps_gpo_marks; intros; by inv_ok).
#[local] Instance adjust_rshares2_marks x y : Keeps marks (adjust_rshares2 x y).
Proof. unfold adjust_rshares2. keep_marks. Qed.
#[local] Instance adjust_witness_vote_marks w d : Keeps marks (adjust_witness_vote w d).
Proof. unfold adjust_witness_vote. keep_marks. Qed.
#[local] Instance count_child_marks n p : Keeps marks (count_child n p).
Proof. revert p. induction n as [|n IH]; intros p; cbn [count_child]; keep_marks. Qed.
#[local] Instance migrate_marks n : Keeps marks (migrate n).
Proof.
  unfold migrate. repeat case_match;
    unfold perform_vesting_share_split, retally_witness_votes, reset_virtual_schedule_time,
      retally_witness_vote_counts, retally_comment_children, reset_compromised, update_owner_authority,
      retally_liquidity_weight, hardfork_12, hardfork_12_comment, open_posting, hardfork_16,
      hardfork_17_fund, hardfork_17_comments, hardfork_19; keep_marks.
Qed.

Lemma at_index_ok l i x : at_index l i = Ok x → l !! Z.to_nat i = Some x.
Proof. unfold at_index. case_match; naive_solver. Qed.
Lemma apply_hardfork_next n db u db' :
  hardforks_ok db → n = hpo_last_hardfork (db_hpo db) + 1 → n ≤ STEEMIT_NUM_HARDFORKS →
  apply_hardfork n db = Ok (u, db') →
  hardforks_ok db' ∧ hpo_last_hardfork (db_hpo db') = n ∧
  db_virtual_ops db' = db_virtual_ops db ++ [hardfork_operation n] ∧
  hpo_next_hardfork (db_hpo db') = hpo_next_hardfork (db_hpo db) ∧
  hpo_next_hardfork_time (db_hpo db') = hpo_next_hardfork_time (db_hpo db) ∧
  gpo_time (db_gpo db') = gpo_time (db_gpo db).
Proof.
  intros (Hr & Hp & Hv) Hn Hmax H. unfold apply_hardfork in H. inv_db.
  match goal with H : migrate _ _ = _ |- _ => apply (keeps_run (obs := marks)) in H as [= E1 E2 E3] end.
  match goal with H : modify_the _ _ = _ |- _ => apply modify_the_ok in H as (h & Hh & ->) end.
  match goal with H : push_virtual_operation _ _ = _ |- _ => apply push_virtual_operation_ok in H as -> end.
  cbn in Hh. rewrite E1 in Hh. unfold record_hardfork in Hh. inv_ok. cbn -[at_index hardfork_times hardfork_versions] in *.
  rewrite E2. split_and!; [|done..]. split_and!; cbn -[at_index hardfork_times hardfork_versions take]; [lia|lia| |done].
  match goal with H : at_index hardfork_times _ = Ok ?t |- context [_ ++ [?t]] =>
    apply at_index_ok in H; rewrite (take_S_r _ _ _ H) end.
  f_equal. rewrite Hp. f_equal. lia.
Qed.

(** The two loops as the source has them. *)
Definition voted_step (db : database) : result (database + unit * database) :=
  let h := db_hpo db in
  v ← at_index hardfork_versions (hpo_last_hardfork h);
  if (v <? hpo_next_hardfork h) && (hpo_next_hardfork_time h <=? gpo_time (db_gpo db)) then
    if hpo_last_hardfork h <? STEEMIT_NUM_HARDFORKS then
      x ← apply_hardfork (hpo_last_hardfork h + 1) db; Ok (inl x.2)
    else Throw unknown_hardfork_exception
  else Ok (inr (tt, db)).
Definition timed_step (db : database) : result (database + unit * database) :=
  let h := db_hpo db in
  if hpo_last_hardfork h <? STEEMIT_NUM_HARDFORKS then
    t ← at_index hardfork_times (hpo_last_hardfork h + 1);
    if (t <=? gpo_time (db_gpo db)) && (hpo_last_hardfork h <? 5) then
      x ← apply_hardfork (hpo_last_hardfork h + 1) db; Ok (inl x.2)
    else Ok (inr (tt, db))
  else Ok (inr (tt, db)).

Lemma hardfork_round step bound n db (k : DB unit) :
  hardforks_ok db → hpo_last_hardfork (db_hpo db) < STEEMIT_NUM_HARDFORKS →
  bound - hpo_last_hardfork (db_hpo db) ≤ Z.of_nat (S n) →
  step db = (x ← apply_hardfork (hpo_last_hardfork (db_hpo db) + 1) db; Ok (inl x.2)) →
  (∀ s, hardforks_ok s → bound - hpo_last_hardfork (db_hpo s) ≤ Z.of_nat n →
     loop_runs step s (k s)) →
  loop_runs step db ((apply_hardfork (hpo_last_hardfork (db_hpo db) + 1);; k) db).
Proof.
  intros Hok Hlt Hn Hstep Hk. unfold mbind, M_bind.
  destruct (apply_hardfork _ db) as [[[] s]|e] eqn:H; [|by apply loop_throws; rewrite Hstep].
  eapply loop_again; [exact Hstep|].
  destruct (apply_hardfork_next _ _ _ _ Hok eq_refl ltac:(lia) H) as (Hs & Hl & _).
  apply Hk; [done|]. rewrite Hl. lia.
Qed.
Lemma voted_unfold n db :
  let h := db_hpo db in
  voted_hardforks n db =
  match at_index hardfork_versions (hpo_last_hardfork h) with
  | Ok v =>
      if (v <? hpo_next_hardfork h) && (hpo_next_hardfork_time h <=? gpo_time (db_gpo db)) then
        if hpo_last_hardfork h <? STEEMIT_NUM_HARDFORKS then
          match n with
          | O => Throw (logic_error "out of rounds")
          | S n' => (apply_hardfork (hpo_last_hardfork h + 1);; voted_hardforks n') db
          end
        else Throw unknown_hardfork_exception
      else Ok (tt, db)
  | Throw e => Throw e
  end.
Proof.
  destruct n; cbn [voted_hardforks]; unfold get_hardfork_property_object, head_block_time, gets, lift,
    mbind at 1 2 3, M_bind; destruct (at_index _ _); [|done| |done]; by repeat case_match.
Qed.
Lemma voted_runs n db :
  hardforks_ok db → STEEMIT_NUM_HARDFORKS - hpo_last_hardfork (db_hpo db) ≤ Z.of_nat n →
  loop_runs voted_step db (voted_hardforks n db).
Proof.
  revert db. induction n as [|n IH]; intros db Hok Hn; rewrite voted_unfold;
    destruct (at_index _ _) as [v|e] eqn:Ev;
    try (apply loop_throws; unfold voted_step; by rewrite Ev);
    (destruct (_ && _) eqn:Ec; [|apply loop_returns; unfold voted_step; rewrite Ev; cbn; by rewrite Ec]);
    (destruct (_ <? STEEMIT_NUM_HARDFORKS) eqn:El;
       [|apply loop_throws; unfold voted_step; rewrite Ev; cbn; by rewrite Ec, El]); [lia|].
  apply (hardfork_round _ STEEMIT_NUM_HARDFORKS n); [done|lia|lia| |exact IH].
  unfold voted_step. rewrite Ev. cbn. by rewrite Ec, El.
Qed.
Lemma timed_unfold n db :
  let h := db_hpo db in
  timed_hardforks n db =
  if hpo_last_hardfork h <? STEEMIT_NUM_HARDFORKS then
    match at_index hardfork_times (hpo_last_hardfork h + 1) with
    | Ok t =>
        if (t <=? gpo_time (db_gpo db)) && (hpo_last_hardfork h <? 5) then
          match n with
          | O => Throw (logic_error "out of rounds")
          | S n' => (apply_hardfork (hpo_last_hardfork h + 1);; timed_hardforks n') db
          end
        else Ok (tt, db)
    | Throw e => Throw e
    end
  else Ok (tt, db).
Proof.
  destruct n; cbn [timed_hardforks]; unfold get_hardfork_property_object, head_block_time, gets, lift,
    mbind at 1 2, M_bind; cbn zeta; destruct (_ <? STEEMIT_NUM_HARDFORKS); try done;
    unfold mbind at 1, M_bind; destruct (at_index _ _); [|done| |done]; by repeat case_match.
Qed.
Lemma timed_runs n db :
  hardforks_ok db → 5 - hpo_last_hardfork (db_hpo db) ≤ Z.of_nat n →
  loop_runs timed_step db (timed_hardforks n db).
Proof.
  revert db. induction n as [|n IH]; intros db Hok Hn; rewrite timed_unfold;
    (destruct (_ <? STEEMIT_NUM_HARDFORKS) eqn:El; [|apply loop_returns; unfold timed_step; by rewrite El]);
    destruct (at_index _ _) as [v|e] eqn:Ev;
    try (apply loop_throws; unfold timed_step; by rewrite El, Ev);
    (destruct (_ && _) eqn:Ec; [|apply loop_returns; unfold timed_step; rewrite El, Ev; cbn; by rewrite Ec]);
    [lia|].
  apply (hardfork_round _ 5 n); [done|lia|lia| |exact IH].
  unfold timed_step. rewrite El, Ev. cbn. by rewrite Ec.
Qed.

(** What a run of either loop does: the next hardforks, one by one. *)
Definition advanced (db db' : database) : Prop :=
  hpo_last_hardfork (db_hpo db) ≤ hpo_last_hardfork (db_hpo db') ∧
  db_virtual_ops db' = db_virtual_ops db ++
    (hardfork_operation <$> seqZ (hpo_last_hardfork (db_hpo db) + 1)
       (hpo_last_hardfork (db_hpo db') - hpo_last_hardfork (db_hpo db))).
Lemma loop_advances (step : database → result (database + unit * database)) db out u db' :
  (∀ s x, step s = Ok (inl x) → hpo_last_hardfork (db_hpo s) < STEEMIT_NUM_HARDFORKS ∧
     ∃ u, apply_hardfork (hpo_last_hardfork (db_hpo s) + 1) s = Ok (u, x)) →
  (∀ s r, step s = Ok (inr r) → r.2 = s) →
  loop_runs step db out → out = Ok (u, db') → hardforks_ok db → hardforks_ok db' ∧ advanced db db'.
Proof.
  intros Hs Hr. induction 1 as [s r E|s e E|s x out E _ IH]; intros Hout Hok; [|done|].
  - injection Hout as ->. apply Hr in E as [= ->]. split; [done|]. split; [done|].
    by rewrite Z.sub_diag, app_nil_r.
  - destruct (Hs _ _ E) as (Hlt & v & Happ).
    destruct (apply_hardfork_next _ _ _ _ Hok eq_refl ltac:(lia) Happ) as (Hx & Hl & Hops & _).
    destruct (IH Hout Hx) as (Hok' & Hle & Hops'). split; [done|]. split; [lia|].
    rewrite Hops', Hops, <- app_assoc, Hl. f_equal.
    rewrite (seqZ_cons (hpo_last_hardfork (db_hpo s) + 1)) by lia. rewrite fmap_cons. cbn [app]. do 3 f_equal; lia.
Qed.
Lemma voted_step_ok s x :
  voted_step s = Ok (inl x) → hpo_last_hardfork (db_hpo s) < STEEMIT_NUM_HARDFORKS ∧
  ∃ u, apply_hardfork (hpo_last_hardfork (db_hpo s) + 1) s = Ok (u, x).
Proof.
  unfold voted_step. intros (v & _ & Hs)%rbind_ok. repeat case_match; try done.
  apply rbind_ok in Hs as ([u y] & Happ & [= <-]). split; [lia|eauto].
Qed.
Lemma timed_step_ok s x :
  timed_step s = Ok (inl x) → hpo_last_hardfork (db_hpo s) < STEEMIT_NUM_HARDFORKS ∧
  ∃ u, apply_hardfork (hpo_last_hardfork (db_hpo s) + 1) s = Ok (u, x).
Proof.
  unfold timed_step. case_match; [|done]. intros (v & _ & Hs)%rbind_ok. case_match; [|done].
  apply rbind_ok in Hs as ([u y] & Happ & [= <-]). split; [lia|eauto].
Qed.
Lemma step_stops s r : voted_step s = Ok (inr r) ∨ timed_step s = Ok (inr r) → r.2 = s.
Proof.
  unfold voted_step, timed_step. intros [(v & _ & Hs)%rbind_ok|Hs].
  - repeat case_match; try done; [|by injection Hs as <-].
    by apply rbind_ok in Hs as ([u y] & _ & ?).
  - case_match; [|by injection Hs as <-]. apply rbind_ok in Hs as (t & _ & Hs).
    case_match; [|by injection Hs as <-]. by apply rbind_ok in Hs as ([u y] & _ & ?).
Qed.

(** C40: the hardforks are applied in order and each one once: [process_hardforks]
    has the outcome of the unbounded loops of the source, which therefore end,
    and when it returns the hardforks recorded are the first ones of the list,
    those applied now were announced one by one, and none was undone. *)
Theorem hardforks_in_order db :
  hardforks_ok db →
  loop_runs (if 5 <? db_processed_hardforks db then voted_step else timed_step) db (process_hardforks db) ∧
  ∀ db', process_hardforks db = Ok (tt, db') → hardforks_ok db' ∧ advanced db db'.
Proof.
  intros Hok. pose proof Hok as (Hl & Hp & _).
  assert (loop_runs (if 5 <? db_processed_hardforks db then voted_step else timed_step) db
            (process_hardforks db)) as Hrun.
  { unfold process_hardforks, has_hardfork, gets, mbind, M_bind.
    destruct (5 <? _); [apply voted_runs|apply timed_runs]; (done || cbn; lia). }
  split; [done|]. intros db' H. destruct (5 <? _).
  - exact (loop_advances _ _ _ _ _ voted_step_ok (λ s r E, step_stops s r (or_introl E)) Hrun H Hok).
  - exact (loop_advances _ _ _ _ _ timed_step_ok (λ s r E, step_stops s r (or_intror E)) Hrun H Hok).
Qed.
End order.

(** ** The theorem on an example: the genesis state at the time of hardfork 5 *)
#[local] Existing Instances fc_model boost_model.
Definition before_hardforks : database :=
  let db := genesis 1000 in set_db_gpo (set_gpo_time 1464714000 (db_gpo db)) db.
Definition after_hardforks : database :=
  match process_hardforks before_hardforks with Ok (_, db) => db | Throw _ => before_hardforks end.
Lemma hardforks_in_order_witness :
  hpo_last_hardfork (db_hpo after_hardforks) = 5 ∧
  db_virtual_ops after_hardforks = hardfork_operation <$> [1; 2; 3; 4; 5].
Proof.
  destruct (hardforks_in_order before_hardforks) as [_ H].
  { vm_compute. split_and!; done. }
  assert (hpo_last_hardfork (db_hpo after_hardforks) = 5) as E by (vm_compute; reflexivity).
  split; [exact E|].
  destruct (H after_hardforks) as (_ & _ & Hv); [vm_compute; reflexivity|].
  rewrite Hv, E. vm_compute. reflexivity.
Defined.
