(* ===== verification/SignState.v ===== *)
(** * Signatures and authorities

    protocol/sign_state.cpp: the check that the keys that signed a transaction
    satisfy an authority, an [authority] being a threshold with weights by key
    and by account, the accounts standing for their own authorities up to a
    recursion limit.

    [vouched] is what the check is about, without states, limits and caches: the
    accounts whose authorities the keys satisfy.  The check is sound for it, and
    complete up to the recursion limit ([backs]). *)
From S2P Require Import Prelude Fc Config Asset Chainbase ChainbaseSpec Objects Supply.

Record sign_state := SignState {
  provided_signatures : gmap string bool;
  approved_by : gset string }.

Section sign_state.
(** The keys that could still sign, and [authority_getter]. *)
Context (available_keys : gset string) (get_active : string → result authority).

Definition use_signature (k : string) (s : sign_state) : sign_state :=
  SignState (<[k := true]> (provided_signatures s)) (approved_by s).
Definition signed_by (k : string) : M sign_state bool := λ s,
  match provided_signatures s !! k with
  | None =>
      if bool_decide (k ∈ available_keys) then Ok (true, use_signature k s) else Ok (false, s)
  | Some _ => Ok (true, use_signature k s)
  end.
Definition approve (a : string) : M sign_state unit := λ s,
  Ok (tt, SignState (provided_signatures s) ({[a]} ∪ approved_by s)).
Definition is_approved (a : string) : M sign_state bool := gets (λ s, bool_decide (a ∈ approved_by s)).

(** The loop over the keys: whether the threshold was reached, and the weight. *)
Fixpoint check_keys (threshold : Z) (keys : list (string * Z)) (total_weight : Z)
    : M sign_state (bool * Z) :=
  match keys with
  | [] => mret (false, total_weight)
  | (k, w) :: keys' =>
      signed ← signed_by k;
      if (signed : bool) then
        let total_weight := to_uint32 (total_weight + w) in
        if threshold <=? total_weight then mret (true, total_weight)
        else check_keys threshold keys' total_weight
      else check_keys threshold keys' total_weight
  end.

(** The loop over the accounts; [check] is the recursive call, if the limit
    allows one. *)
Fixpoint check_accounts (check : option (authority → M sign_state bool)) (threshold : Z)
    (accounts : list (string * Z)) (total_weight : Z) : M sign_state (bool * Z) :=
  match accounts with
  | [] => mret (false, total_weight)
  | (a, w) :: accounts' =>
      approved ← is_approved a;
      counts ← (if (approved : bool) then mret true
                else match check with
                     | None => mret false
                     | Some check =>
                         auth ← lift (get_active a);
                         ok ← check auth;
                         when ok (approve a);;
                         mret ok
                     end);
      if (counts : bool) then
        let total_weight := to_uint32 (total_weight + w) in
        if threshold <=? total_weight then mret (true, total_weight)
        else check_accounts check threshold accounts' total_weight
      else check_accounts check threshold accounts' total_weight
  end.

(** [check_authority( auth, depth )] with [n = max_recursion - depth]. *)
Fixpoint check_authority (n : nat) (auth : authority) : M sign_state bool :=
  r ← check_keys (weight_threshold auth) (key_auths auth) 0;
  if (r.1 : bool) then mret true
  else
    r ← check_accounts (match n with O => None | S n' => Some (check_authority n') end)
          (weight_threshold auth) (account_auths auth) r.2;
    if (r.1 : bool) then mret true else mret (weight_threshold auth <=? r.2).

(** [check_authority( id )] *)
Definition check_account (max_recursion : nat) (id : string) : M sign_state bool :=
  approved ← is_approved id;
  if (approved : bool) then mret true
  else auth ← lift (get_active id); check_authority max_recursion auth.

Definition remove_unused_signatures : M sign_state bool := λ s,
  let used := filter (λ p, p.2 = true) (provided_signatures s) in
  Ok (negb (bool_decide (used = provided_signatures s)), SignState used (approved_by s)).

Definition new_sign_state (sigs : gset string) : sign_state :=
  SignState (gset_to_gmap false sigs) {["temp"%string]}.

(** ** Who the keys speak for *)
Context (sigs approvals : gset string).

Definition can_sign (k : string) : Prop := k ∈ sigs ∨ k ∈ available_keys.
Definition votes_weight (l : list (string * Z)) : Z := zsum (snd <$> l).

(** The keys and the accounts of [P] reach the threshold of [auth]. *)
Definition backed (P : string → Prop) (auth : authority) : Prop :=
  ∃ ks accs, ks `sublist_of` key_auths auth ∧ accs `sublist_of` account_auths auth ∧
    (∀ p, p ∈ ks → can_sign p.1) ∧ (∀ p, p ∈ accs → P p.1) ∧
    weight_threshold auth ≤ votes_weight ks + votes_weight accs.

Inductive vouched : string → Prop :=
| vouched_approval a : a ∈ approvals → vouched a
| vouched_authority a auth ks accs :
    get_active a = Ok auth →
    ks `sublist_of` key_auths auth → accs `sublist_of` account_auths auth →
    (∀ p, p ∈ ks → can_sign p.1) → (∀ p, p ∈ accs → vouched p.1) →
    weight_threshold auth ≤ votes_weight ks + votes_weight accs →
    vouched a.
Lemma backed_vouched a auth : get_active a = Ok auth → backed vouched auth → vouched a.
Proof. intros Ha (ks & accs & ? & ? & ? & ? & ?). by eapply vouched_authority. Qed.

(** Weights are unsigned. *)
Definition unsigned_weights (l : list (string * Z)) : Prop := ∀ p, p ∈ l → 0 ≤ p.2.
Definition unsigned_authority (auth : authority) : Prop :=
  unsigned_weights (key_auths auth) ∧ unsigned_weights (account_auths auth).
Context (get_active_typed : ∀ a auth, get_active a = Ok auth → unsigned_authority auth).

(** What every reachable state satisfies. *)
Definition state_ok (s : sign_state) : Prop :=
  (∀ k, is_Some (provided_signatures s !! k) → can_sign k) ∧
  (∀ a, a ∈ approved_by s → vouched a).

Lemma signed_by_ok k s b s' :
  state_ok s → signed_by k s = Ok (b, s') → state_ok s' ∧ (b = true → can_sign k).
Proof.
  intros [Hp Ha] H. unfold signed_by in H.
  assert (can_sign k → state_ok (use_signature k s)) as Hu.
  { intros Hk. split; [|done]. intros j [x Hx]. cbn in Hx.
    apply lookup_insert_Some in Hx as [[<- _]|[_ Hx]]; [done|]. apply Hp. by exists x. }
  destruct (_ !! k) eqn:Hk; [|case_bool_decide]; injection H as <- <-.
  - assert (can_sign k) by (apply Hp; by eexists). auto.
  - assert (can_sign k) by (unfold can_sign; auto). auto.
  - by split.
Qed.

Lemma uint32_le x : 0 ≤ x → 0 ≤ to_uint32 x ≤ x.
Proof.
  intros Hx. unfold to_uint32. split; [apply Z.mod_pos_bound; unfold U32; lia|].
  apply Z.mod_le; unfold U32; lia.
Qed.
Lemma votes_weight_cons p l : votes_weight (p :: l) = p.2 + votes_weight l.
Proof. done. Qed.

Lemma check_keys_ok threshold l t s b t' s' :
  unsigned_weights l → 0 ≤ t → state_ok s → check_keys threshold l t s = Ok ((b, t'), s') →
  state_ok s' ∧ 0 ≤ t' ∧ (b = true → threshold ≤ t') ∧
  ∃ ks, ks `sublist_of` l ∧ (∀ p, p ∈ ks → can_sign p.1) ∧ t' ≤ t + votes_weight ks.
Proof.
  revert t s. induction l as [|[k w] l IH]; intros t s Hw Ht Hs H; cbn [check_keys] in H.
  - injection H as <- <- <-. split_and!; [done..|]. exists [].
    split_and!; [done|set_solver|unfold votes_weight; cbn; lia].
  - assert (unsigned_weights l) as Hl by (intros p Hp; apply Hw; by right).
    assert (0 ≤ w) as Hw0 by (apply (Hw (k, w)); left).
    apply bind_ok in H as (sg & s1 & H1 & H). destruct (signed_by_ok _ _ _ _ Hs H1) as [Hs1 Hk].
    destruct (uint32_le (t + w)) as [Hu0 Hu]; [lia|].
    destruct sg; [case_match|].
    + injection H as <- <- <-. split_and!; [done|done|lia|]. exists [(k, w)].
      split_and!; [apply sublist_skip, sublist_nil_l| |rewrite votes_weight_cons; unfold votes_weight; cbn; lia].
      intros p ->%list_elem_of_singleton. by apply Hk.
    + destruct (IH _ _ Hl Hu0 Hs1 H) as (? & ? & ? & ks & ? & Hks & ?). split_and!; try done.
      exists ((k, w) :: ks). split_and!; [by apply sublist_skip| |rewrite votes_weight_cons; cbn; lia].
      intros p [->|Hp]%elem_of_cons; [by apply Hk|by apply Hks].
    + destruct (IH _ _ Hl Ht Hs1 H) as (? & ? & ? & ks & ? & Hks & ?). split_and!; try done.
      exists ks. split_and!; [by apply sublist_cons|done|lia].
Qed.

Definition sound_check (check : authority → M sign_state bool) : Prop :=
  ∀ auth s b s', unsigned_authority auth → state_ok s → check auth s = Ok (b, s') →
    state_ok s' ∧ (b = true → backed vouched auth).

Lemma approve_ok a s u s' : state_ok s → vouched a → approve a s = Ok (u, s') → state_ok s'.
Proof.
  intros [Hp Ha] Hv [= _ <-]. split; [done|]. cbn. set_solver.
Qed.

(** One account of the loop. *)
Lemma account_counts_ok check a s b s' :
  (∀ f, check = Some f → sound_check f) → state_ok s →
  (approved ← is_approved a;
   if (approved : bool) then mret true
   else match check with
        | None => mret false
        | Some check =>
            auth ← lift (get_active a);
            ok ← check auth;
            when ok (approve a);;
            mret ok
        end) s = Ok (b, s') → state_ok s' ∧ (b = true → vouched a).
Proof.
  intros Hc Hs (ap & s1 & H1 & H)%bind_ok. unfold is_approved in H1. inv_ok.
  case_bool_decide as Ha.
  - inv_ok. split; [done|]. intros _. by apply Hs.
  - destruct check as [f|]; [|inv_ok; by split].
    apply bind_ok in H as (auth & s2 & H2 & H). apply bind_ok in H as (ok & s3 & H3 & H).
    apply bind_ok in H as (v & s4 & H4 & H). injection H as <- <-.
    assert (get_active a = Ok auth ∧ s2 = s) as [Hga ->] by (unfold lift in H2; case_match; naive_solver).
    destruct (Hc f eq_refl auth s ok s3) as [Hs3 Hb]; [by eapply get_active_typed|done|done|].
    destruct ok; cbn [when] in H4; [|injection H4 as <- <-; by split].
    assert (vouched a) as Hv by (eapply backed_vouched; eauto).
    split; [by eapply approve_ok|done].
Qed.

Lemma check_accounts_ok check threshold l t s b t' s' :
  (∀ f, check = Some f → sound_check f) → unsigned_weights l → 0 ≤ t → state_ok s →
  check_accounts check threshold l t s = Ok ((b, t'), s') →
  state_ok s' ∧ (b = true → threshold ≤ t') ∧
  ∃ accs, accs `sublist_of` l ∧ (∀ p, p ∈ accs → vouched p.1) ∧ t' ≤ t + votes_weight accs.
Proof.
  intros Hc. revert t s. induction l as [|[a w] l IH]; intros t s Hw Ht Hs H; cbn [check_accounts] in H.
  - injection H as <- <- <-. split_and!; [done..|]. exists [].
    split_and!; [done|set_solver|unfold votes_weight; cbn; lia].
  - assert (unsigned_weights l) as Hl by (intros p Hp; apply Hw; by right).
    assert (0 ≤ w) as Hw0 by (apply (Hw (a, w)); left).
    apply bind_ok in H as (ap & s0 & H0 & H). apply bind_ok in H as (cnt & s1 & H1 & H).
    destruct (account_counts_ok check a s cnt s1 Hc Hs) as [Hs1 Hk];
      [apply bind_ok; by exists ap, s0|].
    destruct (uint32_le (t + w)) as [Hu0 Hu]; [lia|].
    destruct cnt; [case_match|].
    + injection H as <- <- <-. split_and!; [done|lia|]. exists [(a, w)].
      split_and!; [apply sublist_skip, sublist_nil_l| |rewrite votes_weight_cons; unfold votes_weight; cbn; lia].
      intros p ->%list_elem_of_singleton. by apply Hk.
    + destruct (IH _ _ Hl Hu0 Hs1 H) as (? & ? & accs & ? & Ha & ?). split_and!; try done.
      exists ((a, w) :: accs). split_and!; [by apply sublist_skip| |rewrite votes_weight_cons; cbn; lia].
      intros p [->|Hp]%elem_of_cons; [by apply Hk|by apply Ha].
    + destruct (IH _ _ Hl Ht Hs1 H) as (? & ? & accs & ? & Ha & ?). split_and!; try done.
      exists accs. split_and!; [by apply sublist_cons|done|lia].
Qed.

Lemma check_authority_ok n : sound_check (check_authority n).
Proof.
  assert (∀ check, (∀ f, check = Some f → sound_check f) → sound_check (λ auth,
    r ← check_keys (weight_threshold auth) (key_auths auth) 0;
    if (r.1 : bool) then mret true
    else r ← check_accounts check (weight_threshold auth) (account_auths auth) r.2;
         if (r.1 : bool) then mret true else mret (weight_threshold auth <=? r.2))) as Hstep.
  { intros check Hc auth s b s' [Hwk Hwa] Hs ([b1 t1] & s1 & H1 & H)%bind_ok.
    destruct (check_keys_ok _ _ _ _ _ _ _ Hwk (Z.le_refl 0) Hs H1)
      as (Hs1 & Ht1 & Hb1 & ks & Hks & Hk & Hle).
    cbn [fst snd] in H. destruct b1.
    - injection H as <- <-. split; [done|]. intros _. exists ks, [].
      split_and!; [done|apply sublist_nil_l|done|set_solver|]. specialize (Hb1 eq_refl).
      unfold votes_weight in *. cbn. lia.
    - apply bind_ok in H as ([b2 t2] & s2 & H2 & H).
      destruct (check_accounts_ok _ _ _ _ _ _ _ _ Hc Hwa Ht1 Hs1 H2)
        as (Hs2 & Hb2 & accs & Hacc & Ha & Hle2).
      cbn [fst snd] in H.
      assert (s' = s2 ∧ (b = true → weight_threshold auth ≤ t2)) as [-> Hb].
      { destruct b2; injection H as <- <-; split; auto. intros ?. lia. }
      split; [done|]. intros Hbt. exists ks, accs. split_and!; [done..|]. specialize (Hb Hbt). lia. }
  induction n as [|n IH]; cbn [check_authority]; apply Hstep; [done|]. by intros f [= <-].
Qed.
End sign_state.

(** ** The check finds what is there *)
Section complete.
Context (available_keys : gset string) (get_active : string → result authority).
Context (sigs approvals : gset string).

Definition counted (P : string → bool) (l : list (string * Z)) : Z :=
  votes_weight (filter (λ p, P p.1 = true) l).

(** The keys satisfy [auth] with at most [n] steps from account to account. *)
Fixpoint backs (n : nat) (auth : authority) : bool :=
  weight_threshold auth <=?
    counted (λ k, bool_decide (k ∈ sigs ∪ available_keys)) (key_auths auth) +
    counted (λ a, bool_decide (a ∈ approvals) ||
                  match n with
                  | O => false
                  | S n' => match get_active a with Ok au => backs n' au | Throw _ => false end
                  end) (account_auths auth).

(** The weights of an authority add up within 32 bits. *)
Definition small_authority (auth : authority) : Prop :=
  unsigned_authority auth ∧ votes_weight (key_auths auth) + votes_weight (account_auths auth) < U32.
Context (get_active_total : ∀ a, ∃ auth, get_active a = Ok auth ∧ small_authority auth).

Definition state_ready (s : sign_state) : Prop :=
  (∀ k, k ∈ sigs → is_Some (provided_signatures s !! k)) ∧ approvals ⊆ approved_by s.

Lemma signed_by_run k s :
  state_ready s →
  ∃ b s', signed_by available_keys k s = Ok (b, s') ∧ state_ready s' ∧
    (bool_decide (k ∈ sigs ∪ available_keys) = true → b = true).
Proof.
  intros [Hp Ha]. unfold signed_by.
  assert (state_ready (use_signature k s)) as Hu.
  { split; [|done]. intros j Hj. cbn. destruct (decide (k = j)) as [->|Hne].
    - rewrite lookup_insert_eq. by eexists.
    - rewrite lookup_insert_ne by done. by apply Hp. }
  destruct (_ !! k) eqn:E; [by eauto|]. case_bool_decide; [by eauto|].
  exists false, s. split_and!; [done|by split|]. intros [[x Hx]%Hp|?]%bool_decide_eq_true%elem_of_union; [|done].
  congruence.
Qed.

Lemma votes_weight_nonneg l : unsigned_weights l → 0 ≤ votes_weight l.
Proof.
  induction l as [|p l IH]; intros Hl; [done|]. rewrite votes_weight_cons.
  pose proof (Hl p ltac:(left)). assert (unsigned_weights l) by (intros q Hq; apply Hl; by right).
  specialize (IH ltac:(done)). lia.
Qed.
Lemma counted_cons P p l :
  counted P (p :: l) = (if P p.1 then p.2 else 0) + counted P l.
Proof. unfold counted. rewrite filter_cons. destruct (P p.1); [|rewrite decide_False by done; lia]. by rewrite decide_True. Qed.

Lemma check_keys_run threshold l t s :
  unsigned_weights l → 0 ≤ t → t + votes_weight l < U32 → state_ready s →
  ∃ out s', check_keys available_keys threshold l t s = Ok (out, s') ∧ state_ready s' ∧
    (out.1 = true ∨ t + counted (λ k, bool_decide (k ∈ sigs ∪ available_keys)) l ≤ out.2 ≤ t + votes_weight l).
Proof.
  revert t s. induction l as [|[k w] l IH]; intros t s Hw Ht Hmax Hs; cbn [check_keys].
  - exists (false, t), s. split_and!; [done..|]. right. unfold counted, votes_weight. cbn. lia.
  - rewrite counted_cons, votes_weight_cons in *. cbn [fst snd] in *.
    assert (unsigned_weights l) as Hl by (intros p Hp; apply Hw; by right).
    assert (0 ≤ w) as Hw0 by (apply (Hw (k, w)); left).
    pose proof (votes_weight_nonneg l Hl) as Hn.
    destruct (signed_by_run k s Hs) as (b & s1 & E & Hs1 & Hb). unfold mbind, M_bind. rewrite E.
    destruct b.
    + unfold to_uint32. rewrite (Z.mod_small (t + w)) by lia. case_match.
      * exists (true, t + w), s1. split_and!; [done..|]. by left.
      * destruct (IH (t + w) s1 Hl ltac:(lia) ltac:(lia) Hs1) as (out & s' & E' & Hs' & Ho).
        exists out, s'. split_and!; [done..|]. destruct Ho as [?|?]; [by left|right].
        destruct (bool_decide _); lia.
    + destruct (IH t s1 Hl ltac:(lia) ltac:(lia) Hs1) as (out & s' & E' & Hs' & Ho).
      exists out, s'. split_and!; [done..|]. destruct Ho as [?|?]; [by left|right].
      destruct (bool_decide _); [discriminate (Hb eq_refl)|lia].
Qed.

(** A recursive call that returns, and finds what [P] says is there. *)
Definition complete_check (P : authority → bool) (check : authority → M sign_state bool) : Prop :=
  ∀ auth s, small_authority auth → state_ready s →
    ∃ b s', check auth s = Ok (b, s') ∧ state_ready s' ∧ (P auth = true → b = true).

Lemma account_counts_run P check a s :
  (∀ f, check = Some f → complete_check P f) → state_ready s →
  ∃ ap b s', is_approved a s = Ok (ap, s) ∧
    (if (ap : bool) then mret true
     else match check with
          | None => mret false
          | Some check =>
              auth ← lift (get_active a);
              ok ← check auth;
              when ok (approve a);;
              mret ok
          end) s = Ok (b, s') ∧ state_ready s' ∧
    (bool_decide (a ∈ approvals) ||
     match check with
     | None => false
     | Some _ => match get_active a with Ok au => P au | Throw _ => false end
     end = true → b = true).
Proof.
  intros Hc Hs. unfold is_approved, gets. case_bool_decide as Ha.
  { exists true, true, s. by split_and!. }
  assert (bool_decide (a ∈ approvals) = false) as ->.
  { apply bool_decide_eq_false. intros Hin. apply Ha. by apply Hs. }
  destruct check as [f|]; [|by exists false, false, s].
  destruct (get_active_total a) as (auth & E & Hsmall). rewrite E.
  destruct (Hc f eq_refl auth s Hsmall Hs) as (b & s' & Ef & Hs' & Hb).
  exists false, b, (if b then SignState (provided_signatures s') ({[a]} ∪ approved_by s') else s').
  split_and!; [done| | |done].
  - unfold lift, mbind, M_bind. rewrite Ef. by destruct b.
  - destruct b; [|done]. destruct Hs' as [? ?]. split; [done|]. cbn. set_solver.
Qed.
Lemma check_accounts_run P check threshold l t s :
  (∀ f, check = Some f → complete_check P f) →
  unsigned_weights l → 0 ≤ t → t + votes_weight l < U32 → state_ready s →
  ∃ out s', check_accounts get_active check threshold l t s = Ok (out, s') ∧ state_ready s' ∧
    (out.1 = true ∨
     t + counted (λ a, bool_decide (a ∈ approvals) ||
                  match check with
                  | None => false
                  | Some _ => match get_active a with Ok au => P au | Throw _ => false end
                  end) l ≤ out.2).
Proof.
  intros Hc. revert t s. induction l as [|[a w] l IH]; intros t s Hw Ht Hmax Hs; cbn [check_accounts].
  - exists (false, t), s. split_and!; [done..|]. right. unfold counted, votes_weight. cbn. lia.
  - rewrite counted_cons, votes_weight_cons in *. cbn [fst snd] in *.
    assert (unsigned_weights l) as Hl by (intros p Hp; apply Hw; by right).
    assert (0 ≤ w) as Hw0 by (apply (Hw (a, w)); left).
    pose proof (votes_weight_nonneg l Hl) as Hn.
    destruct (account_counts_run P check a s Hc Hs) as (ap & b & s1 & E1 & E2 & Hs1 & Hb).
    unfold mbind at 1, M_bind at 1. rewrite E1. unfold mbind at 1, M_bind at 1. rewrite E2.
    destruct b.
    + unfold to_uint32. rewrite (Z.mod_small (t + w)) by lia. destruct (threshold <=? t + w).
      * exists (true, t + w), s1. split_and!; [done..|]. by left.
      * destruct (IH (t + w) s1 Hl ltac:(lia) ltac:(lia) Hs1) as (out & s' & E' & Hs' & Ho).
        exists out, s'. split_and!; [done..|]. destruct Ho as [?|?]; [by left|right].
        destruct (_ || _); lia.
    + destruct (IH t s1 Hl ltac:(lia) ltac:(lia) Hs1) as (out & s' & E' & Hs' & Ho).
      exists out, s'. split_and!; [done..|]. destruct Ho as [?|?]; [by left|right].
      destruct (_ || _); [discriminate (Hb eq_refl)|lia].
Qed.
Lemma check_authority_run n : complete_check (backs n) (check_authority available_keys get_active n).
Proof.
  assert (∀ P check, (∀ f, check = Some f → complete_check P f) →
    complete_check (λ auth, weight_threshold auth <=?
      counted (λ k, bool_decide (k ∈ sigs ∪ available_keys)) (key_auths auth) +
      counted (λ a, bool_decide (a ∈ approvals) ||
                    match check with
                    | None => false
                    | Some _ => match get_active a with Ok au => P au | Throw _ => false end
                    end) (account_auths auth)) (λ auth,
    r ← check_keys available_keys (weight_threshold auth) (key_auths auth) 0;
    if (r.1 : bool) then mret true
    else r ← check_accounts get_active check (weight_threshold auth) (account_auths auth) r.2;
         if (r.1 : bool) then mret true else mret (weight_threshold auth <=? r.2))) as Hstep.
  { intros P check Hc auth s [[Hk Ha] Hmax] Hs. pose proof (votes_weight_nonneg _ Ha) as Hna.
    destruct (check_keys_run (weight_threshold auth) (key_auths auth) 0 s Hk ltac:(lia) ltac:(lia) Hs)
      as (out & s1 & E & Hs1 & Ho). unfold mbind at 1, M_bind at 1. rewrite E.
    destruct out as [[|] t1]; cbn [fst snd] in *; [by exists true, s1|]. destruct Ho as [?|Ho]; [done|].
    assert (0 ≤ t1) as Ht1.
    { etrans; [|apply Ho]. apply votes_weight_nonneg. intros p [_ Hp]%list_elem_of_filter. by apply Hk. }
    destruct (check_accounts_run P check (weight_threshold auth) (account_auths auth) t1 s1 Hc Ha Ht1
                ltac:(lia) Hs1) as ([b t2] & s2 & E2 & Hs2 & Ho2).
    unfold mbind, M_bind. rewrite E2. cbn [fst snd] in *. destruct b; [by exists true, s2|].
    exists (weight_threshold auth <=? t2), s2. split_and!; [done..|]. destruct Ho2 as [?|Ho2]; [done|].
    intros Hle. apply Z.leb_le in Hle. apply Z.leb_le. lia. }
  induction n as [|n IH]; [exact (Hstep (λ _, true) None ltac:(done))|].
  refine (Hstep (backs n) (Some (check_authority available_keys get_active n)) _). by intros f [= <-].
Qed.
End complete.

(** ** The theorems *)
Section theorems.
Context (available_keys : gset string) (get_active : string → result authority) (sigs : gset string).

(** The state a check starts from. *)
Lemma new_state_ok : state_ok available_keys get_active sigs {["temp"%string]} (new_sign_state sigs).
Proof.
  split; cbn.
  - intros k [x Hx]. apply lookup_gset_to_gmap_Some in Hx as [? _]. by left.
  - intros a Ha. by apply vouched_approval.
Qed.
Lemma new_state_ready : state_ready sigs {["temp"%string]} (new_sign_state sigs).
Proof.
  split; cbn; [|done]. intros k Hk. exists false. by apply lookup_gset_to_gmap_Some.
Qed.

(** The check of an authority is sound: when [check_authority] accepts an
    account, the keys that signed speak for it, that is, its authority is reached
    by the weights of keys that signed and of accounts that the keys speak for in
    turn. *)
Theorem check_authority_sound n id s' :
  (∀ a auth, get_active a = Ok auth → unsigned_authority auth) →
  check_account available_keys get_active n id (new_sign_state sigs) = Ok (true, s') →
  vouched available_keys get_active sigs {["temp"%string]} id.
Proof.
  intros Ht H. pose proof new_state_ok as Hs. unfold check_account in H.
  apply bind_ok in H as (ap & s & H1 & H). unfold is_approved in H1. inv_ok.
  case_bool_decide; [by apply Hs|].
  apply bind_ok in H as (auth & s1 & H2 & H).
  assert (get_active id = Ok auth ∧ s1 = new_sign_state sigs) as [Ha ->]
    by (unfold lift in H2; case_match; naive_solver).
  eapply backed_vouched; [done|]. eapply check_authority_ok; [done|by eapply Ht|exact Hs|exact H|done].
Qed.

(** C37: the check of an authority is complete up to its recursion limit: when
    the keys satisfy an authority with at most [n] steps from account to account,
    [check_authority] returns and accepts it. *)
Theorem check_authority_complete n auth :
  (∀ a, ∃ auth, get_active a = Ok auth ∧ small_authority auth) → small_authority auth →
  backs available_keys get_active sigs {["temp"%string]} n auth = true →
  ∃ s', check_authority available_keys get_active n auth (new_sign_state sigs) = Ok (true, s').
Proof.
  intros Ht Hs Hb.
  destruct (check_authority_run available_keys get_active sigs {["temp"%string]} Ht n auth
              (new_sign_state sigs) Hs new_state_ready) as (b & s' & E & _ & Hbt).
  exists s'. by rewrite E, (Hbt Hb).
Qed.
End theorems.

(** ** The theorems on an example *)

(** The account "alice" needs her key or the account "bob", everyone else has
    the key of the same name. *)
Definition demo_authority (a : string) : authority :=
  if bool_decide (a = "alice"%string) then Authority 2 [("bob"%string, 2)] [("alice"%string, 2)]
  else Authority 1 [] [(a, 1)].
Lemma demo_small a : small_authority (demo_authority a).
Proof.
  unfold demo_authority. case_bool_decide;
    (split; [split; intros p; rewrite ?elem_of_cons; set_unfold; naive_solver lia|vm_compute; reflexivity]).
Qed.
Lemma check_authority_sound_witness :
  vouched ∅ (λ a, Ok (demo_authority a)) {["bob"%string]} {["temp"%string]} "alice"%string.
Proof.
  eapply (check_authority_sound ∅ (λ a, Ok (demo_authority a)) {["bob"%string]} 1).
  - intros a auth [= <-]. apply demo_small.
  - vm_compute. reflexivity.
Defined.
Lemma check_authority_complete_witness :
  ∃ s', check_authority ∅ (λ a, Ok (demo_authority a)) 1 (demo_authority "alice"%string)
          (new_sign_state {["bob"%string]}) = Ok (true, s').
Proof.
  apply check_authority_complete; [|apply demo_small|vm_compute; reflexivity].
  intros a. exists (demo_authority a). split; [reflexivity|apply demo_small].
Defined.
