(* ===== verification/Mining.v ===== *)
(** * Custom, mining and disabled operations

    The operations that most chains do not see: [custom_operation] and its JSON
    and binary variants, which plugins interpret, the proofs of work
    ([pow_operation] and [pow2_operation]), the report of a double production,
    and the reset of an account, which is disabled. *)
From S2P Require Import Prelude Fc Config Asset Chainbase ChainbaseSpec Names Objects Protocol BlockHeader Database.
From S2P Require Import Supply Votes Ledger Inflation EscrowSpec Frames Proxies Delegations Accounts Soundness.

(** ** Custom operations *)

(** A [flat_set< account_name_type >], iterated in the order of the names. *)
Definition in_order (s : gset string) : list string := sort_by String.leb (elements s).

Record custom_operation := Custom {
  cus_required_auths : gset string; cus_id : Z; cus_data : string }.
Definition custom_validate (o : custom_operation) : result unit :=
  FC_ASSERT (0 <? size (cus_required_auths o))%nat "at least on account must be specified".

Record custom_json_operation := CustomJson {
  cj_required_auths : gset string; cj_required_posting_auths : gset string;
  cj_id : string; cj_json : string }.

Record custom_binary_operation := CustomBinary {
  cb_required_owner_auths : gset string; cb_required_active_auths : gset string;
  cb_required_posting_auths : gset string; cb_required_auths : list authority;
  cb_id : string; cb_data : string }.

(** [custom_operation_interpreter]: the plugin registered for an id.  It undoes
    its changes when it throws ([plugin_session]). *)
Record custom_operation_interpreter := Interpreter {
  apply_json : custom_json_operation → DB unit;
  apply_binary : custom_binary_operation → DB unit }.

(** The plugins of a node; [is_producing] is set while it checks transactions of
    its own. *)
Class Plugins := {
  get_custom_json_evaluator : string → option custom_operation_interpreter;
  is_producing : bool;
}.
(** The plugins of this node keep to objects of their own, which are not among
    those of the chain. *)
Class PluginLaws `{Plugins} : Prop := {
  apply_json_own : ∀ id i o db u db',
    get_custom_json_evaluator id = Some i → apply_json i o db = Ok (u, db') → db' = db;
  apply_binary_own : ∀ id i o db u db',
    get_custom_json_evaluator id = Some i → apply_binary i o db = Ok (u, db') → db' = db;
}.

(** ** Proof of work *)

(** [fc::equihash::proof] *)
Record equihash_proof := EquihashProof {
  eq_n : Z; eq_k : Z; eq_seed : Z; eq_inputs : list Z }.
Class Equihash := { proof_is_valid : equihash_proof → bool }.

Record pow := Pow { pow_worker : string; pow_input : Z; pow_signature : string; pow_work : Z }.
Record pow_operation := PowOperation {
  po_worker_account : string; po_block_id : string; po_nonce : Z; po_work : pow;
  po_props : chain_properties }.

Record pow2_input := Pow2Input {
  pi_worker_account : string; pi_prev_block : string; pi_nonce : Z }.
Record pow2 := Pow2 { p2_input : pow2_input; p2_pow_summary : Z }.
Record equihash_pow := EquihashPow {
  ep_input : pow2_input; ep_proof : equihash_proof; ep_prev_block : string; ep_pow_summary : Z }.
(** [static_variant< pow2, equihash_pow >] *)
Inductive pow2_work : Type :=
| work_pow2 (w : pow2)
| work_equihash (w : equihash_pow).
Record pow2_operation := Pow2Operation {
  p2o_work : pow2_work; p2o_new_owner_key : option string; p2o_props : chain_properties }.

(** ** The other operations *)
Record report_over_production_operation := ReportOverProduction {
  rop_reporter : string; rop_first_block : signed_block_header; rop_second_block : signed_block_header }.
Record reset_account_operation := ResetAccount {
  rst_reset_account : string; rst_account_to_reset : string; rst_new_owner_authority : authority }.
Record set_reset_account_operation := SetResetAccount {
  sra_account : string; sra_current_reset_account : string; sra_reset_account : string }.

Section mining.
Context {F : Fc} {K : Crypto} {E : Equihash} {P : Plugins}.

(** *** Validation *)
Definition custom_json_validate (o : custom_json_operation) : result unit :=
  FC_ASSERT (0 <? size (cj_required_auths o) + size (cj_required_posting_auths o))%nat
    "at least on account must be specified";;
  FC_ASSERT (String.length (cj_id o) <=? 32)%nat "id is too long";;
  FC_ASSERT (is_utf8 (cj_json o)) "JSON Metadata not formatted in UTF8";;
  FC_ASSERT (json_is_valid (cj_json o)) "JSON Metadata not valid JSON".
Definition custom_binary_validate (o : custom_binary_operation) : result unit :=
  FC_ASSERT (0 <? size (cb_required_owner_auths o) + size (cb_required_active_auths o)
                  + size (cb_required_posting_auths o))%nat
    "at least on account must be specified";;
  FC_ASSERT (String.length (cb_id o) <=? 32)%nat "id is too long";;
  rfoldl (λ _ a, authority_validate a) (cb_required_auths o) tt.

Definition work_input (o : pow_operation) : Z :=
  let hash := sha256_hash (po_block_id o) in
  sha256_hash (sha256_set_word0 hash (po_nonce o)).
Definition pow_work_validate (w : pow) : result unit :=
  FC_ASSERT (negb (pow_work w =? 0)) "work != fc::sha256()";;
  k ← recover_key (pow_signature w) (pow_input w) false;
  FC_ASSERT (bool_decide (k = pow_worker w)) "public_key( signature, input ) == worker";;
  let sig_hash := sha256_hash (pow_signature w) in
  recover ← recover_key (pow_signature w) sig_hash false;
  FC_ASSERT (pow_work w =? sha256_hash recover) "work == fc::sha256::hash(recover)".
Definition pow_validate (o : pow_operation) : result unit :=
  chain_properties_validate (po_props o);;
  validate_account_name (po_worker_account o);;
  FC_ASSERT (work_input o =? pow_input (po_work o)) "Determninistic input does not match recorded input";;
  pow_work_validate (po_work o).

(** [pow2::create] *)
Definition pow2_create (prev account_name : string) (n : Z) : result pow2 :=
  let input := Pow2Input account_name prev n in
  let prv_key := sha256_hash input in
  let digest := sha256_hash prv_key in
  let signature := sign_compact (private_key_regenerate prv_key) digest true in
  let sig_hash := sha256_hash signature in
  recover ← recover_key signature sig_hash true;
  mret (Pow2 input (approx_log_32 (sha256_hash (digest, recover)))).
Definition pow2_work_validate (w : pow2) : result unit :=
  let i := p2_input w in
  validate_account_name (pi_worker_account i);;
  tmp ← pow2_create (pi_prev_block i) (pi_worker_account i) (pi_nonce i);
  FC_ASSERT (p2_pow_summary w =? p2_pow_summary tmp) "reported work does not match calculated work".
Definition equihash_pow_validate (w : equihash_pow) : result unit :=
  let proof := ep_proof w in
  validate_account_name (pi_worker_account (ep_input w));;
  let seed := sha256_hash (ep_input w) in
  FC_ASSERT (eq_n proof =? STEEMIT_EQUIHASH_N) "proof of work 'n' value is incorrect";;
  FC_ASSERT (eq_k proof =? STEEMIT_EQUIHASH_K) "proof of work 'k' value is incorrect";;
  FC_ASSERT (eq_seed proof =? seed) "proof of work seed does not match expected seed";;
  FC_ASSERT (proof_is_valid proof) "proof of work is not a solution";;
  FC_ASSERT (ep_pow_summary w =? approx_log_32 (sha256_hash (eq_inputs proof))) "pow_summary".
Definition pow2_validate (o : pow2_operation) : result unit :=
  chain_properties_validate (p2o_props o);;
  match p2o_work o with
  | work_pow2 w => pow2_work_validate w
  | work_equihash w => equihash_pow_validate w
  end.

Definition report_over_production_validate (o : report_over_production_operation) : result unit :=
  let first := rop_first_block o in
  let second := rop_second_block o in
  validate_account_name (rop_reporter o);;
  validate_account_name (bh_witness (sbh_header first));;
  FC_ASSERT (bool_decide (bh_witness (sbh_header first) = bh_witness (sbh_header second)))
    "first_block.witness == second_block.witness";;
  FC_ASSERT (bh_timestamp (sbh_header first) =? bh_timestamp (sbh_header second))
    "first_block.timestamp == second_block.timestamp";;
  k1 ← signee first;
  k2 ← signee second;
  FC_ASSERT (bool_decide (k1 = k2)) "first_block.signee() == second_block.signee()";;
  FC_ASSERT (negb (bool_decide (header_id first = header_id second))) "first_block.id() != second_block.id()".

Definition reset_account_validate (o : reset_account_operation) : result unit :=
  validate_account_name (rst_reset_account o);;
  validate_account_name (rst_account_to_reset o);;
  FC_ASSERT (negb (is_impossible (rst_new_owner_authority o))) "new owner authority cannot be impossible";;
  FC_ASSERT (negb (weight_threshold (rst_new_owner_authority o) =? 0)) "new owner authority cannot be trivial";;
  authority_validate (rst_new_owner_authority o).
Definition set_reset_account_validate (o : set_reset_account_operation) : result unit :=
  validate_account_name (sra_account o);;
  (if (0 <? String.length (sra_current_reset_account o))%nat
   then validate_account_name (sra_current_reset_account o) else mret tt);;
  validate_account_name (sra_reset_account o);;
  FC_ASSERT (negb (bool_decide (sra_current_reset_account o = sra_reset_account o)))
    "new reset account cannot be current reset account".

(** *** Evaluators *)
Definition custom_evaluator (o : custom_operation) : DB unit := mret tt.

(** [try { m } catch( const fc::exception& e ) { if( producing ) throw e; }] *)
Definition unless_producing (m : DB unit) : DB unit := λ db,
  match m db with
  | Ok r => Ok r
  | Throw e => if is_producing then Throw e else Ok (tt, db)
  end.
Definition custom_json_evaluator (o : custom_json_operation) : DB unit :=
  match get_custom_json_evaluator (cj_id o) with
  | None => mret tt
  | Some eval => unless_producing (apply_json eval o)
  end.
Definition custom_binary_evaluator (o : custom_binary_operation) : DB unit :=
  match get_custom_json_evaluator (cb_id o) with
  | None => mret tt
  | Some eval => unless_producing (apply_binary eval o)
  end.

Definition get_pow_target : DB Z :=
  dgp ← get_dynamic_global_properties;
  let target := sha256_of_words (U64 - 1) (U64 - 1) (U64 - 1) (U64 - 1) in
  mret (sha256_shr target (gpo_num_pow_witnesses dgp / 4 + 4)).
Definition get_pow_summary_target : DB Z :=
  dgp ← get_dynamic_global_properties;
  if 1004 <=? gpo_num_pow_witnesses dgp then mret 0
  else
    hf16 ← has_hardfork 16;
    if (hf16 : bool)
    then mret (to_uint32 (Z.shiftl (65024 - 64 * gpo_num_pow_witnesses dgp) 16))
    else mret (to_uint32 (Z.shiftl (64512 - 64 * gpo_num_pow_witnesses dgp) 16)).

(** The account of a miner, with its authority. *)
Definition create_miner (name key : string) : DB unit :=
  dgp ← get_dynamic_global_properties;
  create account_object_default (λ acc,
    set_acc_recovery_account EmptyString
      (set_acc_last_vote_time (gpo_time dgp)
        (set_acc_created (gpo_time dgp) (set_acc_memo_key key (set_acc_name name acc)))));;
  create account_authority_object_default (λ auth,
    let owner := Authority 1 [] [(key, 1)] in
    set_aa_posting owner (set_aa_active owner (set_aa_owner owner (set_aa_account name auth))));;
  mret tt.

Definition count_pow : DB unit :=
  modify_gpo (λ p, mret
    (set_gpo_num_pow_witnesses (to_uint32 (gpo_num_pow_witnesses p + 1))
      (set_gpo_total_pow (to_uint64 (gpo_total_pow p + 1)) p))).

(** The witness that includes a proof of work is paid for it. *)
Definition pay_pow : DB unit :=
  pow_reward ← get_pow_reward;
  dgp ← get_dynamic_global_properties;
  let early := gpo_head_block_number dgp <? STEEMIT_START_MINER_VOTING_BLOCK in
  pow_reward ← lift (if early then
    x ← safe_mul (amount pow_reward) STEEMIT_MAX_WITNESSES; mret (Asset x (symbol pow_reward))
    else mret pow_reward);
  adjust_supply pow_reward true;;
  inc_witness ← get_account (gpo_current_witness dgp);
  if early then adjust_balance (acc_id inc_witness) pow_reward
  else create_vesting (acc_id inc_witness) pow_reward false;; mret tt.

(** [authority::num_auths] *)
Definition num_auths (a : authority) : Z :=
  to_uint32 (Z.of_nat (length (account_auths a) + length (key_auths a))).

Definition pow_apply (o : pow_operation) : DB unit :=
  let work := po_work o in
  work_itr ← find_by (λ w, wit_last_work w =? pow_work work);
  assert (match work_itr with None => true | Some _ => false end) "DUPLICATE WORK DISCOVERED";;
  itr ← find_account (po_worker_account o);
  (match itr with
   | None => create_miner (po_worker_account o) (pow_worker work)
   | Some _ => mret tt
   end);;
  worker_account ← get_account (po_worker_account o);
  worker_auth ← get_authority (po_worker_account o);
  let active := aa_active worker_auth in
  assert (num_auths active =? 1) "Miners can only have one key authority.";;
  assert (length (key_auths active) =? 1)%nat "Miners may only have one key authority.";;
  assert (bool_decide (fst <$> head (key_auths active) = Some (pow_worker work)))
    "Work must be performed by key that signed the work.";;
  dgp ← get_dynamic_global_properties;
  assert (bool_decide (po_block_id o = gpo_head_block_id dgp)) "pow not for last block";;
  assert (acc_last_account_update worker_account <? gpo_time dgp)
    "Worker account must not have updated their account this block.";;
  target ← get_pow_target;
  assert (sha256_ltb (pow_work work) target) "Work lacks sufficient difficulty.";;
  count_pow;;
  dgp ← get_dynamic_global_properties;
  cur_witness ← find_witness (acc_name worker_account);
  (match cur_witness with
   | Some cur =>
       assert (wit_pow_worker cur =? 0) "This account is already scheduled for pow block production.";;
       modify (wit_id cur) (λ w, mret
         (set_wit_last_work (pow_work work)
           (set_wit_pow_worker (gpo_total_pow dgp) (set_wit_props (po_props o) w))))
   | None =>
       create witness_object_default (λ w,
         set_wit_last_work (pow_work work)
           (set_wit_pow_worker (gpo_total_pow dgp)
             (set_wit_signing_key (pow_worker work)
               (set_wit_props (po_props o) (set_wit_owner (po_worker_account o) w)))));;
       mret tt
   end);;
  pay_pow.
Definition pow_evaluator (o : pow_operation) : DB unit := pow_apply o.

Definition pow2_evaluator (o : pow2_operation) : DB unit :=
  dgp ← get_dynamic_global_properties;
  target_pow ← get_pow_summary_target;
  work ← match p2o_work o with
         | work_equihash w => mret w
         | work_pow2 _ => throw (assert_exception "static_variant: wrong type")
         end;
  assert (bool_decide (ep_prev_block work = gpo_head_block_id dgp)) "Equihash pow op not for last block";;
  let recent_block_num := num_from_id (pi_prev_block (ep_input work)) in
  assert (gpo_last_irreversible_block_num dgp <? recent_block_num)
    "Equihash pow done for block older than last irreversible block num";;
  assert (ep_pow_summary work <? target_pow) "Insufficient work difficulty.";;
  let worker_account := pi_worker_account (ep_input work) in
  assert (STEEMIT_MIN_BLOCK_SIZE_LIMIT * 2 <=? maximum_block_size (p2o_props o))
    "Voted maximum block size is too small.";;
  count_pow;;
  dgp ← get_dynamic_global_properties;
  itr ← find_account worker_account;
  match itr with
  | None =>
      match p2o_new_owner_key o with
      | None => throw (assert_exception "New owner key is not valid.")
      | Some key =>
          create_miner worker_account key;;
          create witness_object_default (λ w,
            set_wit_pow_worker (gpo_total_pow dgp)
              (set_wit_signing_key key (set_wit_props (p2o_props o) (set_wit_owner worker_account w))));;
          mret tt
      end
  | Some _ =>
      assert (bool_decide (p2o_new_owner_key o = None))
        "Cannot specify an owner key unless creating account.";;
      cur_witness ← find_witness worker_account;
      match cur_witness with
      | None => throw (assert_exception "Witness must be created for existing account before mining.")
      | Some cur =>
          assert (wit_pow_worker cur =? 0) "This account is already scheduled for pow block production.";;
          modify (wit_id cur) (λ w, mret
            (set_wit_pow_worker (gpo_total_pow dgp) (set_wit_props (p2o_props o) w)))
      end
  end.

Definition report_over_production_evaluator (o : report_over_production_operation) : DB unit := mret tt.
Definition reset_account_evaluator (o : reset_account_operation) : DB unit :=
  assert false "Reset Account Operation is currently disabled.".
Definition set_reset_account_evaluator (o : set_reset_account_operation) : DB unit :=
  assert false "Set Reset Account Operation is currently disabled.".
End mining.

(** ** These operations keep the invariant and the supplies *)
Section sound.
Context {F : Fc} {K : Crypto} {E : Equihash} {P : Plugins} {PL : PluginLaws}.

(** A new account with nothing, and no proxy. *)
Lemma create_account_sound c :
  (∀ j, let a := c (set_acc_id j account_object_default) in
     acc_id a = j ∧ row_ok a ∧ (∀ k, weight k a = 0) ∧
     acc_proxy a = STEEMIT_PROXY_TO_SELF_ACCOUNT ∧
     amount (acc_delegated_vesting_shares a) = 0 ∧ amount (acc_received_vesting_shares a) = 0) →
  Sound (create account_object_default c).
Proof.
  intros Hc db i db' [Hwf Hl Hd He] H.
  pose proof H as H'. apply early_account in H' as (Hids & Hl' & Hd' & He').
  2: { intros j. destruct (Hc j) as (? & _ & _ & ? & ? & ?). done. }
  2: { split_and!; [by apply wf_account_ids|done..]. }
  assert (db_wf db') as Hwf'.
  { refine (create_wf _ _ _ _ _ Hwf _ H). intros j. destruct (Hc j) as (? & ? & _). done. }
  split; [by split|]. intros k. rewrite (create_imb _ _ _ _ _ H).
  destruct (Hc i) as (_ & _ & Hw & _). change (set_obj_id i account_object_default)
    with (set_acc_id i account_object_default). rewrite Hw. lia.
Qed.

#[export] Instance create_miner_sound name key : Sound (create_miner name key).
Proof.
  unfold create_miner. sound. apply create_account_sound. intros j. split_and!; try done. by intros [].
Qed.
#[export] Instance count_pow_sound : Sound count_pow.
Proof.
  apply sound_frame; [|unfold count_pow; link|unfold count_pow; keep].
  intros db u db' Hdb H. unfold count_pow in H. shift_all. split; [done|].
  intros k. at_kind k. inv_ok. rewrite HI. destruct k; cbn; lia.
Qed.
Lemma get_pow_reward_symbol db r db' : get_pow_reward db = Ok (r, db') → symbol r = STEEM_SYMBOL ∧ db' = db.
Proof.
  unfold get_pow_reward. intros H. inv_db. case_match; inv_db; [done|]. split; [|done].
  by eapply at_least_symbol.
Qed.
#[export] Instance pay_pow_sound : Sound pay_pow.
Proof.
  apply sound_frame; [|unfold pay_pow, get_pow_reward; link|unfold pay_pow, get_pow_reward; keep].
  intros db u db' Hdb H. unfold pay_pow in H. inv_db.
  match goal with H : get_pow_reward _ = _ |- _ => apply get_pow_reward_symbol in H as [? ->] end.
  repeat match goal with H : (if ?c then _ else _) = Ok _ |- _ => destruct c; inv_db end;
    shift_all; (split; [done|]); intros k; at_kind k; rewrite by_symbol_steem in * by done; ledger k.
Qed.
#[export] Instance pow_sound o : Sound (pow_evaluator o).
Proof. unfold pow_evaluator, pow_apply, get_pow_target. sound. Qed.
#[export] Instance pow2_sound o : Sound (pow2_evaluator o).
Proof. unfold pow2_evaluator, get_pow_summary_target. sound. Qed.

Lemma unless_producing_own (m : DB unit) :
  (∀ db u db', m db = Ok (u, db') → db' = db) → ∀ db u db', unless_producing m db = Ok (u, db') → db' = db.
Proof.
  intros Hm db u db' H. unfold unless_producing in H. destruct (m db) as [[]|] eqn:Er.
  - injection H as <- <-. exact (Hm _ _ _ Er).
  - destruct is_producing; [discriminate H|]. by injection H as <- <-.
Qed.
Lemma custom_json_own o db u db' : custom_json_evaluator o db = Ok (u, db') → db' = db.
Proof.
  unfold custom_json_evaluator. destruct (get_custom_json_evaluator _) eqn:Ei; [|intros; by inv_ok].
  apply unless_producing_own. intros s v s'. exact (apply_json_own _ _ o s v s' Ei).
Qed.
Lemma custom_binary_own o db u db' : custom_binary_evaluator o db = Ok (u, db') → db' = db.
Proof.
  unfold custom_binary_evaluator. destruct (get_custom_json_evaluator _) eqn:Ei; [|intros; by inv_ok].
  apply unless_producing_own. intros s v s'. exact (apply_binary_own _ _ o s v s' Ei).
Qed.
#[export] Instance custom_json_sound o : Sound (custom_json_evaluator o).
Proof. apply read_sound, custom_json_own. Qed.
#[export] Instance custom_binary_sound o : Sound (custom_binary_evaluator o).
Proof. apply read_sound, custom_binary_own. Qed.
#[export] Instance custom_sound o : Sound (custom_evaluator o).
Proof. unfold custom_evaluator. sound. Qed.
#[export] Instance report_over_production_sound o : Sound (report_over_production_evaluator o).
Proof. unfold report_over_production_evaluator. sound. Qed.
#[export] Instance reset_account_sound o : Sound (reset_account_evaluator o).
Proof. unfold reset_account_evaluator. sound. Qed.
#[export] Instance set_reset_account_sound o : Sound (set_reset_account_evaluator o).
Proof. unfold set_reset_account_evaluator. sound. Qed.
End sound.

(** ** Instances: a node without plugins, and no valid proof of work *)
Definition no_mining : Equihash := {| proof_is_valid _ := false |}.
Definition no_plugins : Plugins :=
  {| get_custom_json_evaluator _ := None; is_producing := false |}.
Lemma no_plugins_laws : @PluginLaws no_plugins.
Proof. split; intros; discriminate. Qed.
