(* ===== verification/Operations.v ===== *)
(** * Operations

    [operation] of protocol/operations.hpp, its [validate] visitor, and
    [database::apply_operation], which dispatches to the evaluators.  The
    headline theorem: a validated operation that does not throw keeps the
    invariant of the chain and all six supply equations. *)
From S2P Require Import Prelude Fc Config Asset Chainbase ChainbaseSpec Objects Database.
From S2P Require Import Supply Protocol Votes Ledger Genesis Transfers Market Escrow.
From S2P Require Import EscrowSpec Vesting Frames Proxies Delegations Accounts Soundness.
From S2P Require Import Rewards Comments BlockHeader Mining.

(** The alternatives of the [static_variant], in its order; the virtual ones at
    its end are one alternative here. *)
Inductive operation : Type :=
| op_vote (o : vote_operation)
| op_comment (o : comment_operation)
| op_transfer (o : transfer_operation)
| op_transfer_to_vesting (o : transfer_to_vesting_operation)
| op_withdraw_vesting (o : withdraw_vesting_operation)
| op_limit_order_create (o : limit_order_create_operation)
| op_limit_order_cancel (o : limit_order_cancel_operation)
| op_feed_publish (o : feed_publish_operation)
| op_convert (o : convert_operation)
| op_account_create (o : account_create_operation)
| op_account_update (o : account_update_operation)
| op_witness_update (o : witness_update_operation)
| op_account_witness_vote (o : account_witness_vote_operation)
| op_account_witness_proxy (o : account_witness_proxy_operation)
| op_pow (o : pow_operation)
| op_custom (o : custom_operation)
| op_report_over_production (o : report_over_production_operation)
| op_delete_comment (o : delete_comment_operation)
| op_custom_json (o : custom_json_operation)
| op_comment_options (o : comment_options_operation)
| op_set_withdraw_vesting_route (o : set_withdraw_vesting_route_operation)
| op_limit_order_create2 (o : limit_order_create2_operation)
| op_challenge_authority (o : challenge_authority_operation)
| op_prove_authority (o : prove_authority_operation)
| op_request_account_recovery (o : request_account_recovery_operation)
| op_recover_account (o : recover_account_operation)
| op_change_recovery_account (o : change_recovery_account_operation)
| op_escrow_transfer (o : escrow_transfer_operation)
| op_escrow_dispute (o : escrow_dispute_operation)
| op_escrow_release (o : escrow_release_operation)
| op_pow2 (o : pow2_operation)
| op_escrow_approve (o : escrow_approve_operation)
| op_transfer_to_savings (o : transfer_to_savings_operation)
| op_transfer_from_savings (o : transfer_from_savings_operation)
| op_cancel_transfer_from_savings (o : cancel_transfer_from_savings_operation)
| op_custom_binary (o : custom_binary_operation)
| op_decline_voting_rights (o : decline_voting_rights_operation)
| op_reset_account (o : reset_account_operation)
| op_set_reset_account (o : set_reset_account_operation)
| op_claim_reward_balance (o : claim_reward_balance_operation)
| op_delegate_vesting_shares (o : delegate_vesting_shares_operation)
| op_account_create_with_delegation (o : account_create_with_delegation_operation)
| op_virtual (o : virtual_operation).

Section operations.
Context {F : Fc} {B : Boost} {D : DiffMatchPatch} {K : Crypto} {E : Equihash} {P : Plugins}.

(** [operation_validate]: the [validate] of the alternative. *)
Definition operation_validate (op : operation) : result unit :=
  match op with
  | op_vote o => vote_validate o
  | op_comment o => comment_validate o
  | op_transfer o => transfer_validate o
  | op_transfer_to_vesting o => transfer_to_vesting_validate o
  | op_withdraw_vesting o => withdraw_vesting_validate o
  | op_limit_order_create o => limit_order_create_validate o
  | op_limit_order_cancel o => limit_order_cancel_validate o
  | op_feed_publish o => feed_publish_validate o
  | op_convert o => convert_validate o
  | op_account_create o => account_create_validate o
  | op_account_update o => account_update_validate o
  | op_witness_update o => witness_update_validate o
  | op_account_witness_vote o => account_witness_vote_validate o
  | op_account_witness_proxy o => account_witness_proxy_validate o
  | op_pow o => pow_validate o
  | op_custom o => custom_validate o
  | op_report_over_production o => report_over_production_validate o
  | op_delete_comment o => delete_comment_validate o
  | op_custom_json o => custom_json_validate o
  | op_comment_options o => comment_options_validate o
  | op_set_withdraw_vesting_route o => set_withdraw_vesting_route_validate o
  | op_limit_order_create2 o => limit_order_create2_validate o
  | op_challenge_authority o => challenge_authority_validate o
  | op_prove_authority o => prove_authority_validate o
  | op_request_account_recovery o => request_account_recovery_validate o
  | op_recover_account o => recover_account_validate o
  | op_change_recovery_account o => change_recovery_account_validate o
  | op_escrow_transfer o => escrow_transfer_validate o
  | op_escrow_dispute o => escrow_dispute_validate o
  | op_escrow_release o => escrow_release_validate o
  | op_pow2 o => pow2_validate o
  | op_escrow_approve o => escrow_approve_validate o
  | op_transfer_to_savings o => transfer_to_savings_validate o
  | op_transfer_from_savings o => transfer_from_savings_validate o
  | op_cancel_transfer_from_savings o => cancel_transfer_from_savings_validate o
  | op_custom_binary o => custom_binary_validate o
  | op_decline_voting_rights o => decline_voting_rights_validate o
  | op_reset_account o => reset_account_validate o
  | op_set_reset_account o => set_reset_account_validate o
  | op_claim_reward_balance o => claim_reward_balance_validate o
  | op_delegate_vesting_shares o => delegate_vesting_shares_validate o
  | op_account_create_with_delegation o => account_create_with_delegation_validate o
  | op_virtual _ => FC_ASSERT false "This is a virtual operation"
  end.

(** The registry of the evaluators; none is registered for a virtual operation,
    where an assertion stops the node. *)
Definition apply_operation (op : operation) : DB unit :=
  match op with
  | op_vote o => vote_evaluator o
  | op_comment o => comment_evaluator o
  | op_transfer o => transfer_evaluator o
  | op_transfer_to_vesting o => transfer_to_vesting_evaluator o
  | op_withdraw_vesting o => withdraw_vesting_evaluator o
  | op_limit_order_create o => limit_order_create_evaluator o
  | op_limit_order_cancel o => limit_order_cancel_evaluator o
  | op_feed_publish o => feed_publish_evaluator o
  | op_convert o => convert_evaluator o
  | op_account_create o => account_create_evaluator o
  | op_account_update o => account_update_evaluator o
  | op_witness_update o => witness_update_evaluator o
  | op_account_witness_vote o => account_witness_vote_evaluator o
  | op_account_witness_proxy o => account_witness_proxy_evaluator o
  | op_pow o => pow_evaluator o
  | op_custom o => custom_evaluator o
  | op_report_over_production o => report_over_production_evaluator o
  | op_delete_comment o => delete_comment_evaluator o
  | op_custom_json o => custom_json_evaluator o
  | op_comment_options o => comment_options_evaluator o
  | op_set_withdraw_vesting_route o => set_withdraw_vesting_route_evaluator o
  | op_limit_order_create2 o => limit_order_create2_evaluator o
  | op_challenge_authority o => challenge_authority_evaluator o
  | op_prove_authority o => prove_authority_evaluator o
  | op_request_account_recovery o => request_account_recovery_evaluator o
  | op_recover_account o => recover_account_evaluator o
  | op_change_recovery_account o => change_recovery_account_evaluator o
  | op_escrow_transfer o => escrow_transfer_evaluator o
  | op_escrow_dispute o => escrow_dispute_evaluator o
  | op_escrow_release o => escrow_release_evaluator o
  | op_pow2 o => pow2_evaluator o
  | op_escrow_approve o => escrow_approve_evaluator o
  | op_transfer_to_savings o => transfer_to_savings_evaluator o
  | op_transfer_from_savings o => transfer_from_savings_evaluator o
  | op_cancel_transfer_from_savings o => cancel_transfer_from_savings_evaluator o
  | op_custom_binary o => custom_binary_evaluator o
  | op_decline_voting_rights o => decline_voting_rights_evaluator o
  | op_reset_account o => reset_account_evaluator o
  | op_set_reset_account o => set_reset_account_evaluator o
  | op_claim_reward_balance o => claim_reward_balance_evaluator o
  | op_delegate_vesting_shares o => delegate_vesting_shares_evaluator o
  | op_account_create_with_delegation o => account_create_with_delegation_evaluator o
  | op_virtual _ => assert false "No registered evaluator for this operation"
  end.

(** The amount of a [withdraw_vesting_operation] is a 64-bit integer, as every
    [share_type] is; the other amounts are bounded by the checks of the
    evaluators. *)
Definition typed (op : operation) : bool :=
  match op with
  | op_withdraw_vesting o => in_int64 (amount (wdv_vesting_shares o))
  | _ => true
  end.

Lemma operation_sound `{!PluginLaws} op :
  operation_validate op = Ok tt → typed op = true → Sound (apply_operation op).
Proof.
  destruct op as [o|o|o|o|o|o|o|o|o|o|o|o|o|o|o|o|o|o|o|o|o|o|o|o|o|o|o|o|o|o|o|o|o|o|o|o|o|o|o|o|o|o|o];
    cbn [operation_validate apply_operation typed]; intros Hv Ht;
    first [ apply transfer_to_vesting_sound; exact Hv
          | apply withdraw_vesting_sound; exact Ht
          | apply account_create_sound; exact Hv
          | apply account_witness_proxy_sound; exact Hv
          | apply set_withdraw_vesting_route_sound; exact Hv
          | apply limit_order_create2_sound; exact Hv
          | apply escrow_transfer_sound; exact Hv
          | apply escrow_release_sound; exact Hv
          | apply escrow_approve_sound; exact Hv
          | apply delegate_vesting_shares_sound; exact Hv
          | apply account_create_with_delegation_sound; exact Hv
          | discriminate Hv
          | apply _ ].
Qed.
End operations.

Section theorems.
Context {F : Fc} {B : Boost} {D : DiffMatchPatch} {K : Crypto} {E : Equihash} {P : Plugins} {PL : PluginLaws}.

(** C1: an operation that its [validate] accepts and that its evaluator applies
    without throwing keeps the invariant of the chain (well-formed tables,
    proxies without loops, delegations that add up, sound escrows), and it
    creates and destroys nothing: the imbalance of each of the six supply
    equations (STEEM, dollars, vesting shares, the vesting fund, the votes of
    witnesses and proxies, the vesting shares of pending rewards) is the same
    before and after. *)
Theorem apply_operation_conserves op db db' :
  chain_inv db → operation_validate op = Ok tt → typed op = true →
  apply_operation op db = Ok (tt, db') →
  chain_inv db' ∧ ∀ k, imb k db' = imb k db.
Proof. intros Hdb Hv Ht H. exact (operation_sound op Hv Ht db tt db' Hdb H). Qed.
End theorems.

#[local] Existing Instance fc_model.
#[local] Existing Instances boost_model no_patches crypto_model no_mining no_plugins no_plugins_laws.

Definition small_transfer : operation :=
  op_transfer (Transfer STEEMIT_INIT_MINER_NAME STEEMIT_TEMP_ACCOUNT (Asset 5 STEEM_SYMBOL) EmptyString).

Lemma apply_operation_conserves_witness :
  ∃ db', apply_operation small_transfer (genesis 1000) = Ok (tt, db') ∧ chain_inv db' ∧ balanced db'.
Proof.
  destruct (apply_operation small_transfer (genesis 1000)) as [[[] db']|e] eqn:H.
  2: { exfalso. cut (is_ok (apply_operation small_transfer (genesis 1000)) = true);
       [by rewrite H|]. vm_compute. reflexivity. }
  exists db'. split; [done|].
  destruct (apply_operation_conserves small_transfer (genesis 1000) db') as [Hinv HI];
    [apply genesis_inv|vm_compute; reflexivity|reflexivity|exact H|].
  split; [exact Hinv|]. intros k. rewrite HI. apply genesis_run.
Defined.
