(* ===== verification/Transactions.v ===== *)
(** * Transactions

    protocol/transaction.cpp: a transaction, the authorities its operations
    require ([get_required_..._authorities] of steem_operations.hpp), and the
    check of its signatures.  The theorem: a transaction whose authority is
    verified is backed by the accounts it acts for, and carries no signature
    that none of these accounts needed. *)
From S2P Require Import Prelude Fc Config Asset Chainbase ChainbaseSpec Objects Protocol BlockHeader Database.
From S2P Require Import Supply SignState Comments Soundness Mining Operations.

Record transaction := Transaction {
  tx_ref_block_num : Z; tx_ref_block_prefix : Z; tx_expiration : Z;
  tx_operations : list operation; tx_extensions : list unit }.
Record signed_transaction := SignedTransaction {
  st_trx : transaction; st_signatures : list string }.

(** ** Required authorities *)
Record required_authorities := Required {
  req_active : gset string; req_owner : gset string; req_posting : gset string;
  req_other : list authority }.
Definition no_authority : required_authorities := Required ∅ ∅ ∅ [].
Definition require_active (a : string) : required_authorities := Required {[a]} ∅ ∅ [].
Definition require_owner (a : string) : required_authorities := Required ∅ {[a]} ∅ [].
Definition require_posting (a : string) : required_authorities := Required ∅ ∅ {[a]} [].
Definition require_both (r1 r2 : required_authorities) : required_authorities :=
  Required (req_active r1 ∪ req_active r2) (req_owner r1 ∪ req_owner r2)
    (req_posting r1 ∪ req_posting r2) (req_other r1 ++ req_other r2).

(** [operation_get_required_authorities] *)
Definition operation_get_required_authorities (op : operation) : required_authorities :=
  match op with
  | op_vote o => require_posting (vt_voter o)
  | op_comment o => require_posting (cm_author o)
  | op_transfer o =>
      if symbol (tr_amount o) =? VESTS_SYMBOL then require_owner (tr_from o) else require_active (tr_from o)
  | op_transfer_to_vesting o => require_active (tv_from o)
  | op_withdraw_vesting o => require_active (wdv_account o)
  | op_limit_order_create o => require_active (loc_owner o)
  | op_limit_order_cancel o => require_active (lc_owner o)
  | op_feed_publish o => require_active (fp_publisher o)
  | op_convert o => require_active (co_owner o)
  | op_account_create o => require_active (ac_creator o)
  | op_account_update o =>
      match au_owner o with
      | Some _ => require_owner (au_account o)
      | None => require_active (au_account o)
      end
  | op_witness_update o => require_active (wu_owner o)
  | op_account_witness_vote o => require_active (awv_account o)
  | op_account_witness_proxy o => require_active (awp_account o)
  | op_pow _ => no_authority
  | op_custom o => Required (cus_required_auths o) ∅ ∅ []
  | op_report_over_production _ => no_authority
  | op_delete_comment o => require_posting (dc_author o)
  | op_custom_json o => Required (cj_required_auths o) ∅ (cj_required_posting_auths o) []
  | op_comment_options o => require_posting (co_author o)
  | op_set_withdraw_vesting_route o => require_active (swr_from_account o)
  | op_limit_order_create2 o => require_active (lo2_owner o)
  | op_challenge_authority o => require_active (ca_challenger o)
  | op_prove_authority o =>
      if pa_require_owner o then require_owner (pa_challenged o) else require_active (pa_challenged o)
  | op_request_account_recovery o => require_active (rar_recovery_account o)
  | op_recover_account o => Required ∅ ∅ ∅ [ra_new_owner_authority o; ra_recent_owner_authority o]
  | op_change_recovery_account o => require_owner (cra_account_to_recover o)
  | op_escrow_transfer o => require_active (et_from o)
  | op_escrow_dispute o => require_active (ed_who o)
  | op_escrow_release o => require_active (er_who o)
  | op_pow2 o =>
      match p2o_new_owner_key o with
      | Some key => Required ∅ ∅ ∅ [Authority 1 [] [(key, 1)]]
      | None =>
          match p2o_work o with
          | work_pow2 w => require_active (pi_worker_account (p2_input w))
          | work_equihash w => require_active (pi_worker_account (ep_input w))
          end
      end
  | op_escrow_approve o => require_active (ea_who o)
  | op_transfer_to_savings o => require_active (tts_from o)
  | op_transfer_from_savings o => require_active (tfs_from o)
  | op_cancel_transfer_from_savings o => require_active (cts_from o)
  | op_custom_binary o =>
      Required (cb_required_active_auths o) (cb_required_owner_auths o) (cb_required_posting_auths o)
        (cb_required_auths o)
  | op_decline_voting_rights o => require_owner (dvro_account o)
  | op_reset_account o => require_active (rst_reset_account o)
  | op_set_reset_account o =>
      if (String.length (sra_current_reset_account o) =? 0)%nat
      then require_posting (sra_account o) else require_owner (sra_account o)
  | op_claim_reward_balance o => require_posting (crb_account o)
  | op_delegate_vesting_shares o => require_active (dvs_delegator o)
  | op_account_create_with_delegation o => require_active (acd_creator o)
  | op_virtual _ => no_authority
  end.
Definition get_required_authorities (ops : list operation) : required_authorities :=
  foldl (λ r op, require_both r (operation_get_required_authorities op)) no_authority ops.

(** ** The check of the signatures *)

(** [authority_getter] *)
Notation authority_getter := (string → result authority).

(** [a || b] on checks that change the state. *)
Definition or_else (m1 m2 : M sign_state bool) : M sign_state bool :=
  b ← m1; if (b : bool) then mret true else m2.
(** [STEEMIT_ASSERT( check, exception )] *)
Definition require (m : M sign_state bool) (e : fc_exception) : M sign_state unit :=
  b ← m; if (b : bool) then mret tt else throw e.
(** [s.check_authority( get( id ) )] *)
Definition check_owner_of (getter get : authority_getter) (n : nat) (id : string) : M sign_state bool :=
  auth ← lift (get id); check_authority ∅ getter n auth.

Definition no_unused_signatures : M sign_state unit :=
  unused ← remove_unused_signatures;
  if (unused : bool) then throw tx_irrelevant_sig else mret tt.

Section verify.
Context (get_active get_owner get_posting : authority_getter) (max_recursion : nat).

Definition verify_posting (required_posting : gset string) : M sign_state unit :=
  for_each (in_order required_posting) (λ id,
    require
      (or_else (check_account ∅ get_posting max_recursion id)
        (or_else (check_owner_of get_posting get_active max_recursion id)
                 (check_owner_of get_posting get_owner max_recursion id)))
      tx_missing_posting_auth);;
  no_unused_signatures.
Definition verify_active (owner_approvals : gset string) (r : required_authorities) : M sign_state unit :=
  for_each (req_other r) (λ auth,
    require (check_authority ∅ get_active max_recursion auth) tx_missing_other_auth);;
  for_each (in_order (req_active r)) (λ id,
    require
      (or_else (check_account ∅ get_active max_recursion id)
               (check_owner_of get_active get_owner max_recursion id))
      tx_missing_active_auth);;
  for_each (in_order (req_owner r)) (λ id,
    require
      (or_else (mret (bool_decide (id ∈ owner_approvals)))
               (check_owner_of get_active get_owner max_recursion id))
      tx_missing_owner_auth);;
  no_unused_signatures.

(** The state the checks start from: [approved_by] holds the given approvals. *)
Definition start_check (sigs approvals : gset string) : sign_state :=
  let s := new_sign_state sigs in
  SignState (provided_signatures s) (approvals ∪ approved_by s).
Definition run_check (m : M sign_state unit) (s : sign_state) : result unit :=
  x ← m s; mret x.1.

Definition verify_authority (ops : list operation) (sigs : gset string)
    (active_approvals owner_approvals posting_approvals : gset string) : result unit :=
  let r := get_required_authorities ops in
  if (0 <? size (req_posting r))%nat then
    FC_ASSERT (size (req_active r) =? 0)%nat "required_active.size() == 0";;
    FC_ASSERT (size (req_owner r) =? 0)%nat "required_owner.size() == 0";;
    FC_ASSERT (length (req_other r) =? 0)%nat "other.size() == 0";;
    run_check (verify_posting (req_posting r)) (start_check sigs posting_approvals)
  else
    run_check (verify_active owner_approvals r)
      (start_check sigs (active_approvals ∪ owner_approvals)).
End verify.

(** ** Signed transactions *)
Section signed.
Context {F : Fc} {B : Boost} {D : DiffMatchPatch} {K : Crypto} {E : Equihash}.

Definition transaction_validate (trx : transaction) : result unit :=
  FC_ASSERT (0 <? length (tx_operations trx))%nat "A transaction must have at least one operation";;
  rfoldl (λ _ op, operation_validate op) (tx_operations trx) tt.

Definition transaction_digest (trx : transaction) : Z := sha256_hash trx.
Definition merkle_digest (trx : signed_transaction) : Z := sha256_hash trx.
Definition sig_digest (chain_id : Z) (trx : transaction) : Z := sha256_encode chain_id trx.
Definition transaction_id (trx : transaction) : string := sha256_to_160 (transaction_digest trx).

(** [STEEMIT_CHAIN_ID], the zero hash *)
Definition STEEMIT_CHAIN_ID : Z := 0.

Definition set_reference_block (reference_block : string) (trx : transaction) : transaction :=
  Transaction (to_uint16 (endian_reverse_u32 (hash_word reference_block 0)))
    (hash_word reference_block 1) (tx_expiration trx) (tx_operations trx) (tx_extensions trx).
Definition sign (key : private_key) (chain_id : Z) (trx : signed_transaction) : signed_transaction :=
  SignedTransaction (st_trx trx)
    (st_signatures trx ++ [sign_compact key (sig_digest chain_id (st_trx trx)) true]).

Definition get_signature_keys (chain_id : Z) (trx : signed_transaction) : result (gset string) :=
  let d := sig_digest chain_id (st_trx trx) in
  rfoldl (λ keys sig,
    k ← recover_key sig d true;
    if bool_decide (k ∈ keys) then Throw tx_duplicate_sig else mret ({[k]} ∪ keys))
    (st_signatures trx) ∅.

Definition transaction_verify_authority (chain_id : Z) (get_active get_owner get_posting : authority_getter)
    (max_recursion : nat) (trx : signed_transaction) : result unit :=
  keys ← get_signature_keys chain_id trx;
  verify_authority get_active get_owner get_posting max_recursion (tx_operations (st_trx trx)) keys ∅ ∅ ∅.

(** *** Which keys should still sign *)

(** The signatures a wallet holding [available_keys] should make. *)
Definition provided_available (available_keys : gset string) (s : sign_state) : gset string :=
  dom (provided_signatures s) ∩ available_keys.
Definition check_all {A} (l : list A) (check : A → M sign_state bool) : M sign_state unit :=
  for_each l (λ x, check x;; mret tt).
Definition get_required_signatures (chain_id : Z) (available_keys : gset string)
    (get_active get_owner get_posting : authority_getter) (max_recursion : nat)
    (trx : signed_transaction) : result (gset string) :=
  let r := get_required_authorities (tx_operations (st_trx trx)) in
  keys ← get_signature_keys chain_id trx;
  if (0 <? size (req_posting r))%nat then
    FC_ASSERT (size (req_owner r) =? 0)%nat "!required_owner.size()";;
    FC_ASSERT (size (req_active r) =? 0)%nat "!required_active.size()";;
    x ← (check_all (in_order (req_posting r)) (check_account available_keys get_posting max_recursion);;
         remove_unused_signatures) (new_sign_state keys);
    mret (provided_available available_keys x.2)
  else
    x ← (check_all (req_other r) (check_authority available_keys get_active max_recursion);;
         check_all (in_order (req_owner r)) (λ owner,
           auth ← lift (get_owner owner); check_authority available_keys get_active max_recursion auth);;
         check_all (in_order (req_active r)) (check_account available_keys get_active max_recursion);;
         remove_unused_signatures) (new_sign_state keys);
    mret (provided_available available_keys x.2).

(** The exceptions that keep a key in [minimize_required_signatures]. *)
Definition missing_authority (e : fc_exception) : bool :=
  match e with
  | tx_missing_owner_auth | tx_missing_active_auth | tx_missing_posting_auth | tx_missing_other_auth => true
  | _ => false
  end.
Definition drop_key (verify : gset string → result unit) (result : gset string) (k : string)
    : Prelude.result (gset string) :=
  let without := result ∖ {[k]} in
  match verify without with
  | Ok _ => Ok without
  | Throw e => if missing_authority e then Ok ({[k]} ∪ without) else Throw e
  end.
Definition minimize_required_signatures (chain_id : Z) (available_keys : gset string)
    (get_active get_owner get_posting : authority_getter) (max_recursion : nat)
    (trx : signed_transaction) : result (gset string) :=
  s ← get_required_signatures chain_id available_keys get_active get_owner get_posting max_recursion trx;
  rfoldl (drop_key (λ keys,
    verify_authority get_active get_owner get_posting max_recursion (tx_operations (st_trx trx)) keys ∅ ∅ ∅))
    (in_order s) s.
End signed.

(** ** Signatures that were used *)
Section marks.
Context (getter : authority_getter).

(** A set of authorities the check may look at: with an authority it holds those
    of its accounts. *)
Definition closed (Q : authority → Prop) : Prop :=
  ∀ auth id w auth', Q auth → (id, w) ∈ account_auths auth → getter id = Ok auth' → Q auth'.
Definition key_of (Q : authority → Prop) (k : string) : Prop := ∃ auth w, Q auth ∧ (k, w) ∈ key_auths auth.

(** From [s] to [s'] the same signatures, and those used since then are keys of
    authorities of [Q]. *)
Definition marks (Q : authority → Prop) (s s' : sign_state) : Prop :=
  dom (provided_signatures s') = dom (provided_signatures s) ∧
  ∀ k, provided_signatures s' !! k = Some true → provided_signatures s !! k = Some true ∨ key_of Q k.
Class Marks {A} (Q : authority → Prop) (m : M sign_state A) : Prop :=
  marks_run : ∀ s a s', m s = Ok (a, s') → marks Q s s'.

Lemma marks_refl Q s : marks Q s s.
Proof. split; auto. Qed.
Lemma marks_trans Q s1 s2 s3 : marks Q s1 s2 → marks Q s2 s3 → marks Q s1 s3.
Proof. intros [Hd1 H1] [Hd2 H2]. split; [congruence|]. intros k [Hk|]%H2; auto. Qed.
Lemma marks_bind {A B} Q (m : M sign_state A) (f : A → M sign_state B) :
  Marks Q m → (∀ a, Marks Q (f a)) → Marks Q (m ≫= f).
Proof. intros Hm Hf s b s' (a & s1 & H1 & H2)%bind_ok. eapply marks_trans; [by eapply Hm|by eapply Hf]. Qed.
Lemma marks_read {A} Q (m : M sign_state A) : (∀ s a s', m s = Ok (a, s') → s' = s) → Marks Q m.
Proof. intros Hm s a s' ->%Hm. apply marks_refl. Qed.
Lemma marks_for_each {A} Q (l : list A) (f : A → M sign_state unit) :
  (∀ x, x ∈ l → Marks Q (f x)) → Marks Q (for_each l f).
Proof.
  induction l as [|x l IH]; intros Hf; cbn [for_each]; [by apply marks_read; intros; inv_ok|].
  apply marks_bind; [apply Hf; left|]. intros _. apply IH. intros y Hy. apply Hf. by right.
Qed.

Lemma check_keys_marks Q auth threshold l t :
  Q auth → (∀ p, p ∈ l → p ∈ key_auths auth) → Marks Q (check_keys ∅ threshold l t).
Proof.
  intros HQ. revert t. induction l as [|[k w] l IH]; intros t Hl; cbn [check_keys];
    [by apply marks_read; intros; inv_ok|].
  assert (∀ t, Marks Q (check_keys ∅ threshold l t)) as Hr by (intros; apply IH; intros; apply Hl; by right).
  apply marks_bind.
  - intros s b s' H. unfold signed_by in H.
    assert (is_Some (provided_signatures s !! k) → marks Q s (use_signature k s)) as Hu.
    { intros Hk. split; cbn.
      - rewrite dom_insert_L. apply elem_of_dom in Hk. set_solver.
      - intros j [[<- _]|[_ ?]]%lookup_insert_Some; [right|by left]. exists auth, w. split; [done|]. apply Hl. left. }
    destruct (_ !! k) eqn:Hk; [|case_bool_decide; [set_solver|]]; injection H as <- <-; eauto using marks_refl.
  - intros []; [|apply Hr]. destruct (_ <=? _); [by apply marks_read; intros; inv_ok|apply Hr].
Qed.
Lemma check_accounts_marks Q auth check threshold l t :
  closed Q → (∀ f a, check = Some f → Q a → Marks Q (f a)) →
  Q auth → (∀ p, p ∈ l → p ∈ account_auths auth) → Marks Q (check_accounts getter check threshold l t).
Proof.
  intros Hcl Hc HQ. revert t. induction l as [|[a w] l IH]; intros t Hl; cbn [check_accounts];
    [by apply marks_read; intros; inv_ok|].
  assert (∀ t, Marks Q (check_accounts getter check threshold l t)) as Hr
    by (intros; apply IH; intros; apply Hl; by right).
  apply marks_bind; [by apply marks_read; unfold is_approved; intros; inv_ok|]. intros ap. apply marks_bind.
  - destruct ap; [by apply marks_read; intros; inv_ok|].
    destruct check as [f|]; [|by apply marks_read; intros; inv_ok].
    intros s b s' (auth' & s1 & H1 & H)%bind_ok. apply lift_ok in H1 as [Ha ->].
    assert (Q auth') as HQ' by (eapply Hcl; [exact HQ|apply Hl; left|exact Ha]).
    revert H. apply marks_bind; [by eapply Hc|]. intros ok. apply marks_bind.
    + destruct ok; cbn [when]; [|by apply marks_read; intros; inv_ok]. intros s2 u s3 [= _ <-]. split; auto.
    + intros _. by apply marks_read; intros; inv_ok.
  - intros []; [|apply Hr]. destruct (_ <=? _); [by apply marks_read; intros; inv_ok|apply Hr].
Qed.
Lemma check_authority_marks Q n auth : closed Q → Q auth → Marks Q (check_authority ∅ getter n auth).
Proof.
  intros Hcl. revert auth. induction n as [|n IH]; intros auth HQ; cbn [check_authority].
  all: apply marks_bind; [by apply (check_keys_marks Q auth)|intros r1].
  all: destruct r1.1; [by apply marks_read; intros; inv_ok|].
  all: apply marks_bind; [apply (check_accounts_marks Q auth); [done| |done|done]|intros r2].
  - intros f a [=].
  - destruct r2.1; by apply marks_read; intros; inv_ok.
  - intros f a [= <-]. apply IH.
  - destruct r2.1; by apply marks_read; intros; inv_ok.
Qed.
End marks.

(** ** Verified transactions *)

(** The authorities a transaction needs, and those reached from them. *)
Definition root_authority (get_active get_owner get_posting : authority_getter) (r : required_authorities)
    (auth : authority) : Prop :=
  auth ∈ req_other r ∨
  (∃ id, id ∈ req_posting r ∧ (get_posting id = Ok auth ∨ get_active id = Ok auth ∨ get_owner id = Ok auth)) ∨
  (∃ id, id ∈ req_active r ∧ (get_active id = Ok auth ∨ get_owner id = Ok auth)) ∨
  (∃ id, id ∈ req_owner r ∧ get_owner id = Ok auth).
Inductive consulted (getter : authority_getter) (root : authority → Prop) : authority → Prop :=
| consulted_root auth : root auth → consulted getter root auth
| consulted_account auth id w auth' :
    consulted getter root auth → (id, w) ∈ account_auths auth → getter id = Ok auth' →
    consulted getter root auth'.
Lemma consulted_closed getter root : closed getter (consulted getter root).
Proof. intros auth id w auth' ???. by eapply consulted_account. Qed.

Lemma in_order_elem id s : id ∈ in_order s ↔ id ∈ s.
Proof. unfold in_order. by rewrite sort_by_elem, elem_of_elements. Qed.

(** All signatures are used when the check returns. *)
Lemma all_used (sigs : gset string) Q s0 s1 u s' :
  marks Q s0 s1 → provided_signatures s0 = gset_to_gmap false sigs →
  no_unused_signatures s1 = Ok (u, s') → ∀ k, k ∈ sigs → key_of Q k.
Proof.
  intros [Hd Hmk] H0 H2 k Hk.
  apply bind_ok in H2 as (un & s2 & E1 & E2). unfold remove_unused_signatures in E1.
  injection E1 as <- <-. case_bool_decide as Hf; [|by inv_ok].
  rewrite H0 in Hd, Hmk. rewrite dom_gset_to_gmap in Hd. rewrite <- Hd in Hk.
  apply elem_of_dom in Hk as [x Hx]. rewrite <- Hf in Hx. apply map_lookup_filter_Some in Hx as [Hx E].
  cbn in E. subst x. destruct (Hmk _ Hx) as [Hx'|]; [|done]. apply lookup_gset_to_gmap_Some in Hx'. naive_solver.
Qed.
Lemma require_marks Q m e : Marks Q m → Marks Q (require m e).
Proof. intros Hm. apply marks_bind; [done|]. intros []; by apply marks_read; intros; inv_ok. Qed.
Lemma or_marks Q m1 m2 : Marks Q m1 → Marks Q m2 → Marks Q (or_else m1 m2).
Proof. intros H1 H2. apply marks_bind; [done|]. intros []; [by apply marks_read; intros; inv_ok|done]. Qed.

Section verified.
Context (getter : authority_getter) (sigs approvals : gset string).
Implicit Types (Q P : authority → Prop).

Definition speaks : authority → Prop := backed ∅ sigs (vouched ∅ getter sigs approvals).
Definition good : sign_state → Prop := state_ok ∅ getter sigs approvals.

(** A check keeps the state good and is right when it accepts. *)
Definition checks (X : Prop) (m : M sign_state bool) : Prop :=
  ∀ s b s', good s → m s = Ok (b, s') → good s' ∧ (b = true → X).

Lemma checks_or X Y m1 m2 : checks X m1 → checks Y m2 → checks (X ∨ Y) (or_else m1 m2).
Proof.
  intros H1 H2 s b s' Hs (b1 & s1 & E1 & E2)%bind_ok. destruct (H1 _ _ _ Hs E1) as [Hs1 Hb].
  destruct b1; [inv_ok; auto|]. destruct (H2 _ _ _ Hs1 E2). auto.
Qed.
Lemma checks_mono (X Y : Prop) m : (X → Y) → checks X m → checks Y m.
Proof. intros HXY Hm s b s' Hs H. destruct (Hm _ _ _ Hs H). auto. Qed.
Lemma require_all {A} (l : list A) (check : A → M sign_state bool) e (X : A → Prop) s u s' :
  (∀ x, x ∈ l → checks (X x) (check x)) → good s →
  for_each l (λ x, require (check x) e) s = Ok (u, s') → good s' ∧ ∀ x, x ∈ l → X x.
Proof.
  revert s. induction l as [|x l IH]; intros s Hc Hs H; cbn [for_each] in H.
  - inv_ok. split; [done|]. set_solver.
  - apply bind_ok in H as (v & s1 & H1 & H2). apply bind_ok in H1 as (b & s2 & E1 & E2).
    destruct (Hc x ltac:(left) _ _ _ Hs E1) as [Hs2 Hb]. destruct b; [|by inv_ok]. inv_ok.
    destruct (IH s2) as [? Hl]; [intros y Hy; apply Hc; by right|done|done|]. split; [done|].
    intros y [->|Hy]%elem_of_cons; auto.
Qed.

Lemma start_good given : approvals = {["temp"%string]} ∪ given → good (start_check sigs given).
Proof.
  intros Ht. split; cbn.
  - intros k [x Hx]. apply lookup_gset_to_gmap_Some in Hx as [? _]. by left.
  - intros a Ha. apply vouched_approval. set_solver.
Qed.

Lemma account_marks Q n id :
  closed getter Q → (∀ auth, getter id = Ok auth → Q auth) → Marks Q (check_account ∅ getter n id).
Proof.
  intros Hcl HQ. apply marks_bind; [by apply marks_read; unfold is_approved; intros; inv_ok|].
  intros []; [by apply marks_read; intros; inv_ok|].
  intros s b s' (auth & s1 & H1 & H)%bind_ok. apply lift_ok in H1 as [Hg ->].
  revert H. apply check_authority_marks; auto.
Qed.
Lemma owner_of_marks Q n get id :
  closed getter Q → (∀ auth, get id = Ok auth → Q auth) → Marks Q (check_owner_of getter get n id).
Proof.
  intros Hcl HQ s b s' (auth & s1 & H1 & H)%bind_ok. apply lift_ok in H1 as [Hg ->].
  revert H. apply check_authority_marks; auto.
Qed.

Context (typed_getter : ∀ id auth, getter id = Ok auth → unsigned_authority auth).
Lemma checks_authority n auth : unsigned_authority auth → checks (speaks auth) (check_authority ∅ getter n auth).
Proof. intros Ht s b s' Hs H. by eapply check_authority_ok. Qed.
Lemma checks_account n id :
  checks (id ∈ approvals ∨ ∃ auth, getter id = Ok auth ∧ speaks auth) (check_account ∅ getter n id).
Proof.
  intros s b s' Hs (ap & s1 & H1 & H)%bind_ok. unfold is_approved in H1. inv_ok. case_bool_decide as Ha.
  - inv_ok. split; [done|]. intros _. apply Hs in Ha. destruct Ha as [|? auth ks accs]; [by left|right].
    exists auth. split; [done|]. by exists ks, accs.
  - apply bind_ok in H as (auth & s2 & H2 & H). apply lift_ok in H2 as [Hga ->].
    destruct (checks_authority n auth (typed_getter _ _ Hga) _ _ _ Hs H) as [? Hb]. split; [done|]. eauto.
Qed.
Lemma checks_owner_of n (get : authority_getter) id :
  (∀ auth, get id = Ok auth → unsigned_authority auth) →
  checks (∃ auth, get id = Ok auth ∧ speaks auth) (check_owner_of getter get n id).
Proof.
  intros Ht s b s' Hs (auth & s1 & H1 & H)%bind_ok. apply lift_ok in H1 as [Hg ->].
  destruct (checks_authority n auth (Ht _ Hg) _ _ _ Hs H) as [? Hb]. split; [done|]. eauto.
Qed.
End verified.

Section theorems.
Context (get_active get_owner get_posting : authority_getter) (max_recursion : nat).

Definition unsigned_getter (get : authority_getter) : Prop :=
  ∀ id auth, get id = Ok auth → unsigned_authority auth.
Context (Ha : unsigned_getter get_active) (Ho : unsigned_getter get_owner) (Hp : unsigned_getter get_posting).

Lemma verify_posting_ok r sigs given approvals u s' :
  approvals = {["temp"%string]} ∪ given →
  verify_posting get_active get_owner get_posting max_recursion (req_posting r) (start_check sigs given)
    = Ok (u, s') →
  (∀ id, id ∈ req_posting r → id ∈ approvals ∨
     ∃ auth, (get_posting id = Ok auth ∨ get_active id = Ok auth ∨ get_owner id = Ok auth) ∧
       speaks get_posting sigs approvals auth) ∧
  ∀ k, k ∈ sigs → key_of (consulted get_posting (root_authority get_active get_owner get_posting r)) k.
Proof.
  intros Happ H. unfold verify_posting in H. apply bind_ok in H as (v & s1 & H1 & H2). split.
  -
    apply (require_all get_posting sigs approvals) with (X := λ id, id ∈ approvals ∨
      ∃ auth, (get_posting id = Ok auth ∨ get_active id = Ok auth ∨ get_owner id = Ok auth) ∧
        speaks get_posting sigs approvals auth) in H1 as [_ Hid].
    + intros id Hi. apply Hid. by apply in_order_elem.
    + intros id _. eapply checks_mono; [|apply checks_or; [by apply checks_account|apply checks_or;
        [apply checks_owner_of; [exact Hp|apply Ha]|apply checks_owner_of; [exact Hp|apply Ho]]]].
      cbn. naive_solver.
    + by apply start_good.
  - refine (all_used _ _ (start_check sigs given) s1 _ _ _ eq_refl H2). revert H1. apply marks_for_each. intros id Hi%in_order_elem.
    apply require_marks.
    assert (∀ auth, get_posting id = Ok auth ∨ get_active id = Ok auth ∨ get_owner id = Ok auth →
      consulted get_posting (root_authority get_active get_owner get_posting r) auth) as Hroot.
    { intros auth Hau. apply consulted_root. right. left. eauto. }
    apply or_marks; [apply account_marks|apply or_marks; apply owner_of_marks];
      auto using consulted_closed.
Qed.

Lemma verify_active_ok r sigs given owner_approvals approvals u s' :
  approvals = {["temp"%string]} ∪ given →
  (∀ auth, auth ∈ req_other r → unsigned_authority auth) →
  verify_active get_active get_owner max_recursion owner_approvals r (start_check sigs given) = Ok (u, s') →
  (∀ id, id ∈ req_active r → id ∈ approvals ∨
     ∃ auth, (get_active id = Ok auth ∨ get_owner id = Ok auth) ∧ speaks get_active sigs approvals auth) ∧
  (∀ id, id ∈ req_owner r → id ∈ owner_approvals ∨
     ∃ auth, get_owner id = Ok auth ∧ speaks get_active sigs approvals auth) ∧
  (∀ auth, auth ∈ req_other r → speaks get_active sigs approvals auth) ∧
  ∀ k, k ∈ sigs → key_of (consulted get_active (root_authority get_active get_owner get_posting r)) k.
Proof.
  intros Happ Hr H. set (Q := consulted get_active (root_authority get_active get_owner get_posting r)).
  assert (∀ auth, root_authority get_active get_owner get_posting r auth → Q auth) as HQ
    by (intros; by apply consulted_root).
  pose proof (consulted_closed get_active (root_authority get_active get_owner get_posting r)) as Hcl.
  fold Q in Hcl. unfold verify_active in H.
  apply bind_ok in H as (v1 & s1 & H1 & H). apply bind_ok in H as (v2 & s2 & H2 & H).
  apply bind_ok in H as (v3 & s3 & H3 & H).
  assert (marks Q (start_check sigs given) s3) as Hm.
  { apply (marks_trans _ _ s1); [|apply (marks_trans _ _ s2)].
    - revert H1. apply marks_for_each. intros auth Hau. apply require_marks, check_authority_marks; [done|].
      apply HQ. by left.
    - revert H2. apply marks_for_each. intros id Hi%in_order_elem. apply require_marks.
      apply or_marks; [apply account_marks|apply owner_of_marks]; try done;
        intros; apply HQ; right; right; left; eauto.
    - revert H3. apply marks_for_each. intros id Hi%in_order_elem. apply require_marks.
      apply or_marks; [by apply marks_read; intros; inv_ok|apply owner_of_marks]; [done|].
      intros; apply HQ; right; right; right; eauto. }
  apply (require_all get_active sigs approvals) with (X := speaks get_active sigs approvals) in H1
    as [Hs1 Hother]; [|intros auth Hau; apply checks_authority; auto|by apply start_good].
  apply (require_all get_active sigs approvals) with (X := λ id, id ∈ approvals ∨
    ∃ auth, (get_active id = Ok auth ∨ get_owner id = Ok auth) ∧ speaks get_active sigs approvals auth) in H2
    as [Hs2 Hact]; [| |done].
  2: { intros id _. eapply checks_mono; [|apply checks_or; [by apply checks_account|apply checks_owner_of;
         [exact Ha|apply Ho]]]. cbn. naive_solver. }
  apply (require_all get_active sigs approvals) with (X := λ id, id ∈ owner_approvals ∨
    ∃ auth, get_owner id = Ok auth ∧ speaks get_active sigs approvals auth) in H3 as [Hs3 Hown]; [| |done].
  2: { intros id _. apply checks_or; [|apply checks_owner_of; [exact Ha|apply Ho]].
       intros s b s4 Hs E. inv_ok. split; [done|]. by intros ?%bool_decide_eq_true. }
  split_and!.
  - intros id Hi. apply Hact. by apply in_order_elem.
  - intros id Hi. apply Hown. by apply in_order_elem.
  - done.
  - exact (all_used _ _ _ _ _ _ Hm eq_refl H).
Qed.

(** C4: a transaction whose authority is verified speaks for the accounts it acts
    for.  With the keys that signed it, each account whose posting authority an
    operation requires is backed by its posting, active or owner authority; each
    account whose active authority is required, by its active or owner
    authority; each whose owner authority is required, by that; and every other
    required authority is satisfied.  A transaction that needs a posting
    authority needs no other kind, and every signature belongs to a key of an
    authority that was looked at. *)
Theorem verify_authority_sound ops sigs active_approvals owner_approvals posting_approvals :
  let r := get_required_authorities ops in
  (∀ auth, auth ∈ req_other r → unsigned_authority auth) →
  verify_authority get_active get_owner get_posting max_recursion ops sigs
    active_approvals owner_approvals posting_approvals = Ok tt →
  let posting := bool_decide (req_posting r ≠ ∅) in
  let getter := if posting then get_posting else get_active in
  let approvals := {["temp"%string]} ∪
    (if posting then posting_approvals else active_approvals ∪ owner_approvals) in
  let speaks := backed ∅ sigs (vouched ∅ getter sigs approvals) in
  (posting = true → req_active r = ∅ ∧ req_owner r = ∅ ∧ req_other r = []) ∧
  (∀ id, id ∈ req_posting r → id ∈ approvals ∨
     ∃ auth, (get_posting id = Ok auth ∨ get_active id = Ok auth ∨ get_owner id = Ok auth) ∧ speaks auth) ∧
  (∀ id, id ∈ req_active r → id ∈ approvals ∨
     ∃ auth, (get_active id = Ok auth ∨ get_owner id = Ok auth) ∧ speaks auth) ∧
  (∀ id, id ∈ req_owner r → id ∈ owner_approvals ∨ ∃ auth, get_owner id = Ok auth ∧ speaks auth) ∧
  (∀ auth, auth ∈ req_other r → speaks auth) ∧
  ∀ k, k ∈ sigs → key_of (consulted getter (root_authority get_active get_owner get_posting r)) k.
Proof.
  cbn zeta. unfold verify_authority. generalize (get_required_authorities ops). intros r Hr H.
  destruct (0 <? size (req_posting r))%nat eqn:Es.
  - assert (req_posting r ≠ ∅) as Hne by (intros E; rewrite E, size_empty in Es; done).
    apply rbind_ok in H as (u1 & E1%FC_ASSERT_ok & H). apply rbind_ok in H as (u2 & E2%FC_ASSERT_ok & H).
    apply rbind_ok in H as (u3 & E3%FC_ASSERT_ok & H).
    apply Nat.eqb_eq in E1, E2, E3. apply size_empty_inv, leibniz_equiv in E1, E2. apply nil_length_inv in E3.
    apply rbind_ok in H as ([u s'] & H & _).
    apply (verify_posting_ok _ _ _ _ _ _ eq_refl) in H as [Hid Hk].
    rewrite (bool_decide_eq_true_2 _ Hne), E1, E2, E3. split_and!; [done|exact Hid|set_solver..|exact Hk].
  - assert (req_posting r = ∅) as He.
    { apply Nat.ltb_ge in Es. apply leibniz_equiv, size_empty_inv. lia. }
    apply rbind_ok in H as ([u s'] & H & _).
    apply (verify_active_ok _ _ _ _ _ _ _ eq_refl Hr) in H as (Hact & Hown & Hoth & Hk).
    rewrite (bool_decide_eq_false_2 (req_posting r ≠ ∅)) by naive_solver. rewrite He.
    split_and!; [done|set_solver|exact Hact|exact Hown|exact Hoth|exact Hk].
Qed.
End theorems.

(** ** The theorem on an example: a transfer signed with the key of its sender *)
Definition own_key (id : string) : result authority := Ok (Authority 1 [] [(id, 1)]).
Lemma own_key_unsigned : unsigned_getter own_key.
Proof. intros id auth [= <-]. split; intros p; cbn; set_unfold; naive_solver lia. Qed.
Lemma verify_authority_sound_witness :
  ∃ auth, own_key STEEMIT_INIT_MINER_NAME = Ok auth ∧
    backed ∅ {[STEEMIT_INIT_MINER_NAME]} (vouched ∅ own_key {[STEEMIT_INIT_MINER_NAME]} {["temp"%string]}) auth.
Proof.
  destruct (verify_authority_sound own_key own_key own_key 2 own_key_unsigned own_key_unsigned own_key_unsigned
    [small_transfer] {[STEEMIT_INIT_MINER_NAME]} ∅ ∅ ∅) as (_ & _ & Hact & _).
  - cbn. set_solver.
  - vm_compute. reflexivity.
  - destruct (Hact STEEMIT_INIT_MINER_NAME) as [Hin|(auth & [Ha|Ha] & Hs)].
    + vm_compute. reflexivity.
    + exfalso. revert Hin. vm_compute. discriminate.
    + exists auth. split; [exact Ha|]. exact Hs.
    + exists auth. split; [exact Ha|]. exact Hs.
Defined.
