(* ===== verification/Block.v ===== *)
(** * Blocks

    [signed_block] of protocol/block.hpp and the application of a block in
    chain/database.cpp: [apply_block], [_apply_block], [_apply_transaction] and
    the steps of block processing that are not modelled elsewhere.  The flags of
    [skip_steps] are the bits of an integer, as in the source.

    Not modelled: the notifications to plugins, the counters they read
    ([_current_trx_id] and the like), the flush of the shared memory; what
    [update_last_irreversible_block] does to the undo history and the fork
    database is in [Node.v]. *)
From S2P Require Import Prelude Fc Config Asset Chainbase ChainbaseSpec Objects Protocol BlockHeader Database.
From S2P Require Import Supply Votes Ledger Rewards Comments Cashout Genesis Transfers Market Inflation Escrow.
From S2P Require Import EscrowSpec Vesting Frames Proxies Delegations Accounts WitnessSchedule Soundness Hardforks.
From S2P Require Import SignState Mining Operations Transactions.

Record signed_block := SignedBlock {
  sb_header : signed_block_header;
  sb_transactions : list signed_transaction }.

(** ** [skip_steps] *)
Definition skip_nothing : Z := 0.
Definition skip_witness_signature : Z := Z.shiftl 1 0.
Definition skip_transaction_signatures : Z := Z.shiftl 1 1.
Definition skip_transaction_dupe_check : Z := Z.shiftl 1 2.
Definition skip_fork_db : Z := Z.shiftl 1 3.
Definition skip_block_size_check : Z := Z.shiftl 1 4.
Definition skip_tapos_check : Z := Z.shiftl 1 5.
Definition skip_authority_check : Z := Z.shiftl 1 6.
Definition skip_merkle_check : Z := Z.shiftl 1 7.
Definition skip_undo_history_check : Z := Z.shiftl 1 8.
Definition skip_witness_schedule_check : Z := Z.shiftl 1 9.
Definition skip_validate : Z := Z.shiftl 1 10.
Definition skip_validate_invariants : Z := Z.shiftl 1 11.
Definition skip_undo_block : Z := Z.shiftl 1 12.
Definition skip_block_log : Z := Z.shiftl 1 13.
(** [skip & flag] *)
Definition skips (skip flag : Z) : bool := negb (Z.land skip flag =? 0).

(** [get_shared_db_merkle()]: the blocks whose root does not match. *)
Definition shared_db_merkle : list (Z * string) := [
  (3705111, "0a8f0fd5450c3706ec8b8cbad795cd0b3679bf35");
  (3705120, "2027edb72b671f7011c8cc4c7a8b59c39b305093");
  (3713940, "bf8a1d516927c506ebdbb7b38bef2e992435435f");
  (3714132, "e8b77773d268b72c8d650337b8cce360bbe64779");
  (3714567, "45af59a8c2d7d4a606151ef5dae03d2dfe13fbdd");
  (3714588, "e64275443bdc82f104ac936486d367af8f6d1584");
  (4138790, "f65a3a788a2ef52406d8ba5705d7288be228403f");
  (5435426, "0b32538b2d22bd3146d54b6e3cb5ae8b9780e8a5")
]%string.
Definition merkle_exception (n : Z) : option string :=
  snd <$> head (filter (λ p, p.1 = n) shared_db_merkle).

Section block.
Context {F : Fc} {B : Boost} {D : DiffMatchPatch} {K : Crypto} {E : Equihash} {P : Plugins}.

(** ** The merkle root *)

(** One round of the loop: the hashes in pairs; an odd one is kept. *)
Fixpoint hash_pairs (ids : list Z) : list Z :=
  match ids with
  | a :: b :: ids' => sha256_hash (a, b) :: hash_pairs ids'
  | _ => ids
  end.
(** [while( current_number_of_hashes > 1 )] *)
Fixpoint merkle_loop (fuel : nat) (ids : list Z) : list Z :=
  if (1 <? length ids)%nat then
    match fuel with O => ids | S fuel' => merkle_loop fuel' (hash_pairs ids) end
  else ids.
Definition calculate_merkle_root (b : signed_block) : string :=
  let ids := merkle_digest <$> sb_transactions b in
  match merkle_loop (length ids) ids with
  | [] => EmptyString
  | id :: _ => ripemd160_hash id
  end.

(** ** Transactions *)
Definition get_active_of (db : database) : authority_getter := λ name,
  x ← get_authority name db; mret (aa_active x.1).
Definition get_owner_of (db : database) : authority_getter := λ name,
  x ← get_authority name db; mret (aa_owner x.1).
Definition get_posting_of (db : database) : authority_getter := λ name,
  x ← get_authority name db; mret (aa_posting x.1).

(** The check of the authority; a missing active authority is forgiven in the
    blocks of [get_shared_db_merkle]. *)
Definition check_signatures (trx : signed_transaction) : DB unit := λ db,
  match transaction_verify_authority STEEMIT_CHAIN_ID (get_active_of db) (get_owner_of db)
          (get_posting_of db) STEEMIT_MAX_SIG_CHECK_DEPTH trx with
  | Ok _ => Ok (tt, db)
  | Throw tx_missing_active_auth =>
      match merkle_exception (gpo_head_block_number (db_gpo db) + 1) with
      | None => Throw tx_missing_active_auth
      | Some _ => Ok (tt, db)
      end
  | Throw e => Throw e
  end.

Definition summary_at (n : Z) (summaries : gmap Z string) : string :=
  default EmptyString (summaries !! n).
(** TaPoS and the expiration. *)
Definition check_expiration (skip : Z) (trx : transaction) : DB unit :=
  num ← head_block_num;
  when (0 <? num)
    (when (negb (skips skip skip_tapos_check))
       (summaries ← gets (the (A := gmap Z string));
        if tx_ref_block_prefix trx =? hash_word (summary_at (tx_ref_block_num trx) summaries) 1
        then mret tt else throw transaction_tapos_exception);;
     now ← head_block_time;
     (if tx_expiration trx <=? time_add now STEEMIT_MAX_TIME_UNTIL_EXPIRATION
      then mret tt else throw transaction_expiration_exception);;
     hf9 ← has_hardfork 9;
     (if (hf9 : bool) then
        if now <? tx_expiration trx then mret tt else throw transaction_expiration_exception
      else mret tt);;
     if now <=? tx_expiration trx then mret tt else throw transaction_expiration_exception).

Definition transaction_by_id (id : string) (t : transaction_object) : bool := bool_decide (trx_trx_id t = id).
Definition is_known_transaction (id : string) : DB bool :=
  t ← find_by (transaction_by_id id);
  mret (match t with Some _ => true | None => false end).

Definition _apply_transaction (skip : Z) (trx : signed_transaction) : DB unit :=
  let t := st_trx trx in
  (if skips skip skip_validate then mret tt else lift (transaction_validate t));;
  let id := transaction_id t in
  (if skips skip skip_transaction_dupe_check then mret tt
   else known ← is_known_transaction id;
        assert (negb known) "Duplicate transaction check failed");;
  (if skips skip (Z.lor skip_transaction_signatures skip_authority_check) then mret tt
   else check_signatures trx);;
  check_expiration skip t;;
  (if skips skip skip_transaction_dupe_check then mret tt
   else create transaction_object_default (λ o,
          set_trx_packed_trx (raw_pack trx) (set_trx_expiration (tx_expiration t) (set_trx_trx_id id o)));;
        mret tt);;
  for_each (tx_operations t) apply_operation.

(** ** The header *)
Definition validate_block_header (skip : Z) (next_block : signed_block) : DB Z :=
  let h := sbh_header (sb_header next_block) in
  gpo ← get_dynamic_global_properties;
  assert (bool_decide (gpo_head_block_id gpo = bh_previous h)) "head_block_id() == next_block.previous";;
  assert (gpo_time gpo <? bh_timestamp h) "head_block_time() < next_block.timestamp";;
  witness ← get_witness (bh_witness h);
  (if skips skip skip_witness_signature then mret tt
   else ok ← lift (validate_signee (sb_header next_block) (wit_signing_key witness));
        assert ok "next_block.validate_signee( witness.signing_key )");;
  (if skips skip skip_witness_schedule_check then mret tt
   else slot_num ← gets (get_slot_at_time (bh_timestamp h));
        assert (0 <? slot_num) "slot_num > 0";;
        scheduled ← gets (get_scheduled_witness slot_num);
        scheduled_witness ← lift scheduled;
        assert (bool_decide (wit_owner witness = scheduled_witness)) "Witness produced block at wrong time");;
  mret (wit_id witness).

Definition process_header_extension (witness : string) (e : block_header_extension) : DB unit :=
  match e with
  | ext_void => mret tt
  | ext_version reported_version =>
      signing_witness ← get_witness witness;
      when (negb (reported_version =? wit_running_version signing_witness))
        (modify (wit_id signing_witness) (λ wo, mret (set_wit_running_version reported_version wo)))
  | ext_hardfork_version_vote hf_version hf_time =>
      signing_witness ← get_witness witness;
      when (negb (hf_version =? wit_hardfork_version_vote signing_witness)
            || negb (hf_time =? wit_hardfork_time_vote signing_witness))
        (modify (wit_id signing_witness) (λ wo, mret
           (set_wit_hardfork_time_vote hf_time (set_wit_hardfork_version_vote hf_version wo))))
  end.
Definition process_header_extensions (next_block : signed_block) : DB unit :=
  let h := sbh_header (sb_header next_block) in
  for_each (bh_extensions h) (process_header_extension (bh_witness h)).

(** ** The steps after the transactions *)

(** One of the slots without a block since the head block. *)
Definition count_missed (producer : string) (i : nat) : DB unit :=
  scheduled ← gets (get_scheduled_witness (Z.of_nat i + 1));
  name ← lift scheduled;
  witness_missed ← get_witness name;
  when (negb (bool_decide (wit_owner witness_missed = producer)))
    (hf14 ← has_hardfork 14;
     num ← head_block_num;
     let shut := (hf14 : bool) && (STEEMIT_BLOCKS_PER_DAY <?
                   to_uint64 (num - wit_last_confirmed_block_num witness_missed)) in
     modify (wit_id witness_missed) (λ w,
       let w := set_wit_total_missed (to_uint32 (wit_total_missed w + 1)) w in
       mret (if shut then set_wit_signing_key EmptyString w else w));;
     when shut (push_virtual_operation (shutdown_witness_operation (wit_owner witness_missed)))).

(** One slot in the record of the last 128. *)
Definition fill_slot (g : dynamic_global_property_object) (i : nat) : dynamic_global_property_object :=
  let filled := match i with O => 1 | S _ => 0 end in
  let lost := if Z.land (u128_hi (gpo_recent_slots_filled g)) 9223372036854775808 =? 0 then 0 else 1 in
  set_gpo_participation_count
    (to_uint8 (to_uint8 (gpo_participation_count g - lost) + filled))
    (set_gpo_recent_slots_filled
       (u128_add (u128_shl (gpo_recent_slots_filled g) 1) (u128_of_int64 filled)) g).

(** The counter is a 32-bit integer; where the library's [assert] is compiled
    out, as in a release build, the slot 0 makes it wrap around. *)
Definition missed_blocks_before (b : signed_block) : DB nat :=
  now ← head_block_time;
  if now =? 0 then mret 0%nat
  else
    n ← gets (get_slot_at_time (bh_timestamp (sbh_header (sb_header b))));
    mret (Z.to_nat (to_uint32 (n - 1))).

Definition update_global_dynamic_data (skip : Z) (b : signed_block) : DB unit :=
  let h := sbh_header (sb_header b) in
  missed_blocks ← missed_blocks_before b;
  for_each (seq 0 missed_blocks) (count_missed (bh_witness h));;
  let slots := to_uint32 (Z.of_nat missed_blocks + 1) in
  modify_gpo (λ dgp,
    let dgp := foldl fill_slot dgp (seq 0 (Z.to_nat slots)) in
    mret (set_gpo_current_aslot (to_uint64 (gpo_current_aslot dgp + slots))
           (set_gpo_time (bh_timestamp h)
             (set_gpo_head_block_id (header_id (sb_header b))
               (set_gpo_head_block_number (block_num h) dgp)))));;
  if skips skip skip_undo_history_check then mret tt
  else
    dgp ← get_dynamic_global_properties;
    if to_uint32 (gpo_head_block_number dgp - gpo_last_irreversible_block_num dgp) <? STEEMIT_MAX_UNDO_HISTORY
    then mret tt else throw undo_database_exception.

Definition update_signing_witness (signing_witness : Z) (new_block : signed_block) : DB unit :=
  let h := sbh_header (sb_header new_block) in
  dpo ← get_dynamic_global_properties;
  slot ← gets (get_slot_at_time (bh_timestamp h));
  modify signing_witness (λ w : witness_object, mret
    (set_wit_last_confirmed_block_num (block_num h)
      (set_wit_last_aslot (to_uint64 (gpo_current_aslot dpo + slot)) w))).

(** [wit_objs[offset]] after [std::nth_element]. *)
Definition irreversible_offset (n : nat) : nat :=
  Z.to_nat ((STEEMIT_100_PERCENT - STEEMIT_IRREVERSIBLE_THRESHOLD) * Z.of_nat n / STEEMIT_100_PERCENT).
Definition nth_confirmed (wit_objs : list witness_object) : result Z :=
  match sort_by (λ a b, wit_last_confirmed_block_num a <=? wit_last_confirmed_block_num b) wit_objs
          !! irreversible_offset (length wit_objs) with
  | Some w => Ok (to_uint32 (wit_last_confirmed_block_num w))
  | None => Throw out_of_range
  end.
Definition update_last_irreversible_block : DB unit :=
  num ← head_block_num;
  if num <? STEEMIT_START_MINER_VOTING_BLOCK then
    modify_gpo (λ dpo, mret
      (if STEEMIT_MAX_WITNESSES <? num
       then set_gpo_last_irreversible_block_num (num - STEEMIT_MAX_WITNESSES) dpo else dpo))
  else
    wit_objs ← scheduled_witnesses;
    new_last_irreversible_block_num ← lift (nth_confirmed wit_objs);
    dpo ← get_dynamic_global_properties;
    when (gpo_last_irreversible_block_num dpo <? new_last_irreversible_block_num)
      (modify_gpo (λ dpo, mret (set_gpo_last_irreversible_block_num new_last_irreversible_block_num dpo))).

Definition create_block_summary (next_block : signed_block) : DB unit :=
  let sid := Z.land (block_num (sbh_header (sb_header next_block))) 65535 in
  modify_the (λ summaries : gmap Z string, mret (<[sid := header_id (sb_header next_block)]> summaries)).

Definition clear_expired_transactions : DB unit :=
  now ← head_block_time;
  dedupe_index ← gets (select (λ t, trx_expiration t <? now) (λ x y, trx_expiration x <=? trx_expiration y));
  for_each dedupe_index (λ t, remove transaction_object (trx_id t)).

(** *** The median of the price feeds *)
Definition price_leb (x y : price) : bool := negb (price_lt y x).
Definition usable_feed (now : Z) (hf19 : bool) (w : witness_object) : bool :=
  (if hf19 then now <? time_add (wit_last_sbd_exchange_update w) STEEMIT_MAX_FEED_AGE_SECONDS
   else wit_last_sbd_exchange_update w <? time_add now STEEMIT_MAX_FEED_AGE_SECONDS)
  && negb (price_is_null (wit_sbd_exchange_rate w)).
(** The new history and its median, not below a tenth of the market. *)
Definition record_feed (median_feed : price) (window : nat) (hf14 : bool) (gpo : dynamic_global_property_object)
    (fho : list price * price) : result (list price * price) :=
  let history := fho.1 ++ [median_feed] in
  let history := if (window <? length history)%nat then drop 1 history else history in
  if (length history =? 0)%nat then mret (history, fho.2)
  else
    m ← median price_leb history;
    if hf14 then
      x ← safe_mul 9 (amount (gpo_current_sbd_supply gpo));
      let min_price := Price (Asset x SBD_SYMBOL) (gpo_current_supply gpo) in
      mret (history, if price_gt min_price m then min_price else m)
    else mret (history, m).
Definition update_median_feed : DB unit :=
  num ← head_block_num;
  if negb (num mod STEEMIT_FEED_INTERVAL_BLOCKS =? 0) then mret tt
  else
    now ← head_block_time;
    hf19 ← has_hardfork 19;
    ws ← scheduled_witnesses;
    let feeds := wit_sbd_exchange_rate <$> filter (λ w, usable_feed now hf19 w = true) ws in
    if STEEMIT_MIN_FEEDS <=? Z.of_nat (length feeds) then
      median_feed ← lift (median price_leb feeds);
      hf16 ← has_hardfork 16;
      hf14 ← has_hardfork 14;
      gpo ← get_dynamic_global_properties;
      let window := Z.to_nat (if (hf16 : bool) then STEEMIT_FEED_HISTORY_WINDOW
                              else STEEMIT_FEED_HISTORY_WINDOW_PRE_HF_16) in
      modify_the (record_feed median_feed window hf14 gpo)
    else mret tt.

(** ** [_apply_block] *)
Definition check_merkle_root (skip : Z) (next_block : signed_block) : result unit :=
  if skips skip skip_merkle_check then mret tt
  else
    let h := sbh_header (sb_header next_block) in
    let merkle_root := calculate_merkle_root next_block in
    if bool_decide (bh_transaction_merkle_root h = merkle_root) then mret tt
    else
      match merkle_exception (block_num h) with
      | Some hex => FC_ASSERT (bool_decide (checksum_of_hex hex = merkle_root)) "Merkle check failed"
      | None => FC_ASSERT false "Merkle check failed"
      end.

(** The header and the transactions: the witness that signed. *)
Definition apply_transactions (skip : Z) (next_block : signed_block) : DB Z :=
  let h := sbh_header (sb_header next_block) in
  lift (check_merkle_root skip next_block);;
  signing_witness ← validate_block_header skip next_block;
  gprops ← get_dynamic_global_properties;
  hf12 ← has_hardfork 12;
  (if (hf12 : bool)
   then assert (pack_size next_block <=? gpo_maximum_block_size gprops) "Block Size is too Big"
   else mret tt);;
  modify_gpo (λ dgp, mret (set_gpo_current_witness (bh_witness h) dgp));;
  process_header_extensions next_block;;
  hf5 ← has_hardfork 5;
  (if (hf5 : bool) then
     witness ← get_witness (bh_witness h);
     hardfork_state ← get_hardfork_property_object;
     assert (hpo_current_hardfork_version hardfork_state <=? wit_running_version witness)
       "Block produced by witness that is not running current hardfork"
   else mret tt);;
  for_each (sb_transactions next_block) (_apply_transaction skip);;
  mret signing_witness.

(** The steps up to the choice of the last irreversible block. *)
Definition begin_block (skip : Z) (next_block : signed_block) : DB unit :=
  signing_witness ← apply_transactions skip next_block;
  update_global_dynamic_data skip next_block;;
  update_signing_witness signing_witness next_block;;
  update_last_irreversible_block.
(** The steps until the null account is emptied. *)
Definition settle_block (next_block : signed_block) : DB unit :=
  create_block_summary next_block;;
  clear_expired_transactions;;
  clear_expired_orders;;
  clear_expired_delegations;;
  update_witness_schedule;;
  update_median_feed;;
  update_virtual_supply.
Definition open_block (skip : Z) (next_block : signed_block) : DB unit :=
  begin_block skip next_block;; settle_block next_block.
(** The steps after it. *)
Definition close_block : DB unit :=
  process_funds;;
  process_conversions;;
  process_comment_cashout;;
  process_vesting_withdrawals;;
  process_savings_withdraws;;
  pay_liquidity_reward;;
  update_virtual_supply;;
  account_recovery_processing;;
  expire_escrow_ratification;;
  process_decline_voting_rights;;
  process_hardforks.
Definition _apply_block (skip : Z) (next_block : signed_block) : DB unit :=
  open_block skip next_block;;
  clear_null_account_balance;;
  close_block.

(** [apply_block]: blocks up to the last checkpoint must match the checkpoints
    and are checked less. *)
Definition last_checkpoint (checkpoints : gmap Z string) : option (Z * string) :=
  last (sort_by (λ x y, x.1 <=? y.1) (map_to_list checkpoints)).
Definition checkpoint_skip : Z :=
  foldl Z.lor 0 [skip_witness_signature; skip_transaction_signatures; skip_transaction_dupe_check;
    skip_fork_db; skip_block_size_check; skip_tapos_check; skip_authority_check; skip_undo_history_check;
    skip_witness_schedule_check; skip_validate; skip_validate_invariants].
Definition checkpoint_flags (checkpoints : gmap Z string) (skip : Z) (next_block : signed_block) : result Z :=
  let num := block_num (sbh_header (sb_header next_block)) in
  match last_checkpoint checkpoints with
  | Some (last_num, last_id) =>
      if bool_decide (last_id = EmptyString) then mret skip
      else
        (match checkpoints !! num with
         | Some id => FC_ASSERT (bool_decide (header_id (sb_header next_block) = id)) "Block did not match checkpoint"
         | None => mret tt
         end);;
        mret (if num <=? last_num then checkpoint_skip else skip)
  | None => mret skip
  end.
Definition apply_block (checkpoints : gmap Z string) (skip : Z) (next_block : signed_block) : DB unit :=
  skip ← lift (checkpoint_flags checkpoints skip next_block);
  _apply_block skip next_block.
End block.
