(* ===== verification/BlockSafety.v ===== *)
(** * What a block keeps

    A block that applies keeps the invariant of the chain and the supply
    equations; the header of an applied block is the next one, signed by the
    scheduled witness; irreversible blocks are confirmed by three quarters of the
    witnesses; the record of the last slots agrees with the participation. *)
From S2P Require Import Prelude Fc Config Asset Chainbase ChainbaseSpec Objects Protocol BlockHeader Database.
From S2P Require Import Supply Votes Ledger Rewards Comments Cashout Genesis Transfers Market Inflation Escrow.
From S2P Require Import EscrowSpec Vesting Frames Proxies Delegations Accounts WitnessSchedule Soundness Hardforks.
From S2P Require Import SignState Mining Operations Transactions Block.

Section steps.
Context {F : Fc} {B : Boost} {D : DiffMatchPatch} {K : Crypto} {E : Equihash} {P : Plugins}.

(** A change of global properties that the equations do not read. *)
Lemma modify_gpo_sound f :
  (∀ g g' k, f g = Ok g' → declared k g' = declared k g) → Sound (modify_gpo f).
Proof.
  intros Hf. apply sound_frame; [|link|keep]. intros db u db' Hdb H. shift_all. split; [done|].
  intros k. at_kind k. rewrite HI, (Hf _ _ k Hf0). lia.
Qed.
Lemma fill_slots_declared k l g : declared k (foldl fill_slot g l) = declared k g.
Proof. revert g. induction l as [|i l IH]; intros g; [done|]. cbn [foldl]. rewrite IH. by destruct k. Qed.

#[export] Instance process_header_extensions_sound b : Sound (process_header_extensions b).
Proof. unfold process_header_extensions, process_header_extension. apply sound_for_each. sound. Qed.
#[export] Instance count_missed_sound n i : Sound (count_missed n i).
Proof. unfold count_missed. sound. Qed.
#[export] Instance update_global_dynamic_data_sound skip b : Sound (update_global_dynamic_data skip b).
Proof.
  unfold update_global_dynamic_data, missed_blocks_before. sound.
  - apply sound_for_each. apply _.
  - apply modify_gpo_sound. intros g g' k [= <-]. rewrite <- (fill_slots_declared k (seq 0 (Z.to_nat (to_uint32 (Z.of_nat a + 1)))) g). by destruct k.
Qed.
#[export] Instance update_signing_witness_sound w b : Sound (update_signing_witness w b).
Proof. unfold update_signing_witness. sound. Qed.
#[export] Instance update_last_irreversible_block_sound : Sound update_last_irreversible_block.
Proof.
  unfold update_last_irreversible_block. sound.
  - apply modify_gpo_sound. intros g g' k [= <-]. destruct (STEEMIT_MAX_WITNESSES <? _); by destruct k.
  - unfold when. case_match; [|sound]. apply modify_gpo_sound. intros g g' k [= <-]. by destruct k.
Qed.
#[export] Instance create_block_summary_sound b : Sound (create_block_summary b).
Proof. unfold create_block_summary. sound. Qed.
#[export] Instance clear_expired_transactions_sound : Sound clear_expired_transactions.
Proof. unfold clear_expired_transactions. sound. Qed.
#[export] Instance update_median_feed_sound : Sound update_median_feed.
Proof. unfold update_median_feed. sound. Qed.
#[export] Instance update_virtual_supply_sound : Sound update_virtual_supply.
Proof. apply sound_frame; [apply _|..]; unfold update_virtual_supply; [link|keep]. Qed.
#[export] Instance validate_block_header_sound skip b : Sound (validate_block_header skip b).
Proof. unfold validate_block_header. sound. Qed.
End steps.

(** ** Transactions *)
Section transactions.
Context {F : Fc} {B : Boost} {D : DiffMatchPatch} {K : Crypto} {E : Equihash} {P : Plugins} {PL : PluginLaws}.

Lemma sound_for_each_in {A} (l : list A) (f : A → DB unit) :
  (∀ x, x ∈ l → Sound (f x)) → Sound (for_each l f).
Proof.
  induction l as [|x l IH]; intros Hf; cbn [for_each]; [sound|].
  apply sound_bind; [apply Hf; left|]. intros _. apply IH. intros y Hy. apply Hf. by right.
Qed.
Lemma validated_operation trx op :
  transaction_validate trx = Ok tt → op ∈ tx_operations trx → operation_validate op = Ok tt.
Proof.
  intros (u & _ & H)%rbind_ok. revert H. generalize tt at 1. induction (tx_operations trx) as [|x l IH];
    intros v H Hin; [set_solver|]. cbn [rfoldl] in H. case_match eqn:Ex; [|done]. destruct a.
  apply elem_of_cons in Hin as [->|Hin]; [done|]. by eapply IH.
Qed.

(** A transaction whose operations the model covers: the amounts are 64-bit
    integers. *)
Definition typed_transaction (trx : signed_transaction) : bool := forallb typed (tx_operations (st_trx trx)).

Lemma check_signatures_reads trx db u db' : check_signatures trx db = Ok (u, db') → db' = db.
Proof. unfold check_signatures. intros H. repeat case_match; try done; by injection H. Qed.
#[export] Instance check_signatures_sound trx : Sound (check_signatures trx).
Proof. apply read_sound, check_signatures_reads. Qed.
#[export] Instance check_expiration_sound skip trx : Sound (check_expiration skip trx).
Proof. unfold check_expiration. sound. Qed.
Lemma apply_transaction_sound skip trx :
  skips skip skip_validate = false → typed_transaction trx = true → Sound (_apply_transaction skip trx).
Proof.
  intros Hs Ht db u db' Hdb H. unfold _apply_transaction in H. rewrite Hs in H.
  apply bind_ok in H as (v & s & H1 & H). apply lift_ok in H1 as [Hv ->].
  assert (∀ op, op ∈ tx_operations (st_trx trx) → Sound (apply_operation op)) as Hops.
  { intros op Hop. apply operation_sound; [destruct v; by eapply validated_operation|].
    eapply forallb_forall in Ht; [exact Ht|]. by apply list_elem_of_In. }
  match type of H with ?m db = _ => refine ((_ : Sound m) db u db' Hdb H) end.
  clear H. unfold is_known_transaction. sound. by apply sound_for_each_in.
Qed.
End transactions.

(** ** The null account *)
Section null_account.
Context {F : Fc}.

Lemma drain_imb null field (adjust : Z → asset → DB unit) total db total' db' :
  (∀ a d, Shifts (adjust a d) (λ k, - by_symbol k d)) → db_wf db →
  drain null field adjust total db = Ok (total', db') →
  db_wf db' ∧ symbol total' = symbol total ∧ amount total ≤ amount total' ∧
  ∀ k, imb k db' = imb k db + by_symbol k total' - by_symbol k total.
Proof.
  intros Ha Hdb H. unfold drain in H. inv_db. destruct (0 <? amount (field _)) eqn:Hpos; inv_db.
  - inv_asset. subst. shift_all. split_and!; [done..|cbn; lia|]. intros k. at_kind k. rewrite HI. unfold by_symbol. cbn.
    match goal with H : symbol total = _ |- _ => rewrite <- H end. destruct k; repeat case_match; lia.
  - split_and!; [done..|]. intros k. lia.
Qed.

(** The null account at [null] votes itself. *)
Definition votes_itself (null : Z) (db : database) : Prop :=
  ∀ a, trows db !! null = Some a → acc_proxy a = STEEMIT_PROXY_TO_SELF_ACCOUNT.
Lemma votes_itself_links {A} (m : DB A) null db a db' :
  KeepsLinks m → db_wf db → m db = Ok (a, db') → votes_itself null db → votes_itself null db'.
Proof.
  intros Hl Hdb H Hv x Hx. destruct (Hl _ _ _ (wf_account_ids _ Hdb) H) as [_ E].
  assert (links db !! null = Some (link_of x)) as Hn.
  { rewrite <- E. unfold links. by rewrite lookup_fmap, Hx. }
  unfold links in Hn. apply lookup_fmap_Some in Hn as (y & Ey & Hy). rewrite <- (Hv y Hy).
  by injection Ey.
Qed.

Lemma drain_vesting_imb null total db total' db' :
  db_wf db → votes_itself null db → symbol total = STEEM_SYMBOL →
  drain_vesting null total db = Ok (total', db') →
  db_wf db' ∧ symbol total' = STEEM_SYMBOL ∧
  ∀ k, imb k db' = imb k db + by_symbol k total' - by_symbol k total.
Proof.
  intros Hdb Hv Hsym H. unfold drain_vesting in H. inv_db.
  match goal with H : (if ?c then _ else _) _ = _ |- _ => destruct c; inv_db end.
  2: { split_and!; [done..|]. intros k. lia. }
  match goal with H : trows db !! null = Some ?x |- _ => pose proof (Hv x H) as Hproxy end.
  match goal with Hg : modify_gpo _ db = Ok (_, ?s1), Ha : trows db !! null = Some ?x |- _ =>
    assert (trows s1 !! null = Some x) as Hrow by (apply modify_gpo_ok in Hg as (g & _ & ->); exact Ha) end.
  shift_all. inv_ok. inv_asset. subst. split_and!; [done..|]. intros k. at_kind k.
  assert (x = a) as -> by congruence. rewrite HI0, HI. rewrite !by_symbol_steem by done.
  destruct k; cbn -[by_symbol Z.add Z.sub]; try lia.
  unfold vsf. cbn. rewrite Hproxy, bool_decide_eq_true_2 by done. lia.
Qed.

Lemma drain_reward_vesting_imb null total db total' db' :
  db_wf db → symbol total = STEEM_SYMBOL → drain_reward_vesting null total db = Ok (total', db') →
  db_wf db' ∧ symbol total' = STEEM_SYMBOL ∧
  ∀ k, imb k db' = imb k db + by_symbol k total' - by_symbol k total.
Proof.
  intros Hdb Hsym H. unfold drain_reward_vesting in H. inv_db.
  match goal with H : (if ?c then _ else _) _ = _ |- _ => destruct c; inv_db end.
  2: { split_and!; [done..|]. intros k. lia. }
  match goal with Hg : modify_gpo _ db = Ok (_, ?s1), Ha : trows db !! null = Some ?x |- _ =>
    assert (trows s1 !! null = Some x) as Hrow by (apply modify_gpo_ok in Hg as (g & _ & ->); exact Ha) end.
  shift_all. inv_ok. inv_asset. subst. split_and!; [done..|]. intros k. at_kind k.
  assert (x = a) as -> by congruence. rewrite HI0, HI. rewrite !by_symbol_steem by done.
  destruct k; cbn -[vsf by_symbol Z.add Z.sub]; fold_vsf; lia.
Qed.

#[local] Instance drain_links null field (adjust : Z → asset → DB unit) total :
  (∀ a d, KeepsLinks (adjust a d)) → KeepsLinks (drain null field adjust total).
Proof. intros Ha. unfold drain. link. Qed.
#[local] Instance drain_bonds null field (adjust : Z → asset → DB unit) total :
  (∀ a d, Keeps bonds (adjust a d)) → Keeps bonds (drain null field adjust total).
Proof. intros Ha. unfold drain. keep. Qed.
#[local] Instance drain_vesting_links null total : KeepsLinks (drain_vesting null total).
Proof. unfold drain_vesting. link. Qed.
#[local] Instance drain_reward_vesting_links null total : KeepsLinks (drain_reward_vesting null total).
Proof. unfold drain_reward_vesting. link. Qed.
#[local] Instance clear_null_links : KeepsLinks clear_null_account_balance.
Proof. unfold clear_null_account_balance, empty_null_account. link. Qed.
#[local] Instance clear_null_bonds : Keeps bonds clear_null_account_balance.
Proof.
  unfold clear_null_account_balance, empty_null_account, drain_vesting, drain_reward_vesting. keep.
Qed.

(** A step of [empty_null_account]. *)
Ltac drained Hdb Hv H :=
  let Hdb' := fresh "Hdb" in let Hv' := fresh "Hv" in
  let Hs := fresh "Hs" in let Hle := fresh "Hle" in let HI := fresh "HI" in
  pose proof (votes_itself_links _ _ _ _ _ _ Hdb H Hv) as Hv'; clear Hv;
  apply drain_imb in H as (Hdb' & Hs & Hle & HI); [|apply _|exact Hdb]; clear Hdb;
  rename Hdb' into Hdb; rename Hv' into Hv.
Lemma empty_null_imb null db total db' :
  db_wf db → votes_itself null db → empty_null_account null db = Ok (total, db') →
  db_wf db' ∧ symbol total.1 = STEEM_SYMBOL ∧ symbol total.2 = SBD_SYMBOL ∧ 0 ≤ amount total.2 ∧
  ∀ k, imb k db' = imb k db + by_symbol k total.1 + by_symbol k total.2.
Proof.
  intros Hdb Hv H. unfold empty_null_account in H.
  apply bind_ok in H as (t1 & s1 & H1 & H). apply bind_ok in H as (t2 & s2 & H2 & H).
  apply bind_ok in H as (d1 & s3 & H3 & H). apply bind_ok in H as (d2 & s4 & H4 & H).
  apply bind_ok in H as (t3 & s5 & H5 & H). apply bind_ok in H as (t4 & s6 & H6 & H).
  apply bind_ok in H as (d3 & s7 & H7 & H). apply bind_ok in H as (t5 & s8 & H8 & H). inv_ok.
  drained Hdb Hv H1. drained Hdb Hv H2. drained Hdb Hv H3. drained Hdb Hv H4. cbn [symbol amount] in *.
  apply drain_vesting_imb in H5 as (Hdb5 & Hs5 & HI5); [|done|done|congruence].
  apply drain_imb in H6 as (Hdb6 & Hs6 & _ & HI6); [|apply _|done].
  apply drain_imb in H7 as (Hdb7 & Hs7 & Hle7 & HI7); [|apply _|done].
  apply drain_reward_vesting_imb in H8 as (Hdb8 & Hs8 & HI8); [|done|congruence].
  cbn [fst snd]. split_and!; [done|done|congruence|lia|]. intros k. at_kind k.
  assert (by_symbol k (Asset 0 STEEM_SYMBOL) = 0 ∧ by_symbol k (Asset 0 SBD_SYMBOL) = 0) as [E1 E2] by by destruct k.
  lia.
Qed.

(** The null account has no proxy, and what is burnt with it is not a negative
    amount, as it would be if the conversion of its shares overflowed. *)
Definition null_sane (db : database) : Prop :=
  14 < db_processed_hardforks db → ∀ a, find_row (by_name STEEMIT_NULL_ACCOUNT) db = Some a →
  acc_proxy a = STEEMIT_PROXY_TO_SELF_ACCOUNT ∧
  ∀ total db', empty_null_account (acc_id a) db = Ok (total, db') → 0 ≤ amount total.1.

Lemma clear_null_account_sound db u db' :
  chain_inv db → null_sane db → clear_null_account_balance db = Ok (u, db') →
  chain_inv db' ∧ ∀ k, imb k db' = imb k db.
Proof.
  intros Hinv Hn H. cut (db_wf db' ∧ ∀ k, imb k db' = imb k db).
  { intros [Hwf HI]. split; [|done]. exact (frame_inv clear_null_account_balance _ _ _ _ _ Hinv Hwf H). }
  pose proof (inv_wf _ Hinv) as Hdb. unfold clear_null_account_balance in H.
  apply bind_ok in H as (hf & s & Hhf & H). unfold has_hardfork in Hhf. inv_ok.
  assert (∀ k t, 0 ≤ amount t → (0 <? amount t) = false → by_symbol k t = 0) as Hz.
  { intros k t Ht1 Ht2. unfold by_symbol. destruct k; repeat case_match; lia. }
  destruct (14 <? db_processed_hardforks db) eqn:E14; cbn [negb] in H; [|by inv_ok]. inv_db.
  all: match goal with H : find_row _ _ = Some ?a |- _ => destruct (Hn ltac:(lia) a H) as [Hp Hst];
    apply (find_row_at _ _ _ Hdb) in H as [Hrow _] end.
  all: match goal with H : empty_null_account _ _ = _ |- _ => pose proof (Hst _ _ H);
    apply empty_null_imb in H as (Hdb1 & Hs1 & Hs2 & Hle & HI);
    [|done|intros x Hx; cbn in Hrow; rewrite Hrow in Hx; by injection Hx as <-] end.
  all: inv_asset; subst; shift_all; split; [done|]; intros k; at_kind k; rewrite ?by_symbol_neg in *.
  all: pose proof (Hz k (a0.1)); pose proof (Hz k (a0.2)).
  all: repeat match goal with Hp : ?P → _ |- _ => specialize (Hp ltac:(done)) end; lia.
Qed.
End null_account.

(** ** A block *)
Section block.
Context {F : Fc} {B : Boost} {D : DiffMatchPatch} {K : Crypto} {E : Equihash} {P : Plugins} {PL : PluginLaws}.

Lemma open_block_sound skip b :
  skips skip skip_validate = false → forallb typed_transaction (sb_transactions b) = true → Sound (open_block skip b).
Proof.
  intros Hs Ht. unfold open_block, begin_block, settle_block, apply_transactions. sound.
  - apply modify_gpo_sound. intros g g' k [= <-]. by destruct k.
  - apply sound_for_each_in. intros t Hin. apply apply_transaction_sound; [done|].
    eapply forallb_forall in Ht; [exact Ht|]. by apply list_elem_of_In.
Qed.

#[export] Instance close_block_safe : Safe close_block.
Proof. unfold close_block. repeat (apply safe_bind; [apply sound_safe; apply _|intros _]). apply _. Qed.
End block.

Section theorems.
Context {F : Fc} {B : Boost} {D : DiffMatchPatch} {K : Crypto} {E : Equihash} {P : Plugins} {PL : PluginLaws}.

(** C2: a block of valid transactions that applies keeps the invariant of the
    chain and leaves all supply equations balanced: its header, transactions,
    the emptying of the null account, inflation, conversions, cashouts,
    withdrawals, the recovery and escrow deadlines and the hardforks together
    create and destroy nothing that the totals do not declare.  What is asked of
    the null account, when it is emptied, is that it votes for itself and that
    its shares convert to no negative amount. *)
Theorem apply_block_safe skip b db db' :
  chain_inv db → balanced db →
  skips skip skip_validate = false → forallb typed_transaction (sb_transactions b) = true →
  (∀ s, open_block skip b db = Ok (tt, s) → null_sane s) →
  _apply_block skip b db = Ok (tt, db') → chain_inv db' ∧ balanced db'.
Proof.
  intros Hinv Hbal Hs Ht Hn H. unfold _apply_block in H.
  apply bind_ok in H as ([] & s1 & H1 & H). apply bind_ok in H as ([] & s2 & H2 & H).
  destruct (sound_safe _ (open_block_sound skip b Hs Ht) _ _ _ Hinv Hbal H1) as [Hinv1 Hbal1].
  destruct (clear_null_account_sound _ _ _ Hinv1 (Hn _ H1) H2) as [Hinv2 HI].
  apply (close_block_safe s2 tt db'); [done| |exact H]. intros k. rewrite HI. apply Hbal1.
Qed.
End theorems.

#[local] Existing Instance fc_model.
#[local] Existing Instances boost_model no_patches crypto_model no_mining no_plugins no_plugins_laws.

(** The first block after genesis, with a transfer that its sender signed. *)
Definition first_block : signed_block :=
  let trx := Transaction 0 0 (STEEMIT_GENESIS_TIME + 60) [small_transfer] [] in
  SignedBlock
    (sign_header STEEMIT_INIT_PUBLIC_KEY
       (BlockHeader EmptyString (STEEMIT_GENESIS_TIME + 3) STEEMIT_INIT_MINER_NAME EmptyString []))
    [SignedTransaction trx [STEEMIT_INIT_PUBLIC_KEY]].
Definition state_of {A} (r : result (A * database)) : database :=
  match r with Ok (_, db) => db | Throw _ => empty_database end.
Definition after_first_block : database := state_of (_apply_block skip_nothing first_block (genesis 1000)).
Lemma first_block_run : _apply_block skip_nothing first_block (genesis 1000) = Ok (tt, after_first_block).
Proof.
  unfold after_first_block. destruct (_apply_block skip_nothing first_block (genesis 1000)) as [[[] db]|e] eqn:H; [done|].
  exfalso. cut (is_ok (_apply_block skip_nothing first_block (genesis 1000)) = true); [by rewrite H|].
  vm_compute. reflexivity.
Qed.
Lemma apply_block_safe_witness : chain_inv after_first_block ∧ balanced after_first_block.
Proof.
  apply (apply_block_safe skip_nothing first_block (genesis 1000)).
  - apply genesis_inv.
  - apply genesis_run.
  - vm_compute. reflexivity.
  - vm_compute. reflexivity.
  - intros s H. replace s with (state_of (open_block skip_nothing first_block (genesis 1000))) by by rewrite H.
    intros Hhf. exfalso. revert Hhf. vm_compute. done.
  - exact first_block_run.
Defined.
