(* ===== verification/AccountNames.v ===== *)
(** * The names of accounts

    Accounts are created with names that [is_valid_account_name] accepts and never
    renamed: [Named m] says that a successful run of [m] keeps the names of all
    accounts valid, and that every account is filed under its id.  It holds for
    all operations, steps of a block and hardforks.  Valid names fit in the two
    words that the chain stores them in ([FixedString.v]). *)
From Stdlib Require Import Ascii.
From S2P Require Import Prelude FixedString Fc Config Asset Chainbase ChainbaseSpec Names Objects Protocol BlockHeader.
From S2P Require Import Database Supply Votes Ledger Rewards Comments Cashout Genesis Transfers Market Inflation Escrow.
From S2P Require Import EscrowSpec Vesting Frames Proxies Delegations Accounts WitnessSchedule Soundness Hardforks.
From S2P Require Import SignState Mining Operations Transactions Block BlockSafety.

Definition names_valid (db : database) : Prop :=
  account_ids db ∧ ∀ i a, trows (A := account_object) db !! i = Some a → is_valid_account_name (acc_name a) = true.

Class Named {A} (m : DB A) : Prop := named_run : ∀ db a db', names_valid db → m db = Ok (a, db') → names_valid db'.

Lemma named_bind {A B} (m : DB A) (f : A → DB B) : Named m → (∀ a, Named (f a)) → Named (m ≫= f).
Proof. intros H1 H2 db b db' Hdb (a & s & Hm & Hk)%bind_ok. eapply H2; [|exact Hk]. by eapply H1. Qed.
#[export] Instance named_links {A} (m : DB A) : KeepsLinks m → Named m | 100.
Proof.
  intros Hm db a db' [Hid Hn] H. destruct (Hm _ _ _ Hid H) as [Hid' E]. split; [done|]. intros i x Hx.
  assert (links db !! i = Some (link_of x)) as Hl by (rewrite <- E; unfold links; by rewrite lookup_fmap, Hx).
  unfold links in Hl. apply lookup_fmap_Some in Hl as (y & Ey & Hy). replace (acc_name x) with (acc_name y) by by injection Ey.
  by eapply Hn.
Qed.
Lemma named_keeps {A} (m : DB A) : Keeps db_accounts m → Named m.
Proof. intros Hk. apply named_links, links_keeps, Hk. Qed.
Lemma named_when b (m : DB unit) : Named m → Named (when b m).
Proof. intros Hm. destruct b; [done|]. apply named_keeps, keeps_read. intros. by inv_ok. Qed.
Lemma named_for_each_in {A} (l : list A) (f : A → DB unit) : (∀ x, x ∈ l → Named (f x)) → Named (for_each l f).
Proof.
  induction l as [|x l IH]; intros Hf; cbn [for_each]; [apply named_keeps, keeps_read; intros; by inv_ok|].
  apply named_bind; [apply Hf; left|]. intros _. apply IH. intros y Hy. apply Hf. by right.
Qed.
Lemma named_for_each {A} (l : list A) (f : A → DB unit) : (∀ x, Named (f x)) → Named (for_each l f).
Proof. intros Hf. apply named_for_each_in. auto. Qed.
Lemma named_modify i (f : account_object → result account_object) :
  (∀ x y, f x = Ok y → acc_id y = acc_id x ∧ acc_name y = acc_name x) → Named (modify i f).
Proof.
  intros Hf db u db' [Hid Hn] (x & y & m & Hx & Hy & Hm & ->)%modify_ok. destruct (Hf _ _ Hy) as [E1 E2].
  apply container_modify_Some in Hm as [_ ->]; [|cbn; rewrite E1; by apply Hid].
  split; unfold account_ids; rewrite trows_set; cbn [Abs.rows]; intros j z [[<- <-]|[_ Hz]]%lookup_insert_Some.
  - rewrite E1. by apply Hid.
  - by apply Hid.
  - rewrite E2. by eapply Hn.
  - by eapply Hn.
Qed.
Lemma named_create (c : account_object → account_object) :
  (∀ j, acc_id (c (set_acc_id j account_object_default)) = j ∧
    is_valid_account_name (acc_name (c (set_acc_id j account_object_default))) = true) →
  Named (create account_object_default c).
Proof.
  intros Hc db i db' [Hid Hn] H. apply create_rows in H as [_ E]; [|intros j; apply (Hc j)].
  split; unfold account_ids; rewrite E; intros j z [[<- <-]|[_ Hz]]%lookup_insert_Some;
    [apply (Hc i)|by apply Hid|apply (Hc i)|by eapply Hn].
Qed.

(** Goes through a program and shows that it keeps the names. *)
Ltac name1 :=
  match goal with
  | |- ∀ _, _ => intros ?
  | |- Named _ => assumption
  | |- Named (_ ≫= _) => apply named_bind
  | |- Named (when _ _) => apply named_when
  | |- Named (for_each _ _) => apply named_for_each
  | |- Named (match ?x with _ => _ end) => destruct x
  | |- Named _ => first [solve [apply _] | apply named_links; solve [link]]
  | |- Named (modify _ _) => apply named_modify; intros ?? ?; split_cases; inv_ok; split_cases; split; reflexivity
  end.
Ltac name := repeat name1.

(** ** Operations *)
Section operations.
Context {F : Fc} {B : Boost} {D : DiffMatchPatch} {K : Crypto} {E : Equihash} {P : Plugins} {PL : PluginLaws}.

Lemma named_read {A} (m : DB A) : (∀ db a db', m db = Ok (a, db') → db' = db) → Named m.
Proof. intros Hm db a db' Hdb H. by rewrite (Hm _ _ _ H). Qed.
#[export] Instance create_order_named a n i s p e f : Named (create_order a n i s p e f).
Proof. unfold create_order. name. Qed.
#[export] Instance add_delegated_named i d : Named (modify i (add_delegated d)).
Proof. apply named_modify. unfold add_delegated. intros x y ?. by inv_ok. Qed.
#[export] Instance sub_delegated_named i d : Named (modify i (sub_delegated d)).
Proof. apply named_modify. unfold sub_delegated. intros x y ?. by inv_ok. Qed.
#[export] Instance add_received_named i d : Named (modify i (add_received d)).
Proof. apply named_modify. unfold add_received. intros x y ?. by inv_ok. Qed.
#[export] Instance sub_received_named i d : Named (modify i (sub_received d)).
Proof. apply named_modify. unfold sub_received. intros x y ?. by inv_ok. Qed.

#[export] Instance vote_named o : Named (vote_evaluator o).
Proof.
  unfold vote_evaluator, vote_by, first_vote, change_vote, adjust_rshares2, spend_power, not_challenged, vote_weight,
    curve_weight. name.
Qed.
#[export] Instance comment_named o : Named (comment_evaluator o).
Proof. unfold comment_evaluator, new_comment, edit_comment, not_challenged. name. Qed.
#[export] Instance delete_comment_named o : Named (delete_comment_evaluator o).
Proof. unfold delete_comment_evaluator, not_challenged. name. Qed.
#[export] Instance comment_options_named o : Named (comment_options_evaluator o).
Proof. unfold comment_options_evaluator, set_beneficiaries, not_challenged. name. Qed.
#[export] Instance limit_order_create_named o : Named (limit_order_create_evaluator o).
Proof. unfold limit_order_create_evaluator. name. Qed.
#[export] Instance limit_order_create2_named o : Named (limit_order_create2_evaluator o).
Proof. unfold limit_order_create2_evaluator. name. Qed.
#[export] Instance account_witness_proxy_named o : Named (account_witness_proxy_evaluator o).
Proof. unfold account_witness_proxy_evaluator. name. Qed.
#[export] Instance delegate_vesting_shares_named o : Named (delegate_vesting_shares_evaluator o).
Proof. unfold delegate_vesting_shares_evaluator. name. Qed.

(** New accounts: the name has passed [validate]. *)
Lemma validated_name s : validate_account_name s = Ok tt → is_valid_account_name s = true.
Proof. unfold validate_account_name, FC_ASSERT. by destruct (is_valid_account_name s). Qed.
Lemma account_create_named o : account_create_validate o = Ok tt → Named (account_create_evaluator o).
Proof.
  intros ([] & Hn%validated_name & _)%rbind_ok. unfold account_create_evaluator. name. by apply named_create.
Qed.
Lemma account_create_with_delegation_named o :
  account_create_with_delegation_validate o = Ok tt → Named (account_create_with_delegation_evaluator o).
Proof.
  intros ([] & Hn%validated_name & _)%rbind_ok. unfold account_create_with_delegation_evaluator. name. by apply named_create.
Qed.
Lemma create_miner_named n key : is_valid_account_name n = true → Named (create_miner n key).
Proof. intros Hn. unfold create_miner. name. by apply named_create. Qed.
#[export] Instance count_pow_named : Named count_pow.
Proof. unfold count_pow. name. Qed.
#[export] Instance pay_pow_named : Named pay_pow.
Proof. unfold pay_pow, get_pow_reward. name. Qed.
Lemma pow_named o : pow_validate o = Ok tt → Named (pow_evaluator o).
Proof.
  intros (u & _ & H)%rbind_ok. apply rbind_ok in H as ([] & Hn%validated_name & _).
  unfold pow_evaluator, pow_apply, get_pow_target. name. by apply create_miner_named.
Qed.
Lemma pow2_worker_valid o w : pow2_validate o = Ok tt → p2o_work o = work_equihash w →
  is_valid_account_name (pi_worker_account (ep_input w)) = true.
Proof.
  intros (u & _ & H)%rbind_ok E1. rewrite E1 in H. by apply rbind_ok in H as ([] & Hn%validated_name & _).
Qed.
Lemma named_throw_bind {A C} e (f : A → DB C) : Named (throw e ≫= f).
Proof. intros db c db' _ (a & s & H & _)%bind_ok. discriminate H. Qed.
Lemma named_ret_bind {A C} x (f : A → DB C) : Named (f x) → Named (mret x ≫= f).
Proof. intros Hf db c db' Hdb (a & s & [= <- <-] & H)%bind_ok. by eapply Hf. Qed.
Lemma pow2_named o : pow2_validate o = Ok tt → Named (pow2_evaluator o).
Proof.
  intros Hv. unfold pow2_evaluator, get_pow_summary_target. destruct (p2o_work o) as [w|w] eqn:Ew.
  - repeat first [apply named_throw_bind | name1].
  - pose proof (pow2_worker_valid o w Hv Ew). repeat first [apply named_ret_bind | name1]. by apply create_miner_named.
Qed.
#[export] Instance custom_json_named o : Named (custom_json_evaluator o).
Proof. apply named_read, custom_json_own. Qed.
#[export] Instance custom_binary_named o : Named (custom_binary_evaluator o).
Proof. apply named_read, custom_binary_own. Qed.

Lemma operation_named op : operation_validate op = Ok tt → Named (apply_operation op).
Proof.
  destruct op; cbn [operation_validate apply_operation]; intros Hv;
    first [ by apply account_create_named | by apply account_create_with_delegation_named
          | by apply pow_named | by apply pow2_named | discriminate Hv | solve [apply _] | idtac ].
  all: match goal with |- Named (?f _) => unfold f end; name.
Qed.
End operations.

(** ** Blocks *)
Section blocks.
Context {F : Fc} {B : Boost} {D : DiffMatchPatch} {K : Crypto} {E : Equihash} {P : Plugins} {PL : PluginLaws}.

#[export] Instance check_signatures_named trx : Named (check_signatures trx).
Proof. apply named_read, check_signatures_reads. Qed.
Lemma transaction_named skip trx : skips skip skip_validate = false → Named (_apply_transaction skip trx).
Proof.
  intros Hs db u db' Hdb H. unfold _apply_transaction in H. rewrite Hs in H.
  apply bind_ok in H as ([] & s & H1 & H). apply lift_ok in H1 as [Hv ->].
  match type of H with ?m db = _ => refine ((_ : Named m) db u db' Hdb H) end. clear H.
  assert (Named (for_each (tx_operations (st_trx trx)) apply_operation)).
  { apply named_for_each_in. intros op Hop. apply operation_named. by eapply validated_operation. }
  unfold is_known_transaction, check_expiration. name.
Qed.
Lemma apply_transactions_named skip b : skips skip skip_validate = false → Named (apply_transactions skip b).
Proof.
  intros Hs. assert (∀ t, Named (_apply_transaction skip t)) by (intros; by apply transaction_named).
  unfold apply_transactions, validate_block_header, process_header_extensions, process_header_extension. name.
Qed.
Lemma open_block_named skip b : skips skip skip_validate = false → Named (open_block skip b).
Proof.
  intros Hs. pose proof (apply_transactions_named skip b Hs).
  unfold open_block, begin_block, settle_block, update_global_dynamic_data, missed_blocks_before, count_missed,
    update_signing_witness, update_last_irreversible_block, create_block_summary, clear_expired_transactions,
    clear_expired_delegations, clear_expired_delegation, update_witness_schedule, update_witness_schedule4,
    reset_virtual_schedule_time, count_hardfork_votes, update_median_witness_props, update_median_feed, update_virtual_supply,
    clear_expired_orders. name.
Qed.
#[export] Instance clear_null_named : Named clear_null_account_balance.
Proof. unfold clear_null_account_balance, empty_null_account, drain, drain_vesting, drain_reward_vesting. name. Qed.
#[export] Instance process_decline_voting_rights_named : Named process_decline_voting_rights.
Proof. unfold process_decline_voting_rights, process_decline_request. name. Qed.
#[export] Instance migrate_named n : Named (migrate n).
Proof.
  unfold migrate. repeat case_match;
    unfold perform_vesting_share_split, split_account, scale, adjust_rshares2, retally_witness_votes, reset_virtual_schedule_time,
      retally_witness_vote_counts, retally_comment_children, reset_compromised,
      retally_liquidity_weight, hardfork_12, hardfork_12_comment, open_posting, hardfork_16,
      hardfork_17_fund, hardfork_17_comments, hardfork_19; name.
Qed.
#[export] Instance apply_hardfork_named n : Named (apply_hardfork n).
Proof. unfold apply_hardfork. name. Qed.
#[export] Instance voted_hardforks_named n : Named (voted_hardforks n).
Proof. induction n as [|n IH]; cbn [voted_hardforks]; name. Qed.
#[export] Instance timed_hardforks_named n : Named (timed_hardforks n).
Proof. induction n as [|n IH]; cbn [timed_hardforks]; name. Qed.
#[export] Instance close_block_named : Named close_block.
Proof.
  unfold close_block, process_funds, process_funds_16, process_funds_0, pay_reward_funds, pay_reward_fund, get_content_reward,
    get_curation_reward, get_producer_reward, process_conversions, process_comment_cashout, decay_fund, count_claim,
    process_vesting_withdrawals, process_savings_withdraws, pay_liquidity_reward, get_liquidity_reward, update_virtual_supply,
    expire_escrow_ratification, expire_escrow, process_savings_withdraw, process_hardforks. name.
  - apply named_links, links_fold. unfold process_conversion. link.
  - revert a3. induction a2 as [|n IH]; intros [i|]; cbn [withdrawal_loop]; name.
Qed.
End blocks.

Section theorems.
Context {F : Fc} {B : Boost} {D : DiffMatchPatch} {K : Crypto} {E : Equihash} {P : Plugins} {PL : PluginLaws}.

(** A valid name fits in the two words, and has no NUL character. *)
Lemma middle_code c : middle_ok c = true → 0 < code c.
Proof. unfold middle_ok, is_letter, is_digit, is_hyphen. lia. Qed.
Lemma labels_codes l : labels l → Forall (λ c, 0 < code c) l.
Proof.
  induction 1 as [l (_ & _ & _ & Hl)|l d ls (_ & _ & _ & Hl) Hd _ IH].
  - eapply Forall_impl; [exact Hl|apply middle_code].
  - apply Forall_app. split; [eapply Forall_impl; [exact Hl|apply middle_code]|].
    constructor; [unfold is_dot in Hd; lia|done].
Qed.
Lemma valid_name_fits s : valid_name s → no_nul s ∧ (length (string_bytes s) ≤ 2 * word_size)%nat.
Proof.
  intros [[_ Hlen] Hl%labels_codes]. unfold no_nul, string_bytes. rewrite length_fmap. split; [|exact Hlen].
  apply Forall_fmap. eapply Forall_impl; [exact Hl|]. unfold code, compose. cbn. lia.
Qed.

Lemma block_named skip b : skips skip skip_validate = false → Named (_apply_block skip b).
Proof. intros Hs. pose proof (open_block_named skip b Hs). unfold _apply_block. name. Qed.
Lemma genesis_account_named n t : is_valid_account_name n = true → Named (genesis_account n t).
Proof. intros Hn. unfold genesis_account. apply named_bind; [by apply named_create|name]. Qed.
Lemma genesis_miner_named supply : Named (genesis_miner supply 0).
Proof. unfold genesis_miner. apply named_bind; [by apply named_create|name]. Qed.
Lemma init_genesis_named supply : Named (init_genesis supply).
Proof.
  unfold init_genesis. do 3 (apply named_bind; [by apply genesis_account_named|intros _]).
  apply named_bind; [|intros _; apply named_keeps; by intros s u s' [= _ <-]].
  apply named_for_each_in. intros i ->%list_elem_of_singleton. apply genesis_miner_named.
Qed.
Lemma genesis_named supply : names_valid (genesis supply).
Proof.
  destruct (genesis_run supply) as [H _]. refine (init_genesis_named supply _ _ _ _ H).
  split; intros i a; unfold trows; cbn; by rewrite lookup_empty.
Qed.

(** C3: after a block that applies every account has a name of the documented
    grammar, and the two words of 64 bits that hold it read back as the name and
    are compared as names are. *)
Theorem account_names_valid skip b db db' :
  skips skip skip_validate = false → names_valid db → _apply_block skip b db = Ok (tt, db') →
  names_valid db' ∧
  ∀ i a j a', trows db' !! i = Some a → trows db' !! j = Some a' →
    valid_name (acc_name a) ∧ to_string (fixed_string 2 (acc_name a)) = acc_name a ∧
    data_compare (fixed_string 2 (acc_name a)) (fixed_string 2 (acc_name a')) = String.compare (acc_name a) (acc_name a').
Proof.
  intros Hs Hdb H. pose proof (block_named skip b Hs _ _ _ Hdb H) as Hdb'. split; [done|]. intros i a j a' Hi Hj.
  pose proof (proj1 (is_valid_account_name_spec _) (proj2 Hdb' _ _ Hi)) as Ha.
  pose proof (proj1 (is_valid_account_name_spec _) (proj2 Hdb' _ _ Hj)) as Ha'.
  destruct (valid_name_fits _ Ha) as [N1 L1], (valid_name_fits _ Ha') as [N2 L2]. split; [done|].
  exact (proj2 (fixed_string_faithful 2 _ _ N1 N2) L1 L2).
Qed.
End theorems.

#[local] Existing Instance fc_model.
#[local] Existing Instances boost_model no_patches crypto_model no_mining no_plugins no_plugins_laws.

Lemma account_names_valid_witness :
  names_valid after_first_block ∧
  acc_name <$> trows (A := account_object) after_first_block !! 3 = Some STEEMIT_INIT_MINER_NAME.
Proof.
  split; [|vm_compute; reflexivity].
  apply (account_names_valid skip_nothing first_block (genesis 1000)).
  - vm_compute. reflexivity.
  - apply genesis_named.
  - exact first_block_run.
Defined.
