(* ===== verification/Frontier.v ===== *)
(** * The head of the chain

    What the global properties record about the head block: only
    [update_global_dynamic_data] and [update_last_irreversible_block] change it.
    The operations, the processing of deadlines and payouts and the hardforks
    leave it alone, and the ids of the recent blocks, which only
    [create_block_summary] records. *)
From S2P Require Import Prelude Fc Config Asset Chainbase ChainbaseSpec Objects Protocol BlockHeader Database.
From S2P Require Import Supply Votes Ledger Rewards Comments Cashout Genesis Transfers Market Inflation Escrow.
From S2P Require Import EscrowSpec Vesting Frames Proxies Delegations Accounts WitnessSchedule Soundness Hardforks.
From S2P Require Import SignState Mining Operations Transactions Block BlockSafety.

Record frontier_fields := Frontier {
  fr_number : Z; fr_id : string; fr_time : Z; fr_aslot : Z;
  fr_irreversible : Z; fr_slots : Z; fr_participation : Z }.
Definition frontier_of (g : dynamic_global_property_object) : frontier_fields :=
  Frontier (gpo_head_block_number g) (gpo_head_block_id g) (gpo_time g) (gpo_current_aslot g)
    (gpo_last_irreversible_block_num g) (gpo_recent_slots_filled g) (gpo_participation_count g).
Definition frontier (db : database) : frontier_fields := frontier_of (db_gpo db).

(** The head and the ids of the recent blocks. *)
Definition headline (db : database) : frontier_fields * gmap Z string := (frontier db, the db).

Lemma keeps_headline_frontier {A} (m : DB A) : Keeps headline m → Keeps frontier m.
Proof. intros Hm db a db' H. exact (f_equal fst (Hm _ _ _ H)). Qed.
Lemma keeps_headline_summaries {A} (m : DB A) : Keeps headline m → Keeps (the (A := gmap Z string)) m.
Proof. intros Hm db a db' H. exact (f_equal snd (Hm _ _ _ H)). Qed.
#[export] Hint Extern 10 (Keeps frontier _) => apply keeps_headline_frontier : typeclass_instances.
#[export] Hint Extern 10 (Keeps the _) => apply keeps_headline_summaries : typeclass_instances.
Lemma keeps_gpo_frontier f :
  (∀ g g', f g = Ok g' → frontier_of g' = frontier_of g) → Keeps headline (modify_gpo f).
Proof. intros Hf db a db' (g & Hg & ->)%modify_gpo_ok. unfold headline, frontier. cbn. by rewrite (Hf _ _ Hg). Qed.
Ltac keep_frontier :=
  apply keeps_gpo_frontier; intros ?? ?; split_cases; inv_ok; split_cases; inv_ok; reflexivity.
#[export] Hint Extern 2 (Keeps headline (modify_gpo _)) => keep_frontier : typeclass_instances.

(** [keep], unfolding what has no instance of its own. *)
Ltac head_of t := lazymatch t with ?f _ => head_of f | _ => t end.
Ltac keep_deep :=
  keep; repeat (lazymatch goal with |- Keeps _ ?m => let h := head_of m in unfold h end; keep).

Section balances.
Context {F : Fc} {B : Boost}.

#[export] Instance adjust_supply_frontier d b : Keeps headline (adjust_supply d b).
Proof. unfold adjust_supply. keep. Qed.
#[export] Instance pay_interest_frontier n p : Keeps headline (pay_interest n p).
Proof. unfold pay_interest. keep. Qed.
#[export] Instance adjust_balance_frontier a d : Keeps headline (adjust_balance a d).
Proof. unfold adjust_balance. keep. Qed.
#[export] Instance adjust_savings_balance_frontier a d : Keeps headline (adjust_savings_balance a d).
Proof. unfold adjust_savings_balance. keep. Qed.
#[export] Instance adjust_reward_balance_frontier a d : Keeps headline (adjust_reward_balance a d).
Proof. unfold adjust_reward_balance. keep. Qed.
#[export] Instance create_vesting_frontier a s b : Keeps headline (create_vesting a s b).
Proof. unfold create_vesting, adjust_proxied_witness_votes. keep. Qed.
#[export] Instance create_sbd_frontier a s b : Keeps headline (create_sbd a s b).
Proof. unfold create_sbd. keep. Qed.
End balances.

Section steps.
Context {F : Fc} {B : Boost}.

#[export] Instance update_virtual_supply_frontier : Keeps headline update_virtual_supply.
Proof. unfold update_virtual_supply. keep. Qed.
#[export] Instance adjust_proxied_frontier a d : Keeps headline (adjust_proxied_witness_votes a d).
Proof. unfold adjust_proxied_witness_votes. apply _. Qed.
#[export] Instance adjust_proxied_array_frontier a d : Keeps headline (adjust_proxied_witness_votes_array a d).
Proof.
  unfold adjust_proxied_witness_votes_array. generalize STEEMIT_MAX_PROXY_RECURSION_DEPTH.
  intros n. revert a. induction n as [|n IH]; intros a; cbn [adjust_proxied_array]; keep.
Qed.
#[export] Instance clear_null_frontier : Keeps headline clear_null_account_balance.
Proof. unfold clear_null_account_balance, empty_null_account, drain, drain_vesting, drain_reward_vesting. keep. Qed.

(** *** Payouts and deadlines *)
#[export] Instance process_funds_frontier : Keeps headline process_funds.
Proof. 
  unfold process_funds, process_funds_16, process_funds_0, pay_reward_funds, pay_reward_fund,
    get_content_reward, get_curation_reward, get_producer_reward. keep.
 Qed.
#[export] Instance pay_liquidity_reward_frontier : Keeps headline pay_liquidity_reward.
Proof. unfold pay_liquidity_reward, get_liquidity_reward. keep. Qed.
#[export] Instance process_conversions_frontier : Keeps headline process_conversions.
Proof. unfold process_conversions, process_conversion. keep. Qed.
#[export] Instance process_savings_withdraws_frontier : Keeps headline process_savings_withdraws.
Proof. unfold process_savings_withdraws, process_savings_withdraw. keep. Qed.
#[export] Instance account_recovery_processing_frontier : Keeps headline account_recovery_processing.
Proof. unfold account_recovery_processing. keep. Qed.
#[export] Instance expire_escrow_ratification_frontier : Keeps headline expire_escrow_ratification.
Proof. unfold expire_escrow_ratification, expire_escrow, return_escrow. keep. Qed.
#[export] Instance process_decline_frontier : Keeps headline process_decline_voting_rights.
Proof. unfold process_decline_voting_rights, process_decline_request, clear_witness_votes, adjust_witness_vote. keep. Qed.
#[export] Instance process_vesting_withdrawals_frontier : Keeps headline process_vesting_withdrawals.
Proof.
  unfold process_vesting_withdrawals. keep. revert a0.
  induction a as [|n IH]; intros [i|]; cbn [withdrawal_loop]; keep.
  unfold process_vesting_withdrawal, deposit_vests, deposit_steem, take_from_fund, add_shares, pay_withdrawal. keep.
Qed.

(** *** Comments *)
#[export] Instance cashout_helper_frontier ctx c : Keeps headline (cashout_comment_helper ctx c).
Proof.
  unfold cashout_comment_helper, pay_reward, pay_author, pay_beneficiary, pay_curators, pay_curator,
    get_curation_rewards_percent, adjust_total_payout, retire_votes, retire_vote, adjust_rshares2. keep.
Qed.
#[local] Instance cashout_loop_frontier n st : Keeps headline (cashout_loop n st).
Proof.
  revert st. induction n as [|n IH]; intros st; cbn [cashout_loop]; unfold cashout_from_fund, cashout_from_gpo; keep.
Qed.
#[local] Instance write_funds_frontier i fs : Keeps headline (write_funds i fs).
Proof. revert i. induction fs as [|f fs IH]; intros i; cbn [write_funds]; unfold write_fund; keep. Qed.
#[export] Instance process_comment_cashout_frontier : Keeps headline process_comment_cashout.
Proof. unfold process_comment_cashout, decay_fund, count_claim. keep. Qed.

(** *** Hardforks *)
#[local] Instance count_child_frontier n p : Keeps headline (count_child n p).
Proof. revert p. induction n as [|n IH]; intros p; cbn [count_child]; keep. Qed.
#[local] Instance adjust_witness_vote_frontier w d : Keeps headline (adjust_witness_vote w d).
Proof. unfold adjust_witness_vote. keep. Qed.
#[export] Instance update_owner_authority_frontier a o : Keeps headline (update_owner_authority a o).
Proof. unfold update_owner_authority. keep. Qed.
#[local] Instance migrate_frontier n : Keeps headline (migrate n).
Proof.
  unfold migrate, perform_vesting_share_split, adjust_rshares2, retally_witness_votes,
    reset_virtual_schedule_time, retally_witness_vote_counts, retally_comment_children, reset_compromised,
    retally_liquidity_weight, hardfork_12, hardfork_12_comment, open_posting, hardfork_16, hardfork_17_fund,
    hardfork_17_comments, hardfork_19. keep.
Qed.
#[export] Instance process_hardforks_frontier : Keeps headline process_hardforks.
Proof.
  unfold process_hardforks. keep.
  - generalize (Z.to_nat STEEMIT_NUM_HARDFORKS). intros n. induction n as [|n IH]; cbn [voted_hardforks];
      unfold apply_hardfork; keep.
  - generalize 5%nat. intros n. induction n as [|n IH]; cbn [timed_hardforks]; unfold apply_hardfork; keep.
Qed.
#[export] Instance close_block_frontier : Keeps headline close_block.
Proof. unfold close_block. keep. Qed.
End steps.

(** ** Operations *)
Section operations.
Context {F : Fc} {B : Boost} {D : DiffMatchPatch} {K : Crypto} {E : Equihash} {P : Plugins} {PL : PluginLaws}.

#[local] Instance touch_ancestors_frontier n c d e : Keeps headline (touch_ancestors n c d e).
Proof. revert c d e. induction n as [|n IH]; intros c d e; cbn [touch_ancestors]; keep. Qed.
#[local] Instance check_proxy_chain_frontier n a b : Keeps headline (check_proxy_chain n a b).
Proof. revert b. induction n as [|n IH]; intros b; cbn [check_proxy_chain]; keep. Qed.
#[local] Instance match_loop_frontier n l : Keeps headline (match_loop n l).
Proof.
  induction l as [|x l IH]; simpl; keep; unfold match_orders, fill_order, cancel_order, adjust_liquidity_reward; keep.
Qed.
#[local] Instance clear_witness_votes_frontier a : Keeps headline (clear_witness_votes a).
Proof. unfold clear_witness_votes. keep. Qed.
#[export] Instance apply_operation_frontier op : Keeps headline (apply_operation op).
Proof.
  destruct op; cbn [apply_operation]; try (apply keeps_read; intros ???; apply custom_json_own || apply custom_binary_own);
    keep_deep.
Qed.
#[local] Instance check_signatures_frontier trx : Keeps headline (check_signatures trx).
Proof. apply keeps_read, check_signatures_reads. Qed.
#[export] Instance apply_transactions_frontier skip b : Keeps headline (apply_transactions skip b).
Proof. unfold apply_transactions. keep_deep. Qed.
(** The steps between the irreversible block and the null account. *)
#[export] Instance create_block_summary_frontier b : Keeps frontier (create_block_summary b).
Proof. unfold create_block_summary. keep. Qed.
#[export] Instance clear_expired_transactions_frontier : Keeps headline clear_expired_transactions.
Proof. unfold clear_expired_transactions. keep. Qed.
#[export] Instance clear_expired_orders_frontier : Keeps headline clear_expired_orders.
Proof. unfold clear_expired_orders. keep_deep. Qed.
#[export] Instance clear_expired_delegations_frontier : Keeps headline clear_expired_delegations.
Proof. unfold clear_expired_delegations. keep_deep. Qed.
#[local] Instance start_laps_frontier t l : Keeps headline (start_laps t l).
Proof. induction l as [|w l IH]; cbn [start_laps]; keep. Qed.
#[export] Instance update_witness_schedule_frontier : Keeps headline update_witness_schedule.
Proof. unfold update_witness_schedule. keep_deep. Qed.
#[export] Instance update_median_feed_frontier : Keeps headline update_median_feed.
Proof. unfold update_median_feed. keep_deep. Qed.
#[export] Instance update_signing_witness_frontier w b : Keeps headline (update_signing_witness w b).
Proof. unfold update_signing_witness. keep. Qed.
End operations.
