(* ===== verification/BlockRules.v ===== *)
(** * The rules of block production

    What a block that applies tells about its header, which blocks are
    irreversible, the record of the last slots, and the merkle root of the
    transactions. *)
From S2P Require Import Prelude Fc Config Asset Chainbase ChainbaseSpec Objects Protocol BlockHeader Database.
From S2P Require Import Supply Votes Ledger Rewards Comments Cashout Genesis Transfers Market Inflation Escrow.
From S2P Require Import EscrowSpec Vesting Frames Proxies Delegations Accounts WitnessSchedule Soundness Hardforks.
From S2P Require Import SignState Mining Operations Transactions Block BlockSafety Frontier.

Section rules.
Context {F : Fc} {B : Boost} {D : DiffMatchPatch} {K : Crypto} {E : Equihash} {P : Plugins} {PL : PluginLaws}.

(** ** The header *)

(** What [validate_block_header] accepts: the next block, later than the head
    block, signed by the witness that the schedule names for its slot. *)
Definition follows_head (skip : Z) (b : signed_block) (db : database) : Prop :=
  let h := sbh_header (sb_header b) in
  let g := db_gpo db in
  bh_previous h = gpo_head_block_id g ∧ gpo_time g < bh_timestamp h ∧
  ∃ w, find_row (witness_by_name (bh_witness h)) db = Some w ∧
    (skips skip skip_witness_signature = false → signee (sb_header b) = Ok (wit_signing_key w)) ∧
    (skips skip skip_witness_schedule_check = false →
       0 < get_slot_at_time (bh_timestamp h) db ∧
       get_scheduled_witness (get_slot_at_time (bh_timestamp h) db) db = Ok (wit_owner w)).

Lemma validate_block_header_ok skip b db w db' :
  validate_block_header skip b db = Ok (w, db') → follows_head skip b db ∧ db' = db.
Proof.
  unfold validate_block_header, follows_head. intros H. inv_db. rewrite bool_decide_eq_true in *.
  assert (s2 = db ∧ (skips skip skip_witness_signature = false →
    signee (sb_header b) = Ok (wit_signing_key a2))) as [-> Hsig].
  { destruct (skips skip skip_witness_signature); inv_db; [done|]. split; [done|intros _].
    match goal with H : validate_signee _ _ = Ok true |- _ => unfold validate_signee in H;
      apply rbind_ok in H as (k & -> & [= Hk]) end. by rewrite bool_decide_eq_true in Hk; subst. }
  split; [split_and!; [done|lia|]|].
  - exists a2. split_and!; [done|done|]. intros Es. rewrite Es in *. inv_db.
    match goal with H : bool_decide _ = true |- _ => apply bool_decide_eq_true in H as -> end. split; [lia|done].
  - destruct (skips skip skip_witness_schedule_check); by inv_db.
Qed.

(** [update_global_dynamic_data] records the block and the slots since the head
    block. *)
Definition slots_until (b : signed_block) (db : database) : Z :=
  if gpo_time (db_gpo db) =? 0 then 1
  else to_uint32 (to_uint32 (get_slot_at_time (bh_timestamp (sbh_header (sb_header b))) db - 1) + 1).
#[local] Instance count_missed_gpo n i : Keeps db_gpo (count_missed n i).
Proof. unfold count_missed. keep. Qed.
Lemma fill_slots_frontier g l :
  frontier_of (foldl fill_slot g l) =
    let f := foldl fill_slot g l in let fr := frontier_of g in
    Frontier (fr_number fr) (fr_id fr) (fr_time fr) (fr_aslot fr) (fr_irreversible fr)
      (gpo_recent_slots_filled f) (gpo_participation_count f).
Proof. revert g. induction l as [|i l IH]; intros g; [done|]. cbn [foldl]. by rewrite IH. Qed.
Lemma update_global_dynamic_data_ok skip b db u db' :
  update_global_dynamic_data skip b db = Ok (u, db') →
  let h := sbh_header (sb_header b) in
  let g := foldl fill_slot (db_gpo db) (seq 0 (Z.to_nat (slots_until b db))) in
  frontier db' = Frontier (block_num h) (header_id (sb_header b)) (bh_timestamp h)
    (to_uint64 (gpo_current_aslot (db_gpo db) + slots_until b db))
    (gpo_last_irreversible_block_num (db_gpo db)) (gpo_recent_slots_filled g) (gpo_participation_count g).
Proof.
  unfold update_global_dynamic_data. intros H. inv_db.
  match goal with H : missed_blocks_before b db = Ok (?a, ?s) |- _ =>
    assert (s = db ∧ to_uint32 (Z.of_nat a + 1) = slots_until b db) as [-> Es] end.
  { unfold missed_blocks_before in Hm. unfold slots_until. inv_db.
    destruct (gpo_time (db_gpo db) =? 0); inv_db; [done|]. split; [done|].
    rewrite Z2Nat.id by (apply Z.mod_pos_bound; done). done. }
  apply (keeps_for_each db_gpo _ _ (count_missed_gpo _)) in Hm0.
  match goal with H : (if _ then mret tt else _) ?s = Ok (tt, db') |- _ => assert (db' = s) as -> by
    (destruct (skips skip skip_undo_history_check); inv_db; [done|]; by case_match; inv_db) end.
  match goal with H : modify_gpo _ _ = _ |- _ => apply modify_gpo_ok in H as (g & [= <-] & ->) end.
  unfold frontier. cbn. rewrite Es, Hm0.
  pose proof (fill_slots_frontier (db_gpo db) (seq 0 (Z.to_nat (slots_until b db)))) as [= _ _ _ E1 E2].
  unfold frontier_of. cbn. by rewrite E1, E2.
Qed.

(** The steps of a block that change the head, in order. *)
Lemma apply_block_steps skip b db db' :
  _apply_block skip b db = Ok (tt, db') →
  ∃ w s1 s2 s3 s4, apply_transactions skip b db = Ok (w, s1) ∧
    update_global_dynamic_data skip b s1 = Ok (tt, s2) ∧ update_signing_witness w b s2 = Ok (tt, s3) ∧
    update_last_irreversible_block s3 = Ok (tt, s4) ∧
    frontier s1 = frontier db ∧ frontier s3 = frontier s2 ∧ frontier db' = frontier s4.
Proof.
  unfold _apply_block, open_block, begin_block. intros H.
  apply bind_ok in H as ([] & s & H & Hrest). apply bind_ok in H as ([] & s4 & H & Hsettle).
  apply bind_ok in H as (w & s1 & H1 & H). apply bind_ok in H as ([] & s2 & H2 & H).
  apply bind_ok in H as ([] & s3 & H3 & H4). exists w, s1, s2, s3, s4. split_and!; [done..| | |].
  - exact (keeps_headline_frontier _ (apply_transactions_frontier skip b) _ _ _ H1).
  - exact (keeps_headline_frontier _ (update_signing_witness_frontier w b) _ _ _ H3).
  - transitivity (frontier s).
    + match type of Hrest with ?m s = _ => refine ((_ : Keeps frontier m) _ _ _ Hrest) end. keep.
    + refine ((_ : Keeps frontier (settle_block b)) _ _ _ Hsettle). unfold settle_block. keep.
Qed.
(** The ids of recent blocks: a block records its own. *)
Definition summaries : database → gmap Z string := the.
#[local] Instance count_missed_headline n i : Keeps headline (count_missed n i).
Proof. unfold count_missed. keep. Qed.
#[local] Instance modify_gpo_summaries f : Keeps (the (A := gmap Z string)) (modify_gpo f).
Proof. intros db a db' (g & _ & ->)%modify_gpo_ok. done. Qed.
Lemma apply_block_summaries skip b db db' :
  _apply_block skip b db = Ok (tt, db') →
  summaries db' = <[Z.land (block_num (sbh_header (sb_header b))) 65535 := header_id (sb_header b)]> (summaries db).
Proof.
  unfold _apply_block, open_block, settle_block, summaries. intros H.
  apply bind_ok in H as ([] & s & H & Hrest). apply bind_ok in H as ([] & s1 & H1 & H).
  apply bind_ok in H as ([] & s2 & H2 & H3).
  transitivity (the (A := gmap Z string) s).
  { match type of Hrest with ?m s = _ => refine ((_ : Keeps (the (A := gmap Z string)) m) _ _ _ Hrest) end. keep. }
  transitivity (the (A := gmap Z string) s2).
  { match type of H3 with ?m s2 = _ => refine ((_ : Keeps (the (A := gmap Z string)) m) _ _ _ H3) end. keep. }
  assert (the (A := gmap Z string) s1 = the db) as <-.
  { refine ((_ : Keeps (the (A := gmap Z string)) (begin_block skip b)) _ _ _ H1).
    unfold begin_block, update_global_dynamic_data, missed_blocks_before, update_last_irreversible_block. keep. }
  unfold create_block_summary in H2. apply modify_the_ok in H2 as (m & [= <-] & ->). done.
Qed.
Definition with_irreversible (lib : Z) (f : frontier_fields) : frontier_fields :=
  Frontier (fr_number f) (fr_id f) (fr_time f) (fr_aslot f) lib (fr_slots f) (fr_participation f).
Lemma update_last_irreversible_ok s u s' :
  update_last_irreversible_block s = Ok (u, s') →
  let f := frontier s in
  ∃ lib, frontier s' = with_irreversible lib f ∧
    if fr_number f <? STEEMIT_START_MINER_VOTING_BLOCK then
      lib = if STEEMIT_MAX_WITNESSES <? fr_number f then fr_number f - STEEMIT_MAX_WITNESSES else fr_irreversible f
    else ∃ ws new, scheduled_witnesses s = Ok (ws, s) ∧ nth_confirmed ws = Ok new ∧
      lib = Z.max (fr_irreversible f) new.
Proof.
  unfold update_last_irreversible_block. intros H. apply bind_ok in H as (num & s1 & H1 & H). inv_db.
  cbn zeta. change (fr_number (frontier s)) with (gpo_head_block_number (db_gpo s)).
  change (fr_irreversible (frontier s)) with (gpo_last_irreversible_block_num (db_gpo s)).
  destruct (_ <? STEEMIT_START_MINER_VOTING_BLOCK); inv_db.
  all: try match goal with H : scheduled_witnesses _ = Ok (_, ?s0) |- _ =>
    pose proof (scheduled_witnesses_reads _ _ _ H) as ->  end.
  all: try match goal with H : modify_gpo _ _ = _ |- _ => apply modify_gpo_ok in H as (g & [= <-] & ->) end.
  - destruct (STEEMIT_MAX_WITNESSES <? _); (eexists; split; [|reflexivity]); done.
  - eexists. split; [done|]. do 2 eexists. split_and!; [done..|]. cbn. lia.
  - exists (gpo_last_irreversible_block_num (db_gpo s)). split; [done|]. do 2 eexists. split_and!; [done..|]. cbn. lia.
Qed.

(** At least three quarters of the witnesses have confirmed the block
    [nth_confirmed] selects. *)
Lemma filter_all {A} (Q : A → Prop) `{∀ x, Decision (Q x)} l : Forall Q l → filter Q l = l.
Proof. induction 1 as [|x l Hx _ IH]; [done|]. by rewrite filter_cons_True, IH. Qed.
Definition confirmed (n : Z) (ws : list witness_object) : list witness_object :=
  filter (λ w, n ≤ wit_last_confirmed_block_num w) ws.
Lemma confirmed_from n i w ws :
  StronglySorted (brel (λ a b, wit_last_confirmed_block_num a <=? wit_last_confirmed_block_num b)) ws →
  ws !! i = Some w → n ≤ wit_last_confirmed_block_num w → (length ws - i ≤ length (confirmed n ws))%nat.
Proof.
  intros Hs Hi Hn. unfold confirmed. rewrite <- (take_drop i ws) at 2. rewrite filter_app, length_app.
  rewrite (filter_all _ (drop i ws)), length_drop; [lia|].
  rewrite (drop_S _ _ _ Hi). rewrite <- (take_drop_middle _ _ _ Hi) in Hs.
  apply StronglySorted_app in Hs as (_ & _ & Hs). apply StronglySorted_cons in Hs as [Hs _].
  constructor; [done|]. eapply Forall_impl; [exact Hs|]. intros y Hy. apply Is_true_true in Hy. lia.
Qed.
Lemma nth_confirmed_majority ws n :
  Forall (λ w, 0 ≤ wit_last_confirmed_block_num w) ws → nth_confirmed ws = Ok n →
  3 * Z.of_nat (length ws) ≤ 4 * Z.of_nat (length (confirmed n ws)).
Proof.
  unfold nth_confirmed. set (l := sort_by _ ws). intros Hpos. destruct (l !! _) as [w|] eqn:Hi; [|done].
  intros [= <-]. assert (l ≡ₚ ws) as Hp by apply sort_by_perm.
  assert (0 ≤ wit_last_confirmed_block_num w) as Hw.
  { rewrite <- Hp in Hpos. rewrite Forall_forall in Hpos. apply Hpos. by eapply list_elem_of_lookup_2. }
  assert (length (confirmed (to_uint32 (wit_last_confirmed_block_num w)) l) =
          length (confirmed (to_uint32 (wit_last_confirmed_block_num w)) ws)) as <-
    by (unfold confirmed; by rewrite Hp).
  assert (length l = length ws) as El by by rewrite Hp.
  eapply (confirmed_from (to_uint32 (wit_last_confirmed_block_num w))) in Hi.
  - rewrite El in Hi. unfold irreversible_offset, STEEMIT_100_PERCENT, STEEMIT_IRREVERSIBLE_THRESHOLD in Hi.
    change (10000 - 75 * STEEMIT_1_PERCENT) with 2500 in Hi.
    pose proof (Z.div_pos (2500 * Z.of_nat (length ws)) 10000 ltac:(lia) ltac:(lia)).
    pose proof (Z.mul_div_le (2500 * Z.of_nat (length ws)) 10000 ltac:(lia)). lia.
  - apply Sorted_StronglySorted, sort_by_sorted.
    + intros a b c Hab Hbc. unfold brel, Is_true in *. repeat case_match; try done. lia.
    + intros a b. lia.
  - unfold to_uint32. apply Z.mod_le; [done|]. done.
Qed.

(** The number in the id of the head block is its number, and before the vote of
    the miners starts the irreversible block is 21 blocks behind. *)
Definition head_consistent (db : database) : Prop :=
  let f := frontier db in
  num_from_id (fr_id f) = fr_number f ∧ 0 ≤ fr_number f ∧ 0 ≤ fr_irreversible f ∧
  (fr_number f < STEEMIT_START_MINER_VOTING_BLOCK →
   fr_irreversible f ≤ Z.max 0 (fr_number f - STEEMIT_MAX_WITNESSES)).

(** ** The record of the last slots *)

(** The number of bits set among the first [n]. *)
Fixpoint popcount (n : nat) (x : Z) : Z :=
  match n with O => 0 | S n' => x mod 2 + popcount n' (x / 2) end.
Definition slots_counted (f : frontier_fields) : Prop :=
  0 ≤ fr_slots f < U128 ∧ fr_participation f = popcount 128 (fr_slots f).

Lemma popcount_range n x : 0 ≤ popcount n x ≤ Z.of_nat n.
Proof.
  revert x. induction n as [|n IH]; intros x; cbn [popcount]; [done|]. specialize (IH (x / 2)).
  pose proof (Z.mod_pos_bound x 2). lia.
Qed.
Lemma popcount_top n x : 0 ≤ x < 2 ^ (Z.of_nat n + 1) →
  popcount (S n) x = popcount n (x mod 2 ^ Z.of_nat n) + x / 2 ^ Z.of_nat n.
Proof.
  revert x. induction n as [|n IH]; intros x Hx.
  - cbn in *. assert (x = 0 ∨ x = 1) as [-> | ->] by lia; done.
  - rewrite Nat2Z.inj_succ, <- Z.add_1_r in *. cbn [popcount] in *.
    rewrite IH.
    2: { split; [apply Z.div_pos; lia|]. apply Z.div_lt_upper_bound; [lia|].
         rewrite (Z.pow_add_r 2 (_ + 1) 1) in Hx by lia. lia. }
    rewrite Z.pow_add_r, Z.pow_1_r by lia. set (p := 2 ^ Z.of_nat n).
    assert (0 < p) by (by apply Z.pow_pos_nonneg; lia).
    rewrite Z.div_div, (Z.mul_comm p 2) by lia. rewrite Z.rem_mul_r by lia.
    replace ((x mod 2 + 2 * (x / 2 mod p)) mod 2) with (x mod 2)
      by (rewrite (Z.mul_comm 2), Z_mod_plus_full; by rewrite Z.mod_mod).
    replace ((x mod 2 + 2 * (x / 2 mod p)) / 2) with (x / 2 mod p); [lia|].
    rewrite (Z.mul_comm 2), Z.div_add by lia. pose proof (Z.mod_pos_bound x 2). rewrite (Z.div_small (x mod 2)); lia.
Qed.
Lemma top_bit x : 0 ≤ x < U128 →
  (if Z.land (u128_hi x) 9223372036854775808 =? 0 then 0 else 1) = x / 2 ^ 127.
Proof.
  intros Hx. unfold u128_hi. change 9223372036854775808 with (2 ^ 63).
  assert (x / 2 ^ 127 = 0 ∨ x / 2 ^ 127 = 1) as Hb.
  { assert (0 ≤ x / 2 ^ 127 < 2); [|lia]. split; [apply Z.div_pos; [lia|done]|]. apply Z.div_lt_upper_bound; [done|].
    change (2 ^ 127 * 2) with U128. lia. }
  assert (Z.testbit (x / U64) 63 = Z.odd (x / 2 ^ 127)) as Ht.
  { rewrite Z.testbit_odd, Z.shiftr_div_pow2 by done. rewrite Z.div_div by done. done. }
  rewrite <- (Z.bit0_odd (x / 2 ^ 127)) in Ht.
  assert (Z.land (x / U64) (2 ^ 63) = if Z.testbit (x / U64) 63 then 2 ^ 63 else 0) as ->.
  { apply Z.bits_inj. intros i. rewrite Z.land_spec, Z.pow2_bits_eqb by done.
    destruct (Z.eqb_spec 63 i) as [<-|Hi]; destruct (Z.testbit (x / U64) 63);
      rewrite ?Z.pow2_bits_eqb, ?Z.bits_0, ?andb_false_r, ?andb_true_r by done; try done.
    by destruct (Z.eqb_spec 63 i). }
  rewrite Ht. by destruct Hb as [-> | ->].
Qed.
Lemma fill_slot_counted g i : slots_counted (frontier_of g) → slots_counted (frontier_of (fill_slot g i)).
Proof.
  unfold slots_counted. cbn [frontier_of fr_slots fr_participation]. intros [Hr Hp].
  unfold fill_slot. set (filled := match i with O => 1 | S _ => 0 end).
  assert (filled = 0 ∨ filled = 1) as Hf by (subst filled; destruct i; auto).
  cbn [gpo_recent_slots_filled gpo_participation_count set_gpo_participation_count set_gpo_recent_slots_filled].
  rewrite top_bit by done. set (x := gpo_recent_slots_filled g) in *.
  rewrite u128_add_spec, u128_shl_spec, u128_of_int64_spec, Z.shiftl_mul_pow2 by done.
  assert (0 ≤ x mod 2 ^ 127 < 2 ^ 127) as Hm by by apply Z.mod_pos_bound.
  assert ((x * 2 ^ 1) mod U128 = x mod 2 ^ 127 * 2) as ->
    by (change U128 with (2 ^ 127 * 2 ^ 1); rewrite Z.mul_mod_distr_r by done; done).
  rewrite (Z.mod_small filled) by (unfold U128; lia).
  rewrite Z.mod_small by (change U128 with (2 ^ 127 * 2); lia).
  split; [change U128 with (2 ^ 127 * 2); lia|]. rewrite Hp.
  rewrite (popcount_top 127 x) by (change (2 ^ (Z.of_nat 127 + 1)) with U128; done).
  change (Z.of_nat 127) with 127. set (m := x mod 2 ^ 127) in *.
  change (popcount 128 (m * 2 + filled)) with ((m * 2 + filled) mod 2 + popcount 127 ((m * 2 + filled) / 2)).
  rewrite (Z.add_comm (m * 2)), Z_mod_plus_full, Z.div_add by done.
  rewrite (Z.div_small filled), (Z.mod_small filled) by lia. cbn [Z.add]. 
  pose proof (popcount_range 127 m). unfold to_uint8.
  rewrite Z.add_simpl_r, (Z.mod_small (popcount 127 m)) by (unfold U8; lia).
  rewrite Z.mod_small by (unfold U8; lia). change (0 + m) with m. lia.
Qed.
Lemma fill_slots_counted g l : slots_counted (frontier_of g) → slots_counted (frontier_of (foldl fill_slot g l)).
Proof. revert g. induction l as [|i l IH]; intros g Hg; [done|]. by apply IH, fill_slot_counted. Qed.

(** ** The merkle root *)

(** The tree over a list splits it at the largest power of two below its
    length, as in RFC 6962; the domain separation of that document is not used. *)
Definition split_point (n : nat) : nat := 2 ^ Nat.log2 (n - 1).
Fixpoint tree_hash (fuel : nat) (ids : list Z) : option Z :=
  match ids with
  | [] => None
  | [id] => Some id
  | _ =>
      match fuel with
      | O => None
      | S fuel' =>
          let k := split_point (length ids) in
          l ← tree_hash fuel' (take k ids);
          r ← tree_hash fuel' (drop k ids);
          Some (sha256_hash (l, r))
      end
  end.

Lemma hash_pairs_take k l : hash_pairs (take (2 * k) l) = take k (hash_pairs l).
Proof.
  revert l. induction k as [|k IH]; intros l; [done|]. replace (2 * S k)%nat with (S (S (2 * k))) by lia.
  destruct l as [|a [|b l]]; [done|by destruct k|]. cbn [take hash_pairs]. by rewrite IH.
Qed.
Lemma hash_pairs_drop k l : hash_pairs (drop (2 * k) l) = drop k (hash_pairs l).
Proof.
  revert l. induction k as [|k IH]; intros l; [done|]. replace (2 * S k)%nat with (S (S (2 * k))) by lia.
  destruct l as [|a [|b l]]; [done| |exact (IH l)]. cbn [drop hash_pairs]. by destruct k.
Qed.
Lemma length_hash_pairs l : length (hash_pairs l) = ((length l + 1) / 2)%nat.
Proof.
  induction l as [l IH] using (induction_ltof1 _ (@length Z)). destruct l as [|a [|b l]]; [done..|].
  cbn [hash_pairs length]. rewrite IH by (unfold ltof; cbn; lia).
  replace (S (S (length l)) + 1)%nat with (length l + 1 + 1 * 2)%nat by lia. rewrite Nat.div_add by lia. lia.
Qed.
Lemma split_point_half n : (3 ≤ n)%nat → split_point n = (2 * split_point ((n + 1) / 2))%nat.
Proof.
  intros Hn. unfold split_point.
  assert ((n + 1) / 2 - 1 = (n - 1) / 2)%nat as ->.
  { replace (n + 1)%nat with (n - 1 + 1 * 2)%nat by lia. rewrite Nat.div_add by lia. lia. }
  rewrite <- Nat.pow_succ_r'. f_equal. apply Nat.log2_unique; [lia|].
  pose proof (Nat.log2_spec ((n - 1) / 2)) as [H1 H2]; [apply Nat.div_str_pos; lia|].
  pose proof (Nat.div_mod_eq (n - 1) 2). pose proof (Nat.mod_upper_bound (n - 1) 2).
  rewrite !Nat.pow_succ_r' in *. lia.
Qed.
Lemma split_point_range n : (2 ≤ n)%nat → (0 < split_point n < n)%nat.
Proof.
  intros Hn. unfold split_point. pose proof (Nat.log2_spec (n - 1)).
  assert (2 ^ Nat.log2 (n - 1) ≠ 0)%nat by (by apply Nat.pow_nonzero). lia.
Qed.
Lemma tree_hash_split f ids : (2 ≤ length ids)%nat →
  tree_hash (S f) ids =
    l ← tree_hash f (take (split_point (length ids)) ids);
    r ← tree_hash f (drop (split_point (length ids)) ids); Some (sha256_hash (l, r)).
Proof. destruct ids as [|a [|b ids]]; cbn [length]; [lia..|done]. Qed.
(** A round of the loop does not change the tree. *)
Lemma tree_hash_pairs n ids f f' :
  (length ids ≤ n)%nat → (length ids ≤ f)%nat → (length (hash_pairs ids) ≤ f')%nat →
  tree_hash f' (hash_pairs ids) = tree_hash f ids.
Proof.
  revert ids f f'. induction n as [|n IH]; intros ids f f' Hn Hf Hf'.
  { destruct ids; [|cbn in Hn; lia]. by destruct f, f'. }
  destruct (decide (length ids ≤ 2)%nat) as [Hs|Hs].
  { destruct ids as [|a [|b [|c ids]]]; cbn [length] in *; try lia; [by destruct f, f'..|].
    destruct f as [|[|f]]; [lia..|]. rewrite tree_hash_split by (cbn; lia). by destruct f'. }
  pose proof (length_hash_pairs ids) as El.
  assert (2 ≤ length (hash_pairs ids))%nat as Hl.
  { rewrite El. pose proof (Nat.div_le_mono 4 (length ids + 1) 2 ltac:(lia) ltac:(lia)) as Hd. exact Hd. }
  destruct f as [|f]; [lia|]. destruct f' as [|f']; [lia|]. rewrite !tree_hash_split by lia.
  rewrite <- hash_pairs_take, <- hash_pairs_drop, El, <- split_point_half by lia.
  pose proof (split_point_range (length ids)).
  assert (split_point (length ids) = 2 * split_point (length (hash_pairs ids)))%nat as Ek
    by (rewrite El; apply split_point_half; lia).
  pose proof (split_point_range (length (hash_pairs ids))).
  rewrite (IH _ f f'), (IH _ f f'); [done|rewrite ?length_drop, ?length_take; try lia..].
  all: rewrite Ek; first [rewrite hash_pairs_drop, length_drop; lia | rewrite hash_pairs_take, length_take; lia].
Qed.
Lemma merkle_loop_tree fuel ids :
  ids ≠ [] → (length ids ≤ fuel)%nat → ∃ r, merkle_loop fuel ids = [r] ∧ tree_hash fuel ids = Some r.
Proof.
  revert ids. induction fuel as [|fuel IH]; intros ids Hne Hl.
  { destruct ids; [done|cbn in Hl; lia]. }
  cbn [merkle_loop]. destruct (1 <? length ids)%nat eqn:E1.
  - apply Nat.ltb_lt in E1.
    assert (length (hash_pairs ids) ≤ fuel ∧ 1 ≤ length (hash_pairs ids))%nat as [Hp Hp1].
    { rewrite length_hash_pairs. pose proof (Nat.div_mod_eq (length ids + 1) 2).
      pose proof (Nat.mod_upper_bound (length ids + 1) 2). lia. }
    destruct (IH (hash_pairs ids)) as (r & H1 & H2); [by destruct (hash_pairs ids); [cbn in Hp1; lia|]|done|].
    exists r. split; [done|]. by rewrite <- (tree_hash_pairs (length ids) _ _ fuel).
  - apply Nat.ltb_ge in E1. destruct ids as [|a [|b ids]]; cbn in E1; [done|by exists a|lia].
Qed.

(** What a block does to the head. *)
Lemma block_frontier skip b db db' :
  _apply_block skip b db = Ok (tt, db') →
  let h := sbh_header (sb_header b) in
  let n := block_num h in
  follows_head skip b db ∧
  ∃ aslot lib slots counted, frontier db' = Frontier n (header_id (sb_header b)) (bh_timestamp h) aslot lib slots counted ∧
    (if n <? STEEMIT_START_MINER_VOTING_BLOCK then
       lib = if STEEMIT_MAX_WITNESSES <? n then n - STEEMIT_MAX_WITNESSES else fr_irreversible (frontier db)
     else fr_irreversible (frontier db) ≤ lib) ∧
    (slots_counted (frontier db) → slots_counted (frontier db')).
Proof.
  intros H. apply apply_block_steps in H as (w & s1 & s2 & s3 & s4 & H1 & H2 & _ & H4 & E1 & E3 & E4).
  cbn zeta. split.
  - unfold apply_transactions in H1. apply bind_ok in H1 as (u & s & Hm & H1).
    apply lift_ok in Hm as [_ ->]. apply bind_ok in H1 as (v & s' & Hv & _).
    by apply validate_block_header_ok in Hv as [Hv _].
  - apply update_global_dynamic_data_ok in H2. apply update_last_irreversible_ok in H4 as (lib & E5 & Hl).
    rewrite E5, E3, H2 in E4. rewrite E3, H2 in Hl. cbn [fr_number fr_irreversible] in Hl.
    change (gpo_last_irreversible_block_num (db_gpo s1)) with (fr_irreversible (frontier s1)) in Hl.
    rewrite E1 in Hl. do 4 eexists. split; [exact E4|]. split.
    + destruct (_ <? STEEMIT_START_MINER_VOTING_BLOCK); [done|]. destruct Hl as (ws & new & _ & _ & ->). lia.
    + rewrite <- E1, E4. intros Hc. unfold slots_counted. cbn [with_irreversible fr_slots fr_participation].
      exact (fill_slots_counted (db_gpo s1) _ Hc).
Qed.
End rules.

Section theorems.
Context {F : Fc} {B : Boost} {D : DiffMatchPatch} {K : Crypto} {E : Equihash} {P : Plugins} {PL : PluginLaws}.

(** C8: a block applies only on top of the head block it names, with a later
    timestamp and, unless these checks are skipped, with the signature of the
    witness that the schedule names for its slot; afterwards the block is the
    head block: the chain's head number, id and time are the block's. *)
Theorem applied_block_header skip b db db' :
  _apply_block skip b db = Ok (tt, db') →
  follows_head skip b db ∧
  let h := sbh_header (sb_header b) in
  gpo_head_block_number (db_gpo db') = block_num h ∧
  gpo_head_block_id (db_gpo db') = header_id (sb_header b) ∧
  gpo_time (db_gpo db') = bh_timestamp h.
Proof.
  intros (Hf & aslot & lib & slots & counted & Hfr & _)%block_frontier. split; [done|]. by injection Hfr.
Qed.

(** C10: each block adds one to the head number, which is the number in the id of
    the head block, and the last irreversible block never goes back. *)
Theorem head_advances skip b db db' :
  head_consistent db → gpo_head_block_number (db_gpo db) + 1 < U32 →
  _apply_block skip b db = Ok (tt, db') →
  head_consistent db' ∧
  gpo_head_block_number (db_gpo db') = gpo_head_block_number (db_gpo db) + 1 ∧
  gpo_last_irreversible_block_num (db_gpo db) ≤ gpo_last_irreversible_block_num (db_gpo db').
Proof.
  intros (Hid & Hn & Hlib & Hearly) Hmax ((Hprev & _) & aslot & lib & slots & counted & Hfr & Hl & _)%block_frontier.
  assert (block_num (sbh_header (sb_header b)) = fr_number (frontier db) + 1) as Hnum.
  { unfold block_num. rewrite Hprev. change (gpo_head_block_id (db_gpo db)) with (fr_id (frontier db)).
    rewrite Hid. apply Z.mod_small. cbn in *. lia. }
  assert (gpo_head_block_number (db_gpo db') = fr_number (frontier db) + 1) as E1 by (by injection Hfr; congruence).
  assert (gpo_last_irreversible_block_num (db_gpo db') = lib) as E2 by by injection Hfr.
  assert (gpo_head_block_id (db_gpo db') = header_id (sb_header b)) as E3 by by injection Hfr.
  assert (fr_irreversible (frontier db) ≤ lib) as Hle.
  { rewrite Hnum in Hl. unfold STEEMIT_MAX_WITNESSES in *. repeat case_match; lia. }
  split; [|split; [done|by rewrite E2]]. unfold head_consistent. cbn [frontier frontier_of fr_id fr_number fr_irreversible].
  rewrite E1, E2, E3, num_from_header_id, Hnum. split_and!; [done|lia|lia|].
  rewrite Hnum in Hl. unfold STEEMIT_MAX_WITNESSES in *. intros ?. repeat case_match; lia.
Qed.

(** C9: how the last irreversible block moves, at any height.  While the head is
    below block 864000 no confirmation is asked for: it becomes the head minus
    21 once the head is past 21, and stays before.  From block 864000 on it does
    not go back, and when it moves, at least three quarters of the scheduled
    witnesses have confirmed a block with its new number or a later one (the
    confirmed numbers are unsigned). *)
Theorem irreversible_confirmed s s' :
  update_last_irreversible_block s = Ok (tt, s') →
  let head := gpo_head_block_number (db_gpo s) in
  let old := gpo_last_irreversible_block_num (db_gpo s) in
  let new := gpo_last_irreversible_block_num (db_gpo s') in
  (head < STEEMIT_START_MINER_VOTING_BLOCK →
     new = if STEEMIT_MAX_WITNESSES <? head then head - STEEMIT_MAX_WITNESSES else old) ∧
  (STEEMIT_START_MINER_VOTING_BLOCK ≤ head →
     ∃ ws, scheduled_witnesses s = Ok (ws, s) ∧ old ≤ new ∧
       (Forall (λ w, 0 ≤ wit_last_confirmed_block_num w) ws → old < new →
        3 * Z.of_nat (length ws) ≤ 4 * Z.of_nat (length (confirmed new ws)))).
Proof.
  intros H head old new. apply update_last_irreversible_ok in H as (lib & Hfr & Hl).
  assert (new = lib) as -> by by injection Hfr.
  change (fr_number (frontier s)) with head in Hl. change (fr_irreversible (frontier s)) with old in Hl.
  destruct (Z.ltb_spec head STEEMIT_START_MINER_VOTING_BLOCK); (split; intros; [|try lia]); [done|lia|].
  destruct Hl as (ws & n & Hws & Hn & ->). exists ws. split_and!; [done|lia|].
  intros Hpos Hlt. rewrite Z.max_r by lia. by apply nth_confirmed_majority.
Qed.

(** The participation the chain reports is the number of slots with a block
    among the last 128: the counter is the number of bits set in the record
    after every block, and never overflows its eight bits. *)
Theorem participation_counts_slots skip b db db' :
  slots_counted (frontier db) → _apply_block skip b db = Ok (tt, db') →
  slots_counted (frontier db') ∧ 0 ≤ gpo_participation_count (db_gpo db') ≤ 128.
Proof.
  intros Hc (_ & aslot & lib & slots & counted & _ & _ & Hs)%block_frontier. specialize (Hs Hc).
  split; [done|]. destruct Hs as [_ Hs]. change (gpo_participation_count (db_gpo db')) with (fr_participation (frontier db')).
  rewrite Hs. apply popcount_range.
Qed.

(** C11: the loop that computes the merkle root in place, round after round, ends
    with a single hash, which is the root of the tree over the transactions that
    splits at the largest power of two, as defined in RFC 6962; a block without
    transactions has the empty root. *)
Theorem merkle_root_is_tree b :
  let ids := merkle_digest <$> sb_transactions b in
  calculate_merkle_root b =
    match ids with
    | [] => EmptyString
    | _ => from_option ripemd160_hash EmptyString (tree_hash (length ids) ids)
    end ∧
  (ids ≠ [] → is_Some (tree_hash (length ids) ids)).
Proof.
  cbn zeta. unfold calculate_merkle_root. destruct (merkle_digest <$> sb_transactions b) as [|id ids]; [done|].
  destruct (merkle_loop_tree (length (id :: ids)) (id :: ids)) as (r & -> & ->); [done..|]. done.
Qed.
End theorems.

(** ** The theorems on the first block *)
#[local] Existing Instance fc_model.
#[local] Existing Instances boost_model no_patches crypto_model no_mining no_plugins no_plugins_laws.

Lemma applied_block_header_witness :
  follows_head skip_nothing first_block (genesis 1000) ∧ gpo_head_block_number (db_gpo after_first_block) = 1.
Proof.
  destruct (applied_block_header skip_nothing first_block (genesis 1000) after_first_block first_block_run) as (H & E & _).
  split; [exact H|]. rewrite E. vm_compute. reflexivity.
Defined.
Lemma head_advances_witness : head_consistent after_first_block.
Proof.
  refine (proj1 (head_advances skip_nothing first_block (genesis 1000) after_first_block _ _ first_block_run)).
  - split_and!; vm_compute; try reflexivity; intros; discriminate.
  - vm_compute. reflexivity.
Defined.
Lemma participation_counts_slots_witness : slots_counted (frontier after_first_block).
Proof.
  refine (proj1 (participation_counts_slots skip_nothing first_block (genesis 1000) after_first_block _ first_block_run)).
  split; [split; vm_compute; [discriminate|reflexivity]|vm_compute; reflexivity].
Defined.

Lemma ok_pair_inj {S A} (a b : A) (s t : S) : Ok (a, s) = Ok (b, t) → a = b.
Proof. by intros [= -> _]. Qed.
(** The witness of genesis has confirmed block 900000. *)
Definition voting_state : database :=
  let db := genesis 1000 in
  let db := set_db_gpo (set_gpo_head_block_number 900000 (db_gpo db)) db in
  match modify 0 (λ w : witness_object, Ok (set_wit_last_confirmed_block_num 900000 w)) db with
  | Ok (_, db) => db
  | Throw _ => db
  end.
Lemma irreversible_confirmed_witness :
  let lib := gpo_last_irreversible_block_num (db_gpo (state_of (update_last_irreversible_block voting_state))) in
  lib = 900000 ∧
  3 * Z.of_nat (length (all_rows (A := witness_object) voting_state))
    ≤ 4 * Z.of_nat (length (confirmed lib (all_rows (A := witness_object) voting_state))).
Proof.
  cbn zeta. split; [vm_compute; reflexivity|].
  assert (update_last_irreversible_block voting_state = Ok (tt, state_of (update_last_irreversible_block voting_state)))
    as Hrun by (vm_compute; reflexivity).
  destruct (proj2 (irreversible_confirmed voting_state _ Hrun)) as (ws & Hws & _ & Hconfirmed).
  { vm_compute. discriminate. }
  assert (ws = all_rows (A := witness_object) voting_state) as ->.
  { refine (ok_pair_inj _ _ _ _ (eq_trans (eq_sym Hws) _)). vm_compute. reflexivity. }
  apply Hconfirmed.
  - vm_compute. repeat constructor; discriminate.
  - vm_compute. reflexivity.
Defined.
