(* ===== verification/ForkDatabase.v ===== *)
(** * The fork database

    [fork_database] of chain/fork_database.hpp and fork_database.cpp: the tree of
    the blocks that are not yet irreversible.  The items are shared objects that
    know their parent by a weak pointer, so the model has a heap of items: a
    pointer is the position of an item in it, items are allocated at the end.  A
    weak pointer can be locked while the index, the head or a caller, which
    keeps the branches it fetched, holds the item.

    [_push_next] and the index of unlinked blocks are dead code in the source:
    [push_block] rethrows before it would cache a block that does not link. *)
From S2P Require Import Prelude Fc Config Asset Objects Protocol BlockHeader.
From S2P Require Import Comments Mining Transactions Block.

Record fork_item := ForkItem {
  fi_prev : option nat; fi_num : Z; fi_invalid : bool; fi_id : string; fi_data : signed_block }.

Record fork_database := ForkDb {
  fdb_items : list fork_item;
  fdb_max_size : Z;
  fdb_index : gmap string nat;
  fdb_head : option nat;
  fdb_shared : list nat }.

Definition head_block (b : signed_block) : block_header := sbh_header (sb_header b).

Section fork_database.
Context {K : Crypto}.

(** The constructor of [fork_item]. *)
Definition new_item (b : signed_block) : fork_item :=
  ForkItem None (block_num (head_block b)) false (header_id (sb_header b)) b.
Definition previous_id (x : fork_item) : string := bh_previous (head_block (fi_data x)).

Definition item_at (d : fork_database) (p : nat) : option fork_item := fdb_items d !! p.
(** The shared pointers to an item are those of the index, the head and the
    callers. *)
Definition held (d : fork_database) (p : nat) : bool :=
  bool_decide (fdb_head d = Some p) || bool_decide (p ∈ fdb_shared d) ||
  match item_at d p with
  | Some x => bool_decide (fdb_index d !! fi_id x = Some p)
  | None => false
  end.
(** [prev.lock()] *)
Definition lock (d : fork_database) (w : option nat) : option nat :=
  p ← w; if held d p then Some p else None.

(** ** Changes *)
Definition reset (d : fork_database) : fork_database := ForkDb (fdb_items d) (fdb_max_size d) ∅ None (fdb_shared d).
Definition set_head (p : option nat) (d : fork_database) : fork_database :=
  ForkDb (fdb_items d) (fdb_max_size d) (fdb_index d) p (fdb_shared d).
Definition fork_remove (id : string) (d : fork_database) : fork_database :=
  ForkDb (fdb_items d) (fdb_max_size d) (delete id (fdb_index d)) (fdb_head d) (fdb_shared d).

Definition fork_pop_block (d : fork_database) : result fork_database :=
  match fdb_head d ≫= item_at d with
  | None => FC_ASSERT false "cannot pop an empty fork database";; mret d
  | Some x =>
      match lock d (fi_prev x) with
      | None => FC_ASSERT false "popping head block would leave fork DB empty";; mret d
      | Some p => mret (set_head (Some p) d)
      end
  end.

(** A caller keeps the pointers [ps], or drops them. *)
Definition share (ps : list nat) (d : fork_database) : fork_database :=
  ForkDb (fdb_items d) (fdb_max_size d) (fdb_index d) (fdb_head d) ps.

(** [_index.insert( item )]: an item with the id of another one is not inserted. *)
Definition insert_item (x : fork_item) (d : fork_database) : fork_database :=
  let p := length (fdb_items d) in
  let index := match fdb_index d !! fi_id x with
               | Some _ => fdb_index d
               | None => <[fi_id x := p]> (fdb_index d)
               end in
  ForkDb (fdb_items d ++ [x]) (fdb_max_size d) index (fdb_head d) (fdb_shared d).
Definition start_block (b : signed_block) (d : fork_database) : fork_database :=
  set_head (Some (length (fdb_items d))) (insert_item (new_item b) d).

(** The parent of a block that is pushed; a database that has no head, and the
    first block, take no parent. *)
Definition find_parent (d : fork_database) (b : signed_block) : result (option nat) :=
  let id := bh_previous (head_block b) in
  match fdb_head d with
  | None => mret None
  | Some _ =>
      if bool_decide (id = EmptyString) then mret None
      else
        match fdb_index d !! id with
        | None => Throw unlinkable_block_exception
        | Some p =>
            match item_at d p with
            | Some x => FC_ASSERT (negb (fi_invalid x)) "!(*itr)->invalid";; mret (Some p)
            | None => Throw out_of_range
            end
        end
  end.
Definition head_num (d : fork_database) : option Z := fi_num <$> (fdb_head d ≫= item_at d).
Definition _push_block (b : signed_block) (d : fork_database) : result fork_database :=
  let num := block_num (head_block b) in
  (match head_num d with
   | Some h => FC_ASSERT (Z.max 0 (h - fdb_max_size d) <? num) "attempting to push a block that is too old"
   | None => mret tt
   end);;
  prev ← find_parent d b;
  let p := length (fdb_items d) in
  let d := insert_item (ForkItem prev num false (header_id (sb_header b)) b) d in
  mret (match head_num d with
        | Some h => if h <? num then set_head (Some p) d else d
        | None => set_head (Some p) d
        end).
(** [push_block] returns the head. *)
Definition fork_push_block (b : signed_block) (d : fork_database) : result (option nat * fork_database) :=
  d' ← _push_block b d; mret (fdb_head d', d').

Definition set_max_size (s : Z) (d : fork_database) : fork_database :=
  let d := ForkDb (fdb_items d) s (fdb_index d) (fdb_head d) (fdb_shared d) in
  match head_num d with
  | None => d
  | Some h =>
      let keep p := match item_at d p with Some x => Z.max 0 (h - s) <=? fi_num x | None => false end in
      ForkDb (fdb_items d) s (filter (λ e, keep e.2 = true) (fdb_index d)) (fdb_head d) (fdb_shared d)
  end.

(** ** Queries *)
Definition fork_is_known_block (id : string) (d : fork_database) : bool :=
  match fdb_index d !! id with Some _ => true | None => false end.
Definition fetch_block (id : string) (d : fork_database) : option fork_item :=
  fdb_index d !! id ≫= item_at d.
(** The items of the index with a number, in the order of their insertion. *)
Definition fork_fetch_block_by_number (num : Z) (d : fork_database) : list fork_item :=
  snd <$> filter (λ e, fi_num e.2 = num ∧ fdb_index d !! fi_id e.2 = Some e.1) (imap pair (fdb_items d)).

(** One step back, from an item to its parent. *)
Definition parent (d : fork_database) (x : fork_item) : option fork_item := lock d (fi_prev x) ≫= item_at d.
Definition step_back (d : fork_database) (x : fork_item) : result fork_item :=
  match parent d x with Some y => mret y | None => FC_ASSERT false "first_branch";; Throw out_of_range end.

(** The first two loops of [fetch_branch_from]: back to the height of the other
    branch. *)
Fixpoint level (fuel : nat) (d : fork_database) (num : Z) (x : fork_item) (branch : list fork_item)
    : result (fork_item * list fork_item) :=
  if num <? fi_num x then
    y ← step_back d x;
    match fuel with
    | O => Throw (logic_error "out of rounds")
    | S fuel' => level fuel' d num y (branch ++ [x])
    end
  else mret (x, branch).
(** The third loop: back until both have the same parent. *)
Fixpoint join (fuel : nat) (d : fork_database) (x y : fork_item) (bx b_y : list fork_item)
    : result (list fork_item * list fork_item) :=
  if bool_decide (previous_id x = previous_id y) then mret (bx ++ [x], b_y ++ [y])
  else
    x' ← step_back d x;
    y' ← step_back d y;
    match fuel with
    | O => Throw (logic_error "out of rounds")
    | S fuel' => join fuel' d x' y' (bx ++ [x]) (b_y ++ [y])
    end.
Definition find_item (d : fork_database) (id : string) : result fork_item :=
  match fetch_block id d with
  | Some x => mret x
  | None => FC_ASSERT false "branch_itr != _index.get<block_id>().end()";; Throw out_of_range
  end.
Definition fetch_branch_from (first second : string) (d : fork_database)
    : result (list fork_item * list fork_item) :=
  let fuel := length (fdb_items d) in
  x ← find_item d first;
  y ← find_item d second;
  l ← level fuel d (fi_num y) x [];
  r ← level fuel d (fi_num l.1) y [];
  join fuel d l.1 r.1 l.2 r.2.

(** The pointers to an item and its ancestors. *)
Fixpoint ancestors (fuel : nat) (d : fork_database) (p : nat) : list nat :=
  p :: match fuel, item_at d p ≫= fi_prev with
       | S fuel', Some q => ancestors fuel' d q
       | _, _ => []
       end.
(** The pointers in a branch of [k] items from the block [id]. *)
Definition branch_pointers (d : fork_database) (id : string) (k : nat) : list nat :=
  match fdb_index d !! id with
  | Some p => take k (ancestors (length (fdb_items d)) d p)
  | None => []
  end.

Fixpoint walk_back (fuel : nat) (d : fork_database) (num : Z) (x : fork_item) : option fork_item :=
  if num <? fi_num x then
    y ← parent d x;
    match fuel with
    | O => None
    | S fuel' => walk_back fuel' d num y
    end
  else Some x.
(** The head must exist: the source dereferences it. *)
Definition walk_main_branch_to_num (num : Z) (d : fork_database) : option fork_item :=
  h ← fdb_head d ≫= item_at d;
  if fi_num h <? num then None else walk_back (length (fdb_items d)) d num h.
Definition fetch_block_on_main_branch_by_number (num : Z) (d : fork_database) : option fork_item :=
  match fork_fetch_block_by_number num d with
  | [] => None
  | [x] => Some x
  | _ => walk_main_branch_to_num num d
  end.
End fork_database.

(** ** Well-formed databases *)
Section wf.
Context {K : Crypto}.

(** An item has the number and the id of its block; its parent was allocated
    before it and is the block it names. *)
Definition item_wf (items : list fork_item) (p : nat) (x : fork_item) : Prop :=
  fi_num x = block_num (head_block (fi_data x)) ∧ fi_id x = header_id (sb_header (fi_data x)) ∧
  ∀ q, fi_prev x = Some q → (q < p)%nat ∧ ∃ y, items !! q = Some y ∧ fi_id y = previous_id x.
Record fork_wf (d : fork_database) : Prop := {
  fork_items_wf : ∀ p x, item_at d p = Some x → item_wf (fdb_items d) p x;
  fork_index_wf : ∀ id p, fdb_index d !! id = Some p → ∃ x, item_at d p = Some x ∧ fi_id x = id;
  fork_head_wf : ∀ p, fdb_head d = Some p → is_Some (item_at d p) }.

Lemma item_wf_app items l p x : item_wf items p x → item_wf (items ++ l) p x.
Proof.
  intros (Hn & Hid & Hprev). split_and!; [done..|]. intros q Hq. destruct (Hprev q Hq) as (Hlt & y & Hy & E).
  split; [done|]. exists y. by rewrite (lookup_app_l_Some _ _ _ _ Hy).
Qed.
Lemma item_at_insert x d p y :
  item_at (insert_item x d) p = Some y ↔ item_at d p = Some y ∨ p = length (fdb_items d) ∧ y = x.
Proof.
  unfold item_at, insert_item. cbn. rewrite lookup_app_Some, list_lookup_singleton_Some. split.
  - intros [?|(? & ? & ->)]; [by left|]. right. split; [lia|done].
  - intros [?|[-> ->]]; [by left|]. right. split_and!; [lia|lia|done].
Qed.
Lemma insert_item_wf x d :
  fork_wf d → item_wf (fdb_items d) (length (fdb_items d)) x → fork_wf (insert_item x d).
Proof.
  intros [Hi Hx Hh] Hw. split.
  - intros p y [Hp|[-> ->]]%item_at_insert; apply item_wf_app; [by apply Hi|done].
  - intros id p. cbn. assert (∀ q y, item_at d q = Some y → item_at (insert_item x d) q = Some y) as Hold
      by (intros q y Hy; apply item_at_insert; by left).
    destruct (fdb_index d !! fi_id x); [|intros [[<- <-]|[_ Hp]]%lookup_insert_Some].
    2: { exists x. split; [|done]. apply item_at_insert. by right. }
    all: try intros Hp; destruct (Hx _ _ Hp) as (y & Hy & E); exists y; eauto.
  - intros p Hp. destruct (Hh p Hp) as [y Hy]. exists y. apply item_at_insert. by left.
Qed.
Lemma find_parent_wf d b prev :
  fork_wf d → find_parent d b = Ok prev →
  ∀ q, prev = Some q → (q < length (fdb_items d))%nat ∧ ∃ y, fdb_items d !! q = Some y ∧ fi_id y = bh_previous (head_block b).
Proof.
  intros Hd. unfold find_parent. destruct (fdb_head d); [|by intros [= <-]].
  case_bool_decide; [by intros [= <-]|]. destruct (fdb_index d !! _) as [p|] eqn:Hp; [|done].
  destruct (item_at d p) as [y|] eqn:Hy; [|done]. intros (u & _ & [= <-])%rbind_ok q [= <-].
  destruct (fork_index_wf _ Hd _ _ Hp) as (y' & Hy' & E). assert (y' = y) as -> by congruence.
  split; [by apply lookup_lt_Some in Hy|]. by exists y.
Qed.
Lemma set_head_wf p d : fork_wf d → (∀ q, p = Some q → is_Some (item_at d q)) → fork_wf (set_head p d).
Proof. intros [Hi Hx _] Hp. by split. Qed.

(** ** Every operation keeps a database well formed *)
Lemma fork_push_wf b d d' : fork_wf d → _push_block b d = Ok d' → fork_wf d'.
Proof.
  intros Hd. unfold _push_block. intros (u & _ & H)%rbind_ok. apply rbind_ok in H as (prev & Hp & [= <-]).
  set (x := ForkItem _ _ _ _ _). assert (fork_wf (insert_item x d)) as Hi.
  { apply insert_item_wf; [done|]. split_and!; [done..|]. exact (find_parent_wf _ _ _ Hd Hp). }
  assert (fork_wf (set_head (Some (length (fdb_items d))) (insert_item x d))).
  { apply set_head_wf; [done|]. intros q [= <-]. exists x. apply item_at_insert. by right. }
  repeat case_match; done.
Qed.
Lemma start_block_wf b d : fork_wf d → fork_wf (start_block b d).
Proof.
  intros Hd. apply set_head_wf; [apply insert_item_wf; [done|by split_and!]|].
  intros q [= <-]. exists (new_item b). apply item_at_insert. by right.
Qed.
Lemma fork_pop_wf d d' : fork_wf d → fork_pop_block d = Ok d' → fork_wf d'.
Proof.
  intros Hd. unfold fork_pop_block. destruct (fdb_head d ≫= _) as [x|] eqn:Hx; [|done].
  destruct (lock d (fi_prev x)) as [p|] eqn:Hp; [|done]. intros [= <-]. apply set_head_wf; [done|].
  intros q [= <-]. apply bind_Some in Hx as (h & Eh & Hx).
  apply bind_Some in Hp as (q & Eq & Hq). destruct (held d q); [|done]. injection Hq as ->.
  destruct (fork_items_wf _ Hd _ _ Hx) as (_ & _ & Hprev). by destruct (Hprev _ Eq) as (_ & y & Hy & _); exists y.
Qed.
Lemma fork_remove_wf id d : fork_wf d → fork_wf (fork_remove id d).
Proof. intros [Hi Hx Hh]. split; [done| |done]. cbn. intros i p [_ Hp]%lookup_delete_Some. by apply Hx. Qed.
Lemma set_max_size_wf s d : fork_wf d → fork_wf (set_max_size s d).
Proof.
  intros [Hi Hx Hh]. unfold set_max_size. case_match; [|done]. split; [done| |done].
  cbn. intros i p [Hp _]%map_lookup_filter_Some. by apply Hx.
Qed.
Lemma share_wf ps d : fork_wf d → fork_wf (share ps d).
Proof. by intros [Hi Hx Hh]. Qed.
Lemma reset_wf d : fork_wf d → fork_wf (reset d).
Proof. intros [Hi _ _]. split; [done| |done]. cbn. intros id p Hp. by rewrite lookup_empty in Hp. Qed.

(** ** Walks along the parents *)
Inductive walk (d : fork_database) : fork_item → list fork_item → fork_item → Prop :=
| walk_here x : walk d x [] x
| walk_back_to x y l z : parent d x = Some y → walk d y l z → walk d x (x :: l) z.
#[local] Hint Constructors walk : core.

Lemma walk_snoc d x l y z : walk d x l y → parent d y = Some z → walk d x (l ++ [y]) z.
Proof. induction 1; cbn; eauto. Qed.
Lemma parent_at d p x y : fork_wf d → item_at d p = Some x → parent d x = Some y →
  ∃ q, (q < p)%nat ∧ item_at d q = Some y ∧ fi_id y = previous_id x.
Proof.
  intros Hd Hx (q & (q' & Eq & Hq)%bind_Some & Hy)%bind_Some. destruct (held d q'); [|done]. injection Hq as ->.
  destruct (fork_items_wf _ Hd _ _ Hx) as (_ & _ & Hprev). destruct (Hprev _ Eq) as (Hlt & y' & Hy' & E).
  exists q. unfold item_at in *. split_and!; [done..|]. congruence.
Qed.
(** The number of a block is one more than that of its parent. *)
Lemma parent_num d p x y : fork_wf d → item_at d p = Some x → parent d x = Some y →
  fi_num x = to_uint32 (fi_num y + 1).
Proof.
  intros Hd Hx Hy. destruct (parent_at _ _ _ _ Hd Hx Hy) as (q & _ & Hq & E).
  destruct (fork_items_wf _ Hd _ _ Hx) as (-> & _). destruct (fork_items_wf _ Hd _ _ Hq) as (-> & Eid & _).
  unfold block_num at 1. change (bh_previous (head_block (fi_data x))) with (previous_id x).
  by rewrite <- E, Eid, num_from_header_id.
Qed.

(** *** The loops of [fetch_branch_from] *)
Lemma step_back_ok d x y : step_back d x = Ok y ↔ parent d x = Some y.
Proof. unfold step_back. destruct (parent d x); (split; [|try done]); by intros [= ->]. Qed.
Lemma level_walk fuel d num x br x' br' :
  level fuel d num x br = Ok (x', br') →
  ∃ l, br' = br ++ l ∧ walk d x l x'.
Proof.
  revert x br. induction fuel as [|fuel IH]; intros x br; cbn [level]; destruct (num <? fi_num x) eqn:E.
  all: try (intros [= <- <-]; exists []; rewrite app_nil_r; done).
  all: intros (y & Hy%step_back_ok & H)%rbind_ok; try done.
  apply IH in H as (l & -> & Hw). exists (x :: l). rewrite <- app_assoc. eauto.
Qed.
Lemma join_walk fuel d x y bx b_y rx ry :
  join fuel d x y bx b_y = Ok (rx, ry) →
  ∃ lx x' ly y', rx = bx ++ lx ++ [x'] ∧ ry = b_y ++ ly ++ [y'] ∧ walk d x lx x' ∧ walk d y ly y' ∧
    length lx = length ly ∧ previous_id x' = previous_id y' ∧
    ∀ i a b, lx !! i = Some a → ly !! i = Some b → previous_id a ≠ previous_id b.
Proof.
  revert x y bx b_y. induction fuel as [|fuel IH]; intros x y bx b_y; cbn [join]; case_bool_decide as E.
  all: try (intros [= <- <-]; exists [], x, [], y; split_and!; [done..|]; intros ??? Hi; by rewrite lookup_nil in Hi).
  all: intros (x1 & Hx%step_back_ok & H)%rbind_ok; apply rbind_ok in H as (y1 & Hy%step_back_ok & H); try done.
  apply IH in H as (lx & x' & ly & y' & -> & -> & Hwx & Hwy & Hl & Ep & Hne).
  exists (x :: lx), x', (y :: ly), y'. rewrite <- !app_assoc. split_and!; [done..|eauto|eauto|cbn; lia|done|].
  intros [|i] a b; cbn; [by intros [= <-] [= <-]|apply Hne].
Qed.

(** *** The fuel is enough: a parent was allocated before its child *)
Definition out_of_rounds {A} (r : result A) : Prop := r = Throw (logic_error "out of rounds").
Lemma step_back_rounds d x : ¬ out_of_rounds (step_back d x).
Proof. unfold out_of_rounds, step_back. by destruct (parent d x). Qed.
Lemma out_of_rounds_bind {A B} (r : result A) (f : A → result B) :
  out_of_rounds (r ≫= f) → out_of_rounds r ∨ ∃ a, r = Ok a ∧ out_of_rounds (f a).
Proof.
  unfold out_of_rounds. destruct r as [a|e]; rsimpl; [eauto|]. intros [= ->]. by left.
Qed.
Lemma level_rounds fuel d num p x br :
  fork_wf d → item_at d p = Some x → (p ≤ fuel)%nat → ¬ out_of_rounds (level fuel d num x br).
Proof.
  intros Hd. revert p x br. induction fuel as [|fuel IH]; intros p x br Hp Hle; cbn [level];
    destruct (num <? fi_num x); try done.
  all: intros [H|(y & Hy%step_back_ok & H)]%out_of_rounds_bind; [by eapply step_back_rounds|].
  all: destruct (parent_at _ _ _ _ Hd Hp Hy) as (q & Hq & Hyq & _).
  1: lia.
  revert H. eapply IH; [exact Hyq|lia].
Qed.
Lemma join_rounds fuel d p x q y bx b_y :
  fork_wf d → item_at d p = Some x → item_at d q = Some y → (p ≤ fuel)%nat → (q ≤ fuel)%nat →
  ¬ out_of_rounds (join fuel d x y bx b_y).
Proof.
  intros Hd. revert p x q y bx b_y. induction fuel as [|fuel IH]; intros p x q y bx b_y Hp Hq Hle Hle'; cbn [join];
    case_bool_decide; try done.
  all: intros [H'|(x1 & Hx%step_back_ok & H')]%out_of_rounds_bind; [by eapply step_back_rounds|].
  all: apply out_of_rounds_bind in H' as [H'|(y1 & Hy%step_back_ok & H')]; [by eapply step_back_rounds|].
  all: destruct (parent_at _ _ _ _ Hd Hp Hx) as (p1 & Hp1 & Hx1 & _), (parent_at _ _ _ _ Hd Hq Hy) as (q1 & Hq1 & Hy1 & _).
  1: lia.
  revert H'. eapply IH; [exact Hx1|exact Hy1|lia|lia].
Qed.
Lemma walk_at d p x l y : fork_wf d → item_at d p = Some x → walk d x l y → ∃ q, (q ≤ p)%nat ∧ item_at d q = Some y.
Proof.
  intros Hd Hp Hw. revert p Hp. induction Hw as [x|x y l z Hxy Hw IH]; intros p Hp; [by exists p|].
  destruct (parent_at _ _ _ _ Hd Hp Hxy) as (q & Hq & Hy & _). destruct (IH q Hy) as (r & Hr & Hz).
  exists r. split; [lia|done].
Qed.

(** *** Branches that meet are found *)

(** The numbers of the blocks are far from the end of the 32-bit range. *)
Definition small_numbers (d : fork_database) : Prop :=
  ∀ p x, item_at d p = Some x → 0 ≤ fi_num x < U32 - 1.
Lemma parent_succ d p x y : fork_wf d → small_numbers d → item_at d p = Some x → parent d x = Some y →
  fi_num x = fi_num y + 1.
Proof.
  intros Hd Hs Hx Hy. destruct (parent_at _ _ _ _ Hd Hx Hy) as (q & _ & Hq & _). specialize (Hs _ _ Hq).
  rewrite (parent_num _ _ _ _ Hd Hx Hy). apply Z.mod_small. lia.
Qed.
Lemma walk_length d p x l y : fork_wf d → small_numbers d → item_at d p = Some x → walk d x l y →
  fi_num x = fi_num y + Z.of_nat (length l).
Proof.
  intros Hd Hs Hp Hw. revert p Hp. induction Hw as [x|x y l z Hxy Hw IH]; intros p Hp; [cbn; lia|].
  destruct (parent_at _ _ _ _ Hd Hp Hxy) as (q & _ & Hq & _). rewrite (parent_succ _ _ _ _ Hd Hs Hp Hxy), (IH q Hq).
  cbn [length]. lia.
Qed.
Lemma same_parent_num d p x q y : fork_wf d → item_at d p = Some x → item_at d q = Some y →
  previous_id x = previous_id y → fi_num x = fi_num y.
Proof.
  intros Hd Hx Hy E. destruct (fork_items_wf _ Hd _ _ Hx) as (-> & _), (fork_items_wf _ Hd _ _ Hy) as (-> & _).
  unfold block_num. unfold previous_id in E. by rewrite E.
Qed.
Lemma level_num fuel d num p x br x' br' :
  fork_wf d → small_numbers d → item_at d p = Some x → level fuel d num x br = Ok (x', br') →
  fi_num x' = Z.min num (fi_num x).
Proof.
  intros Hd Hs. revert p x br. induction fuel as [|fuel IH]; intros p x br Hp; cbn [level];
    destruct (num <? fi_num x) eqn:E.
  all: try (intros [= <- <-]; lia).
  all: intros (y & Hy%step_back_ok & H)%rbind_ok; try done.
  destruct (parent_at _ _ _ _ Hd Hp Hy) as (q & _ & Hq & _). rewrite (IH q y _ Hq H).
  pose proof (parent_succ _ _ _ _ Hd Hs Hp Hy). lia.
Qed.
(** A walk goes on from where [level] stops. *)
Lemma level_total fuel d num p x l z br :
  fork_wf d → small_numbers d → item_at d p = Some x → (p ≤ fuel)%nat → walk d x l z → fi_num z ≤ num →
  ∃ x' k, level fuel d num x br = Ok (x', br ++ take k l) ∧ walk d x' (drop k l) z ∧
    walk d x (take k l) x' ∧ fi_num x' = Z.min num (fi_num x).
Proof.
  intros Hd Hs. revert p x l br. induction fuel as [|fuel IH]; intros p x l br Hp Hle Hw Hz; cbn [level].
  all: destruct (num <? fi_num x) eqn:E;
    [|exists x, 0%nat; rewrite take_0, drop_0, app_nil_r; split_and!; [done|done|constructor|lia]].
  all: destruct Hw as [x|x y l z Hxy Hw]; [lia|].
  all: destruct (parent_at _ _ _ _ Hd Hp Hxy) as (q & Hq & Hy & _).
  1: lia.
  rewrite (proj2 (step_back_ok _ _ _) Hxy). rsimpl.
  destruct (IH q y l (br ++ [x]) Hy ltac:(lia) Hw Hz) as (x' & k & -> & Hw1 & Hw2 & En).
  pose proof (parent_succ _ _ _ _ Hd Hs Hp Hxy).
  exists x', (S k). cbn [take drop]. rewrite <- app_assoc. split_and!; [done|done|eauto|lia].
Qed.
Lemma join_total fuel d p x q y lx ly zx zy bx b_y :
  fork_wf d → item_at d p = Some x → item_at d q = Some y → (p ≤ fuel)%nat → (q ≤ fuel)%nat →
  walk d x lx zx → walk d y ly zy → length lx = length ly → previous_id zx = previous_id zy →
  is_ok (join fuel d x y bx b_y) = true.
Proof.
  intros Hd. revert p x q y lx ly bx b_y. induction fuel as [|fuel IH];
    intros p x q y lx ly bx b_y Hp Hq Hle Hle' Hx Hy Hl Ez; cbn [join]; case_bool_decide as E; try done.
  all: destruct Hx as [x|x x1 lx zx Hx1 Hx]; destruct Hy as [y|y y1 ly zy Hy1 Hy]; try done.
  all: destruct (parent_at _ _ _ _ Hd Hp Hx1) as (p1 & Hp1 & Hxp & _), (parent_at _ _ _ _ Hd Hq Hy1) as (q1 & Hq1 & Hyq & _).
  1: lia.
  rewrite (proj2 (step_back_ok _ _ _) Hx1), (proj2 (step_back_ok _ _ _) Hy1). rsimpl.
  eapply IH; [exact Hxp|exact Hyq|lia|lia|exact Hx|exact Hy|by injection Hl|done].
Qed.
Lemma find_item_ok d id x : fork_wf d → find_item d id = Ok x →
  ∃ p, item_at d p = Some x ∧ (p ≤ length (fdb_items d))%nat ∧ fi_id x = id.
Proof.
  intros Hd. unfold find_item. destruct (fetch_block id d) as [y|] eqn:Hy; [|done]. intros [= <-].
  apply bind_Some in Hy as (p & Hp & Hy). destruct (fork_index_wf _ Hd _ _ Hp) as (y' & Hy' & E).
  exists p. assert (y' = y) as -> by congruence. split_and!; [done| |done]. apply lookup_lt_Some in Hy. lia.
Qed.
End wf.

(** ** The states a fork database can reach *)
Section reachable.
Context {K : Crypto}.

Definition empty_fork_database : fork_database := ForkDb [] 1024 ∅ None [].

Inductive fork_step (d : fork_database) : fork_database → Prop :=
| step_reset : fork_step d (reset d)
| step_start b : fork_step d (start_block b d)
| step_push b d' : _push_block b d = Ok d' → fork_step d d'
| step_pop d' : fork_pop_block d = Ok d' → fork_step d d'
| step_remove id : fork_step d (fork_remove id d)
| step_set_head p x : item_at d p = Some x → fork_step d (set_head (Some p) d)
| step_max_size s : fork_step d (set_max_size s d)
| step_share ps : fork_step d (share ps d).
Definition fork_reachable (d : fork_database) : Prop := rtc fork_step empty_fork_database d.

Lemma fork_step_wf d d' : fork_wf d → fork_step d d' → fork_wf d'.
Proof.
  intros Hd [|b|b d1 H|d1 H|id|p x H|s|ps].
  - by apply reset_wf.
  - by apply start_block_wf.
  - by eapply fork_push_wf.
  - by eapply fork_pop_wf.
  - by apply fork_remove_wf.
  - apply set_head_wf; [done|]. intros q [= <-]. by exists x.
  - by apply set_max_size_wf.
  - by apply share_wf.
Qed.
Lemma fork_reachable_wf d : fork_reachable d → fork_wf d.
Proof.
  apply rtc_ind_r; [|intros y z _ Hs Hy; by eapply fork_step_wf].
  split; unfold item_at; cbn; intros *; rewrite ?lookup_nil, ?lookup_empty; done.
Qed.

(** The blocks from [id] back to some ancestor. *)
Definition branch (d : fork_database) (id : string) (l : list fork_item) : Prop :=
  ∃ x l' z, fetch_block id d = Some x ∧ l = l' ++ [z] ∧ walk d x l' z.
(** Two branches end in blocks with the same parent. *)
Definition meet (l l' : list fork_item) : Prop := previous_id <$> last l = previous_id <$> last l'.

Lemma fetch_branch_steps a b d bx b_y :
  fork_wf d → small_numbers d → fetch_branch_from a b d = Ok (bx, b_y) →
  ∃ x y l1 x1 l2 y1 lx x' ly y',
    fetch_block a d = Some x ∧ fetch_block b d = Some y ∧
    (∃ p, item_at d p = Some x) ∧ (∃ q, item_at d q = Some y) ∧
    walk d x l1 x1 ∧ fi_num x1 = Z.min (fi_num y) (fi_num x) ∧
    walk d y l2 y1 ∧ fi_num y1 = Z.min (fi_num x1) (fi_num y) ∧
    walk d x1 lx x' ∧ walk d y1 ly y' ∧ bx = l1 ++ lx ++ [x'] ∧ b_y = l2 ++ ly ++ [y'] ∧
    length lx = length ly ∧ previous_id x' = previous_id y' ∧
    ∀ i v w, lx !! i = Some v → ly !! i = Some w → previous_id v ≠ previous_id w.
Proof.
  intros Hd Hs. unfold fetch_branch_from. intros (x & Hx & H)%rbind_ok. apply rbind_ok in H as (y & Hy & H).
  apply rbind_ok in H as ([x1 l1] & H1 & H). apply rbind_ok in H as ([y1 l2] & H2 & H). cbn [fst snd] in *.
  pose proof (find_item_ok _ _ _ Hd Hx) as (p & Hp & _). pose proof (find_item_ok _ _ _ Hd Hy) as (q & Hq & _).
  pose proof (level_num _ _ _ _ _ _ _ _ Hd Hs Hp H1). pose proof (level_num _ _ _ _ _ _ _ _ Hd Hs Hq H2).
  apply level_walk in H1 as (l1' & -> & Hw1). apply level_walk in H2 as (l2' & -> & Hw2).
  apply join_walk in H as (lx & x' & ly & y' & -> & -> & Hwx & Hwy & Hl & Ep & Hne).
  unfold find_item in Hx, Hy. destruct (fetch_block a d) as [?|] eqn:Ea; [|done].
  destruct (fetch_block b d) as [?|] eqn:Eb; [|done]. injection Hx as ->. injection Hy as ->.
  exists x, y, l1', x1, l2', y1, lx, x', ly, y'. split_and!; eauto.
Qed.
(** The head is the highest block of the index. *)
Definition head_highest (d : fork_database) : Prop :=
  ∀ id p x, fdb_index d !! id = Some p → item_at d p = Some x → ∃ n, head_num d = Some n ∧ fi_num x ≤ n.
Lemma index_insert x d id p :
  fdb_index (insert_item x d) !! id = Some p →
  fdb_index d !! id = Some p ∨ id = fi_id x ∧ p = length (fdb_items d).
Proof.
  cbn. destruct (fdb_index d !! fi_id x); [by left|]. intros [[<- <-]|[_ ?]]%lookup_insert_Some; auto.
Qed.
Lemma insert_known x d : fork_is_known_block (fi_id x) (insert_item x d) = true.
Proof.
  unfold fork_is_known_block. cbn. destruct (fdb_index d !! fi_id x) eqn:E; [by rewrite E|].
  by rewrite lookup_insert_eq.
Qed.
Lemma insert_highest x d d1 m :
  fork_wf d → head_highest d → fdb_items d1 = fdb_items (insert_item x d) → fdb_index d1 = fdb_index (insert_item x d) →
  head_num d1 = Some m → fi_num x ≤ m → (∀ n, head_num d = Some n → n ≤ m) →
  head_highest d1 ∧ fork_is_known_block (fi_id x) d1 = true.
Proof.
  intros Hd Hh Ei Ex Hm Hle Hn. split; [|unfold fork_is_known_block; rewrite Ex; apply insert_known].
  intros id p y Hp Hy. exists m. split; [done|]. unfold item_at in Hy. rewrite Ei in Hy. rewrite Ex in Hp.
  apply index_insert in Hp as [Hp|[-> ->]].
  - destruct (fork_index_wf _ Hd _ _ Hp) as (z & Hz & _).
    apply item_at_insert in Hy as [Hy|[-> _]]; [|apply lookup_lt_Some in Hz; lia].
    destruct (Hh _ _ _ Hp Hy) as (n & Hn' & ?). specialize (Hn _ Hn'). lia.
  - apply item_at_insert in Hy as [Hy|[_ ->]]; [apply lookup_lt_Some in Hy; lia|done].
Qed.
Lemma walk_app d x l y l' z : walk d x l y → walk d y l' z → walk d x (l ++ l') z.
Proof. induction 1; cbn; [done|]. intros Hw. econstructor; eauto. Qed.
End reachable.

Section theorems.
Context {K : Crypto}.

(** C21: [fetch_branch_from] returns the way back from each of the two blocks to
    blocks with the same parent, and stops at the first such pair: at every
    earlier height the two branches have different parents. *)
Theorem fetch_branch_correct d a b bx b_y :
  fork_reachable d → small_numbers d → fetch_branch_from a b d = Ok (bx, b_y) →
  branch d a bx ∧ branch d b b_y ∧ meet bx b_y ∧
  ∀ i v w, reverse bx !! S i = Some v → reverse b_y !! S i = Some w → previous_id v ≠ previous_id w.
Proof.
  intros Hd%fork_reachable_wf Hs H. apply fetch_branch_steps in H; [|done..].
  destruct H as (x & y & l1 & x1 & l2 & y1 & lx & x' & ly & y' & Ea & Eb & (p & Hp) & (q & Hq) & Hw1 & Hn1 & Hw2 & Hn2
    & Hwx & Hwy & -> & -> & Hl & Ep & Hne).
  split_and!.
  - exists x, (l1 ++ lx), x'. rewrite <- app_assoc. split_and!; [done..|]. by eapply walk_app.
  - exists y, (l2 ++ ly), y'. rewrite <- app_assoc. split_and!; [done..|]. by eapply walk_app.
  - unfold meet. rewrite !app_assoc, !last_snoc. cbn. by rewrite Ep.
  - pose proof (walk_length _ _ _ _ _ Hd Hs Hp Hw1). pose proof (walk_length _ _ _ _ _ Hd Hs Hq Hw2).
    assert (length l1 = 0 ∨ length l2 = 0)%nat as Hnil by lia.
    intros i v w. rewrite !app_assoc, !reverse_snoc, !reverse_app. cbn [lookup list_lookup]. intros Hv Hw.
    assert (i < length lx)%nat as Hi.
    { apply lookup_lt_Some in Hv, Hw. rewrite length_app, !length_reverse in *. lia. }
    apply lookup_app_Some in Hv as [Hv|[Hv _]]; [|rewrite length_reverse in Hv; lia].
    apply lookup_app_Some in Hw as [Hw|[Hw _]]; [|rewrite length_reverse in Hw; lia].
    rewrite reverse_lookup in Hv, Hw by lia. rewrite <- Hl in Hw. by eapply Hne.
Qed.

(** C22: [fetch_branch_from] ends on every tree of blocks, by a result or by an
    assertion, and it does return the branches of two known blocks whenever
    their ancestors that the database still holds include two with the same
    parent. *)
Theorem fetch_branch_total d a b :
  fork_reachable d →
  ¬ out_of_rounds (fetch_branch_from a b d) ∧
  (small_numbers d → (∃ l l', branch d a l ∧ branch d b l' ∧ meet l l') →
   is_ok (fetch_branch_from a b d) = true).
Proof.
  intros Hd%fork_reachable_wf. split.
  - unfold fetch_branch_from. intros [H|(x & Hx & H)]%out_of_rounds_bind.
    { unfold out_of_rounds, find_item in H. by destruct (fetch_block a d). }
    apply out_of_rounds_bind in H as [H|(y & Hy & H)].
    { unfold out_of_rounds, find_item in H. by destruct (fetch_block b d). }
    destruct (find_item_ok _ _ _ Hd Hx) as (p & Hp & Hpl & _), (find_item_ok _ _ _ Hd Hy) as (q & Hq & Hql & _).
    apply out_of_rounds_bind in H as [H|([x1 l1] & H1 & H)]; [by eapply level_rounds in H|].
    apply out_of_rounds_bind in H as [H|([y1 l2] & H2 & H)]; [by eapply level_rounds in H|].
    apply level_walk in H1 as (l & _ & Hw1). apply level_walk in H2 as (l' & _ & Hw2). cbn [fst snd] in H.
    destruct (walk_at _ _ _ _ _ Hd Hp Hw1) as (p1 & ? & Hp1), (walk_at _ _ _ _ _ Hd Hq Hw2) as (q1 & ? & Hq1).
    eapply join_rounds in H; [done|done|exact Hp1|exact Hq1|lia|lia].
  - intros Hs (l & l' & (x & lx & zx & Ex & -> & Hx) & (y & ly & zy & Ey & -> & Hy) & Hm).
    unfold meet in Hm. rewrite !last_snoc in Hm. injection Hm as Ez.
    unfold fetch_branch_from, find_item. rewrite Ex, Ey. rsimpl.
    destruct (find_item_ok d a x Hd) as (p & Hp & Hpl & _); [unfold find_item; by rewrite Ex|].
    destruct (find_item_ok d b y Hd) as (q & Hq & Hql & _); [unfold find_item; by rewrite Ey|].
    pose proof (walk_at _ _ _ _ _ Hd Hp Hx) as (pz & _ & Hpz). pose proof (walk_at _ _ _ _ _ Hd Hq Hy) as (qz & _ & Hqz).
    pose proof (same_parent_num _ _ _ _ _ Hd Hpz Hqz Ez) as En.
    pose proof (walk_length _ _ _ _ _ Hd Hs Hp Hx). pose proof (walk_length _ _ _ _ _ Hd Hs Hq Hy).
    destruct (level_total (length (fdb_items d)) d (fi_num y) p x lx zx [] Hd Hs Hp Hpl Hx) as (x1 & k & -> & Hx1 & Hx1' & Nx);
      [lia|]. rsimpl. cbn [fst snd].
    destruct (level_total (length (fdb_items d)) d (fi_num x1) q y ly zy [] Hd Hs Hq Hql Hy) as (y1 & k' & -> & Hy1 & Hy1' & Ny);
      [lia|]. rsimpl. cbn [fst snd].
    destruct (walk_at _ _ _ _ _ Hd Hp Hx1') as (p1 & ? & Hp1), (walk_at _ _ _ _ _ Hd Hq Hy1') as (q1 & ? & Hq1).
    eapply join_total; [done|exact Hp1|exact Hq1|lia|lia|exact Hx1|exact Hy1| |exact Ez].
    pose proof (walk_length _ _ _ _ _ Hd Hs Hp1 Hx1). pose proof (walk_length _ _ _ _ _ Hd Hs Hq1 Hy1). lia.
Qed.

(** C23: when the head has the highest number among the blocks of the index, it
    does so again after [push_block], which returns it; the block is then known,
    and it is the head exactly when it is higher than the head before. *)
Theorem push_block_highest b d h d' :
  fork_reachable d → head_highest d → fork_push_block b d = Ok (h, d') →
  let num := block_num (head_block b) in
  h = fdb_head d' ∧ head_highest d' ∧ fork_is_known_block (header_id (sb_header b)) d' = true ∧
  head_num d' = Some (match head_num d with Some n => Z.max n num | None => num end).
Proof.
  intros Hd%fork_reachable_wf Hh. unfold fork_push_block. intros (d1 & H & [= <- <-])%rbind_ok.
  unfold _push_block in H. apply rbind_ok in H as (u & _ & H). apply rbind_ok in H as (prev & Hp & [= <-]).
  set (x := ForkItem _ _ _ _ _). set (num := block_num (head_block b)).
  assert (head_num (insert_item x d) = head_num d) as Ehn.
  { unfold head_num. cbn [fdb_head insert_item]. destruct (fdb_head d) as [p|] eqn:Ep; [|done]. cbn [mbind option_bind].
    destruct (fork_head_wf _ Hd _ Ep) as [y Hy]. rewrite Hy. by rewrite (proj2 (item_at_insert x d p y) (or_introl Hy)). }
  assert (item_at (insert_item x d) (length (fdb_items d)) = Some x) as Hx by (apply item_at_insert; by right).
  assert (head_num (set_head (Some (length (fdb_items d))) (insert_item x d)) = Some num) as Hnew.
  { unfold head_num. cbn [fdb_head set_head mbind option_bind]. change (item_at (set_head _ ?e)) with (item_at e). by rewrite Hx. }
  rewrite Ehn. cbn zeta. fold num. split; [done|]. destruct (head_num d) as [n|] eqn:En; [destruct (n <? num) eqn:Elt|].
  - destruct (insert_highest x d (set_head (Some (length (fdb_items d))) (insert_item x d)) _ Hd Hh eq_refl eq_refl Hnew) as [H1 H2]; [done|intros k Hk; rewrite En in Hk; injection Hk as <-; lia|].
    split_and!; [done..|]. rewrite Hnew. f_equal. lia.
  - destruct (insert_highest x d (insert_item x d) _ Hd Hh eq_refl eq_refl Ehn) as [H1 H2]; [cbn; lia|intros k Hk; rewrite En in Hk; injection Hk as <-; lia|].
    split_and!; [done..|]. rewrite Ehn. f_equal. lia.
  - destruct (insert_highest x d (set_head (Some (length (fdb_items d))) (insert_item x d)) _ Hd Hh eq_refl eq_refl Hnew)
      as [H1 H2]; [done|intros k Hk; by rewrite En in Hk|done].
Qed.
End theorems.

(** ** The theorems on a small tree: two blocks on the first one, and a third
    on the second of them *)
#[local] Existing Instance crypto_model.
Definition block_on (previous witness : string) : signed_block :=
  SignedBlock (SignedBlockHeader (BlockHeader previous 0 witness EmptyString []) EmptyString) [].
Definition id_of (b : signed_block) : string := header_id (sb_header b).
Definition block_1 : signed_block := block_on EmptyString "a".
Definition block_2 : signed_block := block_on (id_of block_1) "b".
Definition block_2' : signed_block := block_on (id_of block_1) "c".
Definition block_3 : signed_block := block_on (id_of block_2') "d".
Definition pushed (b : signed_block) (d : fork_database) : fork_database :=
  match _push_block b d with Ok d' => d' | Throw _ => d end.
Definition small_tree : fork_database :=
  pushed block_3 (pushed block_2' (pushed block_2 (start_block block_1 empty_fork_database))).
Lemma small_tree_reachable : fork_reachable small_tree.
Proof.
  unfold small_tree. eapply rtc_r; [eapply rtc_r; [eapply rtc_r; [eapply rtc_once; apply (step_start _ block_1)|]|]|].
  - apply (step_push _ block_2). vm_compute. reflexivity.
  - apply (step_push _ block_2'). vm_compute. reflexivity.
  - apply (step_push _ block_3). vm_compute. reflexivity.
Qed.
Lemma small_tree_range p x : item_at small_tree p = Some x → 0 ≤ fi_num x ≤ 3.
Proof.
  intros Hx%list_elem_of_lookup_2%list_elem_of_In.
  assert (forallb (λ x, (0 <=? fi_num x) && (fi_num x <=? 3)) (fdb_items small_tree) = true) as Hf
    by (vm_compute; reflexivity).
  rewrite forallb_forall in Hf. specialize (Hf x Hx). lia.
Qed.
Lemma small_tree_numbers : small_numbers small_tree.
Proof.
  intros p x Hx. pose proof (small_tree_range p x Hx). split; [lia|]. apply Z.le_lt_trans with 3; [lia|done].
Qed.
Lemma fetch_branch_correct_witness :
  ∃ bx b_y, fetch_branch_from (id_of block_3) (id_of block_2) small_tree = Ok (bx, b_y) ∧
    fi_data <$> bx = [block_3; block_2'] ∧ fi_data <$> b_y = [block_2] ∧ branch small_tree (id_of block_3) bx.
Proof.
  destruct (fetch_branch_from (id_of block_3) (id_of block_2) small_tree) as [[bx b_y]|e] eqn:H.
  2: { exfalso. cut (is_ok (fetch_branch_from (id_of block_3) (id_of block_2) small_tree) = true);
       [by rewrite H|vm_compute; reflexivity]. }
  exists bx, b_y. split; [done|].
  assert (fi_data <$> bx = [block_3; block_2'] ∧ fi_data <$> b_y = [block_2]) as [E1 E2].
  { vm_compute in H. injection H as <- <-. split; vm_compute; reflexivity. }
  split; [exact E1|split; [exact E2|]].
  exact (proj1 (fetch_branch_correct _ _ _ _ _ small_tree_reachable small_tree_numbers H)).
Defined.
Lemma fetch_branch_total_witness :
  ¬ out_of_rounds (fetch_branch_from (id_of block_3) (id_of block_2) small_tree).
Proof. exact (proj1 (fetch_branch_total _ _ _ small_tree_reachable)). Defined.
Lemma push_block_highest_witness :
  head_highest (pushed (block_on (id_of block_3) "e") small_tree).
Proof.
  refine (proj1 (proj2 (push_block_highest (block_on (id_of block_3) "e") small_tree
    (fdb_head (pushed (block_on (id_of block_3) "e") small_tree)) _ small_tree_reachable _ _))).
  - intros id p x Hp Hx. exists 3. split; [vm_compute; reflexivity|].
    apply (small_tree_range p x Hx).
  - vm_compute. reflexivity.
Defined.
