(* ===== verification/BlockLog.v ===== *)
(** * The block log

    [block_log] of chain/block_log.hpp and block_log.cpp: a file of blocks, each
    followed by its position, and an index file with the positions.  The files
    are lists of bytes.  A stream opened for appending is at the end of its file,
    so the flags that switch the streams between reading and writing are not
    modelled; a read past the end throws, as the streams are set to do.

    The packing of a block is fc's: the class [Packing] has it with the law that
    unpacking what was packed gives the block back and leaves the rest, for the
    blocks whose strings and vectors are within the sizes fc unpacks. *)
From Stdlib Require Import Zdiv.
From S2P Require Import Prelude Fc Config Asset Objects Protocol BlockHeader.
From S2P Require Import Comments Mining Transactions Block.

Class Packing := {
  pack_block : signed_block → list Z;
  unpack_block : list Z → result (signed_block * list Z);
  packable : signed_block → Prop;
  unpack_pack : ∀ b rest, packable b → unpack_block (pack_block b ++ rest) = Ok (b, rest);
}.

(** An [uint64_t] in the memory of a little-endian machine. *)
Fixpoint le_bytes (n : nat) (x : Z) : list Z :=
  match n with O => [] | S n' => x mod 256 :: le_bytes n' (x / 256) end.
Fixpoint le_value (l : list Z) : Z :=
  match l with [] => 0 | b :: l' => b + 256 * le_value l' end.
Definition u64_bytes (x : Z) : list Z := le_bytes 8 x.

Record block_log := BlockLog {
  bl_head : option signed_block; bl_head_id : string;
  block_file : list Z; index_file : list Z }.

Section block_log.
Context {K : Crypto} {P : Packing}.

Definition npos : Z := U64 - 1.
Definition set_index_file (f : list Z) (l : block_log) : block_log :=
  BlockLog (bl_head l) (bl_head_id l) (block_file l) f.

(** [stream.read] of eight bytes *)
Definition read_u64 (stream : list Z) : result (Z * list Z) :=
  if (8 <=? length stream)%nat then Ok (le_value (take 8 stream), drop 8 stream)
  else Throw (logic_error "read past the end").
(** [seekg( -sizeof( uint64_t ), std::ios::end )] and the read *)
Definition read_last (file : list Z) : result Z :=
  if (8 <=? length file)%nat then x ← read_u64 (drop (length file - 8) file); mret x.1
  else Throw (logic_error "seek before the beginning").

Definition append (b : signed_block) (l : block_log) : result (Z * block_log) :=
  let pos := Z.of_nat (length (block_file l)) in
  let num := block_num (sbh_header (sb_header b)) in
  FC_ASSERT (Z.of_nat (length (index_file l)) =? 8 * to_uint32 (num - 1))
    "Append to index file occuring at wrong position.";;
  mret (pos, BlockLog (Some b) (header_id (sb_header b))
               (block_file l ++ pack_block b ++ u64_bytes pos) (index_file l ++ u64_bytes pos)).

Definition read_block (pos : Z) (l : block_log) : result (signed_block * Z) :=
  x ← unpack_block (drop (Z.to_nat pos) (block_file l));
  mret (x.1, Z.of_nat (length (block_file l)) - Z.of_nat (length x.2) + 8).
Definition get_block_pos (num : Z) (l : block_log) : result Z :=
  match bl_head l with
  | Some _ =>
      if (num <=? num_from_id (bl_head_id l)) && (0 <? num) then
        x ← read_u64 (drop (Z.to_nat (8 * (num - 1))) (index_file l)); mret x.1
      else mret npos
  | None => mret npos
  end.
Definition read_block_by_num (num : Z) (l : block_log) : result (option signed_block) :=
  pos ← get_block_pos num l;
  if pos =? npos then mret None
  else
    x ← read_block pos l;
    FC_ASSERT (block_num (sbh_header (sb_header x.1)) =? num) "Wrong block was read from block log.";;
    mret (Some x.1).
Definition read_head (l : block_log) : result signed_block :=
  pos ← read_last (block_file l); x ← read_block pos l; mret x.1.

(** The loop of [construct_index]: [stream] is what is left to read. *)
Fixpoint scan (fuel : nat) (pos end_pos : Z) (stream index : list Z) : result (list Z) :=
  if pos <? end_pos then
    match fuel with
    | O => Throw (logic_error "out of rounds")
    | S fuel' =>
        x ← unpack_block stream;
        y ← read_u64 x.2;
        scan fuel' y.1 end_pos y.2 (index ++ u64_bytes y.1)
    end
  else mret index.
Definition construct_index (l : block_log) : result block_log :=
  end_pos ← read_last (block_file l);
  index ← scan (length (block_file l)) 0 end_pos (block_file l) [];
  mret (set_index_file index l).

(** [open] on the contents of the two files. *)
Definition open (blocks index : list Z) : result block_log :=
  let l := BlockLog None EmptyString blocks index in
  if (0 <? length blocks)%nat then
    head ← read_head l;
    let l := BlockLog (Some head) (header_id (sb_header head)) blocks index in
    if (0 <? length index)%nat then
      block_pos ← read_last blocks;
      index_pos ← read_last index;
      if block_pos <? index_pos then construct_index l
      else if index_pos <? block_pos then construct_index l
      else mret l
    else construct_index l
  else if (0 <? length index)%nat then mret (set_index_file [] l)
  else mret l.
Definition empty_log : block_log := BlockLog None EmptyString [] [].
End block_log.

(** ** Bytes *)
Lemma length_le_bytes n x : length (le_bytes n x) = n.
Proof. revert x. induction n as [|n IH]; intros x; cbn; [done|]. by rewrite IH. Qed.
Lemma le_value_bytes n x : 0 ≤ x < 256 ^ Z.of_nat n → le_value (le_bytes n x) = x.
Proof.
  revert x. induction n as [|n IH]; intros x Hx; cbn [le_bytes le_value].
  - change (256 ^ Z.of_nat 0) with 1 in Hx. lia.
  - rewrite Nat2Z.inj_succ, Z.pow_succ_r in Hx by lia. rewrite IH.
    + pose proof (Z.div_mod x 256). lia.
    + split; [apply Z.div_pos; lia|]. apply Z.div_lt_upper_bound; lia.
Qed.
Lemma read_u64_bytes x rest : 0 ≤ x < U64 → read_u64 (u64_bytes x ++ rest) = Ok (x, rest).
Proof.
  intros Hx. unfold read_u64, u64_bytes. rewrite length_app, length_le_bytes. cbn [Nat.leb Nat.add].
  rewrite take_app_length', drop_app_length' by (by rewrite length_le_bytes).
  rewrite le_value_bytes by done. done.
Qed.
Lemma read_last_bytes file x : 0 ≤ x < U64 → read_last (file ++ u64_bytes x) = Ok x.
Proof.
  intros Hx. unfold read_last. rewrite length_app. unfold u64_bytes at 1 2. rewrite length_le_bytes.
  rewrite (proj2 (Nat.leb_le _ _)) by lia. rewrite drop_app_length' by lia.
  rewrite <- (app_nil_r (u64_bytes x)), read_u64_bytes by done. done.
Qed.

(** ** The files of a list of blocks *)
Section layout.
Context {K : Crypto} {P : Packing}.

Fixpoint layout (pos : nat) (bs : list signed_block) : list Z :=
  match bs with
  | [] => []
  | b :: bs' => pack_block b ++ u64_bytes (Z.of_nat pos) ++ layout (pos + length (pack_block b) + 8) bs'
  end.
Fixpoint starts (pos : nat) (bs : list signed_block) : list nat :=
  match bs with [] => [] | b :: bs' => pos :: starts (pos + length (pack_block b) + 8) bs' end.
Definition positions (l : list nat) : list Z := concat ((λ p, u64_bytes (Z.of_nat p)) <$> l).

(** A log that holds the blocks [bs], numbered from one. *)
Record holds (l : block_log) (bs : list signed_block) : Prop := {
  holds_blocks : block_file l = layout 0 bs;
  holds_index : index_file l = positions (starts 0 bs);
  holds_head : bl_head l = last bs;
  holds_head_id : bl_head_id l = from_option (λ b, header_id (sb_header b)) EmptyString (last bs);
  holds_numbers : ∀ i b, bs !! i = Some b → block_num (sbh_header (sb_header b)) = Z.of_nat i + 1;
  holds_packable : Forall packable bs;
  holds_count : Z.of_nat (length bs) < U32;
  holds_size : Z.of_nat (length (layout 0 bs)) < npos }.

Lemma layout_app pos bs bs' : layout pos (bs ++ bs') = layout pos bs ++ layout (pos + length (layout pos bs)) bs'.
Proof.
  revert pos. induction bs as [|b bs IH]; intros pos; cbn [layout app length]; [by rewrite Nat.add_0_r|].
  rewrite IH, <- !app_assoc, !length_app. unfold u64_bytes. rewrite length_le_bytes. do 4 f_equal. lia.
Qed.
Lemma starts_app pos bs bs' : starts pos (bs ++ bs') = starts pos bs ++ starts (pos + length (layout pos bs)) bs'.
Proof.
  revert pos. induction bs as [|b bs IH]; intros pos; cbn [starts layout app length]; [by rewrite Nat.add_0_r|].
  rewrite IH, !length_app. unfold u64_bytes. rewrite length_le_bytes. do 3 f_equal. lia.
Qed.
Lemma length_starts pos bs : length (starts pos bs) = length bs.
Proof. revert pos. induction bs as [|b bs IH]; intros pos; cbn; [done|]. by rewrite IH. Qed.
Lemma length_positions l : length (positions l) = (8 * length l)%nat.
Proof.
  induction l as [|p l IH]; [done|]. change (positions (p :: l)) with (u64_bytes (Z.of_nat p) ++ positions l).
  rewrite length_app, IH. unfold u64_bytes. rewrite length_le_bytes. cbn [length]. lia.
Qed.
Lemma positions_app l l' : positions (l ++ l') = positions l ++ positions l'.
Proof. unfold positions. by rewrite fmap_app, concat_app. Qed.

(** Where a block is, and what is there. *)
Lemma starts_at pos bs i b : bs !! i = Some b →
  starts pos bs !! i = Some (pos + length (layout pos (take i bs)))%nat.
Proof.
  intros Hb. rewrite <- (take_drop_middle _ _ _ Hb) at 1. rewrite starts_app. cbn [starts].
  rewrite list_lookup_middle; [done|]. rewrite length_starts, length_take. apply lookup_lt_Some in Hb. lia.
Qed.
Lemma layout_at bs i b : bs !! i = Some b →
  let p := length (layout 0 (take i bs)) in
  drop p (layout 0 bs) = pack_block b ++ u64_bytes (Z.of_nat p) ++ layout (p + length (pack_block b) + 8) (drop (S i) bs).
Proof.
  intros Hb. cbn zeta. rewrite <- (take_drop_middle _ _ _ Hb) at 2. rewrite layout_app, drop_app_length. done.
Qed.
Lemma start_small bs i b : bs !! i = Some b → Z.of_nat (length (layout 0 bs)) < npos →
  0 ≤ Z.of_nat (length (layout 0 (take i bs))) < npos.
Proof.
  intros Hb Hs. rewrite <- (take_drop_middle _ _ _ Hb), layout_app, length_app in Hs. lia.
Qed.
Lemma npos_u64 x : 0 ≤ x < npos → 0 ≤ x < U64.
Proof. unfold npos. lia. Qed.
Lemma index_at l i p rest : l !! i = Some p → 0 ≤ Z.of_nat p < npos →
  ∃ rest', drop (8 * i) (positions l ++ rest) = u64_bytes (Z.of_nat p) ++ rest'.
Proof.
  intros Hp Hs. rewrite <- (take_drop_middle _ _ _ Hp), positions_app, <- app_assoc.
  rewrite drop_app_length' by (rewrite length_positions, length_take; apply lookup_lt_Some in Hp; lia).
  change (positions (p :: ?l')) with (u64_bytes (Z.of_nat p) ++ positions l'). rewrite <- app_assoc. by eexists.
Qed.

(** ** Reading *)
Lemma read_block_at l bs i b : holds l bs → bs !! i = Some b →
  ∃ next, read_block (Z.of_nat (length (layout 0 (take i bs)))) l = Ok (b, next).
Proof.
  intros Hl Hb. unfold read_block. rewrite Nat2Z.id, (holds_blocks _ _ Hl), (layout_at _ _ _ Hb).
  rewrite unpack_pack; [rsimpl; by eexists|].
  pose proof (holds_packable _ _ Hl) as Hp. rewrite Forall_lookup in Hp. by eapply Hp.
Qed.
Lemma holds_last_num l bs b : holds l bs → last bs = Some b → num_from_id (bl_head_id l) = Z.of_nat (length bs).
Proof.
  intros Hl Hb. rewrite (holds_head_id _ _ Hl), Hb. cbn. rewrite num_from_header_id.
  rewrite last_lookup in Hb. rewrite (holds_numbers _ _ Hl _ _ Hb). apply lookup_lt_Some in Hb. lia.
Qed.
Lemma read_by_num_ok l bs n : holds l bs → 0 ≤ n < U32 →
  read_block_by_num n l = Ok (if 0 <? n then bs !! Z.to_nat (n - 1) else None).
Proof.
  intros Hl Hn. unfold read_block_by_num, get_block_pos. rewrite (holds_head _ _ Hl).
  destruct (last bs) as [b|] eqn:Hlast.
  2: { apply last_None in Hlast as ->. rsimpl. rewrite Z.eqb_refl. by destruct (0 <? n). }
  rewrite (holds_last_num _ _ _ Hl Hlast). destruct (0 <? n) eqn:Hpos.
  2: { rewrite andb_false_r. rsimpl. by rewrite Z.eqb_refl. }
  rewrite andb_true_r. destruct (n <=? Z.of_nat (length bs)) eqn:Hle.
  - destruct (lookup_lt_is_Some_2 bs (Z.to_nat (n - 1)) ltac:(lia)) as [c Hc]. rewrite Hc.
    pose proof (start_small _ _ _ Hc (holds_size _ _ Hl)) as Hs.
    destruct (index_at (starts 0 bs) _ _ [] (starts_at 0 _ _ _ Hc) Hs) as [rest Hd].
    rewrite app_nil_r in Hd. replace (Z.to_nat (8 * (n - 1))) with (8 * Z.to_nat (n - 1))%nat by lia.
    rewrite (holds_index _ _ Hl), Hd, read_u64_bytes by (by apply npos_u64). rsimpl. cbn [fst Nat.add].
    rewrite (proj2 (Z.eqb_neq _ _)) by lia. destruct (read_block_at _ _ _ _ Hl Hc) as [next ->]. rsimpl. cbn [fst].
    rewrite (holds_numbers _ _ Hl _ _ Hc). rewrite (proj2 (Z.eqb_eq _ _)) by lia. done.
  - rsimpl. rewrite Z.eqb_refl. rewrite lookup_ge_None_2 by lia. done.
Qed.

(** ** Writing *)
Lemma append_ok l bs b :
  holds l bs → packable b → block_num (sbh_header (sb_header b)) = Z.of_nat (length bs) + 1 →
  Z.of_nat (length (layout 0 (bs ++ [b]))) < npos →
  ∃ l', append b l = Ok (Z.of_nat (length (layout 0 bs)), l') ∧ holds l' (bs ++ [b]).
Proof.
  intros Hl Hpack Hnum Hsize. pose proof (holds_count _ _ Hl) as Hc.
  assert (Z.of_nat (length bs) + 1 < U32) as Hc'.
  { rewrite <- Hnum. unfold block_num. apply Z.mod_pos_bound. done. }
  unfold append. rewrite (holds_index _ _ Hl), (holds_blocks _ _ Hl), length_positions, length_starts, Hnum.
  rewrite Z.add_simpl_r. unfold to_uint32. rewrite Z.mod_small by lia. rewrite (proj2 (Z.eqb_eq _ _)) by lia. rsimpl.
  eexists. split; [done|]. split; cbn [block_file index_file bl_head bl_head_id].
  - rewrite layout_app. cbn [layout Nat.add]. by rewrite !app_nil_r.
  - rewrite starts_app, positions_app. cbn [starts Nat.add]. unfold positions at 3. cbn [fmap list_fmap concat].
    by rewrite app_nil_r.
  - by rewrite last_snoc.
  - by rewrite last_snoc.
  - intros i c [Hi|[Hi Hs]]%lookup_app_Some; [by apply (holds_numbers _ _ Hl)|].
    apply list_lookup_singleton_Some in Hs as [Hs <-]. lia.
  - apply Forall_app. split; [exact (holds_packable _ _ Hl)|by repeat constructor].
  - rewrite length_app. cbn. lia.
  - done.
Qed.
Lemma append_wrong l bs b :
  holds l bs → Z.of_nat (length bs) + 1 < U32 → block_num (sbh_header (sb_header b)) ≠ Z.of_nat (length bs) + 1 →
  is_ok (append b l) = false.
Proof.
  intros Hl Hc Hne. unfold append. rewrite (holds_index _ _ Hl), length_positions, length_starts.
  set (n := block_num _) in *. assert (0 ≤ n < U32) as Hn by (subst n; unfold block_num; by apply Z.mod_pos_bound).
  rewrite (proj2 (Z.eqb_neq _ _)); [done|]. unfold to_uint32. intros E. apply Hne.
  destruct (decide (n = 0)) as [->|Hn0].
  - change ((0 - 1) mod U32) with (U32 - 1) in E. lia.
  - rewrite Z.mod_small in E by lia. lia.
Qed.

(** ** The index is rebuilt *)
Lemma starts_le p bs q : q ∈ starts p bs → (p ≤ q)%nat.
Proof.
  revert p. induction bs as [|b bs IH]; intros p; cbn [starts]; [by rewrite elem_of_nil|].
  rewrite elem_of_cons. intros [->|Hq%IH]; lia.
Qed.
Lemma scan_layout fuel pos p bs e index :
  Forall packable bs → (length bs ≤ fuel)%nat → last (starts p bs) = Some e → Z.of_nat e < U64 → pos < Z.of_nat e ∨ bs = [] →
  scan fuel pos (Z.of_nat e) (layout p bs) index = Ok (index ++ positions (starts p bs)).
Proof.
  revert fuel pos p index. induction bs as [|b bs IH]; intros fuel pos p index Hpk Hf He Hs Hpos; [done|].
  apply Forall_cons in Hpk as [Hb Hpk].
  destruct Hpos as [Hpos|]; [|done]. cbn [length] in Hf. destruct fuel as [|fuel]; [lia|]. cbn [scan layout].
  rewrite (proj2 (Z.ltb_lt _ _)) by lia. rewrite unpack_pack by done. rsimpl. cbn [snd].
  assert (p ≤ e)%nat as Hpe.
  { apply (starts_le p (b :: bs)). rewrite last_lookup in He. by eapply list_elem_of_lookup_2. }
  rewrite read_u64_bytes by lia. rsimpl. cbn [fst snd].
  change (positions (starts p (b :: bs))) with
    (u64_bytes (Z.of_nat p) ++ positions (starts (p + length (pack_block b) + 8) bs)). rewrite app_assoc.
  destruct bs as [|c bs].
  - cbn in He. injection He as <-. cbn [starts positions fmap list_fmap concat]. rewrite app_nil_r.
    destruct fuel; cbn [scan]; by rewrite Z.ltb_irrefl.
  - assert (p < e)%nat.
    { assert (e ∈ starts (p + length (pack_block b) + 8) (c :: bs)) as He'%starts_le; [|lia].
      rewrite last_lookup in He. cbn [starts length Nat.pred] in He. by eapply list_elem_of_lookup_2. }
    apply IH; [done|lia|exact He|done|left; lia].
Qed.
Lemma layout_last bs b :
  layout 0 (bs ++ [b]) = (layout 0 bs ++ pack_block b) ++ u64_bytes (Z.of_nat (length (layout 0 bs))).
Proof. rewrite layout_app. cbn [layout Nat.add]. by rewrite app_nil_r, app_assoc. Qed.
Lemma length_layout_ge p bs : (length bs ≤ length (layout p bs))%nat.
Proof.
  revert p. induction bs as [|b bs IH]; intros p; cbn [layout length]; [done|]. rewrite !length_app.
  unfold u64_bytes. rewrite length_le_bytes. specialize (IH (p + length (pack_block b) + 8)%nat). lia.
Qed.
Lemma construct_index_ok l bs b c :
  Forall packable (bs ++ [b; c]) →
  block_file l = layout 0 (bs ++ [b; c]) → Z.of_nat (length (layout 0 (bs ++ [b; c]))) < npos →
  construct_index l = Ok (set_index_file (positions (starts 0 (bs ++ [b; c]))) l).
Proof.
  intros Hpk Hf Hs. unfold construct_index. rewrite Hf.
  change [b; c] with ([b] ++ [c]) in *. rewrite app_assoc in *. rewrite (layout_last (bs ++ [b]) c) at 1.
  assert (length (layout 0 (bs ++ [b])) < length (layout 0 ((bs ++ [b]) ++ [c])))%nat as Hlt.
  { rewrite (layout_last (bs ++ [b]) c), !length_app. unfold u64_bytes. rewrite length_le_bytes. lia. }
  rewrite read_last_bytes by (apply npos_u64; lia). rsimpl.
  rewrite (scan_layout _ _ _ _ (length (layout 0 (bs ++ [b])))); [done|done|apply length_layout_ge| | |].
  - rewrite starts_app. cbn [starts Nat.add]. by rewrite last_snoc.
  - apply npos_u64. lia.
  - left. rewrite layout_last, !length_app. unfold u64_bytes. rewrite length_le_bytes. lia.
Qed.
Lemma read_head_ok l bs b : packable b → block_file l = layout 0 (bs ++ [b]) → Z.of_nat (length (block_file l)) < npos → read_head l = Ok b.
Proof.
  intros Hpk Hf Hs. unfold read_head, read_block. rewrite Hf in *. rewrite layout_last at 1.
  rewrite layout_app, length_app in Hs. rewrite read_last_bytes by (apply npos_u64; lia). rsimpl. rewrite Nat2Z.id.
  rewrite layout_app, drop_app_length. cbn [layout]. rewrite unpack_pack by done. done.
Qed.
End layout.

Section theorems.
Context {K : Crypto} {P : Packing}.

(** C24: the block log implements a list of blocks numbered from one.  Appending
    the next block appends it to the list, appending any other block throws;
    reading by number returns the block of that number, or none, for every
    number; the head is the last block. *)
Theorem block_log_refines_list l bs :
  holds l bs →
  (∀ n, 0 ≤ n < U32 → read_block_by_num n l = Ok (if 0 <? n then bs !! Z.to_nat (n - 1) else None)) ∧
  bl_head l = last bs ∧
  ∀ b, packable b → Z.of_nat (length bs) + 1 < U32 → Z.of_nat (length (layout 0 (bs ++ [b]))) < npos →
    if block_num (sbh_header (sb_header b)) =? Z.of_nat (length bs) + 1
    then ∃ pos l', append b l = Ok (pos, l') ∧ holds l' (bs ++ [b])
    else is_ok (append b l) = false.
Proof.
  intros Hl. split_and!; [intros n Hn; by apply read_by_num_ok|by apply holds_head|].
  intros b Hpk Hc Hs. destruct (block_num _ =? _) eqn:E.
  - destruct (append_ok l bs b Hl Hpk ltac:(lia) Hs) as (l' & H & Hl'). eauto.
  - apply (append_wrong l bs); [done|done|lia].
Qed.

(** C25: [open] restores the index of a log with two blocks or more whatever the
    index file holds: nothing, the positions a crash has left, or too many of
    them, unless it is a fragment of eight bytes or ends in the right position
    by accident. *)
Theorem open_restores bs b c index :
  let all := bs ++ [b; c] in
  let e := Z.of_nat (length (layout 0 (bs ++ [b]))) in
  (∀ i x, all !! i = Some x → block_num (sbh_header (sb_header x)) = Z.of_nat i + 1) →
  Forall packable all → Z.of_nat (length all) < U32 → Z.of_nat (length (layout 0 all)) < npos →
  index = [] ∨ (∃ x, read_last index = Ok x ∧ (x = e → index = positions (starts 0 all))) →
  ∃ l, open (layout 0 all) index = Ok l ∧ holds l all.
Proof.
  cbn zeta. intros Hn Hpk Hc Hs Hi.
  assert (packable c) as Hpc by (rewrite !Forall_app, !Forall_cons in Hpk; tauto).
  assert (layout 0 (bs ++ [b; c]) =
    (layout 0 (bs ++ [b]) ++ pack_block c) ++ u64_bytes (Z.of_nat (length (layout 0 (bs ++ [b]))))) as Hlast.
  { rewrite <- layout_last. by rewrite <- app_assoc. }
  set (all := bs ++ [b; c]) in *.
  assert (0 ≤ Z.of_nat (length (layout 0 (bs ++ [b]))) < U64) as He.
  { rewrite Hlast, !length_app in Hs. apply npos_u64. lia. }
  assert (last all = Some c) as Hc'.
  { subst all. change [b; c] with ([b] ++ [c]). by rewrite app_assoc, last_snoc. }
  assert (∀ idx, holds (BlockLog (Some c) (header_id (sb_header c)) (layout 0 all) idx) all ↔ idx = positions (starts 0 all)) as Hh.
  { intros idx. split; [by intros [_ ? _ _ _ _ _ _]|]. intros ->. split; cbn; rewrite ?Hc'; done. }
  assert (∀ idx, construct_index (BlockLog (Some c) (header_id (sb_header c)) (layout 0 all) idx) =
    Ok (BlockLog (Some c) (header_id (sb_header c)) (layout 0 all) (positions (starts 0 all)))) as Hr.
  { intros idx. by rewrite (construct_index_ok _ bs b c Hpk) by done. }
  assert (read_last (layout 0 all) = Ok (Z.of_nat (length (layout 0 (bs ++ [b]))))) as Hp
    by (rewrite Hlast; by rewrite read_last_bytes).
  unfold open. rewrite (proj2 (Nat.ltb_lt _ _)).
  2: { pose proof (length_layout_ge 0 all). subst all. rewrite length_app in *. cbn in *. lia. }
  rewrite (read_head_ok _ (bs ++ [b]) c); [|done|cbn; subst all; by rewrite <- app_assoc|done]. rsimpl.
  destruct Hi as [->|(x & Hx & Hxe)]; [cbn [length Nat.ltb]; rewrite Hr; eexists; split; [done|by apply Hh]|].
  destruct (0 <? length index)%nat; [|rewrite Hr; eexists; split; [done|by apply Hh]].
  rewrite Hp, Hx. rsimpl.
  destruct (_ <? x) eqn:E1; [rewrite Hr; eexists; split; [done|by apply Hh]|].
  destruct (x <? _) eqn:E2; [rewrite Hr; eexists; split; [done|by apply Hh]|].
  eexists. split; [done|]. apply Hh, Hxe. lia.
Qed.

(** A log with a single block cannot be used after its index is lost: [open]
    leaves the index empty, so the block cannot be read by its number and the
    next block cannot be appended. *)
Theorem one_block_log_stuck b c :
  packable b → block_num (sbh_header (sb_header b)) = 1 → block_num (sbh_header (sb_header c)) = 2 →
  Z.of_nat (length (layout 0 [b])) < npos →
  ∃ l, open (layout 0 [b]) [] = Ok l ∧ is_ok (read_block_by_num 1 l) = false ∧ is_ok (append c l) = false.
Proof.
  intros Hpk Hb Hc Hs. exists (BlockLog (Some b) (header_id (sb_header b)) (layout 0 [b]) []). split_and!.
  - unfold open. rewrite (proj2 (Nat.ltb_lt _ _)) by (pose proof (length_layout_ge 0 [b]); cbn in *; lia).
    rewrite (read_head_ok _ [] b); [|done|done|done]. rsimpl. cbn [length Nat.ltb].
    unfold construct_index. cbn [block_file].
    assert (read_last (layout 0 [b]) = Ok 0) as -> by (rewrite (layout_last [] b); by rewrite read_last_bytes). rsimpl. by destruct (length (layout 0 [b])).
  - unfold read_block_by_num, get_block_pos. cbn [bl_head bl_head_id index_file].
    rewrite num_from_header_id, Hb. done.
  - unfold append. cbn [index_file length]. by rewrite Hc.
Qed.
End theorems.

(** ** The theorems on blocks that are packed as their number *)
#[local] Existing Instance crypto_model.
Definition numbered_block (n : Z) : signed_block :=
  SignedBlock (SignedBlockHeader (BlockHeader (word_bytes (n - 1) EmptyString) 0 EmptyString EmptyString []) EmptyString) [].
#[refine] Definition packing_model : Packing := {|
  pack_block b := u64_bytes (block_num (sbh_header (sb_header b)));
  unpack_block bytes := x ← read_u64 bytes; mret (numbered_block x.1, x.2);
  packable b := b = numbered_block (block_num (sbh_header (sb_header b))) |}.
Proof.
  intros b rest Hb. rewrite read_u64_bytes;
    [change (Ok (numbered_block (block_num (sbh_header (sb_header b))), rest) = Ok (b, rest)); by rewrite <- Hb|].
  unfold block_num. pose proof (Z.mod_pos_bound (num_from_id (bh_previous (sbh_header (sb_header b))) + 1) U32 ltac:(done)).
  unfold to_uint32. unfold U64. unfold U32 in *. lia.
Defined.
#[local] Existing Instance packing_model.

Definition log_of (bs : list signed_block) : block_log :=
  foldl (λ l b, match append b l with Ok (_, l') => l' | Throw _ => l end) empty_log bs.
Definition three_blocks : list signed_block := numbered_block <$> [1; 2; 3].
Lemma three_blocks_numbered i b : three_blocks !! i = Some b → block_num (sbh_header (sb_header b)) = Z.of_nat i + 1.
Proof.
  destruct i as [|[|[|i]]]; cbn -[numbered_block]; [intros [= <-]; vm_compute; reflexivity..|]. by destruct i.
Qed.
Lemma three_blocks_packable : Forall packable three_blocks.
Proof. repeat constructor; vm_compute; reflexivity. Qed.
Lemma three_blocks_held : holds (log_of three_blocks) three_blocks.
Proof.
  split.
  5: exact three_blocks_numbered.
  5: exact three_blocks_packable.
  all: vm_compute; reflexivity.
Qed.
Lemma block_log_refines_list_witness :
  read_block_by_num 2 (log_of three_blocks) = Ok (Some (numbered_block 2)) ∧
  ∃ pos l', append (numbered_block 4) (log_of three_blocks) = Ok (pos, l') ∧ holds l' (three_blocks ++ [numbered_block 4]).
Proof.
  destruct (block_log_refines_list _ _ three_blocks_held) as (Hr & _ & Ha). split.
  - rewrite Hr; [vm_compute; reflexivity|split; vm_compute; [discriminate|reflexivity]].
  - apply (Ha (numbered_block 4)); vm_compute; reflexivity.
Defined.
(** The index of the first block only. *)
Lemma open_restores_witness :
  ∃ l, open (layout 0 three_blocks) (positions [0%nat]) = Ok l ∧ holds l three_blocks.
Proof.
  apply (open_restores [numbered_block 1] (numbered_block 2) (numbered_block 3)).
  - exact three_blocks_numbered.
  - exact three_blocks_packable.
  - vm_compute. reflexivity.
  - vm_compute. reflexivity.
  - right. exists 0. split; [vm_compute; reflexivity|]. vm_compute. discriminate.
Defined.
Lemma one_block_log_stuck_witness :
  ∃ l, open (layout 0 [numbered_block 1]) [] = Ok l ∧ is_ok (read_block_by_num 1 l) = false ∧
    is_ok (append (numbered_block 2) l) = false.
Proof. apply one_block_log_stuck; vm_compute; reflexivity. Defined.
