(* ===== verification/Node.v ===== *)
(** * The node

    The part of [database] (chain/database.cpp) that runs the chain: it pushes
    blocks and transactions, switches forks, pops and generates blocks.  Its
    state is the chain state with the undo sessions open on it, the fork
    database, the block log and the lists of transactions that wait for a block.

    An undo session is the state it was opened on; [ChainbaseSpec] shows that the
    sessions of the indices restore it.  Other than in the definitions on the
    chain state, an exception keeps the changes that were made before it: a
    computation gives a result and the node it leaves.

    Not modelled: the notifications to plugins, the locks, the counters and the
    flush of the shared memory, the warning about blocks with the same number. *)
From S2P Require Import Prelude Fc Config Asset Chainbase ChainbaseSpec Objects Protocol BlockHeader Database.
From S2P Require Import Supply Votes Ledger Rewards Comments Cashout Genesis Transfers Market Inflation Escrow.
From S2P Require Import EscrowSpec Vesting Frames Proxies Delegations Accounts WitnessSchedule Soundness Hardforks.
From S2P Require Import SignState Mining Operations Transactions Block BlockSafety Frontier BlockRules ForkDatabase BlockLog.

(** [nd_undo]: the states the open sessions started on, the newest first; the
    newest session has the revision [nd_revision], each one below it one less.
    [nd_lost] records that an exception has unwound a session that was already
    committed, so that the changes made in it stay. *)
Record node := Node {
  nd_db : database;
  nd_undo : list database;
  nd_revision : Z;
  nd_fork : fork_database;
  nd_log : block_log;
  nd_pending_tx : list signed_transaction;
  nd_pending_session : bool;
  nd_popped_tx : list signed_transaction;
  nd_checkpoints : gmap Z string;
  nd_lost : bool }.

Definition set_state (db : database) (undo : list database) (revision : Z) (n : node) : node :=
  Node db undo revision (nd_fork n) (nd_log n) (nd_pending_tx n) (nd_pending_session n) (nd_popped_tx n)
    (nd_checkpoints n) (nd_lost n).
Definition set_fork (d : fork_database) (n : node) : node :=
  Node (nd_db n) (nd_undo n) (nd_revision n) d (nd_log n) (nd_pending_tx n) (nd_pending_session n)
    (nd_popped_tx n) (nd_checkpoints n) (nd_lost n).
Definition set_log (l : block_log) (n : node) : node :=
  Node (nd_db n) (nd_undo n) (nd_revision n) (nd_fork n) l (nd_pending_tx n) (nd_pending_session n)
    (nd_popped_tx n) (nd_checkpoints n) (nd_lost n).
Definition set_pending_tx (txs : list signed_transaction) (n : node) : node :=
  Node (nd_db n) (nd_undo n) (nd_revision n) (nd_fork n) (nd_log n) txs (nd_pending_session n)
    (nd_popped_tx n) (nd_checkpoints n) (nd_lost n).
Definition set_pending_session (b : bool) (n : node) : node :=
  Node (nd_db n) (nd_undo n) (nd_revision n) (nd_fork n) (nd_log n) (nd_pending_tx n) b
    (nd_popped_tx n) (nd_checkpoints n) (nd_lost n).
Definition set_popped_tx (txs : list signed_transaction) (n : node) : node :=
  Node (nd_db n) (nd_undo n) (nd_revision n) (nd_fork n) (nd_log n) (nd_pending_tx n) (nd_pending_session n)
    txs (nd_checkpoints n) (nd_lost n).
Definition set_checkpoints (c : gmap Z string) (n : node) : node :=
  Node (nd_db n) (nd_undo n) (nd_revision n) (nd_fork n) (nd_log n) (nd_pending_tx n) (nd_pending_session n)
    (nd_popped_tx n) c (nd_lost n).
Definition set_lost (b : bool) (n : node) : node :=
  Node (nd_db n) (nd_undo n) (nd_revision n) (nd_fork n) (nd_log n) (nd_pending_tx n) (nd_pending_session n)
    (nd_popped_tx n) (nd_checkpoints n) b.

(** ** Computations on a node *)
Definition N (A : Type) : Type := node → result A * node.
#[export] Instance N_ret : MRet N := λ A a n, (Ok a, n).
#[export] Instance N_bind : MBind N := λ A B f m n,
  match m n with
  | (Ok a, n') => f a n'
  | (Throw e, n') => (Throw e, n')
  end.
Definition n_throw {A} (e : fc_exception) : N A := λ n, (Throw e, n).
Definition n_lift {A} (r : result A) : N A := λ n, (r, n).
Definition n_gets {A} (f : node → A) : N A := λ n, (Ok (f n), n).
Definition n_modify (f : node → node) : N unit := λ n, (Ok tt, f n).
Definition n_when (b : bool) (m : N unit) : N unit := if b then m else mret tt.
Fixpoint n_for_each {A} (l : list A) (f : A → N unit) : N unit :=
  match l with [] => mret tt | x :: l' => f x;; n_for_each l' f end.
Fixpoint n_fold {A B} (l : list A) (f : B → A → N B) (acc : B) : N B :=
  match l with [] => mret acc | x :: l' => acc' ← f acc x; n_fold l' f acc' end.
(** [try { m } catch( const fc::exception& e ) { h( e ) }]: what the chain throws
    has been turned into an [fc::exception] by then. *)
Definition n_try {A} (m : N A) (h : fc_exception → N A) : N A := λ n,
  match m n with
  | (Ok a, n') => (Ok a, n')
  | (Throw e, n') => h e n'
  end.
(** A destructor that runs when [m] has ended, whichever way. *)
Definition n_finally {A} (m : N A) (fin : N unit) : N A := λ n, ((m n).1, (fin (m n).2).2).

(** The state that a computation leaves when it throws: a part of its changes. *)
Class Torn := torn : ∀ A : Type, DB A → database → database.

Section sessions.
Context {T : Torn}.

Definition on_db {A} (m : DB A) : N A := λ n,
  match m (nd_db n) with
  | Ok (a, db) => (Ok a, set_state db (nd_undo n) (nd_revision n) n)
  | Throw e => (Throw e, set_state (torn A m (nd_db n)) (nd_undo n) (nd_revision n) n)
  end.
(** A computation that only reads the chain state. *)
Definition reads {A} (m : DB A) : N A := λ n,
  (match m (nd_db n) with Ok (a, _) => Ok a | Throw e => Throw e end, n).

(** ** Undo sessions *)
Definition start_undo_session (n : node) : node :=
  set_state (nd_db n) (nd_db n :: nd_undo n) (nd_revision n + 1) n.
Definition undo (n : node) : node :=
  match nd_undo n with
  | [] => n
  | s :: l => set_state s l (nd_revision n - 1) n
  end.
Definition squash (n : node) : node :=
  match nd_undo n with
  | [] => n
  | [_] => set_state (nd_db n) [] (nd_revision n) n
  | _ :: l => set_state (nd_db n) l (nd_revision n - 1) n
  end.
Definition commit (revision : Z) (n : node) : node :=
  set_state (nd_db n) (take (Z.to_nat (nd_revision n - revision)) (nd_undo n)) (nd_revision n) n.

(** [m] in a session that its destructor undoes when [m] throws. *)
Definition unwind (n : node) : node :=
  match nd_undo n with [] => set_lost true n | _ => undo n end.
Definition in_session {A} (m : N A) : N A := λ n,
  match m (start_undo_session n) with
  | (Ok a, n') => (Ok a, n')
  | (Throw e, n') => (Throw e, unwind n')
  end.
(** [_pending_tx_session.reset()] *)
Definition reset_pending_session (n : node) : node :=
  if nd_pending_session n then set_pending_session false (undo n) else n.
End sessions.

Section node.
Context {F : Fc} {B : Boost} {D : DiffMatchPatch} {K : Crypto} {E : Equihash} {P : Plugins} {T : Torn} {PK : Packing}.

Definition n_gpo (n : node) : dynamic_global_property_object := db_gpo (nd_db n).
Definition n_head_block_id (n : node) : string := gpo_head_block_id (n_gpo n).
Definition n_head_block_num (n : node) : Z := gpo_head_block_number (n_gpo n).

(** ** Queries *)
Definition find_block_id_for_num (block_num : Z) : N string :=
  if block_num =? 0 then mret EmptyString
  else
    summaries ← n_gets (λ n, the (A := gmap Z string) (nd_db n));
    let bsid := Z.land block_num 65535 in
    if num_from_id (summary_at bsid summaries) =? block_num then mret (summary_at bsid summaries)
    else
      log ← n_gets nd_log;
      b ← n_lift (read_block_by_num block_num log);
      match b with
      | Some b => mret (header_id (sb_header b))
      | None =>
          fork ← n_gets nd_fork;
          mret (match fetch_block_on_main_branch_by_number block_num fork with
                | Some fitem => fi_id fitem
                | None => EmptyString
                end)
      end.
Definition get_block_id_for_num (block_num : Z) : N string :=
  bid ← find_block_id_for_num block_num;
  n_lift (FC_ASSERT (negb (bool_decide (bid = EmptyString))) "bid != block_id_type()");;
  mret bid.
Definition fetch_block_by_id (id : string) : N (option signed_block) :=
  fork ← n_gets nd_fork;
  match fetch_block id fork with
  | Some b => mret (Some (fi_data b))
  | None =>
      log ← n_gets nd_log;
      tmp ← n_lift (read_block_by_num (num_from_id id) log);
      mret (match tmp with
            | Some b => if bool_decide (header_id (sb_header b) = id) then Some b else None
            | None => None
            end)
  end.
Definition is_known_block (id : string) : N bool :=
  b ← fetch_block_by_id id; mret (match b with Some _ => true | None => false end).
Definition fetch_block_by_number (block_num : Z) : N (option signed_block) :=
  fork ← n_gets nd_fork;
  match fork_fetch_block_by_number block_num fork with
  | [x] => mret (Some (fi_data x))
  | _ => log ← n_gets nd_log; n_lift (read_block_by_num block_num log)
  end.
(** [branches.first.back()] *)
Definition back (l : list fork_item) : N fork_item :=
  n_lift (match last l with Some x => Ok x | None => Throw out_of_range end).
Definition get_block_ids_on_fork (head_of_fork : string) : N (list string) :=
  head_id ← n_gets n_head_block_id;
  fork ← n_gets nd_fork;
  branches ← n_lift (fetch_branch_from head_id head_of_fork fork);
  x ← back branches.1;
  mret ((fi_id <$> branches.2) ++ [previous_id x]).
Definition witness_participation_rate (n : node) : Z :=
  to_uint32 (STEEMIT_100_PERCENT * popcount 128 (gpo_recent_slots_filled (n_gpo n)) / 128).
Definition add_checkpoints (checkpts : gmap Z string) (n : node) : node :=
  set_checkpoints (checkpts ∪ nd_checkpoints n) n.
Definition before_last_checkpoint (n : node) : bool :=
  match last_checkpoint (nd_checkpoints n) with
  | Some (num, _) => n_head_block_num n <=? num
  | None => false
  end.

(** ** The irreversible block *)

(** One round of the loop that writes the log. *)
Definition log_block (num : Z) : N unit :=
  fork ← n_gets nd_fork;
  match fetch_block_on_main_branch_by_number num fork with
  | None => n_lift (FC_ASSERT false
      "Current fork in the fork database does not contain the last_irreversible_block")
  | Some block =>
      log ← n_gets nd_log;
      x ← n_lift (append (fi_data block) log);
      n_modify (set_log x.2)
  end.
Definition log_head_num (l : block_log) : Z :=
  match bl_head l with Some b => block_num (head_block b) | None => 0 end.
Definition write_block_log (lib : Z) : N unit :=
  log ← n_gets nd_log;
  n_for_each (seqZ (log_head_num log + 1) (lib - log_head_num log)) log_block.
(** The end of [update_last_irreversible_block]. *)
Definition settle_irreversible (skip : Z) : N unit :=
  lib ← n_gets (λ n, gpo_last_irreversible_block_num (n_gpo n));
  n_modify (commit lib);;
  n_when (negb (skips skip skip_block_log)) (write_block_log lib);;
  num ← n_gets n_head_block_num;
  n_modify (λ n, set_fork (set_max_size (to_uint32 (num - lib + 1)) (nd_fork n)) n).

(** ** Blocks *)
Definition node_apply_block (skip : Z) (next_block : signed_block) : N unit :=
  checkpoints ← n_gets nd_checkpoints;
  skip ← n_lift (checkpoint_flags checkpoints skip next_block);
  on_db (begin_block skip next_block);;
  settle_irreversible skip;;
  on_db (settle_block next_block;; clear_null_account_balance;; close_block).

Definition pop_block : N unit :=
  n_modify reset_pending_session;;
  head_id ← n_gets n_head_block_id;
  head_block ← fetch_block_by_id head_id;
  match head_block with
  | None => n_throw pop_empty_chain
  | Some b =>
      fork ← n_gets nd_fork;
      fork' ← n_lift (fork_pop_block fork);
      n_modify (set_fork fork');;
      n_modify undo;;
      n_modify (λ n, set_popped_tx (sb_transactions b ++ nd_popped_tx n) n)
  end.

(** [while( head_block_id() != id ) pop_block();]: each round moves the head of
    the fork database back to an item that was allocated before it. *)
Fixpoint pop_until (fuel : nat) (id : string) : N unit :=
  head_id ← n_gets n_head_block_id;
  if bool_decide (head_id = id) then mret tt
  else
    match fuel with
    | O => n_throw (logic_error "out of rounds")
    | S fuel' => pop_block;; pop_until fuel' id
    end.
Definition pop_to (id : string) : N unit :=
  fork ← n_gets nd_fork;
  pop_until (S (length (fdb_items fork))) id.

Definition push_applied (skip : Z) (b : signed_block) : N unit := in_session (node_apply_block skip b).

(** The blocks of the new fork: the exception and the blocks that are left. *)
Fixpoint apply_branch (skip : Z) (branch : list fork_item) : N (option (fc_exception * list fork_item)) :=
  match branch with
  | [] => mret None
  | x :: rest =>
      except ← n_try (push_applied skip (fi_data x);; mret None) (λ e, mret (Some e));
      match except with
      | None => apply_branch skip rest
      | Some e => mret (Some (e, branch))
      end
  end.
Definition switch_forks (skip : Z) (new_head : fork_item) : N bool :=
  head_id ← n_gets n_head_block_id;
  fork ← n_gets nd_fork;
  let new_id := header_id (sb_header (fi_data new_head)) in
  branches ← n_lift (fetch_branch_from new_id head_id fork);
  n_modify (λ n, set_fork (share (branch_pointers fork new_id (length branches.1)
                                  ++ branch_pointers fork head_id (length branches.2)) (nd_fork n)) n);;
  n_finally
    (x ← back branches.2;
     pop_to (previous_id x);;
     failed ← apply_branch skip (reverse branches.1);
     match failed with
     | None => mret true
     | Some (e, rest) =>
         n_for_each rest (λ y, n_modify (λ n,
           set_fork (fork_remove (header_id (sb_header (fi_data y))) (nd_fork n)) n));;
         n_modify (λ n, set_fork (set_head (fdb_index fork !! head_id) (nd_fork n)) n);;
         pop_to (previous_id x);;
         n_for_each (reverse branches.2) (λ y, push_applied skip (fi_data y));;
         n_throw e
     end)
    (n_modify (λ n, set_fork (share [] (nd_fork n)) n)).

Definition push_on_head (skip : Z) (new_block : signed_block) : N bool :=
  n_try (push_applied skip new_block)
    (λ e, n_modify (λ n, set_fork (fork_remove (header_id (sb_header new_block)) (nd_fork n)) n);;
          n_throw e);;
  mret false.
Definition push_to_fork (new_block : signed_block) : N fork_item :=
  fork ← n_gets nd_fork;
  x ← n_lift (fork_push_block new_block fork);
  n_modify (set_fork x.2);;
  n_lift (match x.1 ≫= item_at x.2 with Some y => Ok y | None => Throw out_of_range end).
Definition _push_block (skip : Z) (new_block : signed_block) : N bool :=
  if skips skip skip_fork_db then push_on_head skip new_block
  else
    new_head ← push_to_fork new_block;
    head_id ← n_gets n_head_block_id;
    if bool_decide (previous_id new_head = head_id) then push_on_head skip new_block
    else
      num ← n_gets n_head_block_num;
      if num <? block_num (head_block (fi_data new_head)) then switch_forks skip new_head
      else mret false.

(** ** Transactions *)
Definition _push_transaction (skip : Z) (trx : signed_transaction) : N unit :=
  n_modify (λ n, if nd_pending_session n then n else set_pending_session true (start_undo_session n));;
  in_session
    (on_db (_apply_transaction skip trx);;
     n_modify (λ n, set_pending_tx (nd_pending_tx n ++ [trx]) n);;
     n_modify squash).
Definition clear_pending (n : node) : node := reset_pending_session (set_pending_tx [] n).

(** The destructor of [pending_transactions_restorer]. *)
Definition restore_one (skip : Z) (tx : signed_transaction) : N unit :=
  n_try (known ← reads (is_known_transaction (transaction_id (st_trx tx)));
         n_when (negb known) (_push_transaction skip tx))
    (λ _, mret tt).
Definition restore_pending (skip : Z) (pending_transactions : list signed_transaction) : N unit :=
  popped ← n_gets nd_popped_tx;
  n_for_each popped (restore_one skip);;
  n_modify (set_popped_tx []);;
  n_for_each pending_transactions (restore_one skip).
Definition push_block (skip : Z) (new_block : signed_block) : N bool :=
  pending_transactions ← n_gets nd_pending_tx;
  n_modify clear_pending;;
  n_finally (_push_block skip new_block) (restore_pending skip pending_transactions).
End node.

(** [set_producing( true )] *)
Definition producing (P : Plugins) : Plugins :=
  {| get_custom_json_evaluator := @get_custom_json_evaluator P; is_producing := true |}.

Section produce.
Context {F : Fc} {B : Boost} {D : DiffMatchPatch} {K : Crypto} {E : Equihash} {P : Plugins} {T : Torn} {PK : Packing}.

Definition push_transaction (trx : signed_transaction) (skip : Z) : N unit :=
  max ← n_gets (λ n, gpo_maximum_block_size (n_gpo n));
  n_lift (FC_ASSERT (pack_size trx <=? to_uint32 (max - 256)) "pack_size( trx ) <= maximum_block_size - 256");;
  _push_transaction (P := producing P) skip trx.

(** ** [_generate_block] *)
Definition empty_header : signed_block_header :=
  SignedBlockHeader (BlockHeader EmptyString 0 EmptyString EmptyString []) EmptyString.
Definition max_block_header_size : Z := pack_size empty_header + 4.

(** One pending transaction: the size of the block and its transactions. *)
Definition include_transaction (skip when maximum_block_size : Z) (acc : Z * list signed_transaction)
    (tx : signed_transaction) : N (Z * list signed_transaction) :=
  if tx_expiration (st_trx tx) <? when then mret acc
  else if maximum_block_size <=? acc.1 + pack_size tx then mret acc
  else
    n_try (in_session (on_db (_apply_transaction skip tx);; n_modify squash);;
           mret (acc.1 + pack_size tx, acc.2 ++ [tx]))
      (λ _, mret acc).
Definition choose_transactions (skip when maximum_block_size : Z) : N (list signed_transaction) :=
  n_modify reset_pending_session;;
  n_modify (λ n, set_pending_session true (start_undo_session n));;
  pending ← n_gets nd_pending_tx;
  acc ← n_fold pending (include_transaction skip when maximum_block_size) (max_block_header_size, []);
  n_modify reset_pending_session;;
  mret acc.2.

Definition STEEMIT_BLOCKCHAIN_VERSION : Z := version 0 19 1.
(** [hardfork_version( version )] *)
Definition STEEMIT_BLOCKCHAIN_HARDFORK_VERSION : Z := Z.land STEEMIT_BLOCKCHAIN_VERSION 4294901760.
Definition hardfork_vote (i : Z) : result block_header_extension :=
  v ← at_index hardfork_versions i; t ← at_index hardfork_times i; mret (ext_hardfork_version_vote v t).
Definition vote_extensions (witness : witness_object) (hfp : hardfork_property_object)
    : result (list block_header_extension) :=
  let current := hpo_current_hardfork_version hfp in
  let last := hpo_last_hardfork hfp in
  if current <? STEEMIT_BLOCKCHAIN_HARDFORK_VERSION then
    v ← at_index hardfork_versions (last + 1);
    t ← at_index hardfork_times (last + 1);
    if negb (wit_hardfork_version_vote witness =? v) || negb (wit_hardfork_time_vote witness =? t)
    then e ← hardfork_vote (last + 1); mret [e]
    else mret []
  else if (current =? STEEMIT_BLOCKCHAIN_HARDFORK_VERSION)
          && (STEEMIT_BLOCKCHAIN_HARDFORK_VERSION <? wit_hardfork_version_vote witness)
  then e ← hardfork_vote last; mret [e]
  else mret [].
Definition header_extensions (witness_owner : string) : DB (list block_header_extension) :=
  hf5 ← has_hardfork 5;
  if (hf5 : bool) then
    witness ← get_witness witness_owner;
    hfp ← get_hardfork_property_object;
    votes ← lift (vote_extensions witness hfp);
    mret ((if wit_running_version witness =? STEEMIT_BLOCKCHAIN_VERSION then []
           else [ext_version STEEMIT_BLOCKCHAIN_VERSION]) ++ votes)
  else mret [].

(** The checks before anything is changed. *)
Definition may_produce (skip when : Z) (witness_owner : string) (key : private_key) : DB unit :=
  slot_num ← gets (get_slot_at_time when);
  assert (0 <? slot_num) "slot_num > 0";;
  scheduled ← gets (get_scheduled_witness slot_num);
  scheduled_witness ← lift scheduled;
  assert (bool_decide (scheduled_witness = witness_owner)) "scheduled_witness == witness_owner";;
  witness_obj ← get_witness witness_owner;
  if skips skip skip_witness_signature then mret tt
  else assert (bool_decide (wit_signing_key witness_obj = public_key_of key)) "witness_obj.signing_key".

Definition generate_block (when : Z) (witness_owner : string) (key : private_key) (skip : Z) : N signed_block :=
  reads (may_produce skip when witness_owner key);;
  maximum_block_size ← n_gets (λ n, gpo_maximum_block_size (n_gpo n));
  txs ← choose_transactions skip when maximum_block_size;
  previous ← n_gets n_head_block_id;
  extensions ← reads (header_extensions witness_owner);
  let root := calculate_merkle_root (SignedBlock empty_header txs) in
  let header := BlockHeader previous when witness_owner root extensions in
  let pending_block := SignedBlock
    (if skips skip skip_witness_signature then SignedBlockHeader header EmptyString else sign_header key header) txs in
  (if skips skip skip_block_size_check then mret tt
   else n_lift (FC_ASSERT (pack_size pending_block <=? STEEMIT_MAX_BLOCK_SIZE)
          "pack_size( pending_block ) <= STEEMIT_MAX_BLOCK_SIZE"));;
  push_block skip pending_block;;
  mret pending_block.
End produce.
