(* ===== verification/NodeSafety.v ===== *)
(** * What the node keeps

    The states a node holds are those after consecutive blocks, its final state
    only moves forward, the pending session is the pending transactions, and the
    chain follows the highest block.  The relations that the computations of
    [Node] keep are combined with the class [NKeeps]. *)
From S2P Require Import Prelude Fc Config Asset Chainbase ChainbaseSpec Objects Protocol BlockHeader Database.
From S2P Require Import Supply Votes Ledger Rewards Comments Cashout Genesis Transfers Market Inflation Escrow.
From S2P Require Import EscrowSpec Vesting Frames Proxies Delegations Accounts WitnessSchedule Soundness Hardforks.
From S2P Require Import SignState Mining Operations Transactions Block BlockSafety Frontier BlockRules ForkDatabase BlockLog.
From S2P Require Import Node.

(** ** Histories

    The chain state and the states under it are those after consecutive blocks,
    down to the state [o] that cannot be undone any more. *)
Section history.
Context {F : Fc} {B : Boost} {D : DiffMatchPatch} {K : Crypto} {E : Equihash} {P : Plugins} {PL : PluginLaws}.

Definition applies (s s' : database) : Prop := ∃ skip b, _apply_block skip b s = Ok (tt, s').
Definition at_height (r : Z) (s : database) : Prop :=
  num_from_id (fr_id (frontier s)) = r ∧ fr_number (frontier s) = r ∧ 0 ≤ r < U32 - 1.
Inductive chained (o : database) : Z → list database → Prop :=
| chained_one r : at_height r o → chained o r [o]
| chained_cons r s' s l : applies s s' → at_height (r + 1) s' → chained o r (s :: l) → chained o (r + 1) (s' :: s :: l).
(** A block that is irreversible in one of the states cannot be undone. *)
Definition final_number (s : database) : Z := Z.min (fr_irreversible (frontier s)) (fr_number (frontier s)).
Definition history (o : database) (r : Z) (l : list database) : Prop :=
  chained o r l ∧ ∀ s, s ∈ l → final_number s ≤ fr_number (frontier o).
(** [o'] is a later final state. *)
Definition later (o o' : database) : Prop := rtc applies o o' ∧ fr_number (frontier o) ≤ fr_number (frontier o').
#[export] Instance later_refl : Reflexive later.
Proof. by split. Qed.
#[export] Instance later_trans : Transitive later.
Proof. intros x y z [H1 H2] [H3 H4]. split; [by etrans|lia]. Qed.

Definition small_block (b : signed_block) : Prop := block_num (head_block b) < U32 - 1.

Lemma block_at_height skip b r s s' :
  at_height r s → small_block b → _apply_block skip b s = Ok (tt, s') → at_height (r + 1) s'.
Proof.
  intros (Hid & Hn & Hr) Hb H. apply block_frontier in H as ((Hprev & _) & aslot & lib & slots & counted & Hf & _).
  assert (block_num (sbh_header (sb_header b)) = r + 1) as En.
  { unfold block_num. rewrite Hprev. change (gpo_head_block_id (db_gpo s)) with (fr_id (frontier s)). rewrite Hid.
    apply Z.mod_small. lia. }
  unfold at_height. rewrite Hf. cbn [fr_id fr_number]. rewrite num_from_header_id, En. split_and!; [done..|lia|].
  unfold small_block, head_block in Hb. lia.
Qed.
Lemma chained_height o r s l : chained o r (s :: l) → at_height r s.
Proof. by inversion 1. Qed.
Lemma chained_oldest o r l : chained o r l → at_height (r + 1 - Z.of_nat (length l)) o.
Proof.
  induction 1 as [r Hr|r s' s l Ha Hh Hc IH]; [by replace (r + 1 - Z.of_nat (length [o])) with r by (cbn; lia)|].
  by replace (r + 1 + 1 - Z.of_nat (length (s' :: s :: l))) with (r + 1 - Z.of_nat (length (s :: l))) by (cbn; lia).
Qed.
Lemma chained_take o r s l k : chained o r (s :: l) → ∃ o', chained o' r (s :: take k l) ∧ rtc applies o o'.
Proof.
  revert r s k. induction l as [|s2 l IH]; intros r s k H.
  - rewrite take_nil. by exists o.
  - destruct k as [|k]; cbn [take].
    + exists s. split; [apply chained_one; by eapply chained_height|].
      clear IH. remember (s :: s2 :: l) as l0 eqn:E0. revert s s2 l E0.
      induction H as [|r s' s l Ha Hh Hc IH]; intros s1 s2 l1 [=]; subst.
      destruct l1 as [|s3 l1]; [inversion Hc; subst; by apply rtc_once|]. eapply rtc_r; [by eapply IH|done].
    + inversion H as [|r' s' s'' l' Ha Hh Hc]; subst. destruct (IH _ _ k Hc) as (o' & Hc' & Hl).
      exists o'. split; [|done]. by apply chained_cons.
Qed.
Lemma chained_length_take o o' r s l k :
  chained o r (s :: l) → chained o' r (s :: take k l) → fr_number (frontier o) ≤ fr_number (frontier o').
Proof.
  intros (_ & -> & _)%chained_oldest (_ & -> & _)%chained_oldest. cbn. rewrite length_take. lia.
Qed.
(** Commits keep the newest state. *)
Lemma history_take o r s l k : history o r (s :: l) → ∃ o', history o' r (s :: take k l) ∧ later o o'.
Proof.
  intros [Hc Hf]. destruct (chained_take _ _ _ _ k Hc) as (o' & Hc' & Hl). exists o'.
  pose proof (chained_length_take _ _ _ _ _ _ Hc Hc'). split; [split; [done|]|by split].
  intros x Hx. transitivity (fr_number (frontier o)); [|done]. apply Hf.
  apply elem_of_cons in Hx as [->|Hx]; [by left|right]. by eapply elem_of_take in Hx as (? & ? & ?); eapply list_elem_of_lookup_2.
Qed.
Lemma history_tail o r s s2 l : history o r (s :: s2 :: l) → history o (r - 1) (s2 :: l).
Proof.
  intros [Hc Hf]. split; [|intros x Hx; apply Hf; by right].
  inversion Hc as [|r' ? ? ? ? ? Hc']; subst. by replace (r' + 1 - 1) with r' by lia.
Qed.
(** A block and its commit. *)
Lemma history_block o skip b r s s' l :
  history o r (s :: l) → _apply_block skip b s = Ok (tt, s') → small_block b →
  ∃ o', history o' (r + 1) (s' :: take (Z.to_nat (r + 1 - fr_irreversible (frontier s'))) (s :: l)) ∧ later o o'.
Proof.
  intros [Hc Hf] Ha Hb. set (k := Z.to_nat _).
  assert (at_height (r + 1) s') as Hh by (eapply block_at_height; [by eapply chained_height|done|done]).
  assert (chained o (r + 1) (s' :: s :: l)) as Hc1 by (apply chained_cons; [by exists skip, b|done|done]).
  destruct (chained_take _ _ _ _ k Hc1) as (o' & Hc' & Hl). exists o'.
  pose proof (chained_length_take _ _ _ _ _ _ Hc1 Hc') as Hn. split; [split; [done|]|by split].
  intros x [->|Hx]%elem_of_cons.
  - apply chained_oldest in Hc' as (_ & -> & _). destruct Hh as (_ & Hh & _). unfold final_number. rewrite Hh. unfold k.
    cbn [length]. rewrite length_take. cbn [length]. lia.
  - transitivity (fr_number (frontier o)); [|done]. apply Hf. by apply elem_of_take in Hx as (? & ? & ?); eapply list_elem_of_lookup_2.
Qed.
End history.

(** ** Relations that computations keep *)
Class NKeeps (R : relation node) {A} (m : N A) : Prop := n_keeps : ∀ n, R n (m n).2.

Section keeps.
Context (R : relation node) `{!PreOrder R}.

#[export] Instance nkeeps_ret {A} (a : A) : NKeeps R (mret a).
Proof. intros n. cbn. reflexivity. Qed.
#[export] Instance nkeeps_throw {A} e : NKeeps R (n_throw (A := A) e).
Proof. intros n. cbn. reflexivity. Qed.
#[export] Instance nkeeps_lift {A} (r : result A) : NKeeps R (n_lift r).
Proof. intros n. cbn. reflexivity. Qed.
#[export] Instance nkeeps_gets {A} (f : node → A) : NKeeps R (n_gets f).
Proof. intros n. cbn. reflexivity. Qed.
#[export] Instance nkeeps_reads {A} (m : DB A) : NKeeps R (reads m).
Proof. intros n. cbn. reflexivity. Qed.
#[export] Instance nkeeps_bind {A B} (m : N A) (f : A → N B) :
  NKeeps R m → (∀ a, NKeeps R (f a)) → NKeeps R (m ≫= f).
Proof.
  intros Hm Hf n. unfold mbind, N_bind. specialize (Hm n). destruct (m n) as [[a|e] n']; cbn in *; [|done].
  etrans; [exact Hm|apply Hf].
Qed.
#[export] Instance nkeeps_when b m : NKeeps R m → NKeeps R (n_when b m).
Proof. destruct b; [done|]. intros _. apply _. Qed.
#[export] Instance nkeeps_try {A} (m : N A) h : NKeeps R m → (∀ e, NKeeps R (h e)) → NKeeps R (n_try m h).
Proof.
  intros Hm Hh n. unfold n_try. specialize (Hm n). destruct (m n) as [[a|e] n']; cbn in *; [done|].
  etrans; [exact Hm|apply Hh].
Qed.
#[export] Instance nkeeps_finally {A} (m : N A) fin : NKeeps R m → NKeeps R fin → NKeeps R (n_finally m fin).
Proof. intros Hm Hf n. cbn. etrans; [apply Hm|apply Hf]. Qed.
Lemma nkeeps_for_each {A} (l : list A) f : (∀ x, x ∈ l → NKeeps R (f x)) → NKeeps R (n_for_each l f).
Proof.
  induction l as [|x l IH]; intros Hf; cbn [n_for_each]; [apply _|]. apply nkeeps_bind; [apply Hf; by left|].
  intros _. apply IH. intros y Hy. apply Hf. by right.
Qed.
#[export] Instance nkeeps_for_each' {A} (l : list A) f : (∀ x, NKeeps R (f x)) → NKeeps R (n_for_each l f).
Proof. intros Hf. by apply nkeeps_for_each. Qed.
#[export] Instance nkeeps_fold {A B} (l : list A) (f : B → A → N B) acc :
  (∀ b x, NKeeps R (f b x)) → NKeeps R (n_fold l f acc).
Proof. intros Hf. revert acc. induction l as [|x l IH]; intros acc; cbn [n_fold]; apply _. Qed.
Lemma nkeeps_modify f : (∀ n, R n (f n)) → NKeeps R (n_modify f).
Proof. intros Hf n. apply Hf. Qed.
End keeps.

Lemma n_bind_run {A B} (m : N A) (f : A → N B) n :
  (m ≫= f) n = match (m n).1 with Ok a => f a (m n).2 | Throw e => (Throw e, (m n).2) end.
Proof. unfold mbind, N_bind. by destruct (m n) as [[a|e] n']. Qed.

Lemma n_bind_ok {A B} (m : N A) (f : A → N B) n b n' :
  (m ≫= f) n = (Ok b, n') → ∃ a n1, m n = (Ok a, n1) ∧ f a n1 = (Ok b, n').
Proof. unfold mbind, N_bind. destruct (m n) as [[a|e] n1]; [|done]. by exists a, n1. Qed.

(** All but the fork database and the log. *)
Definition core (n : node) :=
  (nd_db n, nd_undo n, nd_revision n, nd_pending_tx n, nd_pending_session n, nd_popped_tx n, nd_checkpoints n, nd_lost n).
Definition same_core : relation node := λ n n', core n' = core n.
#[export] Instance same_core_preorder : PreOrder same_core.
Proof. split; [done|]. intros x y z H1 H2. by unfold same_core in *; rewrite H2. Qed.
#[export] Instance set_fork_core f : NKeeps same_core (n_modify (λ n, set_fork (f n) n)).
Proof. by apply nkeeps_modify. Qed.
#[export] Instance set_fork_core' d : NKeeps same_core (n_modify (set_fork d)).
Proof. by apply nkeeps_modify. Qed.
#[export] Instance set_log_core d : NKeeps same_core (n_modify (set_log d)).
Proof. by apply nkeeps_modify. Qed.

Section applying.
Context {F : Fc} {B : Boost} {D : DiffMatchPatch} {K : Crypto} {E : Equihash} {P : Plugins} {PL : PluginLaws}.
Context {T : Torn} {PK : Packing}.

#[export] Instance log_block_core num : NKeeps same_core (log_block num).
Proof. unfold log_block. apply nkeeps_bind; [apply _..|]. intros d. case_match; apply _. Qed.
Lemma settle_irreversible_core skip n :
  same_core (commit (fr_irreversible (frontier (nd_db n))) n) (settle_irreversible skip n).2.
Proof.
  unfold settle_irreversible. rewrite n_bind_run. cbn [n_gets fst snd]. rewrite n_bind_run. cbn [n_modify fst snd].
  match goal with |- same_core ?x (?m ?y).2 => change (same_core y (m y).2) end.
  generalize (commit (gpo_last_irreversible_block_num (n_gpo n)) n). fold (n_gpo n).
  generalize (gpo_last_irreversible_block_num (n_gpo n)). intros lib.
  match goal with |- ∀ y, same_core y (?m y).2 => change (NKeeps same_core m) end.
  apply nkeeps_bind; [apply _| |intros _; apply _].
  apply nkeeps_when; [apply _|]. unfold write_block_log. apply _.
Qed.
Lemma settled_frontier b s u s' :
  (settle_block b;; clear_null_account_balance;; close_block) s = Ok (u, s') → frontier s' = frontier s.
Proof.
  intros H. match type of H with ?m s = _ => refine ((_ : Keeps frontier m) _ _ _ H) end.
  unfold settle_block. keep.
Qed.

(** What a block does to the chain state and the sessions. *)
Lemma node_apply_block_run skip b n r n' :
  node_apply_block skip b n = (r, n') →
  nd_revision n' = nd_revision n ∧ nd_pending_tx n' = nd_pending_tx n ∧
  nd_pending_session n' = nd_pending_session n ∧ nd_popped_tx n' = nd_popped_tx n ∧ nd_lost n' = nd_lost n ∧
  match r with
  | Ok _ => (∃ skip', _apply_block skip' b (nd_db n) = Ok (tt, nd_db n')) ∧
      nd_undo n' = take (Z.to_nat (nd_revision n - fr_irreversible (frontier (nd_db n')))) (nd_undo n)
  | Throw _ => ∃ k, nd_undo n' = take k (nd_undo n)
  end.
Proof.
  assert (∃ k, nd_undo n = take k (nd_undo n)) as Hall by (exists (length (nd_undo n)); by rewrite take_ge).
  unfold node_apply_block. rewrite n_bind_run. cbn [n_gets fst snd]. rewrite n_bind_run. cbn [n_lift fst snd].
  destruct (checkpoint_flags (nd_checkpoints n) skip b) as [skip'|e]; [|by intros [= <- <-]].
  rewrite n_bind_run. destruct (on_db (begin_block skip' b) n) as [r1 n0] eqn:Ho. unfold on_db in Ho.
  destruct (begin_block skip' b (nd_db n)) as [[[] s]|e] eqn:Hb; injection Ho as <- <-; cbn [fst snd].
  2: { intros [= <- <-]. cbn. by split_and!. }
  rewrite n_bind_run.
  match goal with |- context [settle_irreversible skip' ?x] => pose proof (settle_irreversible_core skip' x) as Hc;
    destruct (settle_irreversible skip' x) as [[[]|e] n1]; cbn [fst snd] in *; injection Hc as Hdb Hu Hr Hp Hs Hpp Hck Hl end.
  2: { intros [= <- <-]. rewrite Hu. split_and!; [done..|]. by eexists. }
  unfold on_db. rewrite Hdb. cbn [nd_db commit set_state].
  destruct ((settle_block b;; _) s) as [[[] s']|e] eqn:Hs'.
  - intros [= <- <-]. cbn [nd_db nd_undo nd_revision nd_pending_tx nd_pending_session nd_popped_tx nd_lost set_state].
    split_and!; [done..| |].
    + exists skip'. unfold _apply_block, open_block. apply bind_ok in Hs' as ([] & s1 & H1 & H2).
      apply bind_ok. exists tt, s1. split; [|done]. apply bind_ok. by exists tt, s.
    + rewrite Hu, (settled_frontier _ _ _ _ Hs'). done.
  - intros [= <- <-]. cbn. rewrite Hu. split_and!; [done..|]. by eexists.
Qed.
End applying.

(** ** Blocks and final states *)
Section grows.
Context {F : Fc} {B : Boost} {D : DiffMatchPatch} {K : Crypto} {E : Equihash} {P : Plugins} {PL : PluginLaws}.
Context {T : Torn} {PK : Packing}.

(** The node between transactions, with the final state [o]. *)
Definition quiet (n : node) (o : database) : Prop :=
  nd_pending_session n = false ∧ history o (nd_revision n) (nd_db n :: nd_undo n).
(** The final state only moves forward, until an exception leaves a session that
    was already committed. *)
Definition grows : relation node := λ n n',
  (nd_lost n = true → nd_lost n' = true) ∧
  ∀ o, quiet n o → nd_lost n' = true ∨ ∃ o', quiet n' o' ∧ later o o'.
#[export] Instance grows_preorder : PreOrder grows.
Proof.
  split.
  - intros n. split; [done|]. intros o Ho. right. by exists o.
  - intros x y z [Hl1 H1] [Hl2 H2]. split; [by auto|]. intros o Ho.
    destruct (H1 o Ho) as [Hl|(o1 & Ho1 & L1)]; [left; auto|].
    destruct (H2 o1 Ho1) as [Hl|(o2 & Ho2 & L2)]; [by left|right]. exists o2. split; [done|by etrans].
Qed.
Lemma same_core_grows n n' : same_core n n' → grows n n'.
Proof.
  intros [= Hdb Hu Hr _ Hs _ _ Hl]. split; [by rewrite Hl|]. intros o [Hq Hh]. right. exists o.
  split; [|done]. split; [by rewrite Hs|]. by rewrite Hr, Hdb, Hu.
Qed.
#[export] Instance nkeeps_core_grows {A} (m : N A) : NKeeps same_core m → NKeeps grows m.
Proof. intros Hm n. apply same_core_grows, Hm. Qed.

Lemma push_applied_grows skip b : small_block b → NKeeps grows (push_applied skip b).
Proof.
  intros Hb n. unfold push_applied, in_session.
  destruct (node_apply_block skip b (start_undo_session n)) as [r n'] eqn:H.
  apply node_apply_block_run in H as (Hr & _ & Hs & _ & Hl & H).
  cbn [start_undo_session set_state nd_db nd_undo nd_revision nd_pending_session nd_lost] in *.
  destruct r as [u|e]; cbn [snd].
  - destruct H as [[skip' Ha] Hu]. split; [by rewrite Hl|]. intros o [Hq Hh]. right.
    destruct (history_block _ _ _ _ _ _ _ Hh Ha Hb) as (o' & Hh' & HL). exists o'.
    split; [|done]. split; [by rewrite Hs|]. by rewrite Hr, Hu.
  - destruct H as [k Hu]. unfold unwind, undo. destruct k as [|k]; cbn [take] in Hu; rewrite Hu.
    + split; [done|]. by left.
    + split; [cbn; by rewrite Hl|]. intros o [Hq Hh]. right.
      destruct (history_take _ _ _ _ k Hh) as (o' & Hh' & HL). exists o'. split; [|done].
      split; [cbn; by rewrite Hs|]. cbn. rewrite Hr. by replace (nd_revision n + 1 - 1) with (nd_revision n) by lia.
Qed.

#[export] Instance fetch_block_by_id_core id : NKeeps same_core (fetch_block_by_id id).
Proof. unfold fetch_block_by_id. apply nkeeps_bind; [apply _..|]. intros d. case_match; apply _. Qed.
Lemma undo_grows : NKeeps grows (n_modify undo).
Proof.
  apply nkeeps_modify. intros n. unfold undo. destruct (nd_undo n) as [|s l] eqn:Hu; [done|].
  split; [done|]. intros o [Hq Hh]. rewrite Hu in Hh. right. exists o. split; [|done]. split; [done|].
  cbn. by apply history_tail in Hh.
Qed.
#[export] Instance pop_block_grows : NKeeps grows pop_block.
Proof.
  unfold pop_block. apply nkeeps_bind; [apply _| |].
  - apply nkeeps_modify. intros n. unfold reset_pending_session.
    destruct (nd_pending_session n) eqn:Hs; [|done]. split; [|intros o [Hq _]; congruence].
    cbn. unfold undo. by destruct (nd_undo n).
  - intros _. apply nkeeps_bind; [apply _..|]. intros id. apply nkeeps_bind; [apply _..|]. intros [b|]; [|apply _].
    apply nkeeps_bind; [apply _..|]. intros d. apply nkeeps_bind; [apply _..|]. intros d'.
    apply nkeeps_bind; [apply _..|]. intros _. apply nkeeps_bind; [apply _|apply undo_grows|]. intros _.
    apply nkeeps_modify. intros n. split; [done|]. intros o [Hq Hh]. right. by exists o.
Qed.
End grows.

(** ** What holds of applied and popped blocks holds of pushed ones

    A relation that the application of blocks that are [fine] and [pop_block]
    keep. *)
Section moves.
Context {F : Fc} {B : Boost} {D : DiffMatchPatch} {K : Crypto} {E : Equihash} {P : Plugins} {T : Torn} {PK : Packing}.
Context (R : relation node) `{!PreOrder R} (fine : signed_block → Prop).
Context (core_R : subrelation same_core R).
Context (applied_R : ∀ skip b, fine b → NKeeps R (push_applied skip b)).
Context (pop_R : NKeeps R pop_block).

#[local] Instance nkeeps_core {A} (m : N A) : NKeeps same_core m → NKeeps R m.
Proof. intros Hm n. apply core_R, Hm. Qed.
#[local] Instance pop_to_keeps id : NKeeps R (pop_to id).
Proof.
  unfold pop_to. apply nkeeps_bind; [apply _..|]. intros d. generalize (S (length (fdb_items d))) as fuel.
  induction fuel as [|fuel IH]; cbn [pop_until]; (apply nkeeps_bind; [apply _..|]); intros h; case_bool_decide; apply _.
Qed.

(** The items of a branch are items of the database. *)
Lemma parent_in d x y : parent d x = Some y → y ∈ fdb_items d.
Proof. intros (p & _ & Hp)%bind_Some. by eapply list_elem_of_lookup_2. Qed.
Lemma walk_in d x l y : x ∈ fdb_items d → walk d x l y → (∀ z, z ∈ l → z ∈ fdb_items d) ∧ y ∈ fdb_items d.
Proof.
  intros Hx Hw. induction Hw as [x|x y l z Hxy Hw IH]; [split; [intros z []%elem_of_nil|done]|].
  apply parent_in in Hxy. destruct (IH Hxy) as [H1 H2]. split; [|done]. by intros w [->|Hw']%elem_of_cons; auto.
Qed.
Lemma join_in fuel d x y bx b_y r :
  join fuel d x y bx b_y = Ok r → x ∈ fdb_items d → y ∈ fdb_items d →
  (∀ z, z ∈ bx → z ∈ fdb_items d) → (∀ z, z ∈ b_y → z ∈ fdb_items d) →
  (∀ z, z ∈ r.1 → z ∈ fdb_items d) ∧ (∀ z, z ∈ r.2 → z ∈ fdb_items d).
Proof.
  assert (∀ (l : list fork_item) x, x ∈ fdb_items d → (∀ z, z ∈ l → z ∈ fdb_items d) → ∀ z, z ∈ l ++ [x] → z ∈ fdb_items d) as Happ.
  { intros l w Hw Hl z [Hz|Hz%list_elem_of_singleton]%elem_of_app; [auto|by subst]. }
  revert x y bx b_y. induction fuel as [|fuel IH]; intros x y bx b_y; cbn [join]; case_bool_decide.
  1, 3: intros [= <-] ????; cbn [fst snd]; split; by apply Happ.
  all: intros (x' & Hx'%step_back_ok%parent_in & Hj)%rbind_ok; apply rbind_ok in Hj as (y' & Hy'%step_back_ok%parent_in & Hj).
  - done.
  - intros ????. eapply IH; [exact Hj|done|done|by apply Happ|by apply Happ].
Qed.
Lemma fetch_branch_in a b d r :
  fetch_branch_from a b d = Ok r → (∀ z, z ∈ r.1 → z ∈ fdb_items d) ∧ (∀ z, z ∈ r.2 → z ∈ fdb_items d).
Proof.
  unfold fetch_branch_from. intros (x & Hx & H)%rbind_ok. apply rbind_ok in H as (y & Hy & H).
  assert (∀ id z, find_item d id = Ok z → z ∈ fdb_items d) as Hfind.
  { intros id z. unfold find_item. destruct (fetch_block id d) as [w|] eqn:Hw; [|done]. intros [= <-].
    apply bind_Some in Hw as (p & _ & Hp). by eapply list_elem_of_lookup_2. }
  apply Hfind in Hx, Hy.
  apply rbind_ok in H as ([x1 l1] & H1 & H). apply rbind_ok in H as ([y1 l2] & H2 & H). cbn [fst snd] in *.
  apply level_walk in H1 as (l & -> & Hw1). apply level_walk in H2 as (l' & -> & Hw2).
  destruct (walk_in _ _ _ _ Hx Hw1), (walk_in _ _ _ _ Hy Hw2). by eapply join_in.
Qed.


Definition fine_items (d : fork_database) : Prop := ∀ x, x ∈ fdb_items d → fine (fi_data x).
Lemma apply_branch_keeps skip l : (∀ x, x ∈ l → fine (fi_data x)) → NKeeps R (apply_branch skip l).
Proof.
  induction l as [|x l IH]; intros Hl; cbn [apply_branch]; [apply _|]. apply nkeeps_bind; [apply _| |].
  - apply nkeeps_try; [apply _| |intros e; apply _]. apply nkeeps_bind; [apply _| |intros _; apply _].
    apply applied_R, Hl. by left.
  - intros [e|]; [apply _|]. apply IH. intros y Hy. apply Hl. by right.
Qed.
Lemma switch_forks_keeps skip x n : fine_items (nd_fork n) → R n (switch_forks skip x n).2.
Proof.
  intros Hf. unfold switch_forks. do 3 (rewrite n_bind_run; cbn [n_gets n_lift fst snd]).
  destruct (fetch_branch_from _ _ _) as [[l l']|e] eqn:Hb; [|cbn; reflexivity]. cbn [fst snd].
  apply fetch_branch_in in Hb as [Hl Hl']. cbn [fst snd] in *.
  match goal with |- R ?y (?m ?y).2 => enough (NKeeps R m) as Hm by apply Hm end.
  apply nkeeps_bind; [apply _..|]. intros _. apply nkeeps_finally; [apply _| |apply _].
  apply nkeeps_bind; [apply _..|]. intros y. apply nkeeps_bind; [apply _..|]. intros _.
  apply nkeeps_bind; [apply _| |].
  - apply apply_branch_keeps. intros z Hz. rewrite elem_of_reverse in Hz. by apply Hf, Hl.
  - intros [[e rest]|]; [|apply _]. do 3 (apply nkeeps_bind; [apply _..|]; intros _).
    apply nkeeps_bind; [apply _| |intros _; apply _]. apply nkeeps_for_each; [apply _|].
    intros z Hz. rewrite elem_of_reverse in Hz. apply applied_R. by apply Hf, Hl'.
Qed.
Lemma push_on_head_keeps skip b : fine b → NKeeps R (push_on_head skip b).
Proof.
  intros Hb. unfold push_on_head. apply nkeeps_bind; [apply _| |intros _; apply _].
  apply nkeeps_try; [apply _|by apply applied_R|]. intros e. apply _.
Qed.
Lemma push_to_fork_fine b n : fine b → fine_items (nd_fork n) → fine_items (nd_fork (push_to_fork b n).2).
Proof.
  intros Hb Hf. unfold push_to_fork. do 2 (rewrite n_bind_run; cbn [n_gets n_lift fst snd]).
  destruct (fork_push_block b (nd_fork n)) as [[h d]|e] eqn:H; [|done]. rewrite n_bind_run. cbn [n_modify n_lift fst snd].
  cbn [nd_fork set_fork]. unfold fork_push_block in H. apply rbind_ok in H as (d1 & H & [= <- <-]).
  unfold ForkDatabase._push_block in H. apply rbind_ok in H as (u & _ & H). apply rbind_ok in H as (prev & _ & [= <-]).
  set (x := ForkItem _ _ _ _ _). assert (fine_items (insert_item x (nd_fork n))).
  { intros y [Hy|Hy%list_elem_of_singleton]%elem_of_app; [by apply Hf|by subst]. }
  repeat case_match; done.
Qed.
#[local] Instance push_to_fork_core b : NKeeps same_core (push_to_fork b).
Proof. unfold push_to_fork. apply _. Qed.
Lemma _push_block_keeps skip b n : fine b → fine_items (nd_fork n) → R n (_push_block skip b n).2.
Proof.
  intros Hb Hf. unfold _push_block. destruct (skips skip skip_fork_db); [by apply push_on_head_keeps|].
  rewrite n_bind_run. pose proof (push_to_fork_core b n) as Hc%core_R.
  pose proof (push_to_fork_fine b n Hb Hf) as Hf'.
  destruct (push_to_fork b n) as [[x|e] n1]; cbn [fst snd] in *; [|done]. etrans; [exact Hc|].
  rewrite n_bind_run. cbn [n_gets fst snd]. case_bool_decide; [by apply push_on_head_keeps|].
  rewrite n_bind_run. cbn [n_gets fst snd]. case_match; [by apply switch_forks_keeps|cbn; reflexivity].
Qed.
End moves.

(** ** Transactions *)
Definition settled (n : node) : list database :=
  if nd_pending_session n then nd_undo n else nd_db n :: nd_undo n.
Definition settled_revision (n : node) : Z :=
  if nd_pending_session n then nd_revision n - 1 else nd_revision n.
(** The states under the pending transactions, and the revision, stay. *)
Definition stays : relation node := λ n n',
  settled n ≠ [] →
  nd_lost n' = nd_lost n ∧ nd_fork n' = nd_fork n ∧ settled n' = settled n ∧ settled_revision n' = settled_revision n.
#[export] Instance stays_preorder : PreOrder stays.
Proof.
  split; [by intros n|]. intros x y z Hxy Hyz Hx. destruct (Hxy Hx) as (L1 & F1 & E1 & R1).
  destruct Hyz as (L2 & F2 & E2 & R2); [by rewrite E1|]. split_and!; congruence.
Qed.

Section transactions.
Context {F : Fc} {B : Boost} {D : DiffMatchPatch} {K : Crypto} {E : Equihash} {P : Plugins} {T : Torn}.

Definition open_pending (n : node) : node :=
  if nd_pending_session n then n else set_pending_session true (start_undo_session n).
Lemma open_pending_stays n : stays n (open_pending n).
Proof.
  unfold open_pending, stays, settled, settled_revision. destruct (nd_pending_session n) eqn:E0; [by rewrite E0|].
  cbn. intros _. split_and!; [done..|lia].
Qed.
Lemma reset_pending_stays n : stays n (reset_pending_session n).
Proof.
  unfold reset_pending_session, stays, settled, settled_revision. destruct (nd_pending_session n) eqn:E0; [|by rewrite E0].
  unfold undo. by destruct (nd_undo n).
Qed.

(** A transaction in a session of its own: when it throws, the node is as before. *)
Lemma session_run skip trx (k : N unit) h n :
  (∀ x, k x = (Ok tt, h x)) →
  in_session (on_db (_apply_transaction skip trx);; k) n =
    match _apply_transaction skip trx (nd_db n) with
    | Ok (_, s) => (Ok tt, h (set_state s (nd_db n :: nd_undo n) (nd_revision n + 1) n))
    | Throw e => (Throw e, n)
    end.
Proof.
  intros Hk. unfold in_session. rewrite n_bind_run. unfold on_db. cbn [start_undo_session set_state nd_db nd_undo nd_revision].
  destruct (_apply_transaction skip trx (nd_db n)) as [[u s]|e]; cbn [fst snd]; [by rewrite Hk|].
  unfold unwind, undo. cbn. do 2 f_equal. destruct n. unfold set_state. cbn. f_equal. lia.
Qed.
Lemma squash_pending s n :
  nd_undo n ≠ [] → squash (set_state s (nd_db n :: nd_undo n) (nd_revision n + 1) n) = set_state s (nd_undo n) (nd_revision n) n.
Proof.
  intros Hu. unfold squash. cbn. destruct (nd_undo n); [done|]. unfold set_state. cbn. f_equal. lia.
Qed.
Lemma set_state_stays s n : nd_pending_session n = true → stays n (set_state s (nd_undo n) (nd_revision n) n).
Proof. intros Hp. unfold stays, settled, settled_revision. cbn. by rewrite Hp. Qed.

(** What [_push_transaction] leaves, on a node whose pending session is open. *)
Lemma open_pending_undo n : settled n ≠ [] → nd_undo (open_pending n) ≠ [].
Proof. unfold settled, open_pending. by destruct (nd_pending_session n). Qed.
Lemma open_pending_session n : nd_pending_session (open_pending n) = true.
Proof. unfold open_pending. by destruct (nd_pending_session n) eqn:E0. Qed.
Lemma push_transaction_run skip trx n :
  settled n ≠ [] →
  let n0 := open_pending n in
  _push_transaction skip trx n =
    match _apply_transaction skip trx (nd_db n0) with
    | Ok (_, s) => (Ok tt, set_pending_tx (nd_pending_tx n0 ++ [trx]) (set_state s (nd_undo n0) (nd_revision n0) n0))
    | Throw e => (Throw e, n0)
    end.
Proof.
  intros Hn n0. unfold _push_transaction. rewrite n_bind_run. cbn [n_modify fst snd]. fold (open_pending n). fold n0.
  erewrite session_run by (intros x; rewrite n_bind_run; cbn [n_modify fst snd]; reflexivity). cbv beta.
  destruct (_apply_transaction skip trx (nd_db n0)) as [[u s]|e]; [|done]. f_equal.
  rewrite <- (squash_pending s n0) by by apply open_pending_undo. unfold squash. cbn. by repeat case_match.
Qed.
#[export] Instance push_transaction_stays skip trx : NKeeps stays (_push_transaction skip trx).
Proof.
  intros n Hn. rewrite push_transaction_run by done. refine (PreOrder_Transitive _ _ _ (open_pending_stays n) _ Hn).
  destruct (_apply_transaction _ _ _) as [[u s]|e]; [|done]. exact (set_state_stays s _ (open_pending_session n)).
Qed.
#[export] Instance restore_one_stays skip trx : NKeeps stays (restore_one skip trx).
Proof. unfold restore_one. apply _. Qed.
#[export] Instance set_popped_stays f : NKeeps stays (n_modify (λ n, set_popped_tx (f n) n)).
Proof. by apply nkeeps_modify. Qed.
#[export] Instance set_popped_stays' txs : NKeeps stays (n_modify (set_popped_tx txs)).
Proof. by apply nkeeps_modify. Qed.
#[export] Instance restore_pending_stays skip txs : NKeeps stays (restore_pending skip txs).
Proof. unfold restore_pending. apply _. Qed.
Lemma clear_pending_stays n : stays n (clear_pending n).
Proof. unfold clear_pending. etrans; [|apply reset_pending_stays]. done. Qed.
End transactions.

(** ** Operations of the node *)
Section operations.
Context {F : Fc} {B : Boost} {D : DiffMatchPatch} {K : Crypto} {E : Equihash} {P : Plugins} {PL : PluginLaws}.
Context {T : Torn} {PK : Packing}.

(** The settled states are a history above the final state [o]. *)
Definition based (n : node) (o : database) : Prop := history o (settled_revision n) (settled n).
Definition advances : relation node := λ n n',
  (nd_lost n = true → nd_lost n' = true) ∧
  ∀ o, based n o → nd_lost n' = true ∨ ∃ o', based n' o' ∧ later o o'.

Lemma history_nonempty o r l : history o r l → l ≠ [].
Proof. by intros [[] _]. Qed.
Lemma stays_based n n' o : stays n n' → based n o → based n' o ∧ nd_lost n' = nd_lost n ∧ nd_fork n' = nd_fork n.
Proof.
  intros Hs Ho. destruct Hs as (L & Ef & Es & Er); [by eapply history_nonempty|].
  split; [|done]. unfold based. by rewrite Es, Er.
Qed.
Lemma quiet_based n o : nd_pending_session n = false → based n o ↔ quiet n o.
Proof. intros Hp. unfold based, quiet, settled, settled_revision. rewrite Hp. naive_solver. Qed.

Lemma _push_block_grows skip b n :
  small_block b → fine_items small_block (nd_fork n) → grows n (_push_block skip b n).2.
Proof.
  apply _push_block_keeps; [apply _|intros ??; apply same_core_grows|apply push_applied_grows|apply _].
Qed.
Lemma reset_pending_idle n : nd_pending_session (reset_pending_session n) = false.
Proof. unfold reset_pending_session. by destruct (nd_pending_session n) eqn:E0. Qed.
Lemma clear_pending_idle n : nd_pending_session (clear_pending n) = false.
Proof. apply reset_pending_idle. Qed.
Lemma clear_pending_fork n : nd_fork (clear_pending n) = nd_fork n.
Proof.
  unfold clear_pending, reset_pending_session. cbn. destruct (nd_pending_session n); [|done].
  unfold undo. cbn. by destruct (nd_undo n).
Qed.
Lemma clear_pending_lost n : nd_lost (clear_pending n) = nd_lost n.
Proof.
  unfold clear_pending, reset_pending_session. cbn. destruct (nd_pending_session n); [|done].
  unfold undo. cbn. by destruct (nd_undo n).
Qed.
Lemma push_block_result skip b n :
  push_block skip b n =
    let m := _push_block skip b (clear_pending n) in
    (m.1, (restore_pending skip (nd_pending_tx n) m.2).2).
Proof. done. Qed.

(** Where the node is lost, nothing brings it back. *)
Definition lost_stays : relation node := λ n n', nd_lost n = true → nd_lost n' = true.
#[export] Instance lost_stays_preorder : PreOrder lost_stays.
Proof. unfold lost_stays. split; [intros n; done|]. intros x y z. auto. Qed.
Lemma undo_lost n : nd_lost (undo n) = nd_lost n.
Proof. unfold undo. by destruct (nd_undo n). Qed.
Lemma squash_lost n : nd_lost (squash n) = nd_lost n.
Proof. unfold squash. by destruct (nd_undo n) as [|? []]. Qed.
Lemma modify_lost f : (∀ n, nd_lost (f n) = nd_lost n) → NKeeps lost_stays (n_modify f).
Proof. intros Hf. apply nkeeps_modify. intros n Hn. by rewrite Hf. Qed.
Lemma in_session_lost {A} (m : N A) : NKeeps lost_stays m → NKeeps lost_stays (in_session m).
Proof.
  intros Hm n Hn. unfold in_session. specialize (Hm (start_undo_session n) Hn).
  destruct (m (start_undo_session n)) as [[a|e] n']; cbn in *; [done|].
  unfold unwind. destruct (nd_undo n') eqn:Eu; [done|]. by rewrite undo_lost.
Qed.
#[export] Instance on_db_lost {A} (m : DB A) : NKeeps lost_stays (on_db m).
Proof. intros n Hn. unfold on_db. by destruct (m (nd_db n)) as [[]|]. Qed.
#[export] Instance push_transaction_lost skip trx : NKeeps lost_stays (_push_transaction skip trx).
Proof.
  unfold _push_transaction. apply nkeeps_bind; [apply _| |intros _].
  - apply modify_lost. intros n. by destruct (nd_pending_session n).
  - apply in_session_lost. apply nkeeps_bind; [apply _..|]. intros _. apply nkeeps_bind; [apply _|by apply modify_lost|].
    intros _. apply modify_lost, squash_lost.
Qed.
#[export] Instance restore_pending_lost skip txs : NKeeps lost_stays (restore_pending skip txs).
Proof.
  unfold restore_pending. apply nkeeps_bind; [apply _..|]. intros popped.
  assert (∀ tx, NKeeps lost_stays (restore_one skip tx)) by (intros tx; unfold restore_one; apply _).
  apply nkeeps_bind; [apply _..|]. intros _. apply nkeeps_bind; [apply _|by apply modify_lost|]. intros _. apply _.
Qed.

Lemma push_block_advances skip b n :
  small_block b → fine_items small_block (nd_fork n) → advances n (push_block skip b n).2.
Proof.
  intros Hb Hf. rewrite push_block_result. cbn zeta. cbn [snd].
  destruct (_push_block_grows skip b (clear_pending n)) as [Hl Hg]; [done|by rewrite clear_pending_fork|].
  pose proof (restore_pending_lost skip (nd_pending_tx n) (_push_block skip b (clear_pending n)).2) as Hr.
  split.
  - intros Hn. apply Hr, Hl. rewrite clear_pending_lost. exact Hn.
  - intros o Ho. destruct (stays_based _ _ o (clear_pending_stays n) Ho) as [Ho1 _].
    destruct (Hg o) as [HL|(o' & Ho' & HL)]; [by apply quiet_based; [apply clear_pending_idle|]|left; by apply Hr|].
    right. exists o'. split; [|done].
    eapply stays_based; [apply restore_pending_stays|]. apply quiet_based; [apply Ho'|done].
Qed.
End operations.

Section produced.
Context {F : Fc} {B : Boost} {D : DiffMatchPatch} {K : Crypto} {E : Equihash} {P : Plugins} {PL : PluginLaws}.
Context {T : Torn} {PK : Packing}.

Lemma push_transaction_advances trx skip n : advances n (push_transaction trx skip n).2.
Proof.
  unfold push_transaction. rewrite n_bind_run. cbn [n_gets fst snd]. rewrite n_bind_run. cbn [n_lift fst snd].
  assert (advances n n) as Hrefl by (split; [done|]; intros o Ho; right; by exists o).
  destruct (FC_ASSERT _ _); [|done]. split; [exact (push_transaction_lost (P := producing P) skip trx n)|].
  intros o Ho. right. exists o. split; [|done]. by eapply stays_based; [apply (push_transaction_stays (P := producing P))|].
Qed.
Lemma pop_block_advances n : advances n (pop_block n).2.
Proof.
  assert (pop_block n = pop_block (reset_pending_session n)) as ->.
  { unfold pop_block. rewrite (n_bind_run _ _ (reset_pending_session n)), n_bind_run. cbn [n_modify fst snd].
    assert (reset_pending_session (reset_pending_session n) = reset_pending_session n) as ->; [|done].
    unfold reset_pending_session at 1. by rewrite reset_pending_idle. }
  destruct (pop_block_grows (reset_pending_session n)) as [Hl Hg].
  assert (nd_lost (reset_pending_session n) = nd_lost n) as El.
  { unfold reset_pending_session. destruct (nd_pending_session n); [|done]. cbn. apply undo_lost. }
  split; [by rewrite <- El|]. intros o Ho.
  destruct (stays_based _ _ o (reset_pending_stays n) Ho) as [Ho1 _].
  destruct (Hg o) as [HL|(o' & Ho' & HL)]; [by apply quiet_based; [apply reset_pending_idle|]|by left|].
  right. exists o'. split; [|done]. apply quiet_based; [apply Ho'|done].
Qed.

(** The transactions of a new block are tried in the pending session. *)
Definition keeps_session : relation node := λ n n',
  nd_pending_session n = true → nd_undo n ≠ [] →
  nd_pending_session n' = true ∧ nd_undo n' = nd_undo n ∧ nd_revision n' = nd_revision n ∧
  nd_fork n' = nd_fork n ∧ nd_lost n' = nd_lost n ∧ nd_pending_tx n' = nd_pending_tx n.
#[export] Instance keeps_session_preorder : PreOrder keeps_session.
Proof.
  split; [by intros n|]. intros x y z Hxy Hyz Hp Hu. destruct (Hxy Hp Hu) as (? & Eu & ? & ? & ? & ?).
  destruct Hyz as (? & ? & ? & ? & ? & ?); [done|by rewrite Eu|]. split_and!; congruence.
Qed.
#[export] Instance include_transaction_session skip when max acc tx :
  NKeeps keeps_session (include_transaction skip when max acc tx).
Proof.
  unfold include_transaction. repeat case_match; [apply _..|]. apply nkeeps_try; [apply _| |intros; apply _].
  apply nkeeps_bind; [apply _| |intros; apply _]. intros n Hp Hu.
  rewrite (session_run skip tx (n_modify squash) squash n) by done.
  destruct (_apply_transaction skip tx (nd_db n)) as [[u s]|e]; [|done]. cbn [snd]. by rewrite squash_pending.
Qed.
Lemma include_transaction_ok skip when max acc tx n : is_ok (include_transaction skip when max acc tx n).1 = true.
Proof.
  unfold include_transaction. repeat case_match; [done..|]. unfold n_try. rewrite n_bind_run.
  by destruct (in_session _ n) as [[u|e] n'].
Qed.
Lemma n_fold_ok {A X} (l : list A) (f : X → A → N X) acc n :
  (∀ acc x n, is_ok (f acc x n).1 = true) → is_ok (n_fold l f acc n).1 = true.
Proof.
  intros Hf. revert acc n. induction l as [|x l IH]; intros acc n; cbn [n_fold]; [done|]. rewrite n_bind_run.
  specialize (Hf acc x n). destruct (f acc x n) as [[a|e] n']; [apply IH|done].
Qed.
Lemma choose_transactions_run skip when max n :
  settled n ≠ [] →
  let n' := (choose_transactions skip when max n).2 in
  stays n n' ∧ nd_pending_session n' = false ∧ is_ok (choose_transactions skip when max n).1 = true.
Proof.
  intros Hn. unfold choose_transactions. rewrite n_bind_run. cbn [n_modify fst snd].
  pose proof (reset_pending_stays n) as H1. pose proof (reset_pending_idle n) as Hi.
  set (n1 := reset_pending_session n) in *. destruct (H1 Hn) as (_ & _ & E1 & _).
  rewrite n_bind_run. cbn [n_modify fst snd]. set (n2 := set_pending_session true (start_undo_session n1)).
  rewrite n_bind_run. cbn [n_gets fst snd]. rewrite n_bind_run.
  match goal with |- context [n_fold ?l ?f ?a n2] => pose proof ((_ : NKeeps keeps_session (n_fold l f a)) n2) as H2;
    pose proof (n_fold_ok l f a n2) as H3; set (m := n_fold l f a n2) in * end.
  specialize (H3 (include_transaction_ok skip when max)). destruct H2 as (P2 & U2 & R2 & F2 & L2 & _); [done|done|].
  destruct m as [[acc|e] n3]; [|done]. cbn [fst snd] in *. rewrite n_bind_run. cbn [n_modify fst snd].
  split_and!; [|apply reset_pending_idle|done]. etrans; [exact H1|]. cbn [mret N_ret snd].
  etrans; [|apply reset_pending_stays]. intros _. unfold settled, settled_revision. rewrite P2, Hi, U2, R2, F2, L2.
  cbn. split_and!; [done..|lia].
Qed.

Lemma generate_block_advances when witness_owner key skip n :
  nd_revision n + 2 < U32 → fine_items small_block (nd_fork n) →
  ∀ o, based n o →
  let n' := (generate_block when witness_owner key skip n).2 in
  nd_lost n' = true ∨ ∃ o', based n' o' ∧ later o o'.
Proof.
  intros Hr Hf o Ho. cbn zeta. assert (settled n ≠ []) as Hn by by eapply history_nonempty.
  unfold generate_block. rewrite n_bind_run. destruct (reads (may_produce _ _ _ _) n).1 as [u|e];
    [|right; exists o; split; [exact Ho|done]]. cbn [reads snd]. rewrite n_bind_run. cbn [n_gets fst snd].
  rewrite n_bind_run.
  destruct (choose_transactions_run skip when (gpo_maximum_block_size (n_gpo n)) n Hn) as (Hs & Hi & Hok).
  destruct (choose_transactions skip when _ n) as [[txs|e] n1]; [|done]. cbn [fst snd] in *.
  destruct (stays_based _ _ o Hs Ho) as (Ho1 & _ & Ef). destruct (Hs Hn) as (_ & _ & _ & Er).
  assert (nd_lost n1 = true ∨ ∃ o', based n1 o' ∧ later o o') as Hrefl by (right; by exists o).
  rewrite n_bind_run. cbn [n_gets fst snd]. rewrite n_bind_run.
  destruct (reads (header_extensions _) n1).1 as [ext|e]; [|done]. cbn [reads snd].
  rewrite n_bind_run. match goal with |- context [push_block skip ?x] => set (b := x) end.
  assert (small_block b) as Hb.
  { assert (head_block b = BlockHeader (n_head_block_id n1) when witness_owner (calculate_merkle_root (SignedBlock empty_header txs)) ext)
      as Eh by (unfold b; by destruct (skips skip skip_witness_signature)).
    apply quiet_based in Ho1 as [_ [Hc _]]; [|done]. apply chained_height in Hc as (Hid & _ & Hrange).
    unfold small_block. rewrite Eh. unfold block_num. cbn [bh_previous].
    change (n_head_block_id n1) with (fr_id (frontier (nd_db n1))). rewrite Hid.
    unfold settled_revision in Er. rewrite Hi in Er. unfold to_uint32. rewrite Z.mod_small; repeat case_match; lia. }
  match goal with |- context [(?m n1).1] => assert ((m n1).2 = n1) as E2 by (by destruct (skips skip skip_block_size_check)); destruct (m n1).1; rewrite E2; [|done] end.
  rewrite n_bind_run. pose proof (push_block_advances skip b n1 Hb) as [_ Ha]; [by rewrite Ef|].
  destruct (push_block skip b n1) as [[x|e] n2]; cbn [fst snd mret N_ret] in *.
  all: destruct (Ha o Ho1) as [HL|(o' & Ho' & HL)]; [by left|right; exists o'; by split].
Qed.
End produced.

(** ** The pending transactions *)
Section pending.
Context {F : Fc} {B : Boost} {D : DiffMatchPatch} {K : Crypto} {E : Equihash} {P : Plugins} {PL : PluginLaws}.
Context {T : Torn} {PK : Packing}.

(** [s'] comes from [s] by the transactions, each with flags of its own, when it
    was pushed to this node or restored. *)
Inductive txs_applied (s : database) : list signed_transaction → database → Prop :=
| txs_none : txs_applied s [] s
| txs_more txs s1 Q skip tx s2 :
    txs_applied s txs s1 → Q = P ∨ Q = producing P → _apply_transaction (P := Q) skip tx s1 = Ok (tt, s2) →
    txs_applied s (txs ++ [tx]) s2.
(** The pending session is the result of the pending transactions. *)
Definition pending_ok (n : node) : Prop :=
  if nd_pending_session n then ∃ s l, nd_undo n = s :: l ∧ txs_applied s (nd_pending_tx n) (nd_db n)
  else nd_pending_tx n = [].

(** Blocks leave the node without pending transactions. *)
Definition idles : relation node := λ n n',
  (nd_pending_session n = false → nd_pending_session n' = false) ∧ nd_pending_tx n' = nd_pending_tx n.
#[export] Instance idles_preorder : PreOrder idles.
Proof. split; [by intros n|]. intros x y z [H1 E1] [H2 E2]. split; [auto|congruence]. Qed.
Lemma same_core_idles n n' : same_core n n' → idles n n'.
Proof. intros [= _ _ _ Et Es _ _ _]. split; [by rewrite Es|done]. Qed.
Lemma undo_idles n : idles n (undo n).
Proof. unfold undo. by destruct (nd_undo n). Qed.
#[export] Instance pop_block_idles : NKeeps idles pop_block.
Proof.
  assert (∀ A (m : N A), NKeeps same_core m → NKeeps idles m) as Hcore by (intros A m Hm n; apply same_core_idles, Hm).
  unfold pop_block. apply nkeeps_bind; [apply _| |intros _].
  - apply nkeeps_modify. intros n. unfold reset_pending_session. destruct (nd_pending_session n) eqn:Ep; [|done].
    split; [done|]. apply undo_idles.
  - apply nkeeps_bind; [apply _..|]. intros id. apply nkeeps_bind; [apply _|apply Hcore, _|]. intros [b|]; [|apply _].
    do 2 (apply nkeeps_bind; [apply _..|]; intros ?). apply nkeeps_bind; [apply _|apply Hcore, _|]. intros _.
    apply nkeeps_bind; [apply _|apply nkeeps_modify, undo_idles|]. intros _. by apply nkeeps_modify.
Qed.
Lemma push_applied_idles skip b : NKeeps idles (push_applied skip b).
Proof.
  intros n. unfold push_applied, in_session. destruct (node_apply_block skip b (start_undo_session n)) as [r n'] eqn:H.
  apply node_apply_block_run in H as (_ & Et & Es & _). cbn in Et, Es.
  assert (idles n n') as Hi by (split; [by rewrite Es|done]). destruct r; cbn [snd]; [done|]. etrans; [exact Hi|].
  unfold unwind. destruct (nd_undo n'); [done|apply undo_idles].
Qed.
Lemma _push_block_idles skip b n : idles n (_push_block skip b n).2.
Proof.
  apply (_push_block_keeps idles (λ _, True)); [intros ??; apply same_core_idles|intros; apply push_applied_idles|apply _|done..].
Qed.

Lemma open_pending_ok n : pending_ok n → pending_ok (open_pending n) ∧ nd_pending_tx (open_pending n) = nd_pending_tx n.
Proof.
  unfold pending_ok, open_pending. destruct (nd_pending_session n) eqn:Ep; [by rewrite Ep|]. cbn. intros Ht.
  split; [|done]. exists (nd_db n), (nd_undo n). rewrite Ht. split; [done|apply txs_none].
Qed.
Lemma pending_settled n : pending_ok n → settled n ≠ [].
Proof. unfold pending_ok, settled. destruct (nd_pending_session n); [|done]. by intros (s & l & -> & _). Qed.
Lemma push_transaction_pending Q skip trx n :
  Q = P ∨ Q = producing P → pending_ok n →
  let m := _push_transaction (P := Q) skip trx n in
  pending_ok m.2 ∧ nd_popped_tx m.2 = nd_popped_tx n ∧
  nd_pending_tx m.2 = nd_pending_tx n ++ (if is_ok m.1 then [trx] else []).
Proof.
  intros HQ Hn. rewrite push_transaction_run by by apply pending_settled.
  destruct (open_pending_ok n Hn) as [Ho Et]. cbn zeta.
  assert (nd_popped_tx (open_pending n) = nd_popped_tx n) as Epp by (unfold open_pending; by case_match).
  destruct (_apply_transaction skip trx (nd_db (open_pending n))) as [[[] s]|e] eqn:Ha; cbn [fst snd is_ok].
  - split; [|by rewrite <- Et]. unfold pending_ok in *. rewrite open_pending_session in *.
    cbn. rewrite open_pending_session. destruct Ho as (s0 & l & Hu & Htx). exists s0, l. split; [done|].
    by eapply txs_more.
  - split; [done|]. by rewrite app_nil_r, Et.
Qed.
Lemma restore_one_pending skip tx n :
  pending_ok n → let n' := (restore_one skip tx n).2 in
  pending_ok n' ∧ nd_popped_tx n' = nd_popped_tx n ∧
  ∃ kept, kept `sublist_of` [tx] ∧ nd_pending_tx n' = nd_pending_tx n ++ kept.
Proof.
  intros Hn. cbn zeta. assert (pending_ok n ∧ nd_popped_tx n = nd_popped_tx n ∧
    ∃ kept, kept `sublist_of` [tx] ∧ nd_pending_tx n = nd_pending_tx n ++ kept) as Hno.
  { split_and!; [done..|]. exists []. rewrite app_nil_r. split; [apply sublist_nil_l|done]. }
  unfold restore_one, n_try. rewrite n_bind_run. destruct (reads (is_known_transaction _) n).1 as [known|e]; [|done].
  cbn [reads snd]. destruct known; cbn [negb n_when]; [done|].
  destruct (push_transaction_pending P skip tx n (or_introl eq_refl) Hn) as (Hp & Hpp & Ht).
  destruct (_push_transaction skip tx n) as [[u|e] n']; cbn [fst snd is_ok mret N_ret] in *; (split_and!; [done..|]).
  - by exists [tx].
  - exists []. split; [apply sublist_nil_l|done].
Qed.
Lemma restore_all_pending skip txs n :
  pending_ok n → let n' := (n_for_each txs (restore_one skip) n).2 in
  pending_ok n' ∧ nd_popped_tx n' = nd_popped_tx n ∧
  ∃ kept, kept `sublist_of` txs ∧ nd_pending_tx n' = nd_pending_tx n ++ kept.
Proof.
  cbn zeta. revert n. induction txs as [|tx txs IH]; intros n Hn; cbn [n_for_each].
  - split_and!; [done..|]. exists []. by rewrite app_nil_r.
  - rewrite n_bind_run. assert (∃ u, (restore_one skip tx n).1 = Ok u) as [u ->].
    { unfold restore_one, n_try. repeat case_match; by eexists. }
    destruct (restore_one_pending skip tx n Hn) as (H1 & E1 & k1 & S1 & T1).
    destruct (IH _ H1) as (H2 & E2 & k2 & S2 & T2). split_and!; [done|congruence|].
    exists (k1 ++ k2). split; [by apply (sublist_app k1 [tx] k2 txs)|]. by rewrite T2, T1, app_assoc.
Qed.
Lemma push_block_pending skip b n :
  let n' := (push_block skip b n).2 in
  pending_ok n' ∧ nd_popped_tx n' = [] ∧
  nd_pending_tx n' `sublist_of` nd_popped_tx (_push_block skip b (clear_pending n)).2 ++ nd_pending_tx n.
Proof.
  rewrite push_block_result. cbn zeta. cbn [snd].
  destruct (_push_block_idles skip b (clear_pending n)) as [Hs Et]. specialize (Hs (clear_pending_idle n)).
  assert (nd_pending_tx (clear_pending n) = []) as Ec by (unfold clear_pending, reset_pending_session; case_match; [apply undo_idles|done]).
  rewrite Ec in Et. set (n1 := (_push_block skip b (clear_pending n)).2) in *.
  assert (pending_ok n1) as H1 by (unfold pending_ok; by rewrite Hs).
  assert (∀ txs n, (n_for_each txs (restore_one skip) n).1 = Ok tt) as Hok.
  { intros txs. induction txs as [|tx txs IH]; intros x; cbn [n_for_each]; [done|]. rewrite n_bind_run.
    destruct (restore_one skip tx x) as [[u|e] x'] eqn:Ex; [apply IH|]. by unfold restore_one, n_try in Ex; repeat case_match. }
  unfold restore_pending. rewrite n_bind_run. cbn [n_gets fst snd]. rewrite n_bind_run, Hok.
  destruct (restore_all_pending skip (nd_popped_tx n1) n1 H1) as (H2 & _ & k2 & S2 & T2).
  rewrite n_bind_run. cbn [n_modify fst snd]. set (n2 := (n_for_each (nd_popped_tx n1) _ n1).2) in *.
  destruct (restore_all_pending skip (nd_pending_tx n) (set_popped_tx [] n2)) as (H3 & E3 & k3 & S3 & T3); [done|].
  split_and!; [done..|]. rewrite T3. cbn [nd_pending_tx set_popped_tx]. rewrite T2, Et. by apply sublist_app.
Qed.
End pending.

(** ** The highest block *)
Section highest.
Context {F : Fc} {B : Boost} {D : DiffMatchPatch} {K : Crypto} {E : Equihash} {P : Plugins} {PL : PluginLaws}.
Context {T : Torn} {PK : Packing}.

(** The block is the head block of the node. *)
Definition heads (b : signed_block) (n : node) : Prop :=
  n_head_block_id n = header_id (sb_header b) ∧ n_head_block_num n = block_num (head_block b).
Lemma push_applied_heads skip b n u n' :
  push_applied skip b n = (Ok u, n') → heads b n' ∧ bh_previous (head_block b) = n_head_block_id n.
Proof.
  unfold push_applied, in_session. destruct (node_apply_block skip b (start_undo_session n)) as [[v|e] n1] eqn:H; [|done].
  intros [= _ <-]. apply node_apply_block_run in H as (_ & _ & _ & _ & _ & [skip' H] & _).
  apply block_frontier in H as ((Hp & _) & ? & ? & ? & ? & Hf & _). split; [|done]. by injection Hf.
Qed.
Lemma push_on_head_heads skip b n r n' :
  push_on_head skip b n = (Ok r, n') → r = false ∧ heads b n' ∧ bh_previous (head_block b) = n_head_block_id n.
Proof.
  intros H. apply n_bind_ok in H as (u & n1 & H & [= <- <-]). split; [done|]. unfold n_try in H.
  destruct (push_applied skip b n) as [[v|e] n2] eqn:Hp; [|done]. injection H as _ <-. by eapply push_applied_heads.
Qed.
Lemma apply_branch_heads skip l x n n' :
  apply_branch skip (l ++ [x]) n = (Ok None, n') → heads (fi_data x) n'.
Proof.
  revert n. induction l as [|y l IH]; intros n H; cbn [app apply_branch] in H.
  all: apply n_bind_ok in H as (ex & n1 & H1 & H); destruct ex as [e|]; [done|].
  - unfold n_try in H1. rewrite n_bind_run in H1.
    destruct (push_applied skip (fi_data x) n) as [[v|e] n2] eqn:Hp; [|done]. cbn in H1, H. injection H1 as <-.
    injection H as <-. by eapply push_applied_heads.
  - by eapply IH.
Qed.
Lemma fetch_branch_first a b d r :
  fetch_branch_from a b d = Ok r → ∃ x l, r.1 = x :: l ∧ fetch_block a d = Some x.
Proof.
  unfold fetch_branch_from. intros (x & Hx & H)%rbind_ok. apply rbind_ok in H as (y & _ & H).
  apply rbind_ok in H as ([x1 l1] & H1 & H). apply rbind_ok in H as ([y1 l2] & _ & H).
  destruct r as [rx ry]. apply level_walk in H1 as (l & -> & Hw). cbn [fst snd app] in *.
  apply join_walk in H as (lx & x' & ly & y' & -> & _ & Hw' & _).
  unfold find_item in Hx. destruct (fetch_block a d) as [?|]; [|done]. injection Hx as ->.
  pose proof (walk_app _ _ _ _ _ _ Hw Hw') as Hwx. rewrite app_assoc. destruct (l ++ lx) as [|z l'].
  - inversion Hwx; subst. by exists x', [].
  - inversion Hwx; subst. by exists z, (l' ++ [x']).
Qed.
Lemma switch_forks_heads skip x n r n' :
  fork_wf (nd_fork n) → switch_forks skip x n = (Ok r, n') →
  r = true ∧ n_head_block_id n' = header_id (sb_header (fi_data x)) ∧ n_head_block_num n' = block_num (head_block (fi_data x)).
Proof.
  intros Hd H. unfold switch_forks in H. do 2 (rewrite n_bind_run in H; cbn [n_gets fst snd] in H).
  apply n_bind_ok in H as (br & n1 & Hb & H). injection Hb as Hb <-.
  apply n_bind_ok in H as (u & n2 & _ & H). unfold n_finally in H. injection H as H <-.
  destruct (fetch_branch_first _ _ _ _ Hb) as (y & l & El & Hy).
  match type of H with (?m n2).1 = _ => destruct (m n2) as [r1 n3] eqn:Hm end. cbn in H. subst r1.
  apply n_bind_ok in Hm as (z & n4 & _ & Hm). apply n_bind_ok in Hm as (v & n5 & _ & Hm).
  apply n_bind_ok in Hm as (failed & n6 & Hf & Hm). destruct failed as [[e rest]|].
  { do 4 apply n_bind_ok in Hm as (? & ? & _ & Hm). done. }
  injection Hm as <- <-. rewrite El, reverse_cons in Hf. apply apply_branch_heads in Hf as [Hid Hnum].
  assert (header_id (sb_header (fi_data y)) = header_id (sb_header (fi_data x))) as Eid.
  { unfold fetch_block in Hy. apply bind_Some in Hy as (p & Hp & Hy). destruct (fork_index_wf _ Hd _ _ Hp) as (y' & Hy' & <-).
    assert (y' = y) as -> by congruence. by destruct (fork_items_wf _ Hd _ _ Hy) as (_ & -> & _). }
  split; [done|].
  change (n_head_block_id n6 = header_id (sb_header (fi_data x)) ∧ n_head_block_num n6 = block_num (head_block (fi_data x))).
  rewrite Hid, Hnum, <- Eid. split; [done|]. unfold head_block. by rewrite <- !num_from_header_id, Eid.
Qed.
Lemma push_to_fork_run b n x n1 :
  fork_wf (nd_fork n) → push_to_fork b n = (Ok x, n1) →
  same_core n n1 ∧ fork_wf (nd_fork n1) ∧ fi_num x = block_num (head_block (fi_data x)) ∧
  match head_num (nd_fork n) with
  | Some h => if h <? block_num (head_block b) then fi_data x = b else fi_num x = h
  | None => fi_data x = b
  end.
Proof.
  intros Hd H. unfold push_to_fork in H. rewrite n_bind_run in H. cbn [n_gets fst snd] in H.
  apply n_bind_ok in H as ([h d] & n2 & Hp & H). injection Hp as Hp <-.
  rewrite n_bind_run in H. cbn [n_modify fst snd] in H. injection H as Hx <-.
  unfold fork_push_block in Hp. apply rbind_ok in Hp as (d1 & Hp & [= <- <-]).
  pose proof (fork_push_wf _ _ _ Hd Hp) as Hd1.
  destruct (fdb_head d1 ≫= item_at d1) as [y|] eqn:Hy; [|done]. injection Hx as ->.
  split_and!; [done|done| |].
  - apply bind_Some in Hy as (p & _ & Hy). by destruct (fork_items_wf _ Hd1 _ _ Hy) as (-> & _).
  - unfold ForkDatabase._push_block in Hp. apply rbind_ok in Hp as (u & _ & Hp). apply rbind_ok in Hp as (prev & _ & [= <-]).
    revert Hy. set (it := ForkItem _ _ _ _ _).
    assert (item_at (insert_item it (nd_fork n)) (length (fdb_items (nd_fork n))) = Some it) as Hit by (apply item_at_insert; by right).
    assert (fdb_head (insert_item it (nd_fork n)) ≫= item_at (insert_item it (nd_fork n)) = fdb_head (nd_fork n) ≫= item_at (nd_fork n)) as Eh.
    { cbn [fdb_head insert_item]. destruct (fdb_head (nd_fork n)) as [p|] eqn:Ep; [|done]. cbn.
      destruct (fork_head_wf _ Hd _ Ep) as [y Hy]. rewrite Hy. apply item_at_insert. by left. }
    unfold head_num. rewrite Eh. destruct (fdb_head (nd_fork n) ≫= item_at (nd_fork n)) as [y|] eqn:Ey; cbn [fmap option_fmap option_map].
    + destruct (fi_num y <? block_num (head_block b)).
      * cbn. unfold item_at in *. cbn in *. rewrite Hit. by intros [= <-].
      * rewrite Eh. by intros [= <-].
    + cbn. unfold item_at in *. cbn in *. rewrite Hit. by intros [= <-].
Qed.
End highest.

(** ** The operations a node takes *)
Section steps.
Context {F : Fc} {B : Boost} {D : DiffMatchPatch} {K : Crypto} {E : Equihash} {P : Plugins} {PL : PluginLaws}.
Context {T : Torn} {PK : Packing}.

Inductive node_step (n : node) : node → Prop :=
| step_push_block skip b :
    small_block b → fine_items small_block (nd_fork n) → node_step n (push_block skip b n).2
| step_push_transaction trx skip : node_step n (push_transaction trx skip n).2
| step_generate_block when witness_owner key skip :
    nd_revision n + 2 < U32 → fine_items small_block (nd_fork n) →
    node_step n (generate_block when witness_owner key skip n).2
| step_pop_block : node_step n (pop_block n).2
| step_clear_pending : node_step n (clear_pending n)
| step_add_checkpoints c : node_step n (add_checkpoints c n).

(** *** A lost node stays lost *)
#[local] Instance nkeeps_core_lost {A} (m : N A) : NKeeps same_core m → NKeeps lost_stays m.
Proof. intros Hm n Hn. pose proof (Hm n) as [= _ _ _ _ _ _ _ El]. by rewrite El. Qed.
#[local] Instance push_applied_lost skip b : NKeeps lost_stays (push_applied skip b).
Proof.
  apply in_session_lost. intros n Hn. destruct (node_apply_block skip b n) as [r n'] eqn:H.
  apply node_apply_block_run in H as (_ & _ & _ & _ & El & _). cbn. by rewrite El.
Qed.
#[local] Instance pop_block_lost : NKeeps lost_stays pop_block.
Proof.
  unfold pop_block. apply nkeeps_bind; [apply _| |intros _].
  - apply modify_lost. intros n. unfold reset_pending_session. case_match; [apply undo_lost|done].
  - apply nkeeps_bind; [apply _..|]. intros id. apply nkeeps_bind; [apply _..|]. intros [b|]; [|apply _].
    do 2 (apply nkeeps_bind; [apply _..|]; intros ?). apply nkeeps_bind; [apply _..|]. intros _.
    apply nkeeps_bind; [apply _|apply modify_lost, undo_lost|]. intros _. by apply modify_lost.
Qed.
#[local] Instance _push_block_lost skip b : NKeeps lost_stays (_push_block skip b).
Proof.
  intros n. apply (_push_block_keeps lost_stays (λ _, True)); [|intros; apply _|apply _|done..].
  intros x y [= _ _ _ _ _ _ _ El] Hx. by rewrite El.
Qed.
#[local] Instance push_block_lost skip b : NKeeps lost_stays (push_block skip b).
Proof.
  unfold push_block. apply nkeeps_bind; [apply _..|]. intros txs. apply nkeeps_bind; [apply _|apply modify_lost, clear_pending_lost|].
  intros _. apply _.
Qed.
#[local] Instance choose_transactions_lost skip when max : NKeeps lost_stays (choose_transactions skip when max).
Proof.
  unfold choose_transactions. assert (∀ n, nd_lost (reset_pending_session n) = nd_lost n) as Hr.
  { intros n. unfold reset_pending_session. case_match; [apply undo_lost|done]. }
  apply nkeeps_bind; [apply _|by apply modify_lost|]. intros _. apply nkeeps_bind; [apply _|by apply modify_lost|].
  intros _. apply nkeeps_bind; [apply _..|]. intros txs. apply nkeeps_bind; [apply _| |].
  - apply nkeeps_fold; [apply _|]. intros acc tx. unfold include_transaction. repeat case_match; [apply _..|].
    apply nkeeps_try; [apply _| |intros; apply _]. apply nkeeps_bind; [apply _| |intros; apply _].
    apply in_session_lost. apply nkeeps_bind; [apply _..|]. intros _. apply modify_lost, squash_lost.
  - intros acc. apply nkeeps_bind; [apply _|by apply modify_lost|]. intros _. apply _.
Qed.
Lemma node_step_lost n n' : node_step n n' → lost_stays n n'.
Proof.
  intros [skip b _ _|trx skip|when w key skip _ _| | |c].
  - apply push_block_lost.
  - exact (proj1 (push_transaction_advances trx skip n)).
  - unfold generate_block. match goal with |- lost_stays n (?m n).2 => enough (NKeeps lost_stays m) as Hm by apply Hm end.
    do 5 (apply nkeeps_bind; [apply _..|]; intros ?). apply nkeeps_bind; [apply _|case_match; apply _|].
    intros _. apply _.
  - apply pop_block_lost.
  - intros Hn. by rewrite clear_pending_lost.
  - intros Hn. exact Hn.
Qed.
Lemma node_step_based n n' o :
  node_step n n' → based n o → nd_lost n' = true ∨ ∃ o', based n' o' ∧ later o o'.
Proof.
  intros [skip b Hb Hf|trx skip|when w key skip Hr Hf| | |c] Ho.
  - by apply push_block_advances.
  - by apply push_transaction_advances.
  - by apply generate_block_advances.
  - by apply pop_block_advances.
  - right. exists o. split; [|done]. by eapply stays_based; [apply clear_pending_stays|].
  - right. by exists o.
Qed.
Lemma chained_above o r l s :
  chained o r l → s ∈ l → rtc applies o s ∧ fr_number (frontier o) ≤ fr_number (frontier s).
Proof.
  intros Hc. revert s. induction Hc as [r Hr|r s' s l Ha Hh Hc IH]; intros x.
  - intros ->%list_elem_of_singleton. done.
  - intros [->|Hx]%elem_of_cons; [|by apply IH].
    destruct (IH s (list_elem_of_here _ _)) as [H1 H2]. split; [by eapply rtc_r|].
    apply chained_height in Hc as (_ & Es & _). destruct Hh as (_ & -> & _). lia.
Qed.
End steps.

Section theorems.
Context {F : Fc} {B : Boost} {D : DiffMatchPatch} {K : Crypto} {E : Equihash} {P : Plugins} {PL : PluginLaws}.
Context {T : Torn} {PK : Packing}.

(** C5: whatever blocks and transactions a node is given, and whichever of them
    fail, the states it holds are those after consecutive blocks, and its oldest
    state, below which it cannot undo, only moves forward by applied blocks: every
    state it holds later extends that state, and the oldest state is never behind
    a block that a held state calls irreversible.  The exception is a block that
    fails after it has made itself irreversible, which [nd_lost] records. *)
Theorem node_finality n n' o :
  based n o → rtc node_step n n' →
  nd_lost n' = true ∨
  ∃ o', based n' o' ∧ later o o' ∧
    ∀ s, s ∈ settled n' →
      rtc applies o s ∧ fr_number (frontier o) ≤ fr_number (frontier s) ∧
      final_number s ≤ fr_number (frontier o').
Proof.
  intros Ho Hn. assert (nd_lost n' = true ∨ ∃ o', based n' o' ∧ later o o') as [HL|(o' & Ho' & HL)].
  { revert n' Hn. apply rtc_ind_r; [right; by exists o|]. intros n1 n2 _ Hs [HL|(o1 & Ho1 & HL)].
    - left. by apply (node_step_lost _ _ Hs).
    - destruct (node_step_based _ _ _ Hs Ho1) as [|(o2 & Ho2 & HL2)]; [by left|right]. exists o2. split; [done|by etrans]. }
  { by left. }
  right. exists o'. split_and!; [done..|]. intros s Hs. destruct Ho' as [Hc Hf], HL as [Ha Hle].
  destruct (chained_above _ _ _ _ Hc Hs) as [H1 H2]. split_and!; [by etrans|lia|by apply Hf].
Qed.

(** C7: after [push_block], whether it throws or not, the pending session is the
    result of the pending transactions on the new head, which are some of those
    that were popped and pending before, in their order; [push_transaction] adds
    its transaction exactly when it returns; and a generated block leaves such a
    node as well. *)
Theorem pending_session_rebuilt skip n :
  (∀ b, let n' := (push_block skip b n).2 in
     pending_ok n' ∧ nd_popped_tx n' = [] ∧
     nd_pending_tx n' `sublist_of` nd_popped_tx (_push_block skip b (clear_pending n)).2 ++ nd_pending_tx n) ∧
  (∀ trx, pending_ok n → let m := push_transaction trx skip n in
     pending_ok m.2 ∧ nd_pending_tx m.2 = nd_pending_tx n ++ (if is_ok m.1 then [trx] else [])) ∧
  (∀ when witness_owner key b n', generate_block when witness_owner key skip n = (Ok b, n') → pending_ok n').
Proof.
  split_and!.
  - intros b. apply push_block_pending.
  - intros trx Hn. cbn zeta. unfold push_transaction. rewrite n_bind_run. cbn [n_gets fst snd].
    rewrite n_bind_run. cbn [n_lift fst snd]. destruct (FC_ASSERT _ _); [|by rewrite app_nil_r].
    by destruct (push_transaction_pending (producing P) skip trx n (or_intror eq_refl) Hn) as (H1 & _ & H2).
  - intros when w key b n' H. apply n_bind_ok in H as (u & n1 & _ & H). do 4 apply n_bind_ok in H as (? & ? & _ & H).
    apply n_bind_ok in H as (? & n2 & _ & H). apply n_bind_ok in H as (r & n3 & H & Hret). injection Hret as _ <-.
    match type of H with push_block _ ?x n2 = _ => pose proof (push_block_pending skip x n2) as [Hp _] end.
    rewrite H in Hp. exact Hp.
Qed.

(** C6: where the head of the fork database is not above the chain, a block that
    is pushed becomes the head block exactly when it is higher than the head:
    directly when it names the head as its parent, by a switch of forks, of which
    the result tells, when it does not.  Other blocks leave the chain alone. *)
Theorem push_block_adopts skip b n r n' :
  fork_reachable (nd_fork n) → at_height (n_head_block_num n) (nd_db n) →
  (∀ h, head_num (nd_fork n) = Some h → h ≤ n_head_block_num n) →
  skips skip skip_fork_db = false → _push_block skip b n = (Ok r, n') →
  if n_head_block_num n <? block_num (head_block b) then
    n_head_block_id n' = header_id (sb_header b) ∧ n_head_block_num n' = block_num (head_block b) ∧
    (r = true ↔ bh_previous (head_block b) ≠ n_head_block_id n)
  else r = false ∧ nd_db n' = nd_db n ∧ nd_undo n' = nd_undo n.
Proof.
  intros Hd%fork_reachable_wf (Hid & _ & Hrange) Hlead Hskip H. unfold _push_block in H. rewrite Hskip in H.
  apply n_bind_ok in H as (x & n1 & Hp & H). destruct (push_to_fork_run _ _ _ _ Hd Hp) as (Hc & Hd1 & Ex & Hx).
  injection Hc as Edb Eu _ _ _ _ _ _. rewrite n_bind_run in H. cbn [n_gets fst snd] in H.
  assert (n_head_block_id n1 = n_head_block_id n ∧ n_head_block_num n1 = n_head_block_num n) as [Ei En]
    by (unfold n_head_block_id, n_head_block_num, n_gpo; by rewrite Edb).
  assert (∀ c, bh_previous (head_block c) = n_head_block_id n → block_num (head_block c) = n_head_block_num n + 1) as Hnext.
  { intros c Hc. unfold block_num. rewrite Hc. change (n_head_block_id n) with (fr_id (frontier (nd_db n))). rewrite Hid.
    apply Z.mod_small. lia. }
  assert (n_head_block_num n < fi_num x → fi_data x = b) as Hnew.
  { intros Hlt. destruct (head_num (nd_fork n)) as [h|]; [|done]. specialize (Hlead h eq_refl).
    destruct (h <? _); [done|lia]. }
  rewrite Ei in H. case_bool_decide as Hprev.
  - assert (fi_num x = n_head_block_num n + 1) as Exn by (rewrite Ex; by apply Hnext).
    rewrite <- (Hnew ltac:(lia)) in *. rewrite Ex in Exn. rewrite (proj2 (Z.ltb_lt _ _)) by lia.
    apply push_on_head_heads in H as (-> & [H1 H2] & _). split_and!; [done..|]. split; [done|]. by intros [].
  - rewrite n_bind_run in H. cbn [n_gets fst snd] in H. rewrite En in H.
    destruct (n_head_block_num n <? block_num (head_block (fi_data x))) eqn:Elt.
    + rewrite <- Ex in Elt. rewrite <- (Hnew ltac:(lia)) in *. rewrite <- Ex, Elt.
      apply switch_forks_heads in H as (-> & H1 & H2); [|done]. split_and!; [done..|congruence|]. by split.
    + injection H as <- <-. destruct (n_head_block_num n <? block_num (head_block b)) eqn:Eb; [|done]. exfalso.
      rewrite <- Ex in Elt. destruct (head_num (nd_fork n)) as [h|]; [specialize (Hlead h eq_refl); destruct (h <? _) eqn:Eh|].
      * subst b. lia.
      * lia.
      * subst b. lia.
Qed.
End theorems.

(** ** The theorems on a node that starts at genesis

    A block for the first slot, then two blocks that follow from genesis in the
    second and third. *)
#[local] Existing Instance fc_model.
#[local] Existing Instances boost_model no_patches crypto_model no_mining no_plugins no_plugins_laws packing_model.
#[local] Instance all_torn : Torn := λ _ _ db, db.

Definition genesis_node : node := Node (genesis 1000) [] 0 empty_fork_database empty_log [] false [] ∅ false.
Definition made_block (previous : string) (slot : Z) : signed_block :=
  SignedBlock
    (sign_header STEEMIT_INIT_PUBLIC_KEY
       (BlockHeader previous (STEEMIT_GENESIS_TIME + 3 * slot) STEEMIT_INIT_MINER_NAME EmptyString [])) [].
Definition made_1 : signed_block := made_block EmptyString 1.
Definition fork_1 : signed_block := made_block EmptyString 2.
Definition fork_2 : signed_block := made_block (id_of fork_1) 3.
Definition node_1 : node := (push_block skip_nothing made_1 genesis_node).2.
Definition node_2 : node := (push_block skip_nothing fork_1 node_1).2.
Definition node_3 : node := (push_block skip_nothing fork_2 node_2).2.


Lemma genesis_based : based genesis_node (genesis 1000).
Proof.
  split; [apply chained_one; split_and!; vm_compute; first [reflexivity|discriminate]|].
  intros s ->%list_elem_of_singleton. vm_compute. discriminate.
Qed.
Lemma small_of b : (block_num (head_block b) <? U32 - 1) = true → small_block b.
Proof. apply Z.ltb_lt. Qed.
Lemma fine_of n :
  forallb (λ x, block_num (head_block (fi_data x)) <? U32 - 1) (fdb_items (nd_fork n)) = true →
  fine_items small_block (nd_fork n).
Proof. rewrite forallb_forall. intros H x Hx%list_elem_of_In. by apply small_of, H. Qed.
Lemma node_finality_witness :
  ∃ o', based node_3 o' ∧ ∀ s, s ∈ settled node_3 → rtc applies (genesis 1000) s.
Proof.
  destruct (node_finality genesis_node node_3 (genesis 1000) genesis_based) as [HL|(o' & Ho & _ & Hs)].
  - refine (rtc_l _ _ node_1 _ _ (rtc_l _ _ node_2 _ _ (rtc_once _ _ _))).
    + apply (step_push_block _ skip_nothing made_1); [apply small_of|apply fine_of]; vm_compute; reflexivity.
    + apply (step_push_block _ skip_nothing fork_1); [apply small_of|apply fine_of]; vm_compute; reflexivity.
    + apply (step_push_block _ skip_nothing fork_2); [apply small_of|apply fine_of]; vm_compute; reflexivity.
  - exfalso. vm_compute in HL. discriminate HL.
  - exists o'. split; [exact Ho|]. intros s H. exact (proj1 (Hs s H)).
Defined.
Lemma pending_session_rebuilt_witness : pending_ok (push_block skip_nothing fork_2 node_2).2.
Proof. exact (proj1 (proj1 (pending_session_rebuilt skip_nothing node_2) fork_2)). Defined.
Lemma node_2_reachable : fork_reachable (nd_fork node_2).
Proof.
  assert (nd_fork node_2 = pushed fork_1 (set_max_size 2 (pushed made_1 empty_fork_database))) as ->
    by (vm_compute; reflexivity).
  eapply rtc_l; [|eapply rtc_l; [apply (step_max_size _ 2)|apply rtc_once]].
  - apply (step_push _ made_1). vm_compute. reflexivity.
  - apply (step_push _ fork_1). vm_compute. reflexivity.
Qed.
Lemma push_block_adopts_witness :
  (_push_block skip_nothing fork_2 node_2).1 = Ok true ∧ n_head_block_id (_push_block skip_nothing fork_2 node_2).2 = id_of fork_2.
Proof.
  assert ((_push_block skip_nothing fork_2 node_2).1 = Ok true) as E1 by (vm_compute; reflexivity).
  assert ((n_head_block_num node_2 <? block_num (head_block fork_2)) = true) as E2 by (vm_compute; reflexivity).
  split; [exact E1|].
  pose proof (push_block_adopts skip_nothing fork_2 node_2 true (_push_block skip_nothing fork_2 node_2).2) as H.
  rewrite E2 in H. refine (proj1 (H _ _ _ _ _)); clear H.
  - apply node_2_reachable.
  - split_and!; vm_compute; first [reflexivity|discriminate].
  - intros h Hh. vm_compute in Hh. injection Hh as <-. vm_compute. discriminate.
  - vm_compute. reflexivity.
  - rewrite <- E1. apply surjective_pairing.
Defined.

(** After the switch the chain is at the second block of the fork, but the head
    of the fork database is the first: each popped block has moved it back. *)
Definition fork_head (n : node) : option signed_block :=
  fi_data <$> (fdb_head (nd_fork n) ≫= item_at (nd_fork n)).
Example fork_head_lags : n_head_block_id node_3 = id_of fork_2 ∧ fork_head node_3 = Some fork_1.
Proof. split; vm_compute; reflexivity. Qed.

(** A block with a wrong signature on the first block. *)
Definition forged_2 : signed_block :=
  SignedBlock (SignedBlockHeader (BlockHeader (id_of made_1) (STEEMIT_GENESIS_TIME + 6) STEEMIT_INIT_MINER_NAME EmptyString [])
                 "forged") [].
Definition node_4 : node := (push_block skip_nothing forged_2 node_1).2.
(** It is refused and taken from the index, but stays the head of the fork
    database, so that the block of the other fork is then refused as well,
    although the node would keep it without the forged one. *)
Example refused_head_stays :
  is_ok (push_block skip_nothing forged_2 node_1).1 = false ∧
  fork_is_known_block (id_of forged_2) (nd_fork node_4) = false ∧ fork_head node_4 = Some forged_2 ∧
  (push_block skip_nothing fork_1 node_1).1 = Ok false ∧
  is_ok (push_block skip_nothing fork_1 node_4).1 = false ∧
  fork_is_known_block (id_of fork_1) (nd_fork (push_block skip_nothing fork_1 node_4).2) = false.
Proof. split_and!; vm_compute; reflexivity. Qed.
