(* ===== verification/Startup.v ===== *)
(** * Starting a node

    [open], [reindex] and [close] of chain/database.cpp.  The shared memory keeps
    the chain state with its undo sessions; the block log is in its two files.

    Not modelled: the paths and sizes of the files, the registration of the
    indices and evaluators, the opening in read-only mode, which changes
    nothing, and the messages about the progress. *)
From S2P Require Import Prelude Fc Config Asset Chainbase ChainbaseSpec Objects Protocol BlockHeader Database.
From S2P Require Import Supply Votes Ledger Rewards Comments Cashout Genesis Transfers Market Inflation Escrow.
From S2P Require Import EscrowSpec Vesting Frames Proxies Delegations Accounts WitnessSchedule Soundness Hardforks.
From S2P Require Import SignState Mining Operations Transactions Block BlockSafety Frontier BlockRules ForkDatabase BlockLog.
From S2P Require Import Node NodeSafety.

(** What the shared memory has: the state, the sessions and the revision. *)
Record shared_memory := SharedMemory {
  sm_db : database; sm_undo : list database; sm_revision : Z }.

Section startup.
Context {F : Fc} {B : Boost} {D : DiffMatchPatch} {K : Crypto} {E : Equihash} {P : Plugins} {T : Torn} {PK : Packing}.

(** The configuration of the hardforks is constant; what is left of
    [init_hardforks] are the checks of the state against it. *)
Definition init_hardforks (db : database) : result unit :=
  let hardforks := db_hpo db in
  FC_ASSERT (hpo_last_hardfork hardforks <=? STEEMIT_NUM_HARDFORKS)
    "Chain knows of more hardforks than configuration";;
  v ← at_index hardfork_versions (hpo_last_hardfork hardforks);
  FC_ASSERT (v <=? STEEMIT_BLOCKCHAIN_VERSION) "Blockchain version is older than last applied hardfork";;
  v ← at_index hardfork_versions STEEMIT_NUM_HARDFORKS;
  FC_ASSERT (STEEMIT_BLOCKCHAIN_HARDFORK_VERSION =? v) "STEEMIT_BLOCKCHAIN_HARDFORK_VERSION".

(** [while( enabled() ) undo();] *)
Definition undo_all (n : node) : node := Nat.iter (length (nd_undo n)) undo n.

(** The head block must be in the log; it starts the fork database. *)
Definition load_head (db : database) (log : block_log) : result fork_database :=
  let num := gpo_head_block_number (db_gpo db) in
  if num =? 0 then Ok empty_fork_database
  else
    head_block ← read_block_by_num num log;
    match head_block with
    | Some b =>
        FC_ASSERT (bool_decide (header_id (sb_header b) = gpo_head_block_id (db_gpo db)))
          "Chain state does not match block log. Please reindex blockchain.";;
        mret (start_block b empty_fork_database)
    | None => FC_ASSERT false "Chain state does not match block log. Please reindex blockchain.";; Throw out_of_range
    end.
Definition node_open (memory : option shared_memory) (blocks index : list Z) (checkpoints : gmap Z string)
    (initial_supply : Z) : result node :=
  m ← match memory with
      | Some m => Ok m
      | None => x ← init_genesis initial_supply empty_database; mret (SharedMemory x.2 [] 0)
      end;
  log ← open blocks index;
  let n := undo_all (Node (sm_db m) (sm_undo m) (sm_revision m) empty_fork_database log [] false [] checkpoints false) in
  FC_ASSERT (nd_revision n =? n_head_block_num n) "Chainbase revision does not match head block num";;
  validate_invariants (nd_db n);;
  fork ← load_head (nd_db n) log;
  init_hardforks (nd_db n);;
  mret (set_fork fork n).
(** What stays in the shared memory. *)
Definition close (n : node) : shared_memory :=
  let n := clear_pending n in SharedMemory (nd_db n) (nd_undo n) (nd_revision n).

(** ** [reindex] *)
Definition reindex_skip : Z :=
  foldl Z.lor 0 [skip_witness_signature; skip_transaction_signatures; skip_transaction_dupe_check;
    skip_tapos_check; skip_merkle_check; skip_witness_schedule_check; skip_authority_check; skip_validate;
    skip_validate_invariants; skip_block_log].
Fixpoint replay (fuel : nat) (last_block_num : Z) (itr : signed_block * Z) : N unit :=
  node_apply_block reindex_skip itr.1;;
  if block_num (head_block itr.1) =? last_block_num then mret tt
  else
    match fuel with
    | O => n_throw (logic_error "out of rounds")
    | S fuel' =>
        log ← n_gets nd_log;
        itr' ← n_lift (read_block itr.2 log);
        replay fuel' last_block_num itr'
    end.
Definition set_revision (revision : Z) : N unit := λ n,
  match nd_undo n with
  | [] => (Ok tt, set_state (nd_db n) [] revision n)
  | _ => (Throw (logic_error "cannot set revision while there is an existing undo stack"), n)
  end.
Definition reindex_blocks (head : signed_block) : N unit :=
  log ← n_gets nd_log;
  itr ← n_lift (read_block 0 log);
  replay (length (block_file log)) (block_num (head_block head)) itr;;
  num ← n_gets n_head_block_num;
  set_revision num;;
  n_when (negb (block_num (head_block head) =? 0))
    (n_modify (λ n, set_fork (start_block head (nd_fork n)) n)).
Definition reindex (blocks index : list Z) (checkpoints : gmap Z string) : result node :=
  n ← node_open None blocks index checkpoints 0;
  let n := set_fork (reset (nd_fork n)) n in
  match bl_head (nd_log n) with
  | None => Throw block_log_exception
  | Some head =>
      match reindex_blocks head n with
      | (Ok _, n') => Ok n'
      | (Throw e, _) => Throw e
      end
  end.
End startup.

(** ** What starting gives *)
Section proofs.
Context {F : Fc} {B : Boost} {D : DiffMatchPatch} {K : Crypto} {E : Equihash} {P : Plugins} {PL : PluginLaws}.
Context {T : Torn} {PK : Packing}.

Lemma undo_all_final n o :
  chained o (nd_revision n) (nd_db n :: nd_undo n) → undo_all n = set_state o [] (fr_number (frontier o)) n.
Proof.
  unfold undo_all. intros Hc. remember (nd_undo n) as l eqn:El. revert n El Hc.
  induction l as [|s l IH]; intros n El Hc; cbn [length].
  - inversion Hc as [r Hr Hn1 Hn2|]; subst. destruct Hr as (_ & -> & _). cbn. destruct n. unfold set_state. cbn in *. by subst.
  - rewrite Nat.iter_succ_r. inversion Hc as [|r s' s'' l' _ _ Hc' Hr]; subst.
    rewrite (IH (undo n)); unfold undo; rewrite <- El; cbn; [done..|].
    by replace (nd_revision n - 1) with r by lia.
Qed.

(** *** The positions of the blocks in the log *)
Lemma read_block_next l bs i b :
  holds l bs → bs !! i = Some b →
  read_block (Z.of_nat (length (layout 0 (take i bs)))) l = Ok (b, Z.of_nat (length (layout 0 (take (S i) bs)))).
Proof.
  intros Hl Hb. unfold read_block. rewrite Nat2Z.id, (holds_blocks _ _ Hl), (layout_at _ _ _ Hb).
  rewrite unpack_pack by (eapply Forall_lookup_1; [apply (holds_packable _ _ Hl)|done]).
  rsimpl. cbn [fst snd]. do 2 f_equal.
  rewrite (take_S_r _ _ _ Hb), <- (take_drop_middle _ _ _ Hb) at 1. rewrite !layout_app, !length_app. cbn [layout].
  rewrite app_nil_r, !length_app. unfold u64_bytes. rewrite !length_le_bytes. cbn [Nat.add]. lia.
Qed.

(** *** Blocks of the log *)
Definition replaying (l : block_log) (n : node) : Prop :=
  nd_checkpoints n = ∅ ∧ nd_undo n = [] ∧ nd_log n = l ∧ nd_pending_session n = false ∧ nd_lost n = false.
Lemma replay_block l b n :
  replaying l n →
  match _apply_block reindex_skip b (nd_db n) with
  | Ok (_, s) => ∃ n', node_apply_block reindex_skip b n = (Ok tt, n') ∧ nd_db n' = s ∧ replaying l n'
  | Throw e => (node_apply_block reindex_skip b n).1 = Throw e
  end.
Proof.
  intros (Hc & Hu & Hlog & Hp & Hlost).
  unfold node_apply_block. rewrite n_bind_run. cbn [n_gets fst snd]. rewrite n_bind_run. cbn [n_lift fst snd].
  rewrite Hc. assert (checkpoint_flags ∅ reindex_skip b = Ok reindex_skip) as -> by done.
  rewrite n_bind_run. unfold _apply_block, open_block.
  destruct (on_db (begin_block reindex_skip b) n) as [r1 n1] eqn:Ho. unfold on_db in Ho. rewrite !m_bind_run.
  destruct (begin_block reindex_skip b (nd_db n)) as [[[] s]|e]; injection Ho as <- <-; cbn [fst snd]; [|done].
  rewrite n_bind_run.
  match goal with |- context [settle_irreversible reindex_skip ?x] =>
    assert (∃ n2, settle_irreversible reindex_skip x = (Ok tt, n2) ∧ nd_db n2 = s ∧ replaying l n2) as (n2 & -> & Edb & Hn2) end.
  { eexists. split; [reflexivity|]. split; [done|]. unfold replaying. cbn. by rewrite Hu, take_nil. }
  cbn [fst snd]. unfold on_db. rewrite Edb, m_bind_run.
  destruct (settle_block b s) as [[[] s2]|e]; [|done].
  destruct ((clear_null_account_balance;; close_block) s2) as [[[] s3]|e]; [|done].
  eexists. split; [reflexivity|]. by split.
Qed.
Lemma replay_run l bs fuel i b n :
  holds l bs → replaying l n → bs !! i = Some b → (length bs ≤ S i + fuel)%nat →
  let m := replay fuel (Z.of_nat (length bs)) (b, Z.of_nat (length (layout 0 (take (S i) bs)))) n in
  match for_each (drop i bs) (_apply_block reindex_skip) (nd_db n) with
  | Ok (_, s) => m.1 = Ok tt ∧ nd_db m.2 = s ∧ replaying l m.2
  | Throw e => m.1 = Throw e
  end.
Proof.
  intros Hl. revert i b n. induction fuel as [|fuel IH]; intros i b n Hn Hb Hf; cbn zeta; cbn [replay fst snd];
    rewrite (drop_S _ _ _ Hb); cbn [for_each]; rewrite n_bind_run, m_bind_run;
    pose proof (replay_block l b n Hn) as Hblock;
    destruct (_apply_block reindex_skip b (nd_db n)) as [[[] s]|e];
    [destruct Hblock as (n' & -> & Edb & Hn')| |destruct Hblock as (n' & -> & Edb & Hn')|]; cbn [fst snd];
    try by rewrite Hblock.
  all: change (head_block b) with (sbh_header (sb_header b)); rewrite (holds_numbers _ _ Hl _ _ Hb).
  all: assert (i < length bs)%nat as Hi by by eapply lookup_lt_Some.
  - rewrite drop_ge by lia. rewrite (proj2 (Z.eqb_eq _ _)) by lia. cbn. by subst s.
  - destruct (Z.of_nat i + 1 =? Z.of_nat (length bs)) eqn:Ei.
    + rewrite drop_ge by lia. cbn. by subst s.
    + destruct (bs !! S i) as [b'|] eqn:Hb'; [|apply lookup_ge_None in Hb'; lia].
      rewrite n_bind_run. cbn [n_gets fst snd]. destruct Hn' as (Hc & Hu & Hlog & Hr). rewrite Hlog, n_bind_run.
      rewrite (read_block_next _ _ _ _ Hl Hb'). cbn [n_lift fst snd]. subst s. by apply IH; [|done|lia].
Qed.
Lemma open_log memory blocks index cps supply n :
  node_open memory blocks index cps supply = Ok n →
  nd_checkpoints n = cps ∧ nd_undo n = [] ∧ nd_pending_session n = false ∧ nd_lost n = false ∧
  nd_popped_tx n = [] ∧ nd_pending_tx n = [].
Proof.
  unfold node_open. intros (m & _ & H)%rbind_ok. apply rbind_ok in H as (log & _ & H).
  do 2 apply rbind_ok in H as ([] & _ & H). apply rbind_ok in H as (fork & _ & H).
  apply rbind_ok in H as ([] & _ & [= <-]). unfold undo_all. cbn [nd_undo].
  generalize (sm_db m) (sm_revision m). induction (sm_undo m) as [|s l IH]; intros db r; [done|].
  cbn [length]. rewrite Nat.iter_succ_r. unfold undo at 2. cbn. apply IH.
Qed.
End proofs.

Section theorems.
Context {F : Fc} {B : Boost} {D : DiffMatchPatch} {K : Crypto} {E : Equihash} {P : Plugins} {PL : PluginLaws}.
Context {T : Torn} {PK : Packing}.

(** C12: a node that is closed and opened again comes back at its final state, the
    one that it could not undo: the check of the revision always passes, and what
    decides is only whether that state is valid and its head block is in the log. *)
Theorem reopen_at_final n o blocks index cps supply :
  based n o →
  node_open (Some (close n)) blocks index cps supply =
    (log ← open blocks index;
     validate_invariants o;;
     fork ← load_head o log;
     init_hardforks o;;
     mret (Node o [] (fr_number (frontier o)) fork log [] false [] cps false)).
Proof.
  intros Ho. destruct (stays_based _ _ o (clear_pending_stays n) Ho) as [Hc _].
  apply quiet_based in Hc as [_ [Hc _]]; [|apply clear_pending_idle].
  unfold node_open, close. rsimpl. cbn [sm_db sm_undo sm_revision]. destruct (open blocks index) as [log|e]; [|done]. rsimpl.
  rewrite (undo_all_final _ o) by done. cbn [set_state nd_revision nd_db].
  change (n_head_block_num _) with (fr_number (frontier o)). by rewrite Z.eqb_refl.
Qed.

(** [reindex] reads the blocks of the log in order and applies each to the
    state that the ones before it left, from genesis on, to the last one; then
    the revision is the number of the head block, which is alone in the fork
    database.  It throws what the first block that fails throws. *)
Theorem reindex_replays blocks index n0 bs :
  node_open None blocks index ∅ 0 = Ok n0 → holds (nd_log n0) bs → bs ≠ [] →
  match for_each bs (_apply_block reindex_skip) (nd_db n0) with
  | Ok (_, db) => ∃ n, reindex blocks index ∅ = Ok n ∧ nd_db n = db ∧ nd_undo n = [] ∧ nd_log n = nd_log n0 ∧
      nd_revision n = gpo_head_block_number (db_gpo db) ∧
      fi_data <$> (fdb_head (nd_fork n) ≫= item_at (nd_fork n)) = last bs
  | Throw e => reindex blocks index ∅ = Throw e
  end.
Proof.
  intros Hopen Hl Hne. unfold reindex. rewrite Hopen. rsimpl. cbn [nd_log set_fork].
  destruct (open_log _ _ _ _ _ _ Hopen) as (Hc & Hu & Hp & Hlost & _). clear Hopen.
  set (n1 := set_fork (reset (nd_fork n0)) n0).
  assert (replaying (nd_log n0) n1) as Hn1 by done.
  destruct bs as [|b bs']; [done|]. set (bs := b :: bs') in *. rewrite (holds_head _ _ Hl).
  destruct (last bs) as [c|] eqn:Hlast; [|by apply last_None in Hlast].
  assert (block_num (head_block c) = Z.of_nat (length bs)) as Hcn.
  { pose proof Hlast as Hi. rewrite last_lookup in Hi. unfold head_block. rewrite (holds_numbers _ _ Hl _ _ Hi). cbn. lia. }
  unfold reindex_blocks. rewrite n_bind_run. cbn [n_gets fst snd]. change (nd_log n1) with (nd_log n0).
  rewrite n_bind_run. assert (bs !! 0%nat = Some b) as Hb by done.
  pose proof (read_block_next _ _ _ _ Hl Hb) as Hr. change (Z.of_nat (length (layout 0 (take 0 bs)))) with 0 in Hr.
  rewrite Hr. cbn [n_lift fst snd]. rewrite Hcn, n_bind_run.
  assert (length bs ≤ 1 + length (block_file (nd_log n0)))%nat as Hfuel.
  { rewrite (holds_blocks _ _ Hl). pose proof (length_layout_ge 0 bs). lia. }
  pose proof (replay_run _ _ _ _ _ n1 Hl Hn1 Hb Hfuel) as Hrep. cbn zeta in Hrep. rewrite drop_0 in Hrep.
  change (nd_db n1) with (nd_db n0) in Hrep.
  destruct (for_each bs (_apply_block reindex_skip) (nd_db n0)) as [[u s]|e]; [|by rewrite Hrep].
  destruct (replay _ _ _ n1) as [r n2]. cbn [fst snd] in *. destruct Hrep as (-> & Edb & _ & Hu2 & Hl2 & _).
  rewrite n_bind_run. cbn [n_gets fst snd]. rewrite n_bind_run. unfold set_revision. rewrite Hu2. cbn [fst snd].
  rewrite (proj2 (Z.eqb_neq _ _)) by (cbn; lia). cbn [negb n_when n_modify fst snd].
  eexists. split; [reflexivity|]. cbn. rewrite <- Edb. split_and!; [done..|].
  unfold item_at, start_block, insert_item, set_head. cbn. by rewrite lookup_app_r, Nat.sub_diag by lia.
Qed.
End theorems.

(** ** The theorems on a node that has switched forks *)
#[local] Existing Instance fc_model.
#[local] Existing Instances boost_model no_patches crypto_model no_mining no_plugins no_plugins_laws.
#[local] Existing Instance all_torn.

(** Packing of the two blocks that the log of this node has. *)
Definition log_blocks : list signed_block := [fork_1; fork_2].
Definition block_code (b : signed_block) : Z := bh_timestamp (head_block b) - STEEMIT_GENESIS_TIME.
#[refine] Definition two_blocks : Packing := {|
  pack_block b := [block_code b];
  unpack_block bytes :=
    match bytes with
    | x :: rest => if x =? block_code fork_1 then Ok (fork_1, rest) else Ok (fork_2, rest)
    | [] => Throw (logic_error "read past the end")
    end;
  packable b := b = fork_1 ∨ b = fork_2 |}.
Proof. by intros b rest [->| ->]. Defined.
#[local] Existing Instance two_blocks.


Lemma node_1_based : based node_1 (genesis 1000).
Proof.
  assert (settled node_1 = [nd_db node_1; genesis 1000]) as Es by (vm_compute; reflexivity).
  unfold based. rewrite Es. assert (settled_revision node_1 = 0 + 1) as -> by (vm_compute; reflexivity). split.
  - apply chained_cons.
    + exists skip_nothing, made_1. vm_compute. reflexivity.
    + split_and!; vm_compute; first [reflexivity|discriminate].
    + apply chained_one. split_and!; vm_compute; first [reflexivity|discriminate].
  - intros s [->|Hs]%elem_of_cons; [vm_compute; discriminate|]. apply list_elem_of_singleton in Hs as ->. vm_compute. discriminate.
Qed.
Lemma reopen_at_final_witness :
  node_open (Some (close node_1)) [] [] ∅ 0 = Ok (Node (genesis 1000) [] 0 empty_fork_database empty_log [] false [] ∅ false).
Proof.
  rewrite (reopen_at_final node_1 (genesis 1000) [] [] ∅ 0 node_1_based). vm_compute. reflexivity.
Defined.

Definition replayed : node :=
  match node_open None (layout 0 log_blocks) [] ∅ 0 with Ok n => n | Throw _ => genesis_node end.
Lemma replayed_holds : holds (nd_log replayed) log_blocks.
Proof.
  split; [vm_compute; reflexivity..| | |vm_compute; reflexivity|vm_compute; reflexivity].
  - intros [|[|i]] b Hb; [injection Hb as <-; vm_compute; reflexivity..|done].
  - constructor; [by left|]. constructor; [by right|]. constructor.
Qed.
Lemma reindex_replays_witness :
  ∃ n, reindex (layout 0 log_blocks) [] ∅ = Ok n ∧ nd_revision n = 2.
Proof.
  pose proof (reindex_replays (layout 0 log_blocks) [] replayed log_blocks) as H.
  destruct (for_each log_blocks (_apply_block reindex_skip) (nd_db replayed)) as [[u db]|e] eqn:Hrun.
  - destruct H as (n & Hn & _ & _ & _ & Hr & _); [vm_compute; reflexivity|apply replayed_holds|done|].
    exists n. split; [exact Hn|]. rewrite Hr.
    replace db with (state_of (for_each log_blocks (_apply_block reindex_skip) (nd_db replayed))) by by rewrite Hrun.
    vm_compute. reflexivity.
  - exfalso. cut (is_ok (for_each log_blocks (_apply_block reindex_skip) (nd_db replayed)) = true); [by rewrite Hrun|].
    vm_compute. reflexivity.
Defined.
