(* ===== verification/WitnessPlugin.v ===== *)
(** * The witness plugin

    plugins/witness: the limit on the bandwidth of an account, the checks of the
    operations that a node takes from its users, and the production of blocks.
    The objects of the plugin are in tables of its own, the record [limits]; the
    chain state is only read.

    Parameters are the parser of private keys and the hash of a text.  Not
    modelled: the command line, the timer that calls the production loop, the
    messages and the broadcast of a produced block. *)
From S2P Require Import Prelude Fc Config Asset Chainbase ChainbaseSpec Objects Protocol BlockHeader Database.
From S2P Require Import Supply Votes Ledger Rewards Comments Cashout Genesis Transfers Market Inflation Escrow.
From S2P Require Import EscrowSpec Vesting Frames Proxies Delegations Accounts WitnessSchedule Soundness Hardforks.
From S2P Require Import SignState Mining Operations Transactions Block BlockSafety Frontier BlockRules ForkDatabase BlockLog.
From S2P Require Import Names Node NodeSafety.

Inductive bandwidth_type : Type := post | forum | market.
#[export] Instance bandwidth_type_eq_dec : EqDecision bandwidth_type.
Proof. solve_decision. Defined.
#[export] Instance bandwidth_type_countable : Countable bandwidth_type.
Proof.
  refine (inj_countable' (λ t, match t with post => 0 | forum => 1 | market => 2 end)
    (λ n, if n =? 0 then post else if n =? 1 then forum else market) _).
  by intros [].
Defined.

Record account_bandwidth_object := AccountBandwidth {
  ab_average_bandwidth : Z; ab_lifetime_bandwidth : Z; ab_last_bandwidth_update : Z }.
Record reserve_ratio_object := ReserveRatio {
  average_block_size : Z; current_reserve_ratio : Z; max_virtual_bandwidth : Z }.
(** The tables of the plugin, by their unique keys. *)
Record limits := Limits {
  account_bandwidths : gmap (string * bandwidth_type) account_bandwidth_object;
  content_edit_locks : gmap string Z;
  reserve_ratio : option reserve_ratio_object }.
Definition set_bandwidths (m : gmap (string * bandwidth_type) account_bandwidth_object) (s : limits) : limits :=
  Limits m (content_edit_locks s) (reserve_ratio s).
Definition set_edit_locks (m : gmap string Z) (s : limits) : limits := Limits (account_bandwidths s) m (reserve_ratio s).
Definition set_reserve_ratio (r : reserve_ratio_object) (s : limits) : limits :=
  Limits (account_bandwidths s) (content_edit_locks s) (Some r).

Definition STEEMIT_BANDWIDTH_AVERAGE_WINDOW_SECONDS : Z := 60 * 60 * 24 * 7.
Definition STEEMIT_BANDWIDTH_PRECISION : Z := 1000000.
Definition STEEMIT_MAX_RESERVE_RATIO : Z := 20000.
Definition STEEMIT_SOFT_MAX_COMMENT_DEPTH : Z := 255.
Definition RESERVE_RATIO_PRECISION : Z := 10000.
Definition RESERVE_RATIO_MIN_INCREMENT : Z := 5000.
Definition DISTANCE_CALC_PRECISION : Z := 10000.
(** The value of an [int]. *)
Definition to_int32 (x : Z) : Z := (x + 2 ^ 31) mod U32 - 2 ^ 31.

Section limits.
Context {F : Fc} {B : Boost} {D : DiffMatchPatch} {K : Crypto} {E : Equihash} {P : Plugins}.

(** ** The reserve ratio *)

(** The object that the first block creates: the product of the two constants is
    one of 32-bit integers. *)
Definition initial_reserve : result reserve_ratio_object :=
  max ← u128_div
          (u128_mul (u128_mul (u128_of_int64 (to_int32 (STEEMIT_MAX_BLOCK_SIZE * STEEMIT_MAX_RESERVE_RATIO)))
                      STEEMIT_BANDWIDTH_PRECISION)
             STEEMIT_BANDWIDTH_AVERAGE_WINDOW_SECONDS)
          STEEMIT_BLOCK_INTERVAL;
  mret (ReserveRatio 0 (STEEMIT_MAX_RESERVE_RATIO * RESERVE_RATIO_PRECISION) max).

(** How far the average block is from a quarter of the largest one. *)
Definition usage_distance (average max_block_size : Z) : result Z :=
  let quarter := Z.quot max_block_size 4 in
  if quarter =? 0 then Throw divide_by_zero_exception
  else Ok (Z.quot (to_int64 ((average - quarter) * DISTANCE_CALC_PRECISION)) quarter).
Definition adjust_ratio (ratio distance : Z) : Z :=
  if 0 <? distance then
    let r := to_int64 (ratio - Z.quot (to_int64 (ratio * distance)) (distance + DISTANCE_CALC_PRECISION)) in
    if r <? RESERVE_RATIO_PRECISION then RESERVE_RATIO_PRECISION else r
  else
    let r := to_int64 (ratio + Z.max RESERVE_RATIO_MIN_INCREMENT
                                 (Z.quot (to_int64 (ratio * distance)) (distance - DISTANCE_CALC_PRECISION))) in
    if STEEMIT_MAX_RESERVE_RATIO * RESERVE_RATIO_PRECISION <? r
    then STEEMIT_MAX_RESERVE_RATIO * RESERVE_RATIO_PRECISION else r.
Definition next_reserve (num max_block_size block_size : Z) (r : reserve_ratio_object) : result reserve_ratio_object :=
  let average := to_int32 (to_uint64 (to_int32 (99 * average_block_size r) + block_size) / 100) in
  if num mod 20 =? 0 then
    distance ← usage_distance average max_block_size;
    let ratio := adjust_ratio (current_reserve_ratio r) distance in
    max ← u128_div
            (u128_mul (u128_mul (u128_of_int64 max_block_size) (u128_of_int64 ratio))
               (u128_of_int64 (STEEMIT_BANDWIDTH_PRECISION * STEEMIT_BANDWIDTH_AVERAGE_WINDOW_SECONDS)))
            (STEEMIT_BLOCK_INTERVAL * RESERVE_RATIO_PRECISION);
    mret (ReserveRatio average ratio max)
  else mret (ReserveRatio average (current_reserve_ratio r) (max_virtual_bandwidth r)).
Definition on_block (db : database) (b : signed_block) : M limits unit :=
  r ← gets reserve_ratio;
  r' ← lift (match r with
             | None => initial_reserve
             | Some r => next_reserve (gpo_head_block_number (db_gpo db)) (gpo_maximum_block_size (db_gpo db)) (pack_size b) r
             end);
  update (set_reserve_ratio r').

(** ** Bandwidth *)
Definition no_bandwidth : account_bandwidth_object := AccountBandwidth 0 0 0.
(** The average decays over the window. *)
Definition decayed (band : account_bandwidth_object) (now : Z) : result Z :=
  let delta_time := now - ab_last_bandwidth_update band in
  if STEEMIT_BANDWIDTH_AVERAGE_WINDOW_SECONDS <? delta_time then Ok 0
  else
    x ← u128_div (u128_mul (u128_of_int64 (STEEMIT_BANDWIDTH_AVERAGE_WINDOW_SECONDS - delta_time))
                    (u128_of_int64 (ab_average_bandwidth band)))
          STEEMIT_BANDWIDTH_AVERAGE_WINDOW_SECONDS;
    x ← u128_to_uint64 x;
    mret (to_int64 x).
Definition charge (now trx_size : Z) (band : account_bandwidth_object) : result account_bandwidth_object :=
  let trx_bandwidth := to_int64 (to_uint64 (trx_size * STEEMIT_BANDWIDTH_PRECISION)) in
  old ← decayed band now;
  new_bandwidth ← safe_add old trx_bandwidth;
  lifetime ← safe_add (ab_lifetime_bandwidth band) trx_bandwidth;
  mret (AccountBandwidth new_bandwidth lifetime now).
Definition has_bandwidth (db : database) (a : account_object) (r : reserve_ratio_object)
    (band : account_bandwidth_object) : result bool :=
  shares ← effective_vesting_shares a;
  mret (u128_mul (u128_of_int64 (ab_average_bandwidth band)) (u128_of_int64 (amount (gpo_total_vesting_shares (db_gpo db))))
        <? u128_mul (u128_of_int64 (amount shares)) (max_virtual_bandwidth r)).
Definition update_account_bandwidth (db : database) (a : account_object) (trx_size : Z) (type : bandwidth_type)
    : M limits unit :=
  if 0 <? amount (gpo_total_vesting_shares (db_gpo db)) then
    bands ← gets account_bandwidths;
    let band := default no_bandwidth (bands !! (acc_name a, type)) in
    band' ← lift (charge (gpo_time (db_gpo db)) trx_size band);
    update (set_bandwidths (<[(acc_name a, type) := band']> bands));;
    r ← gets reserve_ratio;
    r ← lift (match r with Some r => Ok r | None => Throw out_of_range end);
    ok ← lift (has_bandwidth db a r band');
    if is_producing && negb ok then throw plugin_exception else mret tt
  else mret tt.

Definition is_market_operation (op : operation) : bool :=
  match op with
  | op_limit_order_create _ | op_limit_order_cancel _ | op_transfer _ | op_transfer_to_vesting _ => true
  | _ => false
  end.
Definition account_of (db : database) (name : string) : result account_object :=
  x ← get_account name db; mret x.1.
Definition charge_account (db : database) (trx : signed_transaction) (auth : string) : M limits unit :=
  let trx_size := pack_size trx in
  acnt ← lift (account_of db auth);
  update_account_bandwidth db acnt (to_uint32 trx_size) forum;;
  when (existsb is_market_operation (tx_operations (st_trx trx)))
    (update_account_bandwidth db acnt (to_uint32 (trx_size * 10)) market).
Definition pre_transaction (db : database) (trx : signed_transaction) : M limits unit :=
  let r := get_required_authorities (tx_operations (st_trx trx)) in
  for_each (sort_by String.leb (elements (req_active r ∪ req_owner r ∪ req_posting r))) (charge_account db trx).

(** ** The checks of operations *)
Context (from_base58 : string → option string).

(** The keys that the memo may be, or be the password of. *)
Definition memo_keys (name memo : string) : list string :=
  let derived role := public_key_of (private_key_regenerate (sha256_hash (name +:+ role +:+ memo))) in
  match from_base58 memo with Some k => [k] | None => [] end
  ++ [derived "owner"; derived "active"; derived "posting"]%string.
Definition check_memo (memo : string) (account : account_object) (auth : account_authority_object) : result unit :=
  let keys := memo_keys (acc_name account) memo in
  let check (known : list string) : result unit :=
    if forallb (λ k, negb (bool_decide (k ∈ keys))) known then mret tt else Throw plugin_exception in
  check (fst <$> key_auths (aa_owner auth));;
  check (fst <$> key_auths (aa_active auth));;
  check (fst <$> key_auths (aa_posting auth));;
  check [acc_memo_key account].
Definition check_transfer_memo (db : database) (from memo : string) : result unit :=
  if (0 <? String.length memo)%nat then
    account ← account_of db from;
    auth ← get_authority from db;
    check_memo memo account auth.1
  else mret tt.
Definition check_comment (s : limits) (db : database) (o : comment_operation) : result unit :=
  (if bool_decide (cm_parent_author o = STEEMIT_ROOT_POST_PARENT) then mret tt
   else
     match find_row (by_permlink (cm_parent_author o) (cm_parent_permlink o)) db with
     | Some parent => if com_depth parent <? STEEMIT_SOFT_MAX_COMMENT_DEPTH then mret tt else Throw plugin_exception
     | None => mret tt
     end);;
  match find_row (by_permlink (cm_author o) (cm_permlink o)) db with
  | Some c =>
      if com_cashout_time c =? time_max then
        match content_edit_locks s !! cm_author o with
        | Some lock_time => if gpo_time (db_gpo db) <? lock_time then mret tt else Throw plugin_exception
        | None => Throw plugin_exception
        end
      else mret tt
  | None => mret tt
  end.
Definition check_operation (s : limits) (db : database) (op : operation) : result unit :=
  match op with
  | op_comment_options o =>
      get_comment (co_author o) (co_permlink o) db;;
      if forallb (λ e, (length (cpb_beneficiaries e) <=? 8)%nat) (co_extensions o) then mret tt else Throw plugin_exception
  | op_comment o => check_comment s db o
  | op_transfer o => check_transfer_memo db (tr_from o) (tr_memo o)
  | op_transfer_to_savings o => check_transfer_memo db (tts_from o) (tts_memo o)
  | op_transfer_from_savings o => check_transfer_memo db (tfs_from o) (tfs_memo o)
  | _ => mret tt
  end.
Definition pre_operation (s : limits) (db : database) (op : operation) : result unit :=
  if is_producing then check_operation s db op else mret tt.

(** ** [enable_content_editing] *)
Record enable_content_editing_operation := EnableContentEditing { ece_account : string; ece_relock_time : Z }.
Definition enable_content_editing_validate (o : enable_content_editing_operation) : result unit :=
  validate_account_name (ece_account o).
Definition enable_content_editing_evaluator (o : enable_content_editing_operation) : M limits unit :=
  update (λ s, set_edit_locks (<[ece_account o := ece_relock_time o]> (content_edit_locks s)) s).
End limits.

(** ** Production *)
Inductive block_production_condition : Type :=
| produced | not_synced | not_my_turn | not_time_yet | no_private_key | low_participation | lag | consecutive
| wait_for_genesis | exception_producing_block.

Section production.
Context {F : Fc} {B : Boost} {D : DiffMatchPatch} {K : Crypto} {E : Equihash} {P : Plugins} {T : Torn} {PK : Packing}.

Record producer := Producer {
  pr_enabled : bool; pr_witnesses : gset string; pr_private_keys : gmap string private_key;
  pr_required_participation : Z; pr_skip_flags : Z }.
Definition set_enabled (b : bool) (w : producer) : producer :=
  Producer b (pr_witnesses w) (pr_private_keys w) (pr_required_participation w) (pr_skip_flags w).

(** The block to produce, or why there is none. *)
Record duty := Duty { du_time : Z; du_witness : string; du_key : private_key }.
(** The checks of [maybe_produce_block], at the second [now]. *)
Definition find_duty (w : producer) (now : Z) (n : node) : result (block_production_condition + duty) :=
  let db := nd_db n in
  let slot := get_slot_at_time now db in
  if slot =? 0 then mret (inl not_time_yet)
  else
    scheduled_witness ← get_scheduled_witness slot db;
    if negb (bool_decide (scheduled_witness ∈ pr_witnesses w)) then mret (inl not_my_turn)
    else
      match find_row (witness_by_name scheduled_witness) db with
      | None => Throw out_of_range
      | Some itr =>
          let scheduled_time := get_slot_time slot db in
          match pr_private_keys w !! wit_signing_key itr with
          | None => mret (inl no_private_key)
          | Some key =>
              if witness_participation_rate n <? pr_required_participation w then mret (inl low_participation)
              else if 500000 <? Z.abs ((scheduled_time - now) * 1000000) then mret (inl lag)
              else mret (inr (Duty scheduled_time scheduled_witness key))
          end
      end.
(** Two attempts; the pending transactions are dropped after each that fails. *)
Fixpoint try_produce (retries : nat) (d : duty) (skip : Z) : N block_production_condition :=
  match retries with
  | O => mret exception_producing_block
  | S retries' =>
      n_try (generate_block (du_time d) (du_witness d) (du_key d) skip;; mret produced)
        (λ _, n_modify clear_pending;; try_produce retries' d skip)
  end.
(** [now_fine] in microseconds; the result has the flag that production is
    enabled, which stays when the node is synced once. *)
Definition maybe_produce_block (w : producer) (now_fine : Z) : N (block_production_condition * producer) :=
  let now := to_uint32 ((now_fine + 500000) / 1000000) in
  first ← n_gets (λ n, get_slot_time 1 (nd_db n));
  if negb (pr_enabled w) && (first <? now) then mret (not_synced, w)
  else
    let w := set_enabled true w in
    n ← n_gets id;
    r ← n_lift (find_duty w now n);
    match r with
    | inl c => mret (c, w)
    | inr d => c ← try_produce 2 d (pr_skip_flags w); mret (c, w)
    end.
(** What it throws is thrown after production was enabled; [out_of_range] is not
    one of the exceptions that the loop catches. *)
Definition block_production_loop (w : producer) (now_fine : Z) : N (block_production_condition * producer) :=
  if now_fine <? STEEMIT_GENESIS_TIME * 1000000 then mret (wait_for_genesis, w)
  else
    n_try (maybe_produce_block w now_fine)
      (λ e, match e with
            | unknown_hardfork_exception | out_of_range => n_throw e
            | _ => mret (exception_producing_block, set_enabled true w)
            end).
(** The microseconds that the timer waits. *)
Definition time_to_next_second (now_fine : Z) : Z :=
  let t := 1000000 - Z.rem now_fine 1000000 in
  if t <? 50000 then t + 1000000 else t.
(** The producer that starts, and whether there is one. *)
Definition plugin_startup (w : producer) : producer * bool :=
  if bool_decide (pr_witnesses w = ∅) then (w, false)
  else if pr_enabled w then
    (Producer true (pr_witnesses w) (pr_private_keys w) (pr_required_participation w)
       (Z.lor (pr_skip_flags w) skip_undo_history_check), true)
  else (w, true).
End production.

(** ** The reserve ratio stays in its range *)
Section ratio.
Context {F : Fc}.

Definition ratio_ok (ratio : Z) : Prop :=
  RESERVE_RATIO_PRECISION ≤ ratio ≤ STEEMIT_MAX_RESERVE_RATIO * RESERVE_RATIO_PRECISION.
Definition largest_average : Z := 21000000.
Definition reserve_ok (r : reserve_ratio_object) : Prop :=
  ratio_ok (current_reserve_ratio r) ∧ 0 ≤ average_block_size r ≤ largest_average.

Lemma quot_share ratio d : 0 ≤ ratio → 0 < d → 0 ≤ Z.quot (ratio * d) (d + DISTANCE_CALC_PRECISION) ≤ ratio.
Proof.
  unfold DISTANCE_CALC_PRECISION. intros Hr Hd. rewrite Z.quot_div_nonneg by nia.
  split; [apply Z.div_pos; nia|]. apply Z.div_le_upper_bound; nia.
Qed.
Lemma quot_share_neg ratio d : 0 ≤ ratio → - DISTANCE_CALC_PRECISION ≤ d ≤ 0 →
  0 ≤ Z.quot (ratio * d) (d - DISTANCE_CALC_PRECISION) ≤ ratio.
Proof.
  unfold DISTANCE_CALC_PRECISION. intros Hr Hd.
  replace (ratio * d) with (- (ratio * - d)) by lia. replace (d - 10000) with (- (- d + 10000)) by lia.
  rewrite Z.quot_opp_opp by lia. rewrite Z.quot_div_nonneg by nia.
  split; [apply Z.div_pos; nia|]. apply Z.div_le_upper_bound; nia.
Qed.
Definition distance_ok (d : Z) : Prop := - DISTANCE_CALC_PRECISION ≤ d ≤ 20000000.
Lemma usage_distance_ok average max_block_size :
  0 ≤ average ≤ largest_average → 65536 ≤ max_block_size < U32 →
  ∃ d, usage_distance average max_block_size = Ok d ∧ distance_ok d ∧
    (0 < d → Z.quot max_block_size 4 < average) ∧ (Z.quot max_block_size 4 < average → 0 ≤ d).
Proof.
  unfold largest_average, U32, usage_distance, distance_ok, DISTANCE_CALC_PRECISION. intros Ha Hm.
  change (2 ^ 32) with 4294967296 in Hm. rewrite Z.quot_div_nonneg by lia.
  set (q := max_block_size / 4). assert (16384 ≤ q) as Hq by (apply Z.div_le_lower_bound; lia).
  assert (q ≤ 1073741824) as Hq' by (apply Z.div_le_upper_bound; lia).
  rewrite (proj2 (Z.eqb_neq _ _)) by lia. eexists. split; [reflexivity|].
  rewrite to_int64_id by (unfold INT64_MIN, INT64_MAX; lia).
  destruct (Z.lt_ge_cases q average) as [Hlt|Hge].
  - rewrite Z.quot_div_nonneg by nia. split_and!; [| |lia|intros _; apply Z.div_pos; nia].
    + pose proof (Z.div_pos ((average - q) * 10000) q). nia.
    + apply Z.div_le_upper_bound; nia.
  - replace ((average - q) * 10000) with (- ((q - average) * 10000)) by lia. rewrite Z.quot_opp_l by lia.
    rewrite Z.quot_div_nonneg by nia. pose proof (Z.div_pos ((q - average) * 10000) q ltac:(nia) ltac:(lia)).
    assert ((q - average) * 10000 / q ≤ 10000) by (apply Z.div_le_upper_bound; nia).
    split_and!; [lia|lia|lia|lia].
Qed.
Lemma adjust_ratio_ok ratio d : ratio_ok ratio → distance_ok d →
  ratio_ok (adjust_ratio ratio d) ∧ if 0 <? d then adjust_ratio ratio d ≤ ratio else ratio ≤ adjust_ratio ratio d.
Proof.
  unfold ratio_ok, distance_ok, adjust_ratio, STEEMIT_MAX_RESERVE_RATIO, RESERVE_RATIO_PRECISION, RESERVE_RATIO_MIN_INCREMENT.
  intros Hr Hd. assert (INT64_MIN = - 9223372036854775808 ∧ INT64_MAX = 9223372036854775807) as [E1 E2] by done.
  destruct (0 <? d) eqn:E.
  - rewrite (to_int64_id (ratio * d)) by (rewrite E1, E2; unfold DISTANCE_CALC_PRECISION in Hd; nia).
    pose proof (quot_share ratio d ltac:(lia) ltac:(lia)). rewrite to_int64_id by lia.
    destruct (_ <? 10000) eqn:E3; lia.
  - rewrite (to_int64_id (ratio * d)) by (rewrite E1, E2; unfold DISTANCE_CALC_PRECISION in Hd; nia).
    pose proof (quot_share_neg ratio d ltac:(lia) ltac:(lia)). rewrite to_int64_id by lia.
    destruct (20000 * 10000 <? _) eqn:E3; lia.
Qed.
Lemma next_average average size :
  0 ≤ average ≤ largest_average → 0 ≤ size ≤ largest_average →
  to_int32 (to_uint64 (to_int32 (99 * average) + size) / 100) = (99 * average + size) / 100 ∧
  0 ≤ (99 * average + size) / 100 ≤ largest_average.
Proof.
  unfold largest_average, to_int32, to_uint64, U32, U64. change (2 ^ 31) with 2147483648. change (2 ^ 32) with 4294967296.
  intros Ha Hs. rewrite (Z.mod_small (99 * average + _)) by lia.
  replace (99 * average + 2147483648 - 2147483648) with (99 * average) by lia.
  rewrite (Z.mod_small _ (2 ^ 64)) by (change (2 ^ 64) with 18446744073709551616; lia).
  assert (0 ≤ (99 * average + size) / 100 ≤ 21000000) as Hb
    by (split; [apply Z.div_pos; lia|apply Z.div_le_upper_bound; lia]).
  rewrite Z.mod_small by lia. lia.
Qed.
End ratio.

(** ** Bandwidth is shared by stake *)
Section bandwidth.
Context {F : Fc} {B : Boost} {D : DiffMatchPatch} {K : Crypto} {E : Equihash} {P : Plugins}.

Definition band_ok (now : Z) (band : account_bandwidth_object) : Prop :=
  0 ≤ ab_average_bandwidth band ≤ INT64_MAX ∧ ab_last_bandwidth_update band ≤ now.
Definition limits_ok (db : database) (s : limits) : Prop :=
  ∀ k band, account_bandwidths s !! k = Some band → band_ok (gpo_time (db_gpo db)) band.

Lemma decayed_ok band now x : band_ok now band → decayed band now = Ok x → 0 ≤ x ≤ ab_average_bandwidth band.
Proof.
  unfold decayed, band_ok. intros [Ha Hl]. destruct (_ <? _) eqn:Ew; [intros [= <-]; lia|].
  set (w := STEEMIT_BANDWIDTH_AVERAGE_WINDOW_SECONDS) in *. assert (w = 604800) as Hw by done. clearbody w. subst w.
  rewrite u128_mul_int64 by (unfold INT64_MAX in *; lia).
  rewrite u128_div_spec by done. rsimpl. intros (y & Hy & [= <-])%rbind_ok.
  set (v := (604800 - (now - ab_last_bandwidth_update band)) * ab_average_bandwidth band / 604800) in *.
  assert (0 ≤ v ≤ ab_average_bandwidth band) as Hv by (split; [apply Z.div_pos; nia|apply Z.div_le_upper_bound; nia]).
  apply u128_to_uint64_ok in Hy as [-> _]; [|lia]. rewrite to_int64_id; [done|]. unfold INT64_MIN, INT64_MAX in *. lia.
Qed.
Lemma charge_ok now size band band' :
  0 ≤ size < U32 → band_ok now band → charge now size band = Ok band' → band_ok now band'.
Proof.
  unfold charge. intros Hs Hb (old & Ho & H)%rbind_ok. apply rbind_ok in H as (x & Hx & H).
  apply rbind_ok in H as (l & _ & [= <-]). apply decayed_ok in Ho; [|done].
  assert (to_int64 (to_uint64 (size * STEEMIT_BANDWIDTH_PRECISION)) = size * 1000000) as Et.
  { unfold STEEMIT_BANDWIDTH_PRECISION, to_uint64, U64, U32 in *. change (2 ^ 32) with 4294967296 in Hs.
    change (2 ^ 64) with 18446744073709551616. rewrite Z.mod_small by lia.
    apply to_int64_id. unfold INT64_MIN, INT64_MAX. lia. }
  rewrite Et in Hx. apply safe_add_ok in Hx as [-> Hr]. unfold in_int64 in Hr. split; cbn; lia.
Qed.

(** The average of the account is below its share of the bandwidth. *)
Definition within_stake (db : database) (s : limits) (name : string) (type : bandwidth_type) : Prop :=
  ∃ a shares band r, account_of db name = Ok a ∧ effective_vesting_shares a = Ok shares ∧
    account_bandwidths s !! (acc_name a, type) = Some band ∧ reserve_ratio s = Some r ∧
    (0 ≤ amount shares ≤ INT64_MAX → 0 ≤ max_virtual_bandwidth r < U128 →
     ab_average_bandwidth band * amount (gpo_total_vesting_shares (db_gpo db))
       < amount shares * max_virtual_bandwidth r).
Lemma has_bandwidth_stake db a r band :
  0 < amount (gpo_total_vesting_shares (db_gpo db)) ≤ INT64_MAX → 0 ≤ ab_average_bandwidth band ≤ INT64_MAX →
  has_bandwidth db a r band = Ok true →
  ∃ shares, effective_vesting_shares a = Ok shares ∧
    (0 ≤ amount shares ≤ INT64_MAX → 0 ≤ max_virtual_bandwidth r < U128 →
     ab_average_bandwidth band * amount (gpo_total_vesting_shares (db_gpo db))
       < amount shares * max_virtual_bandwidth r).
Proof.
  intros Ht Ha. unfold has_bandwidth. intros (shares & Hs & [= H])%rbind_ok. exists shares. split; [done|]. intros Hsh Hm.
  rewrite u128_mul_int64 in H by lia. rewrite u128_of_nonneg in H by lia. rewrite u128_mul_spec in H.
  pose proof (Z.mod_le (amount shares * max_virtual_bandwidth r) U128 ltac:(nia) ltac:(done)). lia.
Qed.

Section producing.
Context (db : database) (Hprod : is_producing = true).
Context (Hnow : 0 ≤ gpo_time (db_gpo db)).
Context (Htotal : 0 < amount (gpo_total_vesting_shares (db_gpo db)) ≤ INT64_MAX).

Lemma update_bandwidth_ok a name size type s s' :
  account_of db name = Ok a → 0 ≤ size < U32 → limits_ok db s → 
  update_account_bandwidth db a size type s = Ok (tt, s') →
  limits_ok db s' ∧ within_stake db s' name type ∧ reserve_ratio s' = reserve_ratio s ∧
  ∀ k, k ≠ (acc_name a, type) → account_bandwidths s' !! k = account_bandwidths s !! k.
Proof.
  intros Ha Hsize Hs. unfold update_account_bandwidth. rewrite (proj2 (Z.ltb_lt _ _)) by lia.
  intros (bands & s1 & [= <- <-] & H)%bind_ok. apply bind_ok in H as (band' & s2 & [Hb ->]%lift_ok & H).
  apply bind_ok in H as ([] & s3 & [= <-] & H). apply bind_ok in H as (ro & s4 & [= <- <-] & H).
  apply bind_ok in H as (r & s5 & [Hr ->]%lift_ok & H). apply bind_ok in H as (ok & s6 & [Hok ->]%lift_ok & H).
  rewrite Hprod in H. destruct ok; [|done]. injection H as <-. cbn [reserve_ratio set_bandwidths] in *.
  destruct (reserve_ratio s) as [r0|] eqn:Er; [|done]. injection Hr as ->.
  assert (band_ok (gpo_time (db_gpo db)) band') as Hband.
  { eapply charge_ok; [exact Hsize| |exact Hb]. destruct (account_bandwidths s !! _) as [b0|] eqn:E0; cbn; [by eapply Hs|].
    by split. }
  destruct (has_bandwidth_stake db a r band' Htotal (proj1 Hband) Hok) as (shares & Hsh & Hlt).
  split_and!; [| |done|intros k Hk; cbn; by rewrite lookup_insert_ne].
  - intros k b. cbn. rewrite lookup_insert_Some. intros [[_ <-]|[_ Hk]]; [done|by eapply Hs].
  - exists a, shares, band', r. cbn. rewrite lookup_insert_eq, Er. by split_and!.
Qed.
Lemma account_of_name name a : account_of db name = Ok a → acc_name a = name.
Proof.
  unfold account_of. intros ([x s] & H & [= <-])%rbind_ok. apply get_by_ok in H as [_ [H _]%find_row_Some]. unfold by_name in H. by apply bool_decide_eq_true in H.
Qed.
Lemma within_stake_kept s s' name type :
  within_stake db s name type → reserve_ratio s' = reserve_ratio s →
  account_bandwidths s' !! (name, type) = account_bandwidths s !! (name, type) → within_stake db s' name type.
Proof.
  intros (a & shares & band & r & Ha & Hsh & Hb & Hr & H) Er El. pose proof (account_of_name _ _ Ha) as En.
  rewrite En in Hb. exists a, shares, band, r. rewrite En, El, Er. by split_and!.
Qed.
Lemma charge_account_ok trx name s s' :
  limits_ok db s → charge_account db trx name s = Ok (tt, s') →
  limits_ok db s' ∧ reserve_ratio s' = reserve_ratio s ∧ within_stake db s' name forum ∧
  (existsb is_market_operation (tx_operations (st_trx trx)) = true → within_stake db s' name market) ∧
  ∀ k, k.1 ≠ name → account_bandwidths s' !! k = account_bandwidths s !! k.
Proof.
  assert (∀ x, 0 ≤ to_uint32 x < U32) as Hu by (intros x; apply Z.mod_pos_bound; done).
  intros Hs. unfold charge_account. intros (a & s1 & [Ha ->]%lift_ok & H)%bind_ok.
  apply bind_ok in H as ([] & s1 & H1 & H2). pose proof (account_of_name _ _ Ha) as En.
  destruct (update_bandwidth_ok _ _ _ _ _ _ Ha (Hu _) Hs H1) as (Hs1 & Hw1 & Er1 & Hk1). rewrite En in Hk1.
  assert (∀ (k : string * bandwidth_type) t, k.1 ≠ name → k ≠ (name, t)) as Hne by (intros k t Hk ->; done).
  apply when_ok in H2 as [[Em H2]|[Em ->]]; rewrite Em.
  - destruct (update_bandwidth_ok _ _ _ _ _ _ Ha (Hu _) Hs1 H2) as (Hs2 & Hw2 & Er2 & Hk2). rewrite En in Hk2.
    split_and!; [done|congruence| |done|].
    + eapply within_stake_kept; [exact Hw1|done|by apply Hk2].
    + intros k Hk. rewrite Hk2, Hk1 by by apply Hne. done.
  - split_and!; [done|done|done|done|]. intros k Hk. apply Hk1. by apply Hne.
Qed.
Lemma charge_accounts_ok trx l s s' :
  limits_ok db s → for_each l (charge_account db trx) s = Ok (tt, s') →
  limits_ok db s' ∧ reserve_ratio s' = reserve_ratio s ∧
  (∀ name, name ∈ l → within_stake db s' name forum ∧
     (existsb is_market_operation (tx_operations (st_trx trx)) = true → within_stake db s' name market)) ∧
  ∀ k, k.1 ∉ l → account_bandwidths s' !! k = account_bandwidths s !! k.
Proof.
  revert s. induction l as [|x l IH]; intros s Hs; cbn [for_each].
  - intros [= <-]. split_and!; [done..| |done]. by intros name []%elem_of_nil.
  - intros ([] & s1 & H1 & H)%bind_ok. destruct (charge_account_ok _ _ _ _ Hs H1) as (Hs1 & Er1 & Hf1 & Hm1 & Hk1).
    destruct (IH _ Hs1 H) as (Hs2 & Er2 & Hl2 & Hk2). split_and!; [done|congruence| |].
    + intros name Hname. destruct (decide (name ∈ l)) as [Hin|Hin]; [by apply Hl2|].
      apply elem_of_cons in Hname as [->|]; [|done]. split; [|intros Em; specialize (Hm1 Em)].
      all: eapply within_stake_kept; [eassumption|done|by apply Hk2].
    + intros k. rewrite not_elem_of_cons. intros [Hx Hl]. by rewrite Hk2, Hk1.
Qed.
End producing.
End bandwidth.

(** ** What is produced *)
Section duties.
Context {F : Fc} {B : Boost} {D : DiffMatchPatch} {K : Crypto} {E : Equihash} {P : Plugins} {T : Torn} {PK : Packing}.

Lemma find_duty_ok w now n d :
  find_duty w now n = Ok (inr d) →
  let slot := get_slot_at_time now (nd_db n) in
  slot ≠ 0 ∧ get_scheduled_witness slot (nd_db n) = Ok (du_witness d) ∧ du_witness d ∈ pr_witnesses w ∧
  (∃ itr, find_row (witness_by_name (du_witness d)) (nd_db n) = Some itr ∧
     pr_private_keys w !! wit_signing_key itr = Some (du_key d)) ∧
  du_time d = get_slot_time slot (nd_db n) ∧ du_time d = now ∧
  pr_required_participation w ≤ witness_participation_rate n.
Proof.
  unfold find_duty. cbn zeta. destruct (_ =? 0) eqn:E0; [done|]. intros (wn & Hw & H)%rbind_ok.
  case_bool_decide as Hin; [|done]. cbn [negb] in H. destruct (find_row _ (nd_db n)) as [itr|] eqn:Hr; [|done].
  destruct (pr_private_keys w !! _) as [key|] eqn:Hk; [|done].
  destruct (_ <? pr_required_participation w) eqn:Ep; [done|].
  destruct (500000 <? _) eqn:El; [done|]. injection H as <-. cbn [du_witness du_key du_time].
  split_and!; [lia|done|done|by exists itr|done|lia|lia].
Qed.
Lemma find_duty_not_produced w now n c : find_duty w now n = Ok (inl c) → c ≠ produced ∧ c ≠ exception_producing_block.
Proof.
  unfold find_duty. destruct (_ =? 0); [by intros [= <-]|]. intros (wn & Hw & H)%rbind_ok. revert H.
  repeat case_match; by intros [= <-] || done.
Qed.
Lemma generate_block_header when witness key skip n b n' :
  generate_block when witness key skip n = (Ok b, n') →
  bh_witness (head_block b) = witness ∧ bh_timestamp (head_block b) = when ∧
  (skips skip skip_witness_signature = false → validate_signee (sb_header b) (public_key_of key) = Ok true).
Proof.
  intros H. do 5 apply n_bind_ok in H as (? & ? & _ & H). apply n_bind_ok in H as (? & ? & _ & H).
  apply n_bind_ok in H as (? & ? & _ & Hret). injection Hret as <- _.
  unfold head_block. cbn [sb_header]. destruct (skips skip skip_witness_signature); [done|].
  split_and!; [done..|]. intros _. apply validate_signed.
Qed.
Lemma try_produce_ok retries d skip n c n' :
  try_produce retries d skip n = (Ok c, n') →
  (c = produced ∧ ∃ n0 b, generate_block (du_time d) (du_witness d) (du_key d) skip n0 = (Ok b, n')) ∨
  c = exception_producing_block.
Proof.
  revert n. induction retries as [|k IH]; intros n; cbn [try_produce]; [intros [= <- _]; by right|].
  unfold n_try. rewrite n_bind_run. destruct (generate_block _ _ _ _ n) as [[b|e] n1] eqn:Hg; cbn [fst snd].
  - intros [= <- <-]. left. split; [done|]. by exists n, b.
  - rewrite n_bind_run. cbn [n_modify fst snd]. apply IH.
Qed.
Lemma find_duty_throws w now n e : find_duty w now n = Throw e → e = out_of_range.
Proof.
  unfold find_duty. destruct (_ =? 0); [done|]. unfold get_scheduled_witness. cbn [mbind result_bind].
  repeat (case_match; cbn [mbind result_bind mret result_ret]); by intros [= <-] || done.
Qed.
Lemma try_produce_no_throw retries d skip n : ∃ c, (try_produce retries d skip n).1 = Ok c.
Proof.
  revert n. induction retries as [|k IH]; intros n; cbn [try_produce]; [by eexists|].
  unfold n_try. rewrite n_bind_run. destruct (generate_block _ _ _ _ n) as [[b|e] n1]; cbn [fst snd]; [by eexists|].
  rewrite n_bind_run. cbn [n_modify fst snd]. apply IH.
Qed.
(** A hardfork that the node does not know is caught with the other failures of an
    attempt: the branch of the loop that stops production is not reached. *)
Lemma loop_survives_unknown_hardfork w now_fine n :
  (block_production_loop w now_fine n).1 ≠ Throw unknown_hardfork_exception.
Proof.
  unfold block_production_loop, n_try. destruct (now_fine <? _); [done|].
  assert (∀ e n', maybe_produce_block w now_fine n = (Throw e, n') → e = out_of_range) as Hm.
  { intros e n'. unfold maybe_produce_block. rewrite n_bind_run. cbn [n_gets fst snd].
    destruct (negb (pr_enabled w) && _); [done|]. rewrite n_bind_run. cbn [n_gets fst snd id].
    rewrite n_bind_run. cbn [n_lift fst snd].
    destruct (find_duty (set_enabled true w) _ n) as [[c0|d]|e0] eqn:Hd; [done| |].
    - rewrite n_bind_run. destruct (try_produce_no_throw 2 d (pr_skip_flags (set_enabled true w)) n) as [c ->]. done.
    - intros [= <- _]. by eapply find_duty_throws. }
  destruct (maybe_produce_block w now_fine n) as [[x|e] n'] eqn:Em; [done|]. by rewrite (Hm _ _ eq_refl).
Qed.
(** The timer fires at a second, at least fifty milliseconds from now. *)
Lemma time_to_next_second_ok now_fine : 0 ≤ now_fine →
  (now_fine + time_to_next_second now_fine) mod 1000000 = 0 ∧ 50000 ≤ time_to_next_second now_fine < 1050000.
Proof.
  intros H. unfold time_to_next_second. rewrite Z.rem_mod_nonneg by lia.
  pose proof (Z.mod_pos_bound now_fine 1000000 ltac:(lia)). pose proof (Z.div_mod now_fine 1000000 ltac:(lia)) as Hd.
  case_match; (split; [|lia]); apply Z.mod_divide; try lia.
  - exists (now_fine / 1000000 + 2). lia.
  - exists (now_fine / 1000000 + 1). lia.
Qed.
End duties.

Section theorems.
Context {F : Fc} {B : Boost} {D : DiffMatchPatch} {K : Crypto} {E : Equihash} {P : Plugins} {T : Torn} {PK : Packing}.

(** The reserve ratio stays between one and its largest value, and every
    twentieth block moves it against the use of the chain: down when the average
    block is above a quarter of the largest size, up otherwise; blocks of up to
    21 megabytes keep the average in range. *)
Theorem reserve_ratio_bounds num max_block_size size r :
  reserve_ok r → 65536 ≤ max_block_size < U32 → 0 ≤ size ≤ largest_average →
  ∃ r', next_reserve num max_block_size size r = Ok r' ∧ reserve_ok r' ∧
    average_block_size r' = (99 * average_block_size r + size) / 100 ∧
    (average_block_size r' ≤ max_block_size / 4 → current_reserve_ratio r ≤ current_reserve_ratio r') ∧
    (current_reserve_ratio r' < current_reserve_ratio r → max_block_size / 4 < average_block_size r').
Proof.
  intros [Hr Ha] Hm Hs. unfold next_reserve. destruct (next_average _ _ Ha Hs) as [-> Hav].
  destruct (num mod 20 =? 0).
  - destruct (usage_distance_ok _ _ Hav Hm) as (d & -> & Hd & Hpos & _). rsimpl.
    rewrite u128_div_spec by done. rsimpl. destruct (adjust_ratio_ok _ _ Hr Hd) as [Hok Hdir].
    rewrite Z.quot_div_nonneg in Hpos by lia.
    eexists. split; [reflexivity|]. cbn [average_block_size current_reserve_ratio].
    destruct (0 <? d) eqn:Ed; split_and!; [by split|done|lia|lia|by split|done|lia|lia].
  - eexists. split; [reflexivity|]. cbn [average_block_size current_reserve_ratio]. split_and!; [by split|done|lia|lia].
Qed.

(** C16: a node that takes a transaction from its users has checked, for each
    account that the transaction needs, that its average use of bandwidth is
    below the part of the bandwidth that its stake gives it, for the market as
    well when an operation trades. *)
Theorem bandwidth_within_stake db trx s s' :
  is_producing = true → 0 ≤ gpo_time (db_gpo db) →
  0 < amount (gpo_total_vesting_shares (db_gpo db)) ≤ INT64_MAX → limits_ok db s →
  pre_transaction db trx s = Ok (tt, s') →
  let r := get_required_authorities (tx_operations (st_trx trx)) in
  limits_ok db s' ∧
  ∀ name, name ∈ req_active r ∪ req_owner r ∪ req_posting r →
    within_stake db s' name forum ∧
    (existsb is_market_operation (tx_operations (st_trx trx)) = true → within_stake db s' name market).
Proof.
  intros Hp Hnow Ht Hs H. cbn zeta. destruct (charge_accounts_ok db Hp Hnow Ht _ _ _ _ Hs H) as (Hs' & _ & Hl & _).
  split; [done|]. intros name Hname. apply Hl. unfold sort_by. rewrite merge_sort_Permutation.
  by apply elem_of_elements.
Qed.

(** C15: a block is only produced in a slot of a witness of this node, at its
    time, with the signing key that the chain has for the witness, and while
    enough witnesses take part; it is the block that the node then has generated.
    In every other case but an attempt that failed the node is left alone. *)
Theorem produces_own_slots w now_fine n c w' n' :
  maybe_produce_block w now_fine n = (Ok (c, w'), n') →
  match c with
  | produced =>
      let now := to_uint32 ((now_fine + 500000) / 1000000) in
      let slot := get_slot_at_time now (nd_db n) in
      ∃ witness itr key n0 b, slot ≠ 0 ∧ get_scheduled_witness slot (nd_db n) = Ok witness ∧
        witness ∈ pr_witnesses w ∧ find_row (witness_by_name witness) (nd_db n) = Some itr ∧
        pr_private_keys w !! wit_signing_key itr = Some key ∧ get_slot_time slot (nd_db n) = now ∧
        pr_required_participation w ≤ witness_participation_rate n ∧
        generate_block now witness key (pr_skip_flags w) n0 = (Ok b, n') ∧
        bh_witness (head_block b) = witness ∧ bh_timestamp (head_block b) = now ∧
        (skips (pr_skip_flags w) skip_witness_signature = false →
         validate_signee (sb_header b) (public_key_of key) = Ok true)
  | exception_producing_block => True
  | _ => n' = n
  end.
Proof.
  unfold maybe_produce_block. rewrite n_bind_run. cbn [n_gets fst snd]. set (now := to_uint32 _).
  destruct (negb (pr_enabled w) && _); [by intros [= <- _ <-]|].
  rewrite n_bind_run. cbn [n_gets fst snd id]. rewrite n_bind_run. cbn [n_lift fst snd].
  destruct (find_duty (set_enabled true w) now n) as [[c0|d]|e] eqn:Hd; [|intros H|done].
  - intros [= <- _ <-]. apply find_duty_not_produced in Hd as [H1 H2]. by destruct c0.
  - apply n_bind_ok in H as (c1 & n1 & H & Hret). injection Hret as <- _ <-.
    apply try_produce_ok in H as [[-> (n0 & b & Hg)]| ->]; [|done].
    destruct (find_duty_ok _ _ _ _ Hd) as (Hs & Hw & Hin & (itr & Hr & Hk) & Ht & Hn & Hp).
    destruct (generate_block_header _ _ _ _ _ _ _ Hg) as (Hb1 & Hb2 & Hb3). cbn zeta.
    exists (du_witness d), itr, (du_key d), n0, b. rewrite <- Hn in *. rewrite <- Ht. by split_and!.
Qed.
End theorems.

(** ** The theorems at concrete inputs *)
#[local] Existing Instance fc_model.
#[local] Existing Instances boost_model no_patches crypto_model no_mining packing_model all_torn.

Lemma reserve_ratio_bounds_witness :
  ∃ r', next_reserve 20 65536 50000 (ReserveRatio 50000 20000000 0) = Ok r' ∧ average_block_size r' = 50000 ∧
    current_reserve_ratio r' < 20000000.
Proof.
  destruct (reserve_ratio_bounds 20 65536 50000 (ReserveRatio 50000 20000000 0)) as (r' & H & _ & Ha & _).
  - split; [split; vm_compute; discriminate|]. split; vm_compute; discriminate.
  - split; [lia|done].
  - split; [lia|done].
  - exists r'. split; [exact H|split; [rewrite Ha; vm_compute; reflexivity|]].
    vm_compute in H. injection H as <-. vm_compute. reflexivity.
Defined.

#[local] Existing Instance no_plugins.
Definition init_producer : producer :=
  Producer true {[STEEMIT_INIT_MINER_NAME]} {[STEEMIT_INIT_PUBLIC_KEY := STEEMIT_INIT_PUBLIC_KEY]} 0 skip_nothing.
Definition second_3 : Z := (STEEMIT_GENESIS_TIME + 3) * 1000000.
Definition is_produced (r : result (block_production_condition * producer)) : bool :=
  match r with Ok (produced, _) => true | _ => false end.
Lemma produces_own_slots_witness :
  is_produced (maybe_produce_block init_producer second_3 genesis_node).1 = true ∧
  ∃ witness key n0 b, witness ∈ pr_witnesses init_producer ∧
    generate_block (to_uint32 ((second_3 + 500000) / 1000000)) witness key skip_nothing n0
      = (Ok b, (maybe_produce_block init_producer second_3 genesis_node).2).
Proof.
  assert (is_produced (maybe_produce_block init_producer second_3 genesis_node).1 = true) as E1
    by (vm_compute; reflexivity).
  split; [exact E1|].
  destruct (maybe_produce_block init_producer second_3 genesis_node) as [[[c w']|e] n'] eqn:Em; [|discriminate E1].
  destruct c; try discriminate E1.
  destruct (produces_own_slots init_producer second_3 genesis_node produced w' n' Em)
    as (witness & itr & key & n0 & b & _ & _ & Hw & _ & _ & _ & _ & Hg & _).
  exists witness, key, n0, b. split; [exact Hw|exact Hg].
Defined.

(** The first account of genesis, with a stake. *)
#[local] Instance user_node : Plugins := producing no_plugins.
Definition staked : database :=
  let db := genesis 1000 in
  let db := set_db_gpo (set_gpo_total_vesting_shares (Asset 1000000 VESTS_SYMBOL) (db_gpo db)) db in
  match (a ← get_account STEEMIT_INIT_MINER_NAME;
         modify (acc_id a) (λ a, mret (set_acc_vesting_shares (Asset 1000000 VESTS_SYMBOL) a))) db with
  | Ok (_, db) => db
  | Throw _ => db
  end.
Definition fresh_limits : limits := Limits ∅ ∅ (Some (ReserveRatio 0 20000000 1000000000000)).
Definition user_transaction : signed_transaction :=
  SignedTransaction (Transaction 0 0 (STEEMIT_GENESIS_TIME + 60) [small_transfer] []) [STEEMIT_INIT_PUBLIC_KEY].
Definition charged : limits :=
  match pre_transaction staked user_transaction fresh_limits with Ok (_, s) => s | Throw _ => fresh_limits end.
Lemma bandwidth_within_stake_witness :
  within_stake staked charged STEEMIT_INIT_MINER_NAME forum ∧ within_stake staked charged STEEMIT_INIT_MINER_NAME market.
Proof.
  destruct (bandwidth_within_stake staked user_transaction fresh_limits charged) as [_ H].
  - reflexivity.
  - vm_compute. discriminate.
  - split; vm_compute; first [reflexivity|discriminate].
  - intros k band Hk. exfalso. change ((∅ : gmap (string * bandwidth_type) account_bandwidth_object) !! k = Some band) in Hk.
    by rewrite lookup_empty in Hk.
  - vm_compute. reflexivity.
  - destruct (H STEEMIT_INIT_MINER_NAME) as [H1 H2]; [set_solver|]. split; [exact H1|]. apply H2. reflexivity.
Defined.


(** The product of the first block is one of 32-bit integers and wraps. *)
Example initial_reserve_overflows :
  to_int32 (STEEMIT_MAX_BLOCK_SIZE * STEEMIT_MAX_RESERVE_RATIO) < STEEMIT_MAX_BLOCK_SIZE * STEEMIT_MAX_RESERVE_RATIO.
Proof. vm_compute. reflexivity. Qed.
