(* ===== verification/Sync.v ===== *)
(** * Synchronisation with the network

    The part of [application_impl] (app/application.cpp) that the network calls:
    what the node has, the blocks and transactions that arrive, and the two sides
    of the synchronisation of chains.  A node that asks sends a synopsis of its
    chain, [get_blockchain_synopsis]; the node that answers looks for the last
    block of the synopsis on its own chain and sends the ids from there on,
    [get_block_ids].

    Of net/node.cpp itself, the reply to a synopsis and the check the node that
    asked makes of the ids it gets.

    Parameter is the unpacking of a transaction.  Not modelled: the messages on
    the log and the connections themselves. *)
From S2P Require Import Prelude Fc Config Asset Chainbase ChainbaseSpec Objects Protocol BlockHeader Database.
From S2P Require Import Supply Votes Ledger Rewards Comments Cashout Genesis Transfers Market Inflation Escrow.
From S2P Require Import EscrowSpec Vesting Frames Proxies Delegations Accounts WitnessSchedule Soundness Hardforks.
From S2P Require Import SignState Mining Operations Transactions Block BlockSafety Frontier BlockRules ForkDatabase BlockLog.
From S2P Require Import Names Node NodeSafety.

Definition trx_message_type : Z := 1000.
Definition block_message_type : Z := 1001.
Record item_id := ItemId { item_type : Z; item_hash : string }.
Inductive message : Type :=
| trx_message (trx : signed_transaction)
| block_message (b : signed_block) (block_id : string).
Record application := Application { app_running : bool; app_is_block_producer : bool; app_force_validate : bool }.
Definition allow_future_time : Z := 5.

Section delegate.
Context {F : Fc} {B : Boost} {D : DiffMatchPatch} {K : Crypto} {E : Equihash} {P : Plugins} {T : Torn} {PK : Packing}.
Context (unpack_transaction : string → result signed_transaction).

Definition has_item (app : application) (id : item_id) : N bool :=
  if negb (app_running app) then mret true
  else if item_type id =? block_message_type then is_known_block (item_hash id)
  else reads (is_known_transaction (item_hash id)).

(** [now] in seconds. *)
Definition handle_block (app : application) (now : Z) (b : signed_block) : N bool :=
  if app_running app then
    n_lift (FC_ASSERT (bh_timestamp (head_block b) <=? now + allow_future_time) "timestamp <= max_accept_time");;
    n_try (push_block (if app_is_block_producer app || app_force_validate app then skip_nothing
                       else skip_transaction_signatures) b)
      (λ e, n_throw (match e with unlinkable_block_exception => net_unlinkable_block_exception | _ => e end))
  else mret false.
Definition handle_transaction (app : application) (trx : signed_transaction) : N unit :=
  if app_running app then push_transaction trx skip_nothing else mret tt.

Definition is_included_block (block_id : string) : N bool :=
  block_id_in_preferred_chain ← get_block_id_for_num (num_from_id block_id);
  mret (bool_decide (block_id = block_id_in_preferred_chain)).

(** ** The answer to a synopsis *)

(** The loop over the reversed synopsis. *)
Fixpoint last_known (synopsis : list string) : N (option string) :=
  match synopsis with
  | [] => mret None
  | id :: rest =>
      found ← (if bool_decide (id = EmptyString) then mret true
               else known ← is_known_block id; if known : bool then is_included_block id else mret false);
      if found : bool then mret (Some id) else last_known rest
  end.
(** The ids of the blocks from [num] on: at most one round per block. *)
Fixpoint ids_from (rounds : nat) (num head limit : Z) (result : list string) : N (list string) :=
  match rounds with
  | O => mret result
  | S rounds' =>
      if (num <=? head) && (Z.of_nat (length result) <? limit) then
        result' ← (if 0 <? num then id ← get_block_id_for_num num; mret (result ++ [id]) else mret result);
        ids_from rounds' (num + 1) head limit result'
      else mret result
  end.
(** The ids and the number of blocks that remain after them. *)
Definition get_block_ids (synopsis : list string) (limit : Z) : N (list string * Z) :=
  head ← n_gets n_head_block_num;
  if head =? 0 then mret ([], 0)
  else
    last_known_block_id ←
      (if bool_decide (synopsis = [] ∨ synopsis = [EmptyString]) then mret EmptyString
       else
         found ← last_known (reverse synopsis);
         match found with
         | Some id => mret id
         | None => n_throw peer_is_on_an_unreachable_fork
         end);
    let first := num_from_id last_known_block_id in
    result ← ids_from (Z.to_nat (head + 1 - first)) first head limit [];
    mret (result, match last result with
                  | Some id => if num_from_id id <? head then head - num_from_id id else 0
                  | None => 0
                  end).

(** ** The two ends of a request for ids (net/node.cpp)

    The node that answers turns the exception for an unreachable fork into an
    empty list, and takes the peer for one in sync when it sends no more than an
    id of the synopsis. *)
Definition synopsis_reply_limit : Z := 2000.
Definition synopsis_reply (synopsis : list string) : N (list string * Z) := λ n,
  match get_block_ids synopsis synopsis_reply_limit n with
  | (Throw peer_is_on_an_unreachable_fork, n') => (Ok ([], 0), n')
  | r => r
  end.
Definition peer_needs_sync_items (synopsis item_hashes_available : list string) : bool :=
  match item_hashes_available with
  | [] => false
  | [item] => negb (bool_decide (synopsis ≠ [] ∧ item ∈ synopsis))
  | _ => true
  end.
(** The node that asked disconnects a peer whose list is not of this form: the
    numbers follow one another, and the first id is one of the synopsis it sent,
    or that of block 1 after an empty synopsis. *)
Fixpoint sequential_ids (expected_num : Z) (item_hashes : list string) : bool :=
  match item_hashes with
  | [] => true
  | item :: rest =>
      (num_from_id item =? to_uint32 expected_num) && sequential_ids (expected_num + 1) rest
  end.
Definition valid_inventory (synopsis_sent_in_request item_hashes_available : list string) : bool :=
  match item_hashes_available with
  | [] => true
  | first_item_hash :: rest =>
      sequential_ids (num_from_id first_item_hash + 1) rest &&
      match synopsis_sent_in_request with
      | [] => num_from_id first_item_hash =? 1
      | _ => bool_decide (first_item_hash ∈ synopsis_sent_in_request)
      end
  end.

Definition get_recent_transaction (trx_id : string) : N signed_transaction :=
  itr ← reads (gets (find_row (λ t, bool_decide (trx_trx_id t = trx_id))));
  match itr with
  | None => n_lift (FC_ASSERT false "itr != index.end()");; n_throw out_of_range
  | Some t => n_lift (unpack_transaction (trx_packed_trx t))
  end.
Definition get_item (id : item_id) : N message :=
  if item_type id =? block_message_type then
    opt_block ← fetch_block_by_id (item_hash id);
    match opt_block with
    | None =>
        (** the id for the message on the log *)
        get_block_id_for_num (num_from_id (item_hash id));;
        n_lift (FC_ASSERT false "opt_block.valid()");; n_throw out_of_range
    | Some b => mret (block_message b (header_id (sb_header b)))
    end
  else trx ← get_recent_transaction (item_hash id); mret (trx_message trx).

(** ** The synopsis *)

(** What the synopsis is made from: the numbers of the last block that cannot be
    undone, of the last block before the fork and of the last block, and the ids
    after the fork. *)
Record segment := Segment {
  seg_low : Z; seg_non_fork_high : Z; seg_high : Z; seg_fork_history : list string }.
Definition last_non_undoable_block_num (n : node) : Z := gpo_last_irreversible_block_num (n_gpo n).
Definition fork_segment (reference_point : string) (low : Z) : N segment :=
  history ← get_block_ids_on_fork reference_point;
  let last_non_fork_block := default EmptyString (last history) in
  let fork_history := reverse (removelast history) in
  let non_fork_high := if bool_decide (last_non_fork_block = EmptyString) then 0 else num_from_id last_non_fork_block in
  let high := to_uint32 (non_fork_high + Z.of_nat (length fork_history)) in
  if non_fork_high <? low then n_throw block_older_than_undo_history
  else mret (Segment low non_fork_high high fork_history).
Definition find_segment (reference_point : string) : N (option segment) :=
  low ← n_gets last_non_undoable_block_num;
  if negb (bool_decide (reference_point = EmptyString)) then
    included ← is_included_block reference_point;
    if included : bool then
      let num := num_from_id reference_point in
      mret (Some (Segment (if num <? low then num else low) num num []))
    else s ← fork_segment reference_point low; mret (Some s)
  else
    high ← n_gets n_head_block_num;
    mret (if high =? 0 then None else Some (Segment low high high [])).

(** Where the id of a block of the synopsis comes from. *)
Definition segment_id (s : segment) (num : Z) : N string :=
  if num <=? seg_non_fork_high s then get_block_id_for_num num
  else
    n_lift (match seg_fork_history s !! Z.to_nat (num - seg_non_fork_high s - 1) with
            | Some id => Ok id
            | None => Throw out_of_range
            end).
Definition next_low (true_high low : Z) : Z := to_uint32 (low + to_uint32 (true_high - low + 2) / 2).
(** The distance to the end halves in each round: 33 rounds are enough. *)
Fixpoint synopsis_loop (rounds : nat) (s : segment) (true_high low : Z) : N (list string) :=
  match rounds with
  | O => n_throw (logic_error "out of rounds")
  | S rounds' =>
      id ← segment_id s low;
      let low' := next_low true_high low in
      if low' <=? seg_high s then rest ← synopsis_loop rounds' s true_high low'; mret (id :: rest)
      else mret [id]
  end.
Definition get_blockchain_synopsis (reference_point : string) (number_of_blocks_after_reference_point : Z)
    : N (list string) :=
  found ← find_segment reference_point;
  match found with
  | None => mret []
  | Some s =>
      let low := if seg_low s =? 0 then 1 else seg_low s in
      synopsis_loop 33 s (to_uint32 (seg_high s + number_of_blocks_after_reference_point)) low
  end.

Definition get_block_number (block_id : string) : Z := num_from_id block_id.
Definition get_block_time (block_id : string) : N Z :=
  opt_block ← fetch_block_by_id block_id;
  mret (match opt_block with Some b => bh_timestamp (head_block b) | None => 0 end).
Definition get_head_block_id (n : node) : string := n_head_block_id n.
End delegate.

(** ** The ids of recent blocks

    A block records its id under the lower 16 bits of its number. *)
Section recent.
Context {F : Fc} {B : Boost} {D : DiffMatchPatch} {K : Crypto} {E : Equihash} {P : Plugins} {PL : PluginLaws}.
Context {T : Torn} {PK : Packing}.

(** The blocks [bs], applied one after the other. *)
Inductive blocks_applied (s : database) : list signed_block → database → Prop :=
| applied_none : blocks_applied s [] s
| applied_next bs b skip s1 s2 :
    blocks_applied s bs s1 → _apply_block skip b s1 = Ok (tt, s2) → blocks_applied s (bs ++ [b]) s2.

Lemma land_u16 n : 0 ≤ n → Z.land n 65535 = n mod 65536.
Proof. intros Hn. change 65535 with (Z.ones 16). by rewrite Z.land_ones by lia. Qed.
Lemma next_number skip b r s s' :
  at_height r s → _apply_block skip b s = Ok (tt, s') → block_num (head_block b) = r + 1.
Proof.
  intros (Hid & Hn & Hr) H. apply block_frontier in H as ((Hprev & _) & _).
  unfold block_num, head_block. rewrite Hprev. change (gpo_head_block_id (db_gpo s)) with (fr_id (frontier s)).
  rewrite Hid. apply Z.mod_small. lia.
Qed.
Lemma blocks_recorded r s bs s' :
  at_height r s → r + Z.of_nat (length bs) < U32 - 1 → blocks_applied s bs s' →
  at_height (r + Z.of_nat (length bs)) s' ∧
  ∀ i b, bs !! i = Some b → Z.of_nat (length bs) - Z.of_nat i ≤ 65536 →
    block_num (head_block b) = r + 1 + Z.of_nat i ∧
    summaries s' !! Z.land (r + 1 + Z.of_nat i) 65535 = Some (header_id (sb_header b)).
Proof.
  intros Hr Hlen H. induction H as [|bs b skip s1 s2 H IH Hb]; [by split; [rewrite Z.add_0_r|]|].
  rewrite length_app in *. cbn [length] in *. destruct IH as [Hh Hin]; [lia|].
  pose proof (next_number _ _ _ _ _ Hh Hb) as Hn. destruct Hr as (_ & _ & Hr0).
  assert (at_height (r + Z.of_nat (length bs) + 1) s2) as Hh2.
  { eapply block_at_height; [exact Hh| |exact Hb]. unfold small_block. rewrite Hn. lia. }
  split; [by replace (r + Z.of_nat (length bs + 1)) with (r + Z.of_nat (length bs) + 1) by lia|].
  intros i c Hi Hnear. rewrite (apply_block_summaries _ _ _ _ Hb). fold (head_block b). rewrite Hn.
  apply lookup_app_Some in Hi as [Hi|[Hge Hi]].
  - pose proof (lookup_lt_Some _ _ _ Hi). destruct (Hin i c Hi ltac:(lia)) as [Hnum Hs].
    split; [done|]. rewrite lookup_insert_ne; [done|]. rewrite !land_u16 by lia. intros Heq.
    pose proof (Z.div_mod (r + Z.of_nat (length bs) + 1) 65536 ltac:(lia)).
    pose proof (Z.div_mod (r + 1 + Z.of_nat i) 65536 ltac:(lia)). lia.
  - apply list_lookup_singleton_Some in Hi as [Hi <-].
    replace (r + 1 + Z.of_nat i) with (r + Z.of_nat (length bs) + 1) by lia. split; [done|]. by rewrite lookup_insert_eq.
Qed.
Lemma num_from_empty : num_from_id EmptyString = 0.
Proof. unfold num_from_id. by rewrite hash_word0_empty, endian_reverse_zero. Qed.
Lemma get_summary k id n :
  0 < k → num_from_id id = k → summaries (nd_db n) !! Z.land k 65535 = Some id → get_block_id_for_num k n = (Ok id, n).
Proof.
  intros Hk Hid Hs. unfold get_block_id_for_num. rewrite n_bind_run.
  assert (find_block_id_for_num k n = (Ok id, n)) as ->.
  { unfold find_block_id_for_num. rewrite (proj2 (Z.eqb_neq _ _)) by lia. rewrite n_bind_run. cbn [n_gets fst snd].
    assert (summary_at (Z.land k 65535) (the (nd_db n)) = id) as -> by (unfold summary_at, summaries in *; by rewrite Hs).
    by rewrite Hid, Z.eqb_refl. }
  cbn [fst snd]. rewrite bool_decide_eq_false_2; [done|]. intros ->. rewrite num_from_empty in Hid. lia.
Qed.
End recent.

Lemma find_split {A} (p : A → bool) l x :
  List.find p l = Some x → ∃ before after, l = before ++ x :: after ∧ Forall (λ y, p y = false) before.
Proof.
  induction l as [|y l IH]; cbn [List.find]; [done|]. destruct (p y) eqn:Ey.
  - intros [= ->]. by exists [], l.
  - intros (before & after & -> & H)%IH. exists (y :: before), after. split; [done|by constructor].
Qed.

(** ** What a node promises to its peers

    It serves the chain [ids]: it gives the ids of its blocks by number, knows
    them, and knows no block above its head. *)
Class Serves {K : Crypto} {PK : Packing} (n : node) (ids : Z → string) : Prop := {
  sv_head : 0 < n_head_block_num n < U32 - 1;
  sv_id k : 1 ≤ k ≤ n_head_block_num n → get_block_id_for_num k n = (Ok (ids k), n);
  sv_num k : 1 ≤ k ≤ n_head_block_num n → num_from_id (ids k) = k;
  sv_known k : 1 ≤ k ≤ n_head_block_num n → is_known_block (ids k) n = (Ok true, n);
  sv_other id : ∃ known, is_known_block id n = (Ok known, n) ∧
    (known = true → 1 ≤ num_from_id id ≤ n_head_block_num n) }.

Section serving.
Context {K : Crypto} {PK : Packing} (n : node) (ids : Z → string) {SV : Serves n ids}.
#[local] Notation head := (n_head_block_num n).

(** The id of a block of the chain. *)
Definition on_chain (id : string) : bool :=
  bool_decide (1 ≤ num_from_id id ≤ head ∧ id = ids (num_from_id id)).
Definition usable (id : string) : bool := bool_decide (id = EmptyString) || on_chain id.
Lemma included_ok id : 1 ≤ num_from_id id ≤ head → is_included_block id n = (Ok (on_chain id), n).
Proof.
  intros Hid. unfold is_included_block. rewrite n_bind_run, sv_id by done. cbn [fst snd].
  unfold on_chain. by rewrite (bool_decide_ext (id = _) (1 ≤ num_from_id id ≤ head ∧ id = ids (num_from_id id))) by naive_solver.
Qed.
Lemma last_known_ok l : last_known l n = (Ok (List.find usable l), n).
Proof.
  induction l as [|id l IH]; cbn [last_known List.find]; [done|]. rewrite n_bind_run. unfold usable at 1.
  destruct (bool_decide (id = EmptyString)); [done|]. rewrite n_bind_run.
  destruct (sv_other (n := n) id) as (known & Ek & Hk). rewrite Ek. destruct known; cbn [fst snd].
  - rewrite included_ok by (by apply Hk). cbn [fst snd orb]. by destruct (on_chain id).
  - assert (on_chain id = false) as ->; [|exact IH].
    apply bool_decide_eq_false_2. intros [Hr Hid]. pose proof (sv_known (n := n) _ Hr) as Hn. rewrite <- Hid in Hn. congruence.
Qed.

(** The loop over the numbers from [num] on. *)
Lemma ids_from_ok rounds num limit acc :
  0 < num → rounds = Z.to_nat (head + 1 - num) → 0 ≤ limit →
  ids_from rounds num head limit acc n =
    (Ok (acc ++ (ids <$> seqZ num (Z.min (limit - Z.of_nat (length acc)) (head + 1 - num)))), n).
Proof.
  revert num acc. induction rounds as [|r IH]; intros num acc Hn Hr Hl; cbn [ids_from].
  { rewrite seqZ_nil by lia. cbn. by rewrite app_nil_r. }
  destruct ((num <=? head) && (Z.of_nat (length acc) <? limit)) eqn:Ec.
  - apply andb_true_iff in Ec as [E1 E2]. rewrite (proj2 (Z.ltb_lt 0 num)) by lia.
    rewrite n_bind_run, n_bind_run, sv_id by lia. cbn [fst snd mret N_ret].
    rewrite IH by lia. rewrite length_app. cbn [length].
    rewrite (seqZ_cons num) by lia. cbn [fmap list_fmap]. rewrite <- app_assoc. cbn [app].
    replace (Z.pred (Z.min (limit - Z.of_nat (length acc)) (head + 1 - num)))
      with (Z.min (limit - Z.of_nat (length acc + 1)) (head + 1 - (num + 1))) by lia.
    by replace (Z.succ num) with (num + 1) by lia.
  - rewrite seqZ_nil; [cbn; by rewrite app_nil_r|]. apply andb_false_iff in Ec. lia.
Qed.
Definition first_number (synopsis : list string) : option Z :=
  match synopsis with
  | [] => Some 1
  | _ => (λ id, Z.max 1 (num_from_id id)) <$> List.find usable (reverse synopsis)
  end.
Lemma answer_from first limit :
  0 ≤ first ≤ head → 0 < limit →
  ids_from (Z.to_nat (head + 1 - first)) first head limit [] n =
    (Ok (ids <$> seqZ (Z.max 1 first) (Z.min limit (head + 1 - Z.max 1 first))), n).
Proof.
  intros Hf Hl. destruct (decide (first = 0)) as [->|Hne].
  - pose proof (sv_head (n := n)) as Hh. replace (Z.to_nat (head + 1 - 0)) with (S (Z.to_nat (head + 1 - 1))) by lia.
    cbn [ids_from]. rewrite (proj2 (Z.leb_le 0 head)) by lia. rewrite (proj2 (Z.ltb_lt _ limit)) by (cbn; lia).
    cbn [andb Z.ltb Z.compare]. rewrite n_bind_run. cbn [mret N_ret fst snd]. rewrite ids_from_ok by lia.
    cbn [app length]. by rewrite Z.sub_0_r.
  - rewrite ids_from_ok by lia. cbn [app length]. replace (Z.max 1 first) with first by lia. by rewrite Z.sub_0_r.
Qed.
Lemma usable_number synopsis id :
  List.find usable (reverse synopsis) = Some id → 0 ≤ num_from_id id ≤ head.
Proof.
  intros [_ H]%List.find_some. pose proof (sv_head (n := n)). unfold usable in H. apply orb_true_iff in H as [H|H].
  - apply bool_decide_eq_true in H as ->. rewrite num_from_empty. lia.
  - apply bool_decide_eq_true in H as [H _]. lia.
Qed.
Lemma remaining_ok first limit :
  1 ≤ first ≤ head → 0 < limit →
  match last (ids <$> seqZ first (Z.min limit (head + 1 - first))) with
  | Some id => if num_from_id id <? head then head - num_from_id id else 0
  | None => 0
  end = Z.max 0 (head + 1 - first - limit).
Proof.
  intros Hf Hl. set (m := Z.min limit (head + 1 - first)).
  rewrite fmap_last, last_lookup, length_seqZ.
  replace (seqZ first m !! Nat.pred (Z.to_nat m)) with (Some (first + m - 1)).
  2: { symmetry. apply lookup_seqZ. lia. }
  cbn [fmap option_fmap option_map]. rewrite sv_num by lia. destruct (_ <? head) eqn:Ex; lia.
Qed.
Lemma get_block_ids_ok synopsis limit :
  0 < limit →
  get_block_ids synopsis limit n =
    match first_number synopsis with
    | Some first => (Ok (ids <$> seqZ first (Z.min limit (head + 1 - first)), Z.max 0 (head + 1 - first - limit)), n)
    | None => (Throw peer_is_on_an_unreachable_fork, n)
    end.
Proof.
  intros Hl. pose proof (sv_head (n := n)) as Hh. unfold get_block_ids. rewrite n_bind_run. cbn [n_gets fst snd].
  rewrite (proj2 (Z.eqb_neq head 0)) by lia.
  assert (∀ id, 0 ≤ num_from_id id ≤ head →
    (result ← ids_from (Z.to_nat (head + 1 - num_from_id id)) (num_from_id id) head limit [];
     mret (M := N) (result, match last result with
            | Some id => if num_from_id id <? head then head - num_from_id id else 0
            | None => 0
            end)) n =
    (Ok (ids <$> seqZ (Z.max 1 (num_from_id id)) (Z.min limit (head + 1 - Z.max 1 (num_from_id id))),
         Z.max 0 (head + 1 - Z.max 1 (num_from_id id) - limit)), n)) as Hfrom.
  { intros id Hid. rewrite n_bind_run, answer_from by done. cbn [fst snd mret N_ret]. by rewrite remaining_ok by lia. }
  rewrite n_bind_run. case_bool_decide as Ee.
  - cbn [mret N_ret fst snd]. rewrite Hfrom by (rewrite num_from_empty; lia). rewrite num_from_empty.
    destruct Ee as [->| ->]; cbn [first_number]; [done|].
    change (reverse [EmptyString]) with [EmptyString]. cbn [List.find]. change (usable EmptyString) with true.
    cbn [fmap option_fmap option_map]. by rewrite num_from_empty.
  - rewrite n_bind_run, last_known_ok. cbn [fst snd].
    assert (first_number synopsis = (λ id, Z.max 1 (num_from_id id)) <$> List.find usable (reverse synopsis)) as ->
      by (destruct synopsis; [naive_solver|done]).
    destruct (List.find usable _) as [id|] eqn:Ef; cbn [fmap option_fmap option_map mret N_ret n_throw fst snd]; [|done].
    apply Hfrom. by eapply usable_number.
Qed.

(** The answer passes the check of the peer that asked. *)
Lemma sequential_answer first m :
  1 ≤ first → first + m ≤ head + 1 → sequential_ids first (ids <$> seqZ first m) = true.
Proof.
  intros Hf Hm. destruct (decide (m ≤ 0)) as [Hz|Hz]; [by rewrite seqZ_nil by lia|].
  rewrite <- (Z2Nat.id m) in * by lia. generalize (Z.to_nat m), Hm. clear Hz Hm m. intros m. revert first Hf.
  pose proof (sv_head (n := n)) as Hh. induction m as [|m IH]; intros first Hf Hm; [done|].
  rewrite seqZ_cons by lia. cbn [fmap list_fmap sequential_ids]. rewrite sv_num by lia.
  unfold to_uint32. rewrite Z.mod_small, Z.eqb_refl by (unfold U32 in *; lia). cbn [andb].
  replace (Z.pred (Z.of_nat (S m))) with (Z.of_nat m) by lia. apply IH; lia.
Qed.
Lemma first_number_range synopsis first : first_number synopsis = Some first → 1 ≤ first ≤ head.
Proof.
  pose proof (sv_head (n := n)). destruct synopsis as [|x l]; cbn [first_number]; [intros [= <-]; lia|].
  intros (id & Hid%usable_number & ->)%fmap_Some. lia.
Qed.
Lemma first_number_none synopsis :
  first_number synopsis = None → synopsis ≠ [] ∧ Forall (λ id, on_chain id = false) synopsis.
Proof.
  destruct synopsis as [|x l]; cbn [first_number]; [done|]. set (s := x :: l). intros H. split; [done|].
  apply fmap_None in H. apply Forall_forall. intros id Hid. apply elem_of_reverse, list_elem_of_In in Hid.
  apply (List.find_none _ _ H) in Hid. unfold usable in Hid. by apply orb_false_iff in Hid as [_ Hid].
Qed.
Lemma first_number_ok synopsis first :
  first_number synopsis = Some first → EmptyString ∉ synopsis →
  1 ≤ first ≤ head ∧
  (synopsis = [] ∧ first = 1 ∨ ∃ before after, synopsis = before ++ ids first :: after ∧ Forall (λ id, on_chain id = false) after).
Proof.
  pose proof (sv_head (n := n)) as Hh. destruct synopsis as [|x l]; cbn [first_number].
  { intros [= <-] _. split; [lia|by left]. }
  set (s := x :: l). intros H Hempty. apply fmap_Some in H as (id & Hid & ->).
  apply List.find_some in Hid as Hin. destruct Hin as [Hin Hu]. rewrite <- list_elem_of_In, elem_of_reverse in Hin.
  unfold usable in Hu. rewrite bool_decide_eq_false_2 in Hu by congruence. cbn [orb] in Hu.
  apply bool_decide_eq_true in Hu as [Hr Hu]. rewrite Z.max_r by lia. split; [done|]. right. rewrite <- Hu.
  apply find_split in Hid as (before & after & Hs & Hbefore). exists (reverse after), (reverse before).
  split; [by rewrite <- (reverse_involutive s), Hs, reverse_app, reverse_cons, <- app_assoc|].
  apply Forall_reverse. eapply Forall_impl; [exact Hbefore|]. intros y Hy. cbn in Hy.
  unfold usable in Hy. by apply orb_false_iff in Hy as [_ Hy].
Qed.
Lemma in_sync_answer synopsis first limit :
  first_number synopsis = Some first → EmptyString ∉ synopsis → 1 < limit →
  peer_needs_sync_items synopsis (ids <$> seqZ first (Z.min limit (head + 1 - first))) =
    bool_decide (synopsis = [] ∨ first < head).
Proof.
  intros Hf Hempty Hl. destruct (first_number_ok _ _ Hf Hempty) as [Hr Hs].
  rewrite seqZ_cons by lia. cbn [fmap list_fmap]. destruct (decide (first = head)) as [->|Hne].
  - rewrite seqZ_nil by lia. cbn [fmap list_fmap peer_needs_sync_items]. rewrite <- bool_decide_not.
    apply bool_decide_ext. destruct Hs as [[-> _]|(before & after & -> & _)]; [naive_solver|].
    split; [|intros [E0|E0]; [by destruct before|subst; lia]]. intros H. destruct H. split; [by destruct before|set_solver].
  - rewrite seqZ_cons by lia. cbn [fmap list_fmap peer_needs_sync_items]. by rewrite bool_decide_eq_true_2 by (right; lia).
Qed.
Lemma valid_answer synopsis first limit :
  first_number synopsis = Some first → EmptyString ∉ synopsis → 0 < limit →
  valid_inventory synopsis (ids <$> seqZ first (Z.min limit (head + 1 - first))) = true.
Proof.
  intros Hf Hempty Hl. destruct (first_number_ok _ _ Hf Hempty) as [Hr Hs].
  rewrite seqZ_cons by lia. cbn [fmap list_fmap valid_inventory]. rewrite sv_num by done.
  replace (Z.succ first) with (first + 1) by lia. rewrite sequential_answer by lia. cbn [andb].
  destruct Hs as [[-> ->]|(before & after & -> & _)]; [done|].
  destruct before; apply bool_decide_eq_true_2; set_solver.
Qed.
End serving.

(** ** The synopsis

    The numbers in it: from [low] on, each half way from the one before it to the
    end of the chain. *)
Definition half_way (true_high low : Z) : Z := low + (true_high - low + 2) / 2.
Inductive synopsis_of (true_high high : Z) : Z → list Z → Prop :=
| synopsis_last low : low ≤ high → high < half_way true_high low → synopsis_of true_high high low [low]
| synopsis_more low l :
    low ≤ high → synopsis_of true_high high (half_way true_high low) l → synopsis_of true_high high low (low :: l).

Lemma find_app {A} (p : A → bool) l k :
  List.find p (l ++ k) = match List.find p l with Some x => Some x | None => List.find p k end.
Proof. induction l as [|x l IH]; cbn; [done|]. by destruct (p x). Qed.
Lemma find_fmap {A B} (p : B → bool) (f : A → B) (q : A → bool) l :
  (∀ x, x ∈ l → p (f x) = q x) → List.find p (f <$> l) = f <$> List.find q l.
Proof.
  intros H. induction l as [|x l IH]; cbn; [done|]. rewrite H by left. destruct (q x); [done|]. apply IH. intros y Hy.
  apply H. by right.
Qed.

Section numbers.
Context (true_high high : Z) (Hhigh : high ≤ true_high).

Lemma half_way_up low : low ≤ true_high → low < half_way true_high low ≤ true_high + 1.
Proof. intros H. unfold half_way. Z.div_mod_to_equations. lia. Qed.
Lemma synopsis_from low l : synopsis_of true_high high low l → Forall (λ k, low ≤ k ≤ high) l ∧ StronglySorted Z.lt l.
Proof.
  induction 1 as [low H1 H2|low l H1 H IH]; [by split; repeat constructor; lia|]. destruct IH as [IH1 IH2].
  pose proof (half_way_up low ltac:(lia)). split; constructor; [lia| |done|].
  - eapply Forall_impl; [exact IH1|]. cbn. lia.
  - eapply Forall_impl; [exact IH1|]. cbn. lia.
Qed.
Lemma synopsis_ends low l : high = true_high → synopsis_of true_high high low l → last l = Some high.
Proof.
  intros ->. induction 1 as [low H1 H2|low l H1 H IH]; cbn [last].
  - f_equal. unfold half_way in H2. Z.div_mod_to_equations. lia.
  - destruct l; [inversion H|done].
Qed.
(** The last number up to [v] is not farther from it than from the end. *)
Lemma synopsis_near low l v :
  synopsis_of true_high high low l → high = true_high → low ≤ v ≤ high →
  ∃ u, List.find (λ k, k <=? v) (reverse l) = Some u ∧ u ∈ l ∧ low ≤ u ≤ v ∧ 2 * (v - u) ≤ high - u.
Proof.
  intros H E. induction H as [low H1 H2|low l H1 H IH]; intros Hv.
  - exists low. unfold half_way in H2. cbn. rewrite (proj2 (Z.leb_le _ _)) by lia.
    split_and!; [done|left|lia|lia|]. Z.div_mod_to_equations. lia.
  - rewrite reverse_cons. destruct (decide (half_way true_high low ≤ v)) as [Hle|Hgt].
    + destruct IH as (u & Hf & Hin & Hu & Hd); [lia|]. exists u. pose proof (half_way_up low ltac:(lia)).
      split_and!; [|by right|lia|lia|done]. rewrite find_app, Hf. done.
    + exists low. apply synopsis_from in H as [Hall _].
      assert (List.find (λ k, k <=? v) (reverse l) = None) as Hnone.
      { destruct (List.find _ _) as [x|] eqn:Ef; [|done]. apply List.find_some in Ef as [Hx Hxv].
        apply list_elem_of_In in Hx. rewrite elem_of_reverse in Hx. rewrite Forall_forall in Hall.
        specialize (Hall _ Hx). lia. }
      rewrite find_app, Hnone. cbn. rewrite (proj2 (Z.leb_le _ _)) by lia.
      split_and!; [done|left|lia|lia|]. unfold half_way in Hgt. Z.div_mod_to_equations. lia.
Qed.
End numbers.

Section synopsis.
Context {K : Crypto} {PK : Packing} (n : node) (s : segment) (f : Z → string) (true_high : Z).
Context (Hhigh : seg_high s ≤ true_high) (Hmax : true_high + 1 < U32).

Lemma next_low_half low : 1 ≤ low ≤ true_high → next_low true_high low = half_way true_high low.
Proof.
  intros H. unfold next_low, half_way, to_uint32. pose proof (half_way_up true_high low ltac:(lia)). unfold half_way in *.
  rewrite (Z.mod_small (true_high - low + 2)) by lia. rewrite Z.mod_small; lia.
Qed.
Lemma synopsis_loop_ok rounds low :
  1 ≤ low ≤ seg_high s → true_high - low + 1 < 2 ^ Z.of_nat rounds →
  (∀ k, low ≤ k ≤ seg_high s → segment_id s k n = (Ok (f k), n)) →
  ∃ l, synopsis_loop rounds s true_high low n = (Ok (f <$> l), n) ∧ synopsis_of true_high (seg_high s) low l ∧
    (length l ≤ rounds)%nat.
Proof.
  revert low. induction rounds as [|r IH]; intros low Hlow Hr Hid; cbn [synopsis_loop].
  { change (2 ^ Z.of_nat 0) with 1 in Hr. lia. }
  rewrite n_bind_run, Hid by lia. cbn [fst snd]. rewrite next_low_half by lia.
  pose proof (half_way_up true_high low ltac:(lia)) as Hup.
  destruct (_ <=? seg_high s) eqn:Ec.
  - destruct (IH (half_way true_high low)) as (l & Hl & Hs & Hlen).
    + lia.
    + rewrite Nat2Z.inj_succ, Z.pow_succ_r in Hr by lia. unfold half_way. Z.div_mod_to_equations. lia.
    + intros k Hk. apply Hid. lia.
    + exists (low :: l). rewrite n_bind_run, Hl. cbn. split_and!; [done|constructor; [lia|done]|lia].
  - exists [low]. cbn. split_and!; [done|constructor; lia|lia].
Qed.
End synopsis.

Section theorems.
Context {K : Crypto} {PK : Packing}.

(** The synopsis of the whole chain. *)
Lemma chain_synopsis n ids after :
  Serves n ids → last_non_undoable_block_num n ≤ n_head_block_num n → 0 ≤ last_non_undoable_block_num n →
  0 ≤ after → n_head_block_num n + after + 1 < U32 →
  let low := Z.max 1 (last_non_undoable_block_num n) in
  ∃ l, get_blockchain_synopsis EmptyString after n = (Ok (ids <$> l), n) ∧
    synopsis_of (n_head_block_num n + after) (n_head_block_num n) low l ∧ (length l ≤ 33)%nat.
Proof.
  intros SV Hlib Hlib0 Ha Hmax. cbn zeta. pose proof (sv_head (n := n)) as Hh.
  set (s := Segment (last_non_undoable_block_num n) (n_head_block_num n) (n_head_block_num n) []).
  assert (find_segment EmptyString n = (Ok (Some s), n)) as Hs.
  { unfold find_segment. rewrite n_bind_run. cbn [n_gets fst snd]. rewrite bool_decide_eq_true_2 by done. cbn [negb].
    rewrite n_bind_run. cbn [n_gets fst snd]. by rewrite (proj2 (Z.eqb_neq _ _)) by lia. }
  unfold get_blockchain_synopsis. rewrite n_bind_run, Hs. cbn [fst snd].
  replace (if seg_low s =? 0 then 1 else seg_low s) with (Z.max 1 (last_non_undoable_block_num n))
    by (cbn [s seg_low]; destruct (_ =? 0) eqn:Ez; lia).
  cbn [s seg_high]. unfold to_uint32. rewrite Z.mod_small by lia. fold s.
  apply (synopsis_loop_ok n s ids); cbn [s seg_high]; [lia|lia|lia| |].
  - change (Z.of_nat 33) with 33. unfold U32 in *. change (2 ^ 32) with 4294967296 in Hmax. change (2 ^ 33) with 8589934592. lia.
  - intros k Hk. unfold segment_id. cbn [s seg_non_fork_high]. rewrite (proj2 (Z.leb_le _ _)) by lia. apply sv_id. lia.
Qed.

(** The ids of the last 65536 blocks that were applied are found by their
    number, whatever the operations in the blocks do. *)
Theorem recent_ids_found {F : Fc} {B : Boost} {D : DiffMatchPatch} {E : Equihash} {P : Plugins} {PL : PluginLaws}
    r s bs n i b :
  at_height r s → blocks_applied s bs (nd_db n) → r + Z.of_nat (length bs) < U32 - 1 →
  bs !! i = Some b → Z.of_nat (length bs) - Z.of_nat i ≤ 65536 →
  get_block_id_for_num (r + 1 + Z.of_nat i) n = (Ok (header_id (sb_header b)), n).
Proof.
  intros Hr Hbs Hlen Hi Hnear. destruct (blocks_recorded _ _ _ _ Hr Hlen Hbs) as [_ H].
  destruct (H i b Hi Hnear) as [Hn Hs]. destruct Hr as (_ & _ & Hr0). apply get_summary; [lia| |exact Hs].
  rewrite num_from_header_id. exact Hn.
Qed.


(** The synopsis of a chain has at most 33 ids, of blocks in ascending order
    that start at the last block that cannot be undone and end at the head; each
    is half way from the one before it to the end of the chain. *)
Theorem synopsis_shape n ids :
  Serves n ids → 0 ≤ last_non_undoable_block_num n ≤ n_head_block_num n → n_head_block_num n + 1 < U32 →
  ∃ l, get_blockchain_synopsis EmptyString 0 n = (Ok (ids <$> l), n) ∧ (length l ≤ 33)%nat ∧
    hd_error l = Some (Z.max 1 (last_non_undoable_block_num n)) ∧ last l = Some (n_head_block_num n) ∧
    StronglySorted Z.lt l ∧
    ∀ i u v, l !! i = Some u → l !! S i = Some v → v = half_way (n_head_block_num n) u.
Proof.
  intros SV Hlib Hmax. destruct (chain_synopsis n ids 0 SV) as (l & Hl & Hs & Hlen); [lia..|].
  rewrite Z.add_0_r in Hs. exists l. split_and!; [done|done| | | |].
  - by inversion Hs.
  - by eapply synopsis_ends in Hs.
  - by eapply synopsis_from in Hs as [_ Hs].
  - clear Hl Hlen. induction Hs as [low H1 H2|low l H1 H IH]; intros i u v Hu Hv; [by destruct i|].
    destruct i as [|i]; cbn in Hu, Hv; [|by eapply IH]. injection Hu as <-.
    destruct l; [done|]. injection Hv as <-. by inversion H.
Qed.

(** C13: synchronisation from a peer whose chain agrees with ours up to block [v]
    and not after it: as long as [v] can still be reached by undoing blocks, the
    peer answers our synopsis with the ids of its own chain from a block [u] that
    both have; [u] is not farther from the fork than from our head. *)
Theorem sync_finds_fork a b ids_a ids_b v :
  Serves a ids_a → Serves b ids_b →
  0 ≤ last_non_undoable_block_num a ≤ v → 1 ≤ v ≤ n_head_block_num a → v ≤ n_head_block_num b →
  n_head_block_num a + 1 < U32 →
  (∀ k, 1 ≤ k ≤ n_head_block_num a → k ≤ n_head_block_num b → ids_a k = ids_b k ↔ k ≤ v) →
  ∃ synopsis u, get_blockchain_synopsis EmptyString 0 a = (Ok synopsis, a) ∧ ids_b u ∈ synopsis ∧
    Z.max 1 (last_non_undoable_block_num a) ≤ u ≤ v ∧ 2 * (v - u) ≤ n_head_block_num a - u ∧
    ∀ limit, 0 < limit →
      get_block_ids synopsis limit b =
        (Ok (ids_b <$> seqZ u (Z.min limit (n_head_block_num b + 1 - u)), Z.max 0 (n_head_block_num b + 1 - u - limit)), b).
Proof.
  intros SA SB Hlib Hva Hvb Hmax Hfork. destruct (chain_synopsis a ids_a 0 SA) as (l & Hl & Hs & _); [lia..|].
  rewrite Z.add_0_r in Hs. destruct (synopsis_near _ _ ltac:(reflexivity) _ _ v Hs ltac:(done) ltac:(lia)) as (u & Hf & Hin & Hu & Hd).
  assert (ids_a u = ids_b u) as Eu by (apply Hfork; lia).
  exists (ids_a <$> l), u. split_and!; [done| |lia|lia|done|].
  { rewrite <- Eu. by apply list_elem_of_fmap_2. }
  intros limit Hlimit. rewrite (get_block_ids_ok b ids_b) by done.
  assert (first_number b ids_b (ids_a <$> l) = Some u) as ->; [|done].
  assert (first_number b ids_b (ids_a <$> l) =
    (λ id, Z.max 1 (num_from_id id)) <$> List.find (usable b ids_b) (reverse (ids_a <$> l))) as -> by (by destruct l; [inversion Hs|]).
  rewrite <- fmap_reverse. rewrite (find_fmap _ _ (λ k, k <=? v)).
  - rewrite Hf. cbn [fmap option_fmap option_map]. f_equal. rewrite (sv_num (n := a)) by lia. lia.
  - intros k Hk. rewrite elem_of_reverse in Hk. destruct (synopsis_from _ _ ltac:(reflexivity) _ _ Hs) as [Hall _].
    rewrite Forall_forall in Hall. specialize (Hall _ Hk). assert (num_from_id (ids_a k) = k) as Hn by (apply (sv_num (n := a)); lia).
    unfold usable, on_chain. rewrite bool_decide_eq_false_2 by (intros E0; rewrite E0, num_from_empty in Hn; lia).
    cbn [orb]. destruct (k <=? v) eqn:Ekv.
    + apply bool_decide_eq_true_2. rewrite Hn. split; [lia|]. apply Hfork; lia.
    + apply bool_decide_eq_false_2. rewrite Hn. intros [Hr He]. apply Hfork in He; lia.
Qed.
End theorems.

(** ** The theorems on two nodes

    Both have the first block, then a second block of their own. *)
#[local] Existing Instance fc_model.
#[local] Existing Instances boost_model no_patches crypto_model no_mining no_plugins no_plugins_laws packing_model all_torn.

Definition our_2 : signed_block := made_block (id_of made_1) 2.
Definition peer_2 : signed_block := made_block (id_of made_1) 3.
Definition our_node : node := (push_block skip_nothing our_2 node_1).2.
Definition peer_node : node := (push_block skip_nothing peer_2 node_1).2.
Definition ids_of (second : signed_block) (k : Z) : string := if k =? 1 then id_of made_1 else id_of second.

Lemma node_serves n second :
  n_head_block_num n = 2 → nd_log n = empty_log →
  (∀ k, k = 1 ∨ k = 2 → get_block_id_for_num k n = (Ok (ids_of second k), n) ∧ num_from_id (ids_of second k) = k ∧
     is_Some (fetch_block (ids_of second k) (nd_fork n))) →
  forallb (λ x, (1 <=? num_from_id x.1) && (num_from_id x.1 <=? 2)) (map_to_list (fdb_index (nd_fork n))) = true →
  Serves n (ids_of second).
Proof.
  intros Hh Hlog Hk Hall.
  assert (∀ id, is_known_block id n = (Ok (bool_decide (is_Some (fetch_block id (nd_fork n)))), n)) as Hknown.
  { intros id. unfold is_known_block, fetch_block_by_id. rewrite n_bind_run, n_bind_run. cbn [n_gets fst snd].
    destruct (fetch_block id (nd_fork n)) as [x|]; cbn [fst snd mret N_ret]; [by rewrite bool_decide_eq_true_2 by eauto|].
    rewrite bool_decide_eq_false_2 by by intros []. rewrite n_bind_run. cbn [n_gets fst snd]. by rewrite Hlog. }
  split; rewrite ?Hh; [vm_compute; split; reflexivity|..].
  - intros k Hr. apply Hk. lia.
  - intros k Hr. apply Hk. lia.
  - intros k Hr. rewrite Hknown. by rewrite bool_decide_eq_true_2 by (apply Hk; lia).
  - intros id. rewrite Hknown. eexists. split; [done|]. intros [x Hx]%bool_decide_eq_true.
    unfold fetch_block in Hx. apply bind_Some in Hx as (i & Hi & _). apply elem_of_map_to_list in Hi.
    rewrite forallb_forall in Hall. apply list_elem_of_In in Hi. apply Hall in Hi. apply andb_true_iff in Hi as [H1 H2]. cbn [fst] in *. lia.
Qed.
Lemma our_node_serves : Serves our_node (ids_of our_2).
Proof.
  apply node_serves; [vm_compute; reflexivity..| |vm_compute; reflexivity].
  intros k [->| ->]; split_and!; [|vm_compute; reflexivity|eexists; vm_compute; reflexivity| |vm_compute; reflexivity|eexists; vm_compute; reflexivity].
  all: apply get_summary; vm_compute; reflexivity.
Qed.
Lemma peer_node_serves : Serves peer_node (ids_of peer_2).
Proof.
  apply node_serves; [vm_compute; reflexivity..| |vm_compute; reflexivity].
  intros k [->| ->]; split_and!; [|vm_compute; reflexivity|eexists; vm_compute; reflexivity| |vm_compute; reflexivity|eexists; vm_compute; reflexivity].
  all: apply get_summary; vm_compute; reflexivity.
Qed.

Lemma synopsis_shape_witness :
  ∃ l, get_blockchain_synopsis EmptyString 0 our_node = (Ok (ids_of our_2 <$> l), our_node) ∧ last l = Some 2.
Proof.
  assert (n_head_block_num our_node = 2) as Eh by (vm_compute; reflexivity).
  assert (last_non_undoable_block_num our_node = 0) as El by (vm_compute; reflexivity).
  destruct (synopsis_shape our_node (ids_of our_2) our_node_serves) as (l & Hl & _ & _ & Hlast & _).
  - rewrite Eh, El. lia.
  - rewrite Eh. reflexivity.
  - exists l. rewrite Eh in Hlast. split; [exact Hl|exact Hlast].
Defined.
Lemma sync_finds_fork_witness :
  ∃ synopsis, get_blockchain_synopsis EmptyString 0 our_node = (Ok synopsis, our_node) ∧
    get_block_ids synopsis 10 peer_node = (Ok ([id_of made_1; id_of peer_2], 0), peer_node).
Proof.
  assert (n_head_block_num our_node = 2) as Ea by (vm_compute; reflexivity).
  assert (n_head_block_num peer_node = 2) as Eb by (vm_compute; reflexivity).
  assert (last_non_undoable_block_num our_node = 0) as El by (vm_compute; reflexivity).
  destruct (sync_finds_fork our_node peer_node (ids_of our_2) (ids_of peer_2) 1 our_node_serves peer_node_serves)
    as (synopsis & u & Hs & _ & Hu & _ & Hids).
  - rewrite El. lia.
  - rewrite Ea. lia.
  - rewrite Eb. lia.
  - rewrite Ea. reflexivity.
  - rewrite Ea. intros k Hk _. assert (k = 1 ∨ k = 2) as [->| ->] by lia.
    + split; [lia|reflexivity].
    + split; [intros H; vm_compute in H; discriminate H|lia].
  - exists synopsis. split; [exact Hs|]. rewrite (Hids 10 ltac:(lia)). rewrite El in Hu. assert (u = 1) as -> by lia.
    rewrite Eb. reflexivity.
Defined.

Definition apply_made (b : signed_block) (db : database) : database :=
  match _apply_block skip_nothing b db with Ok (_, db') => db' | Throw _ => db end.
Definition made_chain : database := apply_made our_2 (apply_made made_1 (genesis 1000)).
Lemma apply_made_run b db : is_ok (_apply_block skip_nothing b db) = true → _apply_block skip_nothing b db = Ok (tt, apply_made b db).
Proof. unfold apply_made. by destruct (_apply_block skip_nothing b db) as [[[] db']|e]. Qed.
Lemma recent_ids_found_witness :
  get_block_id_for_num 1 (set_state made_chain [] 2 genesis_node) =
    (Ok (id_of made_1), set_state made_chain [] 2 genesis_node).
Proof.
  apply (recent_ids_found 0 (genesis 1000) [made_1; our_2] (set_state made_chain [] 2 genesis_node) 0 made_1).
  - split_and!; vm_compute; first [reflexivity|discriminate].
  - apply (applied_next _ [made_1] our_2 skip_nothing (apply_made made_1 (genesis 1000))).
    + apply (applied_next _ [] made_1 skip_nothing (genesis 1000)); [apply applied_none|].
      apply apply_made_run. vm_compute. reflexivity.
    + apply apply_made_run. vm_compute. reflexivity.
  - vm_compute. reflexivity.
  - reflexivity.
  - vm_compute. discriminate.
Defined.

(** The example of the source: of 26 blocks, the first, 14th, 21st, 24th and last. *)
Example synopsis_of_26 : synopsis_of 26 26 1 [1; 14; 21; 24; 26].
Proof.
  do 4 (apply synopsis_more; [lia|cbn -[Z.div]; match goal with |- synopsis_of _ _ ?x _ => let y := eval vm_compute in x in change x with y end]).
  apply synopsis_last; [lia|vm_compute; reflexivity].
Qed.
