(* ===== verification/Follow.v ===== *)
(** * The follow plugin

    plugins/follow: who follows whom, the feeds and blogs of the accounts and
    their reputation.  The objects of the plugin are in tables of its own, the
    record [social]; the chain state is only read.

    Not modelled: the options, the API, and the interpreter that turns a
    [custom_json_operation] into the operations below.  A loop over old entries
    that reaches the end of an index is stopped there. *)
From S2P Require Import Prelude Fc Config Asset Chainbase ChainbaseSpec Objects Protocol BlockHeader Database.
From S2P Require Import Supply Votes Ledger Rewards Comments Cashout Genesis Transfers Market Inflation Escrow.
From S2P Require Import EscrowSpec Vesting Frames Proxies Delegations Accounts WitnessSchedule Soundness Hardforks.
From S2P Require Import SignState Mining Operations.

Inductive follow_type : Type := undefined | blog | ignore.
Definition blog_bit : Z := 2.
Definition ignore_bit : Z := 4.
Record follow_count_object := FollowCount { follower_count : Z; following_count : Z }.
Record feed_object := Feed {
  feed_reblogged_by : list string; feed_first_reblogged_by : string; feed_first_reblogged_on : Z;
  feed_reblogs : Z; account_feed_id : Z }.
Record blog_object := Blog { blog_reblogged_on : Z; blog_feed_id : Z }.
(** The tables, by a unique key: follower and following, comment and account,
    blogger and guest. *)
Record social := Social {
  follows : gmap (string * string) Z;
  follow_counts : gmap string follow_count_object;
  feeds : gmap (Z * string) feed_object;
  blogs : gmap (Z * string) blog_object;
  blog_author_stats : gmap (string * string) Z;
  reputations : gmap string Z }.
Definition set_follows (m : gmap (string * string) Z) (s : social) : social :=
  Social m (follow_counts s) (feeds s) (blogs s) (blog_author_stats s) (reputations s).
Definition set_follow_counts (m : gmap string follow_count_object) (s : social) : social :=
  Social (follows s) m (feeds s) (blogs s) (blog_author_stats s) (reputations s).
Definition set_feeds (m : gmap (Z * string) feed_object) (s : social) : social :=
  Social (follows s) (follow_counts s) m (blogs s) (blog_author_stats s) (reputations s).
Definition set_blogs (m : gmap (Z * string) blog_object) (s : social) : social :=
  Social (follows s) (follow_counts s) (feeds s) m (blog_author_stats s) (reputations s).
Definition set_blog_author_stats (m : gmap (string * string) Z) (s : social) : social :=
  Social (follows s) (follow_counts s) (feeds s) (blogs s) m (reputations s).
Definition set_reputations (m : gmap string Z) (s : social) : social :=
  Social (follows s) (follow_counts s) (feeds s) (blogs s) (blog_author_stats s) m.

Record follow_operation := FollowOp { fo_follower : string; fo_following : string; fo_what : list string }.
Record reblog_operation := ReblogOp { rb_account : string; rb_author : string; rb_permlink : string }.
Definition follow_validate (o : follow_operation) : result unit :=
  FC_ASSERT (negb (bool_decide (fo_follower o = fo_following o))) "You cannot follow yourself".
Definition reblog_validate (o : reblog_operation) : result unit :=
  FC_ASSERT (negb (bool_decide (rb_account o = rb_author o))) "You cannot reblog your own content".

(** ** Following *)
Definition follow_type_map (target : string) : follow_type :=
  if bool_decide (target = "blog"%string) then blog
  else if bool_decide (target = "ignore"%string) then ignore else undefined.
Definition what_bits (targets : list string) : Z :=
  foldl (λ what target, match follow_type_map target with
                        | blog => Z.lor what blog_bit
                        | ignore => Z.lor what ignore_bit
                        | undefined => what
                        end) 0 targets.
Definition follows_blog (what : Z) : bool := negb (Z.land what blog_bit =? 0).
Definition is_following (targets : list string) : bool :=
  existsb (λ target, match follow_type_map target with blog => true | _ => false end) targets.
Definition adjust_count (was now : bool) (count : Z) : Z :=
  let count := if was then to_uint32 (count - 1) else count in
  if now then to_uint32 (count + 1) else count.
Definition count_follower (name : string) (was now : bool) (m : gmap string follow_count_object)
    : gmap string follow_count_object :=
  match m !! name with
  | None => <[name := FollowCount (if now then 1 else 0) 0]> m
  | Some c => <[name := FollowCount (adjust_count was now (follower_count c)) (following_count c)]> m
  end.
Definition count_following (name : string) (was now : bool) (m : gmap string follow_count_object)
    : gmap string follow_count_object :=
  match m !! name with
  | None => <[name := FollowCount 0 (if now then 1 else 0)]> m
  | Some c => <[name := FollowCount (follower_count c) (adjust_count was now (following_count c))]> m
  end.
Definition follow_evaluator (o : follow_operation) : M social unit :=
  itr ← gets (λ s, follows s !! (fo_follower o, fo_following o));
  let what := what_bits (fo_what o) in
  let now := is_following (fo_what o) in
  assert (implb (negb (Z.land what ignore_bit =? 0)) (Z.land what blog_bit =? 0))
    "Cannot follow blog and ignore author at the same time";;
  let was := match itr with Some old => follows_blog old | None => false end in
  update (λ s, set_follows (<[(fo_follower o, fo_following o) := what]> (follows s)) s);;
  update (λ s, set_follow_counts (count_following (fo_follower o) was now (follow_counts s)) s);;
  update (λ s, set_follow_counts (count_follower (fo_following o) was now (follow_counts s)) s).

(** ** Feeds and blogs: numbered entries of an account, one per comment *)
Section entries.
Context {V : Type} (seq : V → Z).
#[local] Notation entries := (gmap (Z * string) V).

Definition entries_of (account : string) (m : entries) : list (Z * string * V) :=
  filter (λ e, e.1.2 = account) (map_to_list m).
Definition entry_ids (account : string) (m : entries) : list Z := (λ e, seq e.2) <$> entries_of account m.
Definition next_entry_id (account : string) (m : entries) : Z :=
  match entry_ids account m with
  | [] => 0
  | i :: l => to_uint32 (foldr Z.max i l + 1)
  end.
(** [create]: the comment and the account, and the account and the number, are
    unique. *)
Definition create_entry (comment : Z) (account : string) (v : V) (m : entries) : result entries :=
  if bool_decide (is_Some (m !! (comment, account)) ∨ seq v ∈ entry_ids account m) then Throw uniqueness_error
  else Ok (<[(comment, account) := v]> m).
Definition oldest_entry (account : string) (m : entries) : option (Z * string * V) :=
  head (sort_by (λ x y, seq x.2 <=? seq y.2) (entries_of account m)).
(** Entries too far behind the next number are removed, the oldest first: at
    most one round for each. *)
Fixpoint prune (rounds : nat) (account : string) (next_id max_size : Z) (m : entries) : entries :=
  match rounds with
  | O => m
  | S rounds' =>
      match oldest_entry account m with
      | Some (k, v) =>
          if max_size <? to_uint32 (next_id - seq v) then prune rounds' account next_id max_size (delete k m) else m
      | None => m
      end
  end.
Definition prune_entries (account : string) (next_id max_size : Z) (m : entries) : entries :=
  prune (length (entries_of account m)) account next_id max_size m.
(** The entries of a comment are removed with it. *)
Definition remove_comment (comment : Z) (m : entries) : entries := filter (λ e, e.1.1 ≠ comment) m.
End entries.

Section operations.
Context {F : Fc} {P : Plugins}.
Context (max_feed_size start_feeds : Z).

(** The accounts that follow the blog of [name], in the order of their names. *)
Definition blog_followers (name : string) (s : social) : list string :=
  (λ e, e.1.1) <$> sort_by (λ x y, String.leb x.1.1 y.1.1)
    (filter (λ e, e.1.2 = name ∧ follows_blog e.2 = true) (map_to_list (follows s))).

Definition update_feeds (f : gmap (Z * string) feed_object → result (gmap (Z * string) feed_object)) : M social unit :=
  m ← gets feeds; m' ← lift (f m); update (set_feeds m').
Definition update_blogs (f : gmap (Z * string) blog_object → result (gmap (Z * string) blog_object)) : M social unit :=
  m ← gets blogs; m' ← lift (f m); update (set_blogs m').

(** A post in the feed of a follower. *)
Definition feed_post (comment : Z) (follower : string) (m : gmap (Z * string) feed_object)
    : result (gmap (Z * string) feed_object) :=
  let next_id := next_entry_id account_feed_id follower m in
  match m !! (comment, follower) with
  | None =>
      m' ← create_entry account_feed_id comment follower (Feed [] EmptyString 0 0 next_id) m;
      mret (prune_entries account_feed_id follower next_id max_feed_size m')
  | Some _ => mret m
  end.
(** A post that [account] has reblogged. *)
Definition feed_reblog (now comment : Z) (account follower : string) (m : gmap (Z * string) feed_object)
    : result (gmap (Z * string) feed_object) :=
  let next_id := next_entry_id account_feed_id follower m in
  m' ← match m !! (comment, follower) with
       | None => create_entry account_feed_id comment follower (Feed [account] account now 1 next_id) m
       | Some f =>
           mret (<[(comment, follower) :=
             Feed (feed_reblogged_by f ++ [account]) (feed_first_reblogged_by f) (feed_first_reblogged_on f)
               (to_uint32 (feed_reblogs f + 1)) (account_feed_id f)]> m)
       end;
  mret (prune_entries account_feed_id follower next_id max_feed_size m').
Definition comment_of (db : database) (author permlink : string) : result comment_object :=
  x ← get_comment author permlink db; mret x.1.

Definition reblog_evaluator (db : database) (o : reblog_operation) : M social unit :=
  c ← lift (comment_of db (rb_author o) (rb_permlink o));
  assert (bool_decide (com_parent_author c = EmptyString)) "Only top level posts can be reblogged";;
  m ← gets blogs;
  let next_blog_id := next_entry_id blog_feed_id (rb_account o) m in
  assert (bool_decide (m !! (com_id c, rb_account o) = None)) "Account has already reblogged this post";;
  update_blogs (create_entry blog_feed_id (com_id c) (rb_account o) (Blog (gpo_time (db_gpo db)) next_blog_id));;
  update (λ s, set_blog_author_stats
    (<[(rb_account o, com_author c) :=
       match blog_author_stats s !! (rb_account o, com_author c) with Some n => to_uint32 (n + 1) | None => 1 end]>
     (blog_author_stats s)) s);;
  when (start_feeds <=? gpo_time (db_gpo db))
    (followers ← gets (blog_followers (rb_account o));
     for_each followers (λ follower,
       update_feeds (feed_reblog (gpo_time (db_gpo db)) (com_id c) (rb_account o) follower))).

(** ** What the plugin does before and after an operation *)
Definition pre_vote (db : database) (op : vote_operation) : M social unit := λ s,
  match (c ← comment_of db (vt_author op) (vt_permlink op);
         if calculate_discussion_payout_time c =? time_max then mret s
         else
           voter ← get_account (vt_voter op) db;
           match find_row (λ cv, (cv_comment cv =? com_id c) && (cv_voter cv =? acc_id voter.1)) db,
                 reputations s !! vt_author op with
           | Some cv, Some rep =>
               r ← safe_sub rep (Z.shiftr (cv_rshares cv) 6);
               mret (set_reputations (<[vt_author op := r]> (reputations s)) s)
           | _, _ => mret s
           end) with
  | Ok s' => Ok (tt, s')
  | Throw _ => Ok (tt, s)
  end.
Definition pre_delete_comment (db : database) (op : delete_comment_operation) : M social unit :=
  match find_row (by_permlink (dc_author op) (dc_permlink op)) db with
  | None => mret tt
  | Some c =>
      if bool_decide (com_parent_author c = EmptyString) then
        update (λ s, set_feeds (remove_comment (com_id c) (feeds s)) s);;
        update (λ s, set_blogs (remove_comment (com_id c) (blogs s)) s)
      else mret tt
  end.
Definition post_comment (db : database) (op : comment_operation) : M social unit :=
  if bool_decide (cm_parent_author op = EmptyString) then
    c ← lift (comment_of db (cm_author op) (cm_permlink op));
    if com_created c =? gpo_time (db_gpo db) then
      when (start_feeds <=? gpo_time (db_gpo db))
        (followers ← gets (blog_followers (cm_author op));
         for_each followers (λ follower, update_feeds (feed_post (com_id c) follower)));;
      m ← gets blogs;
      let next_id := next_entry_id blog_feed_id (cm_author op) m in
      match m !! (com_id c, cm_author op) with
      | None =>
          update_blogs (λ m, m' ← create_entry blog_feed_id (com_id c) (cm_author op) (Blog 0 next_id) m;
                             mret (prune_entries blog_feed_id (cm_author op) next_id max_feed_size m'))
      | Some _ => mret tt
      end
    else mret tt
  else mret tt.
Definition post_vote (db : database) (op : vote_operation) : M social unit :=
  c ← lift (comment_of db (vt_author op) (vt_permlink op));
  if calculate_discussion_payout_time c =? time_max then mret tt
  else
    voter ← lift (get_account (vt_voter op) db);
    reps ← gets reputations;
    let voter_rep := reps !! vt_voter op in
    if match voter_rep with Some r => r <? 0 | None => false end then mret tt
    else
      cv ← lift (match find_row (λ cv, (cv_comment cv =? com_id c) && (cv_voter cv =? acc_id voter.1)) db with
                 | Some cv => Ok cv
                 | None => Throw out_of_range
                 end);
      let author_rep := reps !! vt_author op in
      let above := match voter_rep with Some r => default 0 author_rep <? r | None => false end in
      if (cv_rshares cv <? 0) && negb above then mret tt
      else
        r ← lift (match author_rep with
                  | None => Ok (Z.shiftr (cv_rshares cv) 6)
                  | Some rep => safe_add rep (Z.shiftr (cv_rshares cv) 6)
                  end);
        update (λ s, set_reputations (<[vt_author op := r]> (reputations s)) s).
(** A failed assertion only counts while the node takes transactions from its
    users. *)
Definition tolerant (m : M social unit) : M social unit := λ s,
  match m s with
  | Throw (assert_exception msg) => if is_producing then Throw (assert_exception msg) else Ok (tt, s)
  | r => r
  end.
Definition pre_operation (db : database) (op : operation) : M social unit :=
  tolerant (match op with
            | op_vote o => pre_vote db o
            | op_delete_comment o => pre_delete_comment db o
            | _ => mret tt
            end).
Definition post_operation (db : database) (op : operation) : M social unit :=
  tolerant (match op with
            | op_comment o => post_comment db o
            | op_vote o => post_vote db o
            | _ => mret tt
            end).
End operations.

(** ** Counting the entries of a table *)
Section rows_with.
Context {KT : Type} `{Countable KT} {V : Type} (Pr : KT * V → bool).

Definition rows_with (m : gmap KT V) : Z := Z.of_nat (size (filter (λ e, Pr e = true) m)).
Lemma rows_with_range m : 0 ≤ rows_with m ≤ Z.of_nat (size m).
Proof.
  unfold rows_with. split; [lia|]. apply Nat2Z.inj_le. rewrite <- !(size_dom (D := gset KT)).
  apply subseteq_size, subseteq_dom, map_filter_subseteq.
Qed.
Lemma rows_with_delete k m :
  rows_with (delete k m) = rows_with m - match m !! k with Some w => Z.b2z (Pr (k, w)) | None => 0 end.
Proof.
  unfold rows_with. rewrite map_filter_delete, map_size_delete. destruct (m !! k) as [w|] eqn:Ek.
  - destruct (Pr (k, w)) eqn:Ep.
    + rewrite (proj2 (map_lookup_filter_Some _ m k w)) by done.
      assert (size (filter (λ e, Pr e = true) m) ≠ 0%nat) as Hne.
      { intros E0%map_size_empty_inv. assert (filter (λ e, Pr e = true) m !! k = Some w) as El by (by apply map_lookup_filter_Some).
        by rewrite E0, lookup_empty in El. }
      cbn [Z.b2z]. lia.
    + rewrite (proj2 (map_lookup_filter_None _ m k)) by (right; intros x Hx; simplify_eq; by rewrite Ep). cbn [Z.b2z id]. lia.
  - rewrite (proj2 (map_lookup_filter_None _ m k)) by by left. cbn [id]. lia.
Qed.
Lemma rows_with_insert k w m :
  rows_with (<[k := w]> m) =
    rows_with m - match m !! k with Some w => Z.b2z (Pr (k, w)) | None => 0 end + Z.b2z (Pr (k, w)).
Proof.
  rewrite <- rows_with_delete. rewrite <- (insert_delete_eq m k w). unfold rows_with at 1. rewrite map_filter_insert.
  destruct (decide _) as [Ep|Ep].
  - rewrite map_size_insert_None by (apply map_lookup_filter_None; left; apply lookup_delete_eq).
    unfold rows_with. rewrite Ep. cbn [Z.b2z]. lia.
  - rewrite delete_delete_eq. fold (rows_with (delete k m)). destruct (Pr (k, w)); [done|]. cbn [Z.b2z]. lia.
Qed.
End rows_with.

(** ** The numbers of followers *)
Definition is_follower (name : string) (e : string * string * Z) : bool :=
  bool_decide (e.1.2 = name) && follows_blog e.2.
Definition is_followed (name : string) (e : string * string * Z) : bool :=
  bool_decide (e.1.1 = name) && follows_blog e.2.
Definition exact (m : gmap string follow_count_object) (followers following : string → Z) : Prop :=
  ∀ n, match m !! n with
       | Some c => follower_count c = followers n ∧ following_count c = following n
       | None => followers n = 0 ∧ following n = 0
       end.
Definition counts_exact (s : social) : Prop :=
  exact (follow_counts s) (λ n, rows_with (is_follower n) (follows s)) (λ n, rows_with (is_followed n) (follows s)).

Lemma follows_blog_bit what : follows_blog what = Z.testbit what 1.
Proof.
  unfold follows_blog, blog_bit. assert (Z.land what 2 = if Z.testbit what 1 then 2 else 0) as ->; [|by destruct (Z.testbit what 1)].
  apply Z.bits_inj'. intros n Hn. rewrite Z.land_spec. change 2 with (2 ^ 1) at 1. rewrite Z.pow2_bits_eqb by lia.
  destruct (Z.eqb_spec 1 n) as [<-|Hne].
  - rewrite andb_true_r. by destruct (Z.testbit what 1).
  - rewrite andb_false_r. destruct (Z.testbit what 1); [|by rewrite Z.bits_0]. change 2 with (2 ^ 1).
    rewrite Z.pow2_bits_eqb by lia. by rewrite (proj2 (Z.eqb_neq _ _)).
Qed.
Lemma what_bits_blog targets : follows_blog (what_bits targets) = is_following targets.
Proof.
  unfold what_bits, is_following. rewrite follows_blog_bit.
  transitivity (Z.testbit 0 1 || existsb (λ t, match follow_type_map t with blog => true | _ => false end) targets); [|done].
  generalize 0. induction targets as [|t l IH]; intros w; cbn [foldl existsb]; [by rewrite orb_false_r|]. rewrite IH.
  destruct (follow_type_map t); rewrite ?Z.lor_spec; [done| |].
  - change (Z.testbit blog_bit 1) with true. by destruct (Z.testbit w 1).
  - change (Z.testbit ignore_bit 1) with false. by destruct (Z.testbit w 1).
Qed.
Definition shift_at (name : string) (was now : bool) (f : string → Z) (n : string) : Z :=
  if bool_decide (n = name) then f n - Z.b2z was + Z.b2z now else f n.
Lemma adjust_count_ok was now c : Z.b2z was ≤ c < U32 → c - Z.b2z was + Z.b2z now < U32 →
  adjust_count was now c = c - Z.b2z was + Z.b2z now.
Proof.
  intros H1 H2. unfold adjust_count, to_uint32. destruct was, now; cbn [Z.b2z] in *; rewrite ?Z.mod_small; try lia.
  rewrite Z.mod_small; lia.
Qed.
Lemma count_following_exact name was now m fr fg :
  exact m fr fg → Z.b2z was ≤ fg name < U32 → fg name - Z.b2z was + Z.b2z now < U32 →
  exact (count_following name was now m) fr (shift_at name was now fg).
Proof.
  intros Hm H1 H2 n. unfold count_following, shift_at. pose proof (Hm name) as Hn. case_bool_decide as En; [subst n|].
  - destruct (m !! name) as [c|]; rewrite lookup_insert_eq; cbn [follower_count following_count]; destruct Hn as [E1 E2].
    + split; [done|]. rewrite <- E2 in *. apply adjust_count_ok; lia.
    + split; [done|]. rewrite E2 in *. destruct was; cbn [Z.b2z] in *; [lia|]. by destruct now.
  - specialize (Hm n). destruct (m !! name); by rewrite lookup_insert_ne.
Qed.
Lemma count_follower_exact name was now m fr fg :
  exact m fr fg → Z.b2z was ≤ fr name < U32 → fr name - Z.b2z was + Z.b2z now < U32 →
  exact (count_follower name was now m) (shift_at name was now fr) fg.
Proof.
  intros Hm H1 H2 n. unfold count_follower, shift_at. pose proof (Hm name) as Hn. case_bool_decide as En; [subst n|].
  - destruct (m !! name) as [c|]; rewrite lookup_insert_eq; cbn [follower_count following_count]; destruct Hn as [E1 E2].
    + split; [|done]. rewrite <- E1 in *. apply adjust_count_ok; lia.
    + split; [|done]. rewrite E1 in *. destruct was; cbn [Z.b2z] in *; [lia|]. by destruct now.
  - specialize (Hm n). destruct (m !! name); by rewrite lookup_insert_ne.
Qed.
Lemma exact_ext m fr fg fr' fg' : exact m fr fg → (∀ n, fr n = fr' n) → (∀ n, fg n = fg' n) → exact m fr' fg'.
Proof. intros H E1 E2 n. rewrite <- E1, <- E2. apply H. Qed.

Lemma rows_with_shift (pr : string → string * string * Z → bool) (part : string * string → string) k what name m :
  (∀ n w, pr n (k, w) = bool_decide (part k = n) && follows_blog w) → part k = name →
  let was := match m !! k with Some old => follows_blog old | None => false end in
  (∀ n, rows_with (pr n) (<[k := what]> m) = shift_at name was (follows_blog what) (λ n, rows_with (pr n) m) n) ∧
  Z.b2z was ≤ rows_with (pr name) m.
Proof.
  intros Hpr <-. cbn zeta. split.
  - intros n. rewrite rows_with_insert, Hpr. unfold shift_at. rewrite (bool_decide_ext (n = part k) (part k = n)) by done.
    destruct (m !! k) as [w|]; rewrite ?Hpr; case_bool_decide; cbn [andb Z.b2z]; lia.
  - pose proof (rows_with_delete (pr (part k)) k m) as Hd. pose proof (rows_with_range (pr (part k)) (delete k m)).
    destruct (m !! k) as [w|]; cbn [Z.b2z]; [|lia]. rewrite Hpr, bool_decide_eq_true_2 in Hd by done. cbn [andb] in Hd. lia.
Qed.
Lemma follow_evaluator_exact o s s' :
  counts_exact s → Z.of_nat (size (follows s)) + 1 < U32 → follow_evaluator o s = Ok (tt, s') →
  counts_exact s' ∧ follows s' = <[(fo_follower o, fo_following o) := what_bits (fo_what o)]> (follows s).
Proof.
  intros Hs Hsize H. unfold follow_evaluator, update, gets in H.
  apply bind_ok in H as (itr & s1 & [= <- <-] & H). apply bind_ok in H as ([] & s1 & [_ ->]%assert_ok & H).
  apply bind_ok in H as ([] & s1 & [= <-] & H). apply bind_ok in H as ([] & s2 & [= <-] & [= <-]).
  cbn [follows follow_counts set_follows set_follow_counts]. split; [|done].
  set (k := (fo_follower o, fo_following o)). rewrite <- what_bits_blog. set (what := what_bits (fo_what o)).
  destruct (rows_with_shift is_follower snd k what (fo_following o) (follows s)) as [Eg Hg]; [done..|].
  destruct (rows_with_shift is_followed fst k what (fo_follower o) (follows s)) as [Ef Hf]; [done..|].
  cbn zeta in *. set (was := match follows s !! k with Some old => follows_blog old | None => false end) in *.
  pose proof (rows_with_range (is_follower (fo_following o)) (follows s)).
  pose proof (rows_with_range (is_followed (fo_follower o)) (follows s)).
  eapply exact_ext; [apply count_follower_exact; [apply count_following_exact; [exact Hs|..]|..]| |].
  - cbn beta. lia.
  - cbn beta. destruct was, (follows_blog what); cbn [Z.b2z] in *; lia.
  - cbn beta. lia.
  - cbn beta. destruct was, (follows_blog what); cbn [Z.b2z] in *; lia.
  - intros n. cbn beta. symmetry. apply Eg.
  - intros n. cbn beta. symmetry. apply Ef.
Qed.

(** ** Bounded feeds *)
Section bounded.
Context {V : Type} (seq : V → Z) (max_size : Z) (Hmax : 0 ≤ max_size).
#[local] Notation entries := (gmap (Z * string) V).

Lemma elem_of_entries (account : string) (m : entries) (k : Z * string) (v : V) : (k, v) ∈ entries_of account m ↔ m !! k = Some v ∧ k.2 = account.
Proof. unfold entries_of. rewrite list_elem_of_filter, elem_of_map_to_list. naive_solver. Qed.
Lemma elem_of_entry_ids (account : string) (m : entries) (i : Z) : i ∈ entry_ids seq account m ↔ ∃ c v, m !! (c, account) = Some v ∧ seq v = i.
Proof.
  unfold entry_ids. rewrite list_elem_of_fmap. split.
  - intros ([[c a] v] & -> & [H1 H2]%elem_of_entries). cbn in H2. subst a. by exists c, v.
  - intros (c & v & H & <-). exists ((c, account), v). split; [done|]. by apply elem_of_entries.
Qed.
(** The numbers of an account are distinct, up to [top], and within the size of
    the feed of each other. *)
Definition feed_ok (top : Z) (account : string) (m : entries) : Prop :=
  (∀ c1 c2 v1 v2, m !! (c1, account) = Some v1 → m !! (c2, account) = Some v2 → seq v1 = seq v2 → c1 = c2) ∧
  (∀ c v, m !! (c, account) = Some v → 0 ≤ seq v ≤ top) ∧
  (∀ c1 c2 v1 v2, m !! (c1, account) = Some v1 → m !! (c2, account) = Some v2 → seq v1 - seq v2 ≤ max_size).
Lemma feed_size (top : Z) (account : string) (m : entries) : feed_ok top account m → Z.of_nat (length (entries_of account m)) ≤ max_size + 1.
Proof.
  intros (Hinj & _ & Hnear). rewrite <- (length_fmap (λ e, seq e.2)).
  fold (entry_ids seq account m). assert (NoDup (entry_ids seq account m)) as Hnd.
  { unfold entry_ids. apply NoDup_fmap_2_strong; [|apply NoDup_filter, NoDup_map_to_list].
    intros [[c1 a1] v1] [[c2 a2] v2] [H1 E1]%elem_of_entries [H2 E2]%elem_of_entries Hseq. cbn in *. subst a1 a2.
    pose proof (Hinj _ _ _ _ H1 H2 Hseq) as ->. rewrite H1 in H2. by injection H2 as ->. }
  destruct (entry_ids seq account m) as [|i l] eqn:El; [cbn; lia|].
  set (top' := foldr Z.max i l).
  destruct (foldr_max_ge i l) as [Hge1 Hge2].
  assert (∀ x, x ∈ i :: l → x ≤ top') as Htop by (intros x [->|Hx]%elem_of_cons; [done|by apply Hge2]).
  assert (top' ∈ i :: l) as Hin by (destruct (foldr_max_in i l) as [E|E]; unfold top'; [rewrite E; left|by right]).
  assert (∀ x, x ∈ i :: l → x ∈ seqZ (top' - max_size) (max_size + 1)) as Hsub.
  { intros x Hx. apply elem_of_seqZ. pose proof (Htop x Hx). rewrite <- El in Hx, Hin.
    apply elem_of_entry_ids in Hx as (c1 & v1 & H1 & E1). apply elem_of_entry_ids in Hin as (c2 & v2 & H2 & E2).
    pose proof (Hnear _ _ _ _ H2 H1). lia. }
  pose proof (submseteq_length _ _ (NoDup_submseteq _ _ Hnd Hsub)) as Hlen. rewrite length_seqZ in Hlen. lia.
Qed.

Lemma oldest_entry_ok (account : string) (m : entries) :
  match oldest_entry seq account m with
  | Some (k, v) => (k, v) ∈ entries_of account m ∧ ∀ k' v', (k', v') ∈ entries_of account m → seq v ≤ seq v'
  | None => entries_of account m = []
  end.
Proof.
  unfold oldest_entry. set (leb := λ x y : Z * string * V, seq x.2 <=? seq y.2).
  assert (∀ x, x ∈ sort_by leb (entries_of account m) ↔ x ∈ entries_of account m) as Hin by apply sort_by_elem.
  assert (StronglySorted (brel leb) (sort_by leb (entries_of account m))) as Hs.
  { apply Sorted_StronglySorted; [|apply sort_by_sorted; intros x y; unfold leb; lia].
    intros x y z. unfold brel, leb. rewrite !Is_true_true. lia. }
  destruct (sort_by leb (entries_of account m)) as [|[k v] l] eqn:E; cbn [head].
  - destruct (entries_of account m) as [|x l]; [done|]. assert (x ∈ []) as []%elem_of_nil by (apply Hin; left).
  - split; [apply Hin; left|]. intros k' v' Hk'. apply Hin in Hk'. inversion Hs as [|? ? _ Hall]; subst.
    apply elem_of_cons in Hk' as [[= -> ->]|Hk']; [done|]. rewrite Forall_forall in Hall. apply Hall in Hk'.
    unfold brel, leb in Hk'. apply Is_true_true in Hk'. cbn in Hk'. lia.
Qed.
Lemma prune_ok (rounds : nat) (account : string) (next : Z) (m : entries) :
  (∀ c v, m !! (c, account) = Some v → 0 ≤ seq v ≤ next) → next < U32 →
  (length (entries_of account m) ≤ rounds)%nat →
  ∀ k v, prune seq rounds account next max_size m !! k = Some v ↔
    m !! k = Some v ∧ (k.2 = account → next - seq v ≤ max_size).
Proof.
  intros Hr Hn. revert m Hr. induction rounds as [|r IH]; intros m Hr Hlen k v; cbn [prune].
  - split; [|by intros []]. intros Hk. split; [done|]. intros Ha.
    assert ((k, v) ∈ entries_of account m) as Hin by (by apply elem_of_entries).
    destruct (entries_of account m); [by apply elem_of_nil in Hin|cbn in Hlen; lia].
  - pose proof (oldest_entry_ok account m) as Ho. destruct (oldest_entry seq account m) as [[k0 v0]|].
    + destruct Ho as [Hin Hmin]. apply elem_of_entries in Hin as [H0 Ha0]. destruct k0 as [c0 a0]. cbn in Ha0. subst a0.
      pose proof (Hr _ _ H0). assert (to_uint32 (next - seq v0) = next - seq v0) as -> by (apply Z.mod_small; lia).
      destruct (max_size <? next - seq v0) eqn:Ec.
      * rewrite IH.
        -- rewrite lookup_delete_Some. split; [naive_solver|]. intros [Hk Hnear]. split_and!; [|done..]. intros <-.
           rewrite H0 in Hk. injection Hk as <-. specialize (Hnear eq_refl). lia.
        -- intros c w [_ Hw]%lookup_delete_Some. by eapply Hr.
        -- enough (S (length (entries_of account (delete (c0, account) m))) = length (entries_of account m)) by lia.
           unfold entries_of. rewrite <- (map_to_list_delete m _ _ H0). rewrite filter_cons_True by done. done.
      * split; [|by intros []]. intros Hk. split; [done|]. intros Ha.
        pose proof (Hmin k v ltac:(by apply elem_of_entries)). lia.
    + split; [|by intros []]. intros Hk. split; [done|]. intros Ha.
      assert ((k, v) ∈ entries_of account m) as Hin by (by apply elem_of_entries). rewrite Ho in Hin. by apply elem_of_nil in Hin.
Qed.
(** The next number is above those of the account. *)
Lemma next_entry_id_ok (top : Z) (account : string) (m : entries) :
  feed_ok top account m → 0 ≤ top → top + 1 < U32 →
  0 ≤ next_entry_id seq account m ≤ top + 1 ∧
  ∀ c v, m !! (c, account) = Some v → seq v < next_entry_id seq account m.
Proof.
  intros (_ & Hr & _) H0 Htop. unfold next_entry_id.
  assert (∀ i, i ∈ entry_ids seq account m → 0 ≤ i ≤ top) as Hin.
  { intros i (c & v & H & <-)%elem_of_entry_ids. by eapply Hr. }
  assert (∀ c v, m !! (c, account) = Some v → seq v ∈ entry_ids seq account m) as Hids.
  { intros c v H. apply elem_of_entry_ids. by exists c, v. }
  destruct (entry_ids seq account m) as [|i l].
  - split; [lia|]. intros c v H. by apply Hids, elem_of_nil in H.
  - destruct (foldr_max_ge i l) as [H1 H2]. assert (0 ≤ foldr Z.max i l ≤ top) as H3.
    { destruct (foldr_max_in i l) as [->|H]; apply Hin; [left|by right]. }
    unfold to_uint32. rewrite Z.mod_small by lia. split; [lia|].
    intros c v [E|H]%Hids%elem_of_cons; [lia|]. specialize (H2 _ H). lia.
Qed.
Lemma pruned_ok (top next : Z) (account a : string) (m : entries) :
  (∀ c1 c2 v1 v2, m !! (c1, a) = Some v1 → m !! (c2, a) = Some v2 → seq v1 = seq v2 → c1 = c2) →
  (∀ c v, m !! (c, account) = Some v → 0 ≤ seq v ≤ next) → next < U32 → next ≤ top →
  (a ≠ account → feed_ok top a m) → feed_ok top a (prune_entries seq account next max_size m).
Proof.
  intros Hinj Hr Hn Htop Hother. pose proof (prune_ok _ account next m Hr Hn (Nat.le_refl _)) as Hp.
  fold (prune_entries seq account next max_size m) in Hp.
  split_and!.
  - intros c1 c2 v1 v2 [H1 _]%Hp [H2 _]%Hp. by apply Hinj.
  - intros c v [H1 _]%Hp. destruct (decide (a = account)) as [->|Hne]; [specialize (Hr _ _ H1); lia|].
    by eapply (Hother Hne).
  - intros c1 c2 v1 v2 [H1 N1]%Hp [H2 N2]%Hp. destruct (decide (a = account)) as [->|Hne]; [|by eapply (Hother Hne)].
    specialize (N2 eq_refl). pose proof (Hr _ _ H1). lia.
Qed.
End bounded.

Section feeds.
Context {F : Fc} {P : Plugins} (max_feed_size start_feeds : Z) (Hmax : 0 ≤ max_feed_size).
Definition feeds_ok (top : Z) (m : gmap (Z * string) feed_object) : Prop :=
  ∀ a, feed_ok account_feed_id max_feed_size top a m.

Lemma feeds_ok_mono top top' m : feeds_ok top m → top ≤ top' → feeds_ok top' m.
Proof.
  intros H Hle a. destruct (H a) as (H1 & H2 & H3). split_and!; [done| |done]. intros c v Hv. specialize (H2 _ _ Hv). lia.
Qed.
(** A new entry with the next number, or an entry that keeps its number. *)
Lemma insert_pruned (top : Z) (follower : string) (comment : Z) (f : feed_object) (m : gmap (Z * string) feed_object) :
  feeds_ok top m → 0 ≤ top → top + 1 < U32 →
  let next := next_entry_id account_feed_id follower m in
  match m !! (comment, follower) with
  | Some f0 => account_feed_id f = account_feed_id f0
  | None => account_feed_id f = next
  end →
  feeds_ok (top + 1) (prune_entries account_feed_id follower next max_feed_size (<[(comment, follower) := f]> m)).
Proof.
  intros Hm H0 Htop next Hf a.
  destruct (next_entry_id_ok account_feed_id max_feed_size top follower m (Hm follower) H0 Htop) as [Hn Habove].
  fold next in Hn, Habove. destruct (Hm a) as (Hinj & Hr & Hnear).
  apply pruned_ok; [| |lia|lia|].
  - intros c1 c2 v1 v2. rewrite !lookup_insert_Some.
    assert (∀ c v, m !! (c, follower) = Some v → account_feed_id f = account_feed_id v → comment = c) as Hnew.
    { intros c v H E. destruct (m !! (comment, follower)) as [f0|] eqn:Ef.
      - destruct (Hm follower) as (Hinj' & _). eapply Hinj'; [done..|congruence].
      - specialize (Habove _ _ H). lia. }
    intros [[Ek1 Ev1]|[_ H1]] [[Ek2 Ev2]|[_ H2]] E; simplify_eq; [done| | |by eapply Hinj].
    + by eapply Hnew.
    + symmetry. by eapply Hnew.
  - intros c v. rewrite lookup_insert_Some. intros [[Ek Ev]|[_ H]]; simplify_eq.
    + destruct (m !! (c, follower)) as [f0|] eqn:Ef; [|lia]. pose proof (Habove _ _ Ef).
      destruct (Hm follower) as (_ & Hr' & _). specialize (Hr' _ _ Ef). lia.
    + specialize (Habove _ _ H). destruct (Hm follower) as (_ & Hr' & _). specialize (Hr' _ _ H). lia.
  - intros Hne. assert (∀ c, <[(comment, follower) := f]> m !! (c, a) = m !! (c, a)) as E
      by (intros c; apply lookup_insert_ne; congruence).
    split_and!; intros *; rewrite !E; [apply Hinj| |apply Hnear]. intros H. specialize (Hr _ _ H). lia.
Qed.
Lemma feed_post_ok top comment follower m m' :
  feeds_ok top m → 0 ≤ top → top + 1 < U32 → feed_post max_feed_size comment follower m = Ok m' → feeds_ok (top + 1) m'.
Proof.
  intros Hm H0 Htop. unfold feed_post. destruct (m !! (comment, follower)) as [f0|] eqn:Ef.
  - intros [= <-]. eapply feeds_ok_mono; [done|lia].
  - unfold create_entry. case_bool_decide; [done|]. intros [= <-]. apply insert_pruned; [done..|]. by rewrite Ef.
Qed.
Lemma feed_reblog_ok top now comment account follower m m' :
  feeds_ok top m → 0 ≤ top → top + 1 < U32 → feed_reblog max_feed_size now comment account follower m = Ok m' →
  feeds_ok (top + 1) m'.
Proof.
  intros Hm H0 Htop. unfold feed_reblog, create_entry. destruct (m !! (comment, follower)) as [f0|] eqn:Ef.
  - intros [= <-]. apply insert_pruned; [done..|]. by rewrite Ef.
  - case_bool_decide; [done|]. intros [= <-]. apply insert_pruned; [done..|]. by rewrite Ef.
Qed.
Lemma update_each_ok (f : string → gmap (Z * string) feed_object → result (gmap (Z * string) feed_object)) l top s s' :
  (∀ top x m m', feeds_ok top m → 0 ≤ top → top + 1 < U32 → f x m = Ok m' → feeds_ok (top + 1) m') →
  feeds_ok top (feeds s) → 0 ≤ top → top + Z.of_nat (length l) < U32 →
  for_each l (λ x, update_feeds (f x)) s = Ok (tt, s') → feeds_ok (top + Z.of_nat (length l)) (feeds s').
Proof.
  intros Hf. revert top s. induction l as [|x l IH]; intros top s Hs H0 Htop; cbn [for_each length] in *.
  - intros [= <-]. by rewrite Z.add_0_r.
  - intros ([] & s1 & H1 & H)%bind_ok. unfold update_feeds in H1. apply bind_ok in H1 as (m & s2 & [= <- <-] & H1).
    apply bind_ok in H1 as (m' & s2 & [Hm ->]%lift_ok & [= <-]).
    assert (feeds_ok (top + 1) m') as Hm' by (eapply Hf; [exact Hs|lia|lia|exact Hm]).
    replace (top + Z.of_nat (S (length l))) with (top + 1 + Z.of_nat (length l)) by lia.
    eapply IH; [|lia|lia|exact H]. exact Hm'.
Qed.
Lemma blog_followers_length name s : (length (blog_followers name s) ≤ size (follows s))%nat.
Proof.
  unfold blog_followers. rewrite length_fmap. rewrite (Permutation_length (sort_by_perm _ _)).
  rewrite <- (length_map_to_list (follows s)). apply length_filter.
Qed.

(** ** What an operation leaves alone *)
Definition SKeeps {A B} (obs : social → B) (m : M social A) : Prop := ∀ s a s', m s = Ok (a, s') → obs s' = obs s.
Lemma skeeps_bind {A C B} (obs : social → B) (m : M social A) (f : A → M social C) :
  SKeeps obs m → (∀ a, SKeeps obs (f a)) → SKeeps obs (m ≫= f).
Proof. intros H1 H2 s c s' (a & s1 & Hm & Hf)%bind_ok. by rewrite (H2 _ _ _ _ Hf), (H1 _ _ _ Hm). Qed.
Lemma skeeps_same {A B} (obs : social → B) (m : M social A) : (∀ s a s', m s = Ok (a, s') → s' = s) → SKeeps obs m.
Proof. intros H s a s' Hm. by rewrite (H _ _ _ Hm). Qed.
Lemma skeeps_ret {A B} (obs : social → B) (a : A) : SKeeps obs (mret a).
Proof. apply skeeps_same. by intros ??? [= _ <-]. Qed.
Lemma skeeps_gets {A B} (obs : social → B) (g : social → A) : SKeeps obs (gets g).
Proof. apply skeeps_same. by intros ??? [= _ <-]. Qed.
Lemma skeeps_lift {A B} (obs : social → B) (r : result A) : SKeeps obs (lift r).
Proof. apply skeeps_same. by intros ??? [_ ->]%lift_ok. Qed.
Lemma skeeps_assert {B} (obs : social → B) b msg : SKeeps obs (assert b msg).
Proof. apply skeeps_lift. Qed.
Lemma skeeps_update {B} (obs : social → B) g : (∀ s, obs (g s) = obs s) → SKeeps obs (update g).
Proof. intros H s a s' [= _ <-]. apply H. Qed.
Lemma skeeps_for_each {A B} (obs : social → B) (l : list A) f : (∀ x, SKeeps obs (f x)) → SKeeps obs (for_each l f).
Proof. intros H. induction l as [|x l IH]; cbn [for_each]; [apply skeeps_ret|]. by apply skeeps_bind. Qed.
Lemma skeeps_tolerant {B} (obs : social → B) m : SKeeps obs m → SKeeps obs (tolerant m).
Proof.
  intros H s a s'. unfold tolerant. destruct (m s) as [[b s1]|e] eqn:Em; [intros [= <- <-]; by eapply H|].
  destruct e; try done. destruct is_producing; [done|]. by intros [= _ <-].
Qed.
End feeds.
Ltac skeep :=
  repeat first
    [ apply skeeps_bind; [|intros ?] | apply skeeps_ret | apply skeeps_gets | apply skeeps_lift | apply skeeps_assert
    | apply skeeps_for_each; intros ? | apply skeeps_tolerant | apply skeeps_update; reflexivity
    | match goal with |- SKeeps _ (when ?b _) => destruct b; cbn [when] end
    | match goal with |- SKeeps _ (match ?x with _ => _ end) => destruct x end ].

Section steps.
Context {F : Fc} {P : Plugins} (max_feed_size start_feeds : Z) (db : database).

(** What an operation does to the tables of the plugin. *)
Inductive social_step : social → social → Prop :=
| step_follow o s s' : follow_evaluator o s = Ok (tt, s') → social_step s s'
| step_reblog o s s' : reblog_evaluator max_feed_size start_feeds db o s = Ok (tt, s') → social_step s s'
| step_pre op s s' : pre_operation db op s = Ok (tt, s') → social_step s s'
| step_post op s s' : post_operation max_feed_size start_feeds db op s = Ok (tt, s') → social_step s s'.

Definition graph (s : social) := (follows s, follow_counts s).
Lemma pre_vote_keeps {B} (obs : social → B) o :
  (∀ m s, obs (set_reputations m s) = obs s) → SKeeps obs (pre_vote db o).
Proof.
  intros Hobs s a s'. unfold pre_vote. destruct (_ ≫= _) as [s1|e] eqn:E; [|by intros [= _ <-]]. intros [= _ <-].
  apply rbind_ok in E as (c & _ & E). destruct (_ =? time_max); [by injection E as <-|].
  apply rbind_ok in E as (v & _ & E). destruct (find_row _ _); [|by injection E as <-].
  destruct (reputations s !! _); [|by injection E as <-]. apply rbind_ok in E as (r & _ & [= <-]). apply Hobs.
Qed.
Lemma pre_operation_graph op : SKeeps graph (pre_operation db op).
Proof.
  unfold pre_operation. apply skeeps_tolerant. destruct op; try apply skeeps_ret; [by apply pre_vote_keeps|].
  unfold pre_delete_comment. skeep.
Qed.
Lemma post_operation_graph op : SKeeps graph (post_operation max_feed_size start_feeds db op).
Proof.
  unfold post_operation, post_comment, post_vote, update_feeds, update_blogs. apply skeeps_tolerant.
  destruct op; try apply skeeps_ret; skeep.
Qed.
Lemma reblog_graph o : SKeeps graph (reblog_evaluator max_feed_size start_feeds db o).
Proof. unfold reblog_evaluator, update_feeds, update_blogs. skeep. Qed.

(** The feeds and who is followed. *)
Definition timeline (s : social) := (feeds s, follows s).
Context (Hmax : 0 ≤ max_feed_size).
#[local] Notation feeds_ok := (feeds_ok max_feed_size).

Lemma timeline_run {A} (m : M social A) s a s' : SKeeps timeline m → m s = Ok (a, s') → feeds s' = feeds s ∧ follows s' = follows s.
Proof. intros Hm H. by injection (Hm _ _ _ H). Qed.
Lemma feed_all_ok (f : string → gmap (Z * string) feed_object → result (gmap (Z * string) feed_object)) name top s s' :
  (∀ top x m m', feeds_ok top m → 0 ≤ top → top + 1 < U32 → f x m = Ok m' → feeds_ok (top + 1) m') →
  feeds_ok top (feeds s) → 0 ≤ top → top + Z.of_nat (size (follows s)) < U32 →
  when (start_feeds <=? gpo_time (db_gpo db))
    (followers ← gets (blog_followers name); for_each followers (λ x, update_feeds (f x))) s = Ok (tt, s') →
  feeds_ok (top + Z.of_nat (size (follows s))) (feeds s').
Proof.
  intros Hf Hs H0 Htop [[_ H]|[_ ->]]%when_ok; [|eapply feeds_ok_mono; [done|lia]].
  apply bind_ok in H as (l & s1 & [= <- <-] & H). pose proof (blog_followers_length name s).
  apply update_each_ok with (top := top) (max_feed_size := max_feed_size) in H; [|done..|lia].
  eapply feeds_ok_mono; [exact H|lia].
Qed.
Lemma reblog_feeds o top s s' :
  feeds_ok top (feeds s) → 0 ≤ top → top + Z.of_nat (size (follows s)) < U32 →
  reblog_evaluator max_feed_size start_feeds db o s = Ok (tt, s') → feeds_ok (top + Z.of_nat (size (follows s))) (feeds s').
Proof.
  intros Hs H0 Htop H. unfold reblog_evaluator in H. apply bind_ok in H as (c & s1 & [_ ->]%lift_ok & H).
  apply bind_ok in H as ([] & s1 & [_ ->]%assert_ok & H). apply bind_ok in H as (m & s1 & [= <- <-] & H).
  apply bind_ok in H as ([] & s1 & [_ ->]%assert_ok & H). apply bind_ok in H as ([] & s1 & H1 & H).
  apply bind_ok in H as ([] & s2 & H2 & H).
  apply timeline_run in H1 as [E1 E2]; [|unfold update_blogs; skeep]. apply timeline_run in H2 as [E3 E4]; [|skeep].
  rewrite <- E2, <- E4. rewrite <- E1, <- E3 in Hs. rewrite <- E2, <- E4 in Htop.
  eapply feed_all_ok; [|exact Hs|done|done|exact H]. intros. by eapply feed_reblog_ok.
Qed.
Lemma post_comment_feeds o top s s' :
  feeds_ok top (feeds s) → 0 ≤ top → top + Z.of_nat (size (follows s)) < U32 →
  post_comment max_feed_size start_feeds db o s = Ok (tt, s') → feeds_ok (top + Z.of_nat (size (follows s))) (feeds s').
Proof.
  intros Hs H0 Htop H. assert (feeds_ok (top + Z.of_nat (size (follows s))) (feeds s)) as Hsame by (eapply feeds_ok_mono; [done|lia]).
  unfold post_comment in H. destruct (bool_decide _); [|by injection H as <-].
  apply bind_ok in H as (c & s1 & [_ ->]%lift_ok & H). destruct (_ =? gpo_time _); [|by injection H as <-].
  apply bind_ok in H as ([] & s1 & H1 & H). apply feed_all_ok with (top := top) in H1; [|intros; by eapply feed_post_ok|done..].
  apply timeline_run in H as [-> _]; [done|]. unfold update_blogs. skeep.
Qed.
Lemma remove_comment_ok top comment m : feeds_ok top m → feeds_ok top (remove_comment comment m).
Proof.
  intros Hm a. destruct (Hm a) as (H1 & H2 & H3). unfold remove_comment.
  split_and!; intros *; rewrite !map_lookup_filter_Some; naive_solver.
Qed.
Lemma step_feeds top s s' :
  feeds_ok top (feeds s) → 0 ≤ top → top + Z.of_nat (size (follows s)) < U32 → social_step s s' →
  feeds_ok (top + Z.of_nat (size (follows s))) (feeds s').
Proof.
  intros Hs H0 Htop H. assert (feeds_ok (top + Z.of_nat (size (follows s))) (feeds s)) as Hsame by (eapply feeds_ok_mono; [done|lia]).
  destruct H as [o s s' H|o s s' H|op s s' H|op s s' H].
  - assert (feeds s' = feeds s) as ->; [|done].
    refine ((_ : SKeeps feeds (follow_evaluator o)) _ _ _ H). unfold follow_evaluator. skeep.
  - by eapply reblog_feeds.
  - unfold pre_operation, tolerant in H. destruct op; try by injection H as <-.
    + assert (feeds s' = feeds s) as ->; [|done].
      refine ((_ : SKeeps feeds (pre_operation db (op_vote o))) _ _ _ H).
      unfold pre_operation. apply skeeps_tolerant. by apply pre_vote_keeps.
    + unfold pre_delete_comment in H. destruct (find_row _ _) as [c|]; [|by injection H as <-].
      destruct (bool_decide _); injection H as <-; [|done]. cbn [feeds set_blogs set_feeds]. by apply remove_comment_ok.
  - unfold post_operation in H. destruct op; try by injection H as <-.
    + assert (feeds s' = feeds s) as ->; [|done]. refine ((_ : SKeeps feeds (tolerant (post_vote db o))) _ _ _ H).
      unfold post_vote. skeep.
    + unfold tolerant in H. destruct (post_comment _ _ _ _ _) as [[[] s1]|e] eqn:E.
      * injection H as <-. by eapply post_comment_feeds.
      * destruct e; try done. destruct is_producing; [done|]. by injection H as <-.
Qed.
End steps.

Section theorems.
Context {F : Fc} {P : Plugins}.

(** C18: the number of followers and of accounts followed that the plugin keeps
    for an account are the numbers of its relations in the table, after every
    operation. *)
Theorem follow_counts_exact max_feed_size start_feeds db s s' :
  counts_exact s → Z.of_nat (size (follows s)) + 1 < U32 → social_step max_feed_size start_feeds db s s' → counts_exact s'.
Proof.
  intros Hs Hsize H. assert (graph s' = graph s → counts_exact s') as Hsame.
  { unfold graph, counts_exact. by intros [= -> ->]. }
  destruct H as [o s s' H|o s s' H|op s s' H|op s s' H].
  - exact (proj1 (follow_evaluator_exact o s s' Hs Hsize H)).
  - apply Hsame. exact (reblog_graph _ _ _ _ _ _ _ H).
  - apply Hsame. exact (pre_operation_graph _ _ _ _ _ H).
  - apply Hsame. exact (post_operation_graph _ _ _ _ _ _ _ H).
Qed.

(** However many posts the accounts that someone follows write or reblog, a
    feed never has more than [max_feed_size + 1] entries, and these are the last
    ones: their numbers are distinct and within [max_feed_size] of each other. *)
Theorem feeds_bounded max_feed_size start_feeds db top s s' account :
  0 ≤ max_feed_size → feeds_ok max_feed_size top (feeds s) → 0 ≤ top → top + Z.of_nat (size (follows s)) < U32 →
  social_step max_feed_size start_feeds db s s' →
  feeds_ok max_feed_size (top + Z.of_nat (size (follows s))) (feeds s') ∧
  Z.of_nat (length (entries_of account (feeds s'))) ≤ max_feed_size + 1.
Proof.
  intros Hmax Hs H0 Htop H. pose proof (step_feeds _ _ _ top s s' Hs H0 Htop H) as Hs'. split; [done|].
  by eapply feed_size.
Qed.

(** A vote against an author counts only when the voter has more reputation, but a
    changed vote is always taken back first: a voter without reputation raises that
    of an author by voting against it twice. *)
Lemma changed_downvote_raises db db' o s c voter cv rep c' voter' cv' :
  comment_of db (vt_author o) (vt_permlink o) = Ok c → calculate_discussion_payout_time c ≠ time_max →
  get_account (vt_voter o) db = Ok (voter, db) →
  find_row (λ v, (cv_comment v =? com_id c) && (cv_voter v =? acc_id voter)) db = Some cv →
  comment_of db' (vt_author o) (vt_permlink o) = Ok c' → calculate_discussion_payout_time c' ≠ time_max →
  get_account (vt_voter o) db' = Ok (voter', db') →
  find_row (λ v, (cv_comment v =? com_id c') && (cv_voter v =? acc_id voter')) db' = Some cv' →
  reputations s !! vt_author o = Some rep → reputations s !! vt_voter o = None → vt_author o ≠ vt_voter o →
  cv_rshares cv < 0 → cv_rshares cv' < 0 → in_int64 (rep - Z.shiftr (cv_rshares cv) 6) = true →
  ∃ s1, pre_vote db o s = Ok (tt, s1) ∧ post_vote db' o s1 = Ok (tt, s1) ∧
    reputations s1 !! vt_author o = Some (rep - Z.shiftr (cv_rshares cv) 6) ∧ rep < rep - Z.shiftr (cv_rshares cv) 6.
Proof.
  intros Hc Hp Hv Hcv Hc' Hp' Hv' Hcv' Hrep Hnone Hne Hneg Hneg' Hrange.
  set (r := rep - Z.shiftr (cv_rshares cv) 6) in *.
  exists (set_reputations (<[vt_author o := r]> (reputations s)) s). split_and!.
  - unfold pre_vote. rewrite Hc. cbn [mbind result_bind]. rewrite (proj2 (Z.eqb_neq _ _)) by done.
    rewrite Hv. cbn [mbind result_bind fst]. rewrite Hcv, Hrep.
    assert (safe_sub rep (Z.shiftr (cv_rshares cv) 6) = Ok r) as -> by (rewrite safe_sub_spec; by unfold r in *; rewrite Hrange). done.
  - set (s1 := set_reputations _ s). unfold post_vote. rewrite Hc', m_bind_run. change (lift (Ok c') s1) with (Ok (c', s1)).
    cbn beta iota. rewrite (proj2 (Z.eqb_neq _ _)) by done. rewrite Hv', m_bind_run.
    change (lift (Ok (voter', db')) s1) with (Ok (voter', db', s1)). cbn beta iota zeta. rewrite m_bind_run.
    change (gets reputations s1) with (Ok (<[vt_author o := r]> (reputations s), s1)). cbn beta iota.
    rewrite lookup_insert_ne by done. rewrite Hnone, m_bind_run. cbn [fst]. rewrite Hcv'.
    change (lift (Ok cv') s1) with (Ok (cv', s1)). cbn beta iota. by rewrite (proj2 (Z.ltb_lt _ _)) by done.
  - apply lookup_insert_eq.
  - assert (Z.shiftr (cv_rshares cv) 6 < 0) by (by apply Z.shiftr_neg). unfold r. lia.
Qed.
End theorems.

(** ** The theorems at concrete inputs *)
#[local] Existing Instance fc_model.
#[local] Existing Instance no_plugins.

Definition nobody : social := Social ∅ ∅ ∅ ∅ ∅ ∅.
Definition alice_follows : follow_operation := FollowOp "alice" "bob" ["blog"%string].
Definition one_follower : social :=
  match follow_evaluator alice_follows nobody with Ok (_, s) => s | Throw _ => nobody end.
(** The first post of bob, in the block of its creation. *)
Definition bob_posted : database :=
  match create comment_object_default (λ c, set_com_author "bob" (set_com_permlink "first" (set_com_created 10 c))) empty_database with
  | Ok (_, db) => set_db_gpo (set_gpo_time 10 (db_gpo db)) db
  | Throw _ => empty_database
  end.
Definition bob_posts : comment_operation := Comment EmptyString EmptyString "bob" "first" EmptyString EmptyString EmptyString.
Definition one_feed : social :=
  match post_operation 500 0 bob_posted (op_comment bob_posts) one_follower with Ok (_, s) => s | Throw _ => nobody end.

Lemma follow_counts_exact_witness :
  counts_exact one_follower ∧ follow_counts one_follower !! "bob"%string = Some (FollowCount 1 0).
Proof.
  split; [|vm_compute; reflexivity].
  apply (follow_counts_exact 500 0 empty_database nobody one_follower).
  - intros n. split; reflexivity.
  - vm_compute. reflexivity.
  - apply (step_follow _ _ _ alice_follows). vm_compute. reflexivity.
Defined.
Lemma feeds_bounded_witness :
  entry_ids account_feed_id "alice" (feeds one_feed) = [0] ∧
  Z.of_nat (length (entries_of "alice" (feeds one_feed))) ≤ 501.
Proof.
  split; [vm_compute; reflexivity|].
  apply (feeds_bounded 500 0 bob_posted 0 one_follower one_feed "alice").
  - lia.
  - intros a. split_and!; intros *; cbn; rewrite ?lookup_empty; discriminate.
  - lia.
  - vm_compute. reflexivity.
  - apply (step_post _ _ _ (op_comment bob_posts)). vm_compute. reflexivity.
Defined.
