(* ===== verification/MarketHistory.v ===== *)
(** * The market history plugin

    plugins/market_history: every trade of the internal market is recorded, and
    summarised in buckets of fixed lengths of time.  [update_market_histories] is
    called for each operation after it was applied.

    The tracked lengths and the number of buckets that are kept are arguments.
    Not modelled: the options and the API. *)
From S2P Require Import Prelude Fc Config Asset Chainbase ChainbaseSpec Objects.

(** A bucket; its start and its length are its key. *)
Record bucket_object := Bucket {
  bk_high_steem : Z; bk_high_sbd : Z; bk_low_steem : Z; bk_low_sbd : Z; bk_open_steem : Z; bk_open_sbd : Z;
  bk_close_steem : Z; bk_close_sbd : Z; bk_steem_volume : Z; bk_sbd_volume : Z }.
(** The trades with their times, and the buckets by length and start. *)
Record market_history := MarketHistory {
  order_history : list (Z * virtual_operation); buckets : gmap (Z * Z) bucket_object }.

Section history.
Context {F : Fc}.
Context (_tracked_buckets : list Z) (_maximum_history_per_bucket_size : Z).

Definition high (b : bucket_object) : result price :=
  asset_div (Asset (bk_high_sbd b) SBD_SYMBOL) (Asset (bk_high_steem b) STEEM_SYMBOL).
Definition low (b : bucket_object) : result price :=
  asset_div (Asset (bk_low_sbd b) SBD_SYMBOL) (Asset (bk_low_steem b) STEEM_SYMBOL).

(** What was paid in STEEM and in SBD. *)
Definition sides (current_pays open_pays : asset) : asset * asset :=
  if symbol open_pays =? STEEM_SYMBOL then (open_pays, current_pays) else (current_pays, open_pays).
Definition new_bucket (steem sbd : asset) : bucket_object :=
  let s := amount steem in let d := amount sbd in Bucket s d s d s d s d s d.
Definition update_bucket (steem sbd : asset) (b : bucket_object) : result bucket_object :=
  steem_volume ← safe_add (bk_steem_volume b) (amount steem);
  sbd_volume ← safe_add (bk_sbd_volume b) (amount sbd);
  h ← high b;
  let above := price_lt h (Price sbd steem) in
  l ← low b;
  let below := price_gt l (Price sbd steem) in
  mret (Bucket
    (if above then amount steem else bk_high_steem b) (if above then amount sbd else bk_high_sbd b)
    (if below then amount steem else bk_low_steem b) (if below then amount sbd else bk_low_sbd b)
    (bk_open_steem b) (bk_open_sbd b) (amount steem) (amount sbd) steem_volume sbd_volume).

(** The loop over the buckets of one length, from the oldest on. *)
Fixpoint remove_old (rows : list (Z * Z * bucket_object)) (cutoff : Z) (m : gmap (Z * Z) bucket_object)
    : gmap (Z * Z) bucket_object :=
  match rows with
  | [] => m
  | (k, _) :: rows' => if k.2 <? cutoff then remove_old rows' cutoff (delete k m) else m
  end.
Definition buckets_of (seconds : Z) (m : gmap (Z * Z) bucket_object) : list (Z * Z * bucket_object) :=
  sort_by (λ x y, x.1.2 <=? y.1.2) (filter (λ e, e.1.1 = seconds) (map_to_list m)).
Definition track (now : Z) (steem sbd : asset) (seconds : Z) (m : gmap (Z * Z) bucket_object)
    : result (gmap (Z * Z) bucket_object) :=
  let cutoff := now - to_uint32 (seconds * _maximum_history_per_bucket_size) in
  let open := now / seconds * seconds in
  match m !! (seconds, open) with
  | None => mret (<[(seconds, open) := new_bucket steem sbd]> m)
  | Some b =>
      b' ← update_bucket steem sbd b;
      let m' := <[(seconds, open) := b']> m in
      mret (if 0 <? _maximum_history_per_bucket_size then remove_old (buckets_of seconds m') cutoff m' else m')
  end.
Fixpoint track_all (now : Z) (steem sbd : asset) (l : list Z) (m : gmap (Z * Z) bucket_object)
    : result (gmap (Z * Z) bucket_object) :=
  match l with [] => mret m | seconds :: l' => m' ← track now steem sbd seconds m; track_all now steem sbd l' m' end.
Definition update_market_histories (now : Z) (op : virtual_operation) : M market_history unit :=
  match op with
  | fill_order_operation _ _ current_pays _ _ open_pays =>
      update (λ h, MarketHistory (order_history h ++ [(now, op)]) (buckets h));;
      if _maximum_history_per_bucket_size =? 0 then mret tt
      else
        let x := sides current_pays open_pays in
        m ← gets buckets;
        m' ← lift (track_all now x.1 x.2 _tracked_buckets m);
        update (λ h, MarketHistory (order_history h) m')
  | _ => mret tt
  end.
End history.

(** ** What a bucket says about its trades *)

(** A trade in STEEM and SBD. *)
Definition trade_of (op : virtual_operation) : Z * Z :=
  match op with
  | fill_order_operation _ _ current_pays _ _ open_pays =>
      let x := sides current_pays open_pays in (amount x.1, amount x.2)
  | _ => (0, 0)
  end.
Definition trade_ok (op : virtual_operation) : Prop :=
  match op with
  | fill_order_operation _ _ current_pays _ _ open_pays =>
      pos_amount current_pays ∧ pos_amount open_pays ∧
      (symbol open_pays = STEEM_SYMBOL ∧ symbol current_pays = SBD_SYMBOL ∨
       symbol open_pays = SBD_SYMBOL ∧ symbol current_pays = STEEM_SYMBOL)
  | _ => False
  end.
(** The trades in the bucket that starts at [open]. *)
Definition trades_in (seconds open : Z) (history : list (Z * virtual_operation)) : list (Z * Z) :=
  (λ e, trade_of e.2) <$> filter (λ e, e.1 / seconds * seconds = open) history.
Definition volume (f : Z * Z → Z) (l : list (Z * Z)) : Z := foldr (λ t n, f t + n) 0 l.
(** The price of a trade, SBD for a STEEM, compared without a division. *)
Definition cheaper (a b : Z * Z) : Prop := a.2 * b.1 ≤ b.2 * a.1.
#[export] Instance cheaper_dec : RelDecision cheaper.
Proof. intros a b. unfold cheaper. apply _. Defined.
Record summarises (trades : list (Z * Z)) (b : bucket_object) : Prop := {
  sum_open : head trades = Some (bk_open_steem b, bk_open_sbd b);
  sum_close : last trades = Some (bk_close_steem b, bk_close_sbd b);
  sum_steem : bk_steem_volume b = volume fst trades;
  sum_sbd : bk_sbd_volume b = volume snd trades;
  sum_high : (bk_high_steem b, bk_high_sbd b) ∈ trades;
  sum_highest : ∀ t, t ∈ trades → cheaper t (bk_high_steem b, bk_high_sbd b);
  sum_low : (bk_low_steem b, bk_low_sbd b) ∈ trades;
  sum_lowest : ∀ t, t ∈ trades → cheaper (bk_low_steem b, bk_low_sbd b) t }.

Definition positive (t : Z * Z) : Prop := 0 < t.1 ≤ INT64_MAX ∧ 0 < t.2 ≤ INT64_MAX.
Lemma cheaper_trans a b c : positive a → positive b → positive c → cheaper a b → cheaper b c → cheaper a c.
Proof.
  unfold positive, cheaper. intros [Ha _] [Hb _] [Hc _] H1 H2. apply (Z.mul_le_mono_pos_r _ _ (b.1)); [lia|].
  apply Z.le_trans with (b.2 * a.1 * c.1); nia.
Qed.
Lemma cheaper_total a b : cheaper a b ∨ cheaper b a.
Proof. unfold cheaper. lia. Qed.
Lemma volume_app f l k : volume f (l ++ k) = volume f l + volume f k.
Proof. unfold volume. induction l as [|x l IH]; cbn; [done|]. rewrite IH. lia. Qed.

(** The extreme of some trades after one more. *)
Lemma extreme_ok (R : Z * Z → Z * Z → Prop) trades t top (above : bool) :
  (∀ a b c, positive a → positive b → positive c → R a b → R b c → R a c) → R t t →
  Forall positive trades → positive t → top ∈ trades → (∀ x, x ∈ trades → R x top) →
  (if above then R top t else R t top) →
  let top' := if above then t else top in top' ∈ trades ++ [t] ∧ ∀ x, x ∈ trades ++ [t] → R x top'.
Proof.
  intros Htrans Htt Hall Ht Htop Hmax Ha. rewrite Forall_forall in Hall.
  destruct above; cbn zeta; (split; [set_solver|]); intros x [Hx| ->%list_elem_of_singleton]%elem_of_app; auto.
  apply (Htrans x top t); auto.
Qed.

Section updates.
Context {F : Fc}.

Lemma bucket_price t : asset_div (Asset t.2 SBD_SYMBOL) (Asset t.1 STEEM_SYMBOL) = Ok (Price (Asset t.2 SBD_SYMBOL) (Asset t.1 STEEM_SYMBOL)).
Proof. done. Qed.
Lemma price_lt_cheaper a b :
  positive a → positive b →
  price_lt (Price (Asset a.2 SBD_SYMBOL) (Asset a.1 STEEM_SYMBOL)) (Price (Asset b.2 SBD_SYMBOL) (Asset b.1 STEEM_SYMBOL)) = true
  ↔ ¬ cheaper b a.
Proof.
  intros [Ha1 Ha2] [Hb1 Hb2]. rewrite price_lt_spec by (split; done). unfold same_market, cheaper. cbn. lia.
Qed.
Lemma price_gt_cheaper a b :
  positive a → positive b →
  price_gt (Price (Asset a.2 SBD_SYMBOL) (Asset a.1 STEEM_SYMBOL)) (Price (Asset b.2 SBD_SYMBOL) (Asset b.1 STEEM_SYMBOL)) = true
  ↔ ¬ cheaper a b.
Proof.
  intros [Ha1 Ha2] [Hb1 Hb2]. unfold price_gt, price_le. rewrite negb_true_iff, orb_false_iff, <- !not_true_iff_false.
  rewrite price_eq_spec, price_lt_spec by (split; done). unfold same_market, cheaper. cbn. lia.
Qed.

Lemma new_bucket_ok t : summarises [t] (new_bucket (Asset t.1 STEEM_SYMBOL) (Asset t.2 SBD_SYMBOL)).
Proof.
  split; cbn; try (by destruct t); try lia; try (destruct t; left).
  all: intros x ->%list_elem_of_singleton; unfold cheaper; cbn; lia.
Qed.
Lemma update_bucket_ok trades t b b' :
  Forall positive trades → positive t → summarises trades b →
  update_bucket (Asset t.1 STEEM_SYMBOL) (Asset t.2 SBD_SYMBOL) b = Ok b' → summarises (trades ++ [t]) b'.
Proof.
  intros Hall Ht [Ho Hc Hs Hd Hh Hhh Hl Hll]. assert (∀ x, x ∈ trades → positive x) as Hall' by (by apply Forall_forall). unfold update_bucket. cbn [amount].
  intros (sv & [-> _]%safe_add_ok & H)%rbind_ok. apply rbind_ok in H as (dv & [-> _]%safe_add_ok & H).
  set (top := (bk_high_steem b, bk_high_sbd b)) in *. set (bottom := (bk_low_steem b, bk_low_sbd b)) in *.
  unfold high, low in H. change (bk_high_sbd b) with top.2 in H. change (bk_high_steem b) with top.1 in H.
  change (bk_low_sbd b) with bottom.2 in H. change (bk_low_steem b) with bottom.1 in H.
  rewrite !bucket_price in H. cbn [mbind result_bind] in H. injection H as <-.
  destruct (extreme_ok cheaper trades t top (price_lt (Price (Asset top.2 SBD_SYMBOL) (Asset top.1 STEEM_SYMBOL))
    (Price (Asset t.2 SBD_SYMBOL) (Asset t.1 STEEM_SYMBOL)))) as [H1 H2]; [apply cheaper_trans|unfold cheaper; lia|done..| |].
  { pose proof (price_lt_cheaper top t (Hall' _ Hh) Ht) as Hp. destruct (price_lt _ _); pose proof (cheaper_total t top); [naive_solver|].
    apply dec_stable. naive_solver. }
  destruct (extreme_ok (flip cheaper) trades t bottom (price_gt (Price (Asset bottom.2 SBD_SYMBOL) (Asset bottom.1 STEEM_SYMBOL))
    (Price (Asset t.2 SBD_SYMBOL) (Asset t.1 STEEM_SYMBOL)))) as [H3 H4];
    [intros x y z Px Py Pz Hxy Hyz; by apply (cheaper_trans z y x)|unfold cheaper, flip; lia|done..| |].
  { pose proof (price_gt_cheaper bottom t (Hall' _ Hl) Ht) as Hp. unfold flip. destruct (price_gt _ _); pose proof (cheaper_total t bottom); [naive_solver|].
    apply dec_stable. naive_solver. }
  split; cbn [bk_open_steem bk_open_sbd bk_close_steem bk_close_sbd bk_steem_volume bk_sbd_volume bk_high_steem bk_high_sbd bk_low_steem bk_low_sbd].
  - by destruct trades.
  - rewrite last_snoc. by destruct t.
  - rewrite volume_app, Hs. cbn. lia.
  - rewrite volume_app, Hd. cbn. lia.
  - by destruct (price_lt _ _), t.
  - by destruct (price_lt _ _), t.
  - by destruct (price_gt _ _), t.
  - by destruct (price_gt _ _), t.
Qed.
End updates.

(** ** The buckets that are kept *)
Definition by_start (x y : Z * Z * bucket_object) : bool := x.1.2 <=? y.1.2.
Lemma remove_old_ok rows cutoff m k v :
  StronglySorted (brel by_start) rows →
  remove_old rows cutoff m !! k = Some v ↔ m !! k = Some v ∧ (k ∈ rows.*1 → cutoff ≤ k.2).
Proof.
  revert m. induction rows as [|[k0 b0] rows IH]; intros m Hs; cbn [remove_old fmap list_fmap fst].
  - split; [|by intros []]. intros H. split; [done|]. by intros []%elem_of_nil.
  - inversion Hs as [|? ? Hs' Hall]; subst. destruct (k0.2 <? cutoff) eqn:Ec.
    + rewrite IH by done. rewrite lookup_delete_Some. split.
      * intros [[Hne Hk] Hr]. split; [done|]. intros [->|Hin]%elem_of_cons; [done|auto].
      * intros [Hk Hr]. split_and!; [|done|]; [|intros Hin; apply Hr; by right].
        intros <-. specialize (Hr ltac:(left)). lia.
    + split; [|by intros []]. intros Hk. split; [done|]. intros [->|Hin]%elem_of_cons; [lia|].
      apply list_elem_of_fmap in Hin as ([k1 b1] & -> & Hin). rewrite Forall_forall in Hall. apply Hall in Hin.
      unfold brel, by_start in Hin. apply Is_true_true in Hin. cbn in *. lia.
Qed.
Lemma remove_old_buckets seconds cutoff m k v :
  remove_old (buckets_of seconds m) cutoff m !! k = Some v ↔ m !! k = Some v ∧ (k.1 = seconds → cutoff ≤ k.2).
Proof.
  rewrite remove_old_ok.
  - split; intros [Hk Hr]; (split; [done|]).
    + intros Hs. apply Hr, list_elem_of_fmap. exists (k, v). split; [done|]. unfold buckets_of. rewrite sort_by_elem.
      apply list_elem_of_filter. split; [done|]. by apply elem_of_map_to_list.
    + intros ([k1 b1] & -> & Hin)%list_elem_of_fmap. apply Hr. unfold buckets_of in Hin. rewrite sort_by_elem in Hin.
      by apply list_elem_of_filter in Hin as [Hin _].
  - apply Sorted_StronglySorted; [|apply sort_by_sorted; intros x y; lia].
    intros x y z. unfold brel, by_start. rewrite !Is_true_true. lia.
Qed.

Section tracking.
Context {F : Fc} (max : Z) (Hmax : 0 < max).

(** The buckets of one length: each that is missing has no trades or is older than
    those that are kept at the time [latest]. *)
Definition tracks (seconds latest : Z) (history : list (Z * virtual_operation)) (m : gmap (Z * Z) bucket_object) : Prop :=
  ∀ open, match m !! (seconds, open) with
          | Some b => summarises (trades_in seconds open history) b
          | None => trades_in seconds open history = [] ∨ open < latest - seconds * max
          end.

Lemma sides_ok c1 i1 cp c2 i2 op :
  let e := fill_order_operation c1 i1 cp c2 i2 op in trade_ok e →
  sides cp op = (Asset (trade_of e).1 STEEM_SYMBOL, Asset (trade_of e).2 SBD_SYMBOL) ∧ positive (trade_of e).
Proof.
  cbn. intros (Hc & Ho & Hsym). unfold trade_of, sides, positive, pos_amount in *.
  destruct cp as [ca cs], op as [oa os]. cbn in *. destruct Hsym as [[-> ->]|[-> ->]]; cbn; by split.
Qed.
Lemma trades_in_app seconds open history now op :
  trades_in seconds open (history ++ [(now, op)]) =
    trades_in seconds open history ++ (if decide (now / seconds * seconds = open) then [trade_of op] else []).
Proof.
  unfold trades_in. rewrite filter_app, fmap_app. f_equal. cbn. by destruct (decide _).
Qed.
Lemma trades_positive seconds open history :
  (∀ e, e ∈ history → trade_ok e.2) → Forall positive (trades_in seconds open history).
Proof.
  intros H. apply Forall_forall. intros t ([now op] & -> & [_ Hin]%list_elem_of_filter)%list_elem_of_fmap.
  specialize (H _ Hin). cbn in *. destruct op; try done. by eapply sides_ok.
Qed.
Lemma track_ok seconds latest now op t history m m' :
  0 < seconds → seconds * max < U32 → latest ≤ now → (∀ e, e ∈ history → trade_ok e.2) → positive t → t = trade_of op →
  tracks seconds latest history m →
  track max now (Asset t.1 STEEM_SYMBOL) (Asset t.2 SBD_SYMBOL) seconds m = Ok m' →
  tracks seconds now (history ++ [(now, op)]) m' ∧ ∀ k, k.1 ≠ seconds → m' !! k = m !! k.
Proof.
  intros Hs Hu Hnow Hhist Ht -> Hm. unfold track. set (start := now / seconds * seconds).
  assert (to_uint32 (seconds * max) = seconds * max) as -> by (apply Z.mod_small; nia).
  assert (now - seconds < start) as Hstart by (unfold start; pose proof (Z.div_mod now seconds ltac:(lia));
    pose proof (Z.mod_pos_bound now seconds Hs); nia).
  pose proof (Hm start) as H0. destruct (m !! (seconds, start)) as [b|] eqn:Eb.
  - intros (b' & Hb' & [= <-])%rbind_ok. rewrite (proj2 (Z.ltb_lt _ _)) by done.
    pose proof (update_bucket_ok _ _ _ _ (trades_positive _ _ _ Hhist) Ht H0 Hb') as Hsum.
    assert (∀ k, remove_old (buckets_of seconds (<[(seconds, start):=b']> m)) (now - seconds * max) (<[(seconds, start):=b']> m) !! k
      = if decide (k.1 = seconds ∧ k.2 < now - seconds * max) then None else <[(seconds, start):=b']> m !! k) as Hl.
    { intros k. apply option_eq. intros v. rewrite remove_old_buckets.
      destruct (decide _) as [[E1 E2]|Hne]; split; try done; [intros [_ H]; specialize (H E1); lia|by intros []|].
      intros H. split; [done|]. intros E1. destruct (decide (k.2 < now - seconds * max)); [naive_solver|lia]. }
    split.
    + intros open. rewrite Hl. cbn [fst snd]. rewrite trades_in_app. fold start. destruct (decide _) as [[_ E]|Hne]; [by right|].
      destruct (decide (start = open)) as [<-|Hopen].
      * rewrite lookup_insert_eq. exact Hsum.
      * rewrite app_nil_r, lookup_insert_ne by congruence. specialize (Hm open).
        destruct (m !! (seconds, open)); [done|]. destruct Hm; [by left|right; nia].
    + intros k Hk. rewrite Hl. destruct (decide _) as [[E _]|_]; [done|]. apply lookup_insert_ne. intros <-. done.
  - intros [= <-]. split.
    + intros open. rewrite trades_in_app. fold start. destruct (decide (start = open)) as [<-|Hopen].
      * rewrite lookup_insert_eq. destruct H0 as [->|H0]; [|nia]. apply new_bucket_ok.
      * rewrite app_nil_r, lookup_insert_ne by congruence. specialize (Hm open).
        destruct (m !! (seconds, open)); [done|]. destruct Hm; [by left|right; nia].
    + intros k Hk. apply lookup_insert_ne. intros <-. done.
Qed.
Lemma track_all_ok latest now op t history l m m' :
  (∀ s, s ∈ l → 0 < s ∧ s * max < U32) → NoDup l → latest ≤ now → (∀ e, e ∈ history → trade_ok e.2) → positive t →
  t = trade_of op → (∀ s, s ∈ l → tracks s latest history m) →
  track_all max now (Asset t.1 STEEM_SYMBOL) (Asset t.2 SBD_SYMBOL) l m = Ok m' →
  (∀ s, s ∈ l → tracks s now (history ++ [(now, op)]) m') ∧ ∀ k, k.1 ∉ l → m' !! k = m !! k.
Proof.
  intros Hl Hnd Hnow Hhist Ht Et. revert m. induction l as [|s l IH]; intros m Hm; cbn [track_all].
  - intros [= <-]. split; [|done]. by intros s []%elem_of_nil.
  - intros (m1 & H1 & H)%rbind_ok. apply NoDup_cons in Hnd as [Hnin Hnd].
    destruct (Hl s ltac:(left)) as [Hs Hu].
    destruct (track_ok s latest now op t history m m1 Hs Hu Hnow Hhist Ht Et (Hm s ltac:(left)) H1) as [Hs1 Hk1].
    destruct (IH ltac:(intros x Hx; apply Hl; by right) Hnd m1) as [Hr Hk].
    + intros x Hx open. rewrite Hk1 by (cbn; by intros ->). apply Hm. by right.
    + exact H.
    + split.
      * intros x [->|Hx]%elem_of_cons; [|by apply Hr]. intros open. rewrite Hk by done. apply Hs1.
      * intros k. rewrite not_elem_of_cons. intros [H2 H3]. by rewrite Hk, Hk1.
Qed.
End tracking.

Section theorems.
Context {F : Fc}.

(** The buckets of every tracked length agree with the trades. *)
Definition summarised (tracked : list Z) (max latest : Z) (h : market_history) : Prop :=
  (∀ e, e ∈ order_history h → trade_ok e.2) ∧
  ∀ seconds, seconds ∈ tracked → tracks max seconds latest (order_history h) (buckets h).

(** C19: every bucket is the summary of the trades of its span of time: the first
    and the last one, the highest and the lowest price, and the volumes; a trade
    of the last [max] spans is in a bucket. *)
Theorem buckets_summarise tracked max latest now op h h' :
  0 < max → NoDup tracked → (∀ s, s ∈ tracked → 0 < s ∧ s * max < U32) → latest ≤ now → trade_ok op →
  summarised tracked max latest h → update_market_histories tracked max now op h = Ok (tt, h') →
  summarised tracked max now h' ∧ order_history h' = order_history h ++ [(now, op)].
Proof.
  intros Hmax Hnd Hl Hnow Hop [Hhist Hm]. destruct op as [| |c1 i1 cp c2 i2 p| | | | | | | | | | | |]; try done.
  destruct (sides_ok c1 i1 cp c2 i2 p Hop) as [Es Ht]. set (op := fill_order_operation c1 i1 cp c2 i2 p) in *.
  unfold update_market_histories. cbn [op]. intros ([] & h1 & [= <-] & H)%bind_ok.
  rewrite (proj2 (Z.eqb_neq max 0)) in H by lia. rewrite Es in H. cbn [fst snd] in H.
  apply bind_ok in H as (m & h1 & [= <- <-] & H). apply bind_ok in H as (m' & h1 & [H ->]%lift_ok & [= <-]).
  cbn [order_history buckets] in *. fold op. split; [|done]. split.
  - intros e [He| ->%list_elem_of_singleton]%elem_of_app; [by apply Hhist|done].
  - exact (proj1 (track_all_ok max Hmax latest now op (trade_of op) (order_history h) tracked _ _ Hl Hnd Hnow Hhist Ht eq_refl Hm H)).
Qed.
End theorems.

(** ** The theorem at a concrete input *)
#[local] Existing Instance fc_model.

Definition a_trade : virtual_operation := fill_order_operation "alice" 1 (Asset 3000 SBD_SYMBOL) "bob" 1 (Asset 2000 STEEM_SYMBOL).
Definition a_dearer_trade : virtual_operation := fill_order_operation "carol" 2 (Asset 500 STEEM_SYMBOL) "bob" 2 (Asset 1000 SBD_SYMBOL).
Definition default_buckets : list Z := [15; 60; 300; 3600; 86400].
Definition run_trade (now : Z) (op : virtual_operation) (h : market_history) : market_history :=
  match update_market_histories default_buckets 1000 now op h with Ok (_, h') => h' | Throw _ => h end.
Definition one_trade : market_history := run_trade 100000 a_trade (MarketHistory [] ∅).
Lemma a_trade_ok : trade_ok a_trade.
Proof. split; [split; vm_compute; [reflexivity|discriminate]|]. split; [split; vm_compute; [reflexivity|discriminate]|]. left. split; reflexivity. Qed.
Lemma buckets_summarise_witness :
  summarised default_buckets 1000 100000 one_trade ∧
  buckets (run_trade 100001 a_dearer_trade one_trade) !! (60, 99960) =
    Some (Bucket 500 1000 2000 3000 2000 3000 500 1000 2500 4000).
Proof.
  split; [|vm_compute; reflexivity].
  refine (proj1 (buckets_summarise default_buckets 1000 0 100000 a_trade (MarketHistory [] ∅) one_trade _ _ _ _ a_trade_ok _ _)).
  - lia.
  - apply (bool_decide_unpack _). vm_compute. exact I.
  - intros s Hs. assert (s = 15 ∨ s = 60 ∨ s = 300 ∨ s = 3600 ∨ s = 86400) as Hc by set_solver. unfold U32. lia.
  - lia.
  - split; [intros e []%elem_of_nil|]. intros s _ open. left. reflexivity.
  - vm_compute. reflexivity.
Defined.
