(* ===== verification/KeyLookup.v ===== *)
(** * The account_by_key plugin

    plugins/account_by_key: which accounts have a key in one of their
    authorities.  The plugin keeps a row for each pair of a key and an account,
    and remembers the keys of an account while an operation changes it:
    [pre_operation] and [post_operation] are called around every operation.

    [plugin_run] says which states and indexes a chain with the plugin can come to,
    and [keys_indexed] that the index agrees with the authorities in all of them.

    Not modelled: the API.  The rows are a set, as the index is unique by key and
    account; flat sets of keys are sets. *)
From S2P Require Import Prelude Fc Config Asset Chainbase ChainbaseSpec Objects Protocol BlockHeader Database.
From S2P Require Import Supply Votes Ledger Rewards Comments Cashout Genesis Transfers Market Inflation Escrow.
From S2P Require Import EscrowSpec Vesting Frames Proxies Delegations Accounts WitnessSchedule Soundness Hardforks.
From S2P Require Import SignState Mining Operations Transactions Block BlockSafety Frontier.

Record key_index := KeyIndex { lookups : gset (string * string); cached_keys : gset string }.

Definition clear_cache (t : key_index) : key_index := KeyIndex (lookups t) ∅.
(** The keys of the three authorities of an account. *)
Definition authority_keys (a : account_authority_object) : gset string :=
  list_to_set ((key_auths (aa_owner a)).*1) ∪ list_to_set ((key_auths (aa_active a)).*1)
  ∪ list_to_set ((key_auths (aa_posting a)).*1).
Definition cache_auths (a : account_authority_object) (t : key_index) : key_index :=
  KeyIndex (lookups t) (cached_keys t ∪ authority_keys a).
(** A key that the account had before leaves the cache; a new one is filed. *)
Definition file_key (account : string) (t : key_index) (key : string) : key_index :=
  if decide (key ∈ cached_keys t) then KeyIndex (lookups t) (cached_keys t ∖ {[key]})
  else KeyIndex (lookups t ∪ {[(key, account)]}) (cached_keys t).
Definition update_key_lookup (a : account_authority_object) (t : key_index) : key_index :=
  let t' := foldl (file_key (aa_account a)) t (elements (authority_keys a)) in
  KeyIndex (foldl (λ l key, l ∖ {[(key, aa_account a)]}) (lookups t') (elements (cached_keys t'))) ∅.

Definition find_authority (name : string) (db : database) : option account_authority_object :=
  find_row (authority_by_account name) db.
Definition cache_account (name : string) (db : database) (t : key_index) : key_index :=
  match find_authority name db with Some a => cache_auths a t | None => t end.
Definition update_account (name : string) (db : database) (t : key_index) : key_index :=
  match find_authority name db with Some a => update_key_lookup a t | None => t end.

Definition pre_key_operation {E : Equihash} (db : database) (op : operation) (t : key_index) : key_index :=
  match op with
  | op_account_create _ | op_account_create_with_delegation _ | op_pow _ | op_pow2 _ => clear_cache t
  | op_account_update o => cache_account (au_account o) db (clear_cache t)
  | op_recover_account o => cache_account (ra_account_to_recover o) db (clear_cache t)
  | _ => t
  end.
Definition pow2_work_get_account {E : Equihash} (w : pow2_work) : string :=
  match w with
  | work_pow2 w => pi_worker_account (p2_input w)
  | work_equihash w => pi_worker_account (ep_input w)
  end.
Definition hardfork_key : string := "STM7sw22HqsXbz7D2CmJfmMwt9rimtk518dRzsR1f8Cgw52dQR1pR".
(** The key that compromised accounts are given, for each of them that exists; a
    second row with the same key and account cannot be created. *)
Fixpoint file_compromised (accounts : list string) (db : database) (t : key_index) : result key_index :=
  match accounts with
  | [] => mret t
  | acc :: accounts' =>
      match find_row (by_name acc) db with
      | None => file_compromised accounts' db t
      | Some account =>
          if decide ((hardfork_key, acc_name account) ∈ lookups t) then Throw uniqueness_error
          else file_compromised accounts' db (KeyIndex (lookups t ∪ {[(hardfork_key, acc_name account)]}) (cached_keys t))
      end
  end.
Definition post_key_operation {E : Equihash} (db : database) (op : operation) (t : key_index) : result key_index :=
  match op with
  | op_account_create o => mret (update_account (ac_new_account_name o) db t)
  | op_account_create_with_delegation o => mret (update_account (acd_new_account_name o) db t)
  | op_account_update o => mret (update_account (au_account o) db t)
  | op_recover_account o => mret (update_account (ra_account_to_recover o) db t)
  | op_pow o => mret (update_account (po_worker_account o) db t)
  | op_pow2 o => mret (update_account (pow2_work_get_account (p2o_work o)) db t)
  | op_virtual (hardfork_operation _) => file_compromised compromised_accounts db t
  | _ => mret t
  end.

(** ** The rows after an update *)
Lemma file_keys_spec account l t key name :
  NoDup l →
  let t' := foldl (file_key account) t l in
  ((key, name) ∈ lookups t' ↔ (key, name) ∈ lookups t ∨ name = account ∧ key ∈ l ∧ key ∉ cached_keys t) ∧
  (key ∈ cached_keys t' ↔ key ∈ cached_keys t ∧ key ∉ l).
Proof.
  cbn zeta. revert t. induction l as [|k l IH]; intros t Hl; cbn [foldl].
  - set_solver.
  - apply NoDup_cons in Hl as [Hk Hl]. destruct (IH (file_key account t k) Hl) as [H1 H2]. rewrite H1, H2. unfold file_key.
    destruct (decide (k ∈ cached_keys t)); cbn [lookups cached_keys]; destruct (decide (key = k)) as [->|]; set_solver.
Qed.
Lemma unfile_keys_spec (account : string) l m (key name : string) :
  (key, name) ∈ foldl (λ (m : gset (string * string)) k, m ∖ {[(k, account)]}) m l
  ↔ (key, name) ∈ m ∧ ¬ (name = account ∧ key ∈ l).
Proof.
  revert m. induction l as [|k l IH]; intros m; cbn [foldl]; [set_solver|]. rewrite IH. set_solver.
Qed.
Lemma update_key_lookup_spec a t key name :
  (key, name) ∈ lookups (update_key_lookup a t) ↔
  if decide (name = aa_account a)
  then (key ∈ authority_keys a ∧ key ∉ cached_keys t) ∨
       (key, name) ∈ lookups t ∧ (key ∈ cached_keys t → key ∈ authority_keys a)
  else (key, name) ∈ lookups t.
Proof.
  unfold update_key_lookup. cbn [lookups]. rewrite unfile_keys_spec.
  destruct (file_keys_spec (aa_account a) (elements (authority_keys a)) t key name (NoDup_elements _)) as [H1 H2].
  rewrite elem_of_elements, H1, H2, elem_of_elements. destruct (decide (name = aa_account a)) as [->|]; [|naive_solver].
  destruct (decide (key ∈ cached_keys t)), (decide (key ∈ authority_keys a)); tauto.
Qed.

(** The keys of the compromised accounts are filed at every hardfork, not only at the
    ninth: with one of these accounts [post_operation] throws at the second. *)
Lemma file_compromised_grows l db t t' : file_compromised l db t = Ok t' → lookups t ⊆ lookups t'.
Proof.
  revert t. induction l as [|acc l IH]; intros t; cbn [file_compromised]; [by intros [= ->]|].
  destruct (find_row _ db) as [a|]; [|apply IH]. destruct (decide _); [done|]. intros H%IH. cbn [lookups] in H. set_solver.
Qed.
Lemma file_compromised_files l db t t' acc a :
  file_compromised l db t = Ok t' → acc ∈ l → find_row (by_name acc) db = Some a → (hardfork_key, acc_name a) ∈ lookups t'.
Proof.
  revert t. induction l as [|x l IH]; intros t; cbn [file_compromised]; [by intros _ ?%elem_of_nil|].
  intros H [<-|Hin]%elem_of_cons Ha.
  - rewrite Ha in H. destruct (decide _); [done|]. apply file_compromised_grows in H. cbn [lookups] in H. set_solver.
  - destruct (find_row (by_name x) db); [destruct (decide _); [done|]|]; by eapply IH.
Qed.
Lemma second_hardfork_throws l db db' t t1 acc a a' :
  acc ∈ l → find_row (by_name acc) db = Some a → find_row (by_name acc) db' = Some a' →
  file_compromised l db t = Ok t1 → is_ok (file_compromised l db' t1) = false.
Proof.
  intros Hin Ha Ha' H1. assert ((hardfork_key, acc_name a') ∈ lookups t1) as Hrow.
  { apply find_row_Some in Ha as Hn, Ha' as Hn'. destruct Hn as [Hn _], Hn' as [Hn' _]. unfold by_name in *.
    apply bool_decide_eq_true in Hn, Hn'. rewrite Hn', <- Hn. by eapply file_compromised_files. }
  clear H1 Ha t. revert t1 Hrow. induction l as [|x l IH]; intros t Hrow; [by apply elem_of_nil in Hin|].
  cbn [file_compromised]. apply elem_of_cons in Hin as [<-|Hin].
  - rewrite Ha'. by rewrite decide_True.
  - destruct (find_row (by_name x) db'); [|by apply IH]. destruct (decide _); [done|]. apply IH; [done|].
    cbn [lookups]. set_solver.
Qed.

(** ** The authorities of an account *)
Section authorities.

Notation rows := (trows (A := account_authority_object)).

Lemma find_authority_row name db i a :
  ids_ok (A := account_authority_object) db → rows db !! i = Some a → aa_account a = name → find_authority name db = Some a.
Proof.
  intros [Hid Hu] Hi Hn. unfold find_authority. destruct (find_row _ db) as [b|] eqn:Eb.
  - apply find_row_Some in Eb as [Hb [j Hj]]. unfold authority_by_account in Hb. apply bool_decide_eq_true in Hb.
    destruct (decide (i = j)) as [->|Hij]; [congruence|]. specialize (Hu _ _ _ _ Hi Hj Hij).
    apply bool_decide_eq_false in Hu. congruence.
  - apply (find_row_None _ _ _ _ Eb) in Hi. unfold authority_by_account in Hi. apply bool_decide_eq_false in Hi. done.
Qed.
Lemma find_authority_Some name db a : find_authority name db = Some a → aa_account a = name ∧ ∃ i, rows db !! i = Some a.
Proof. intros [Hn Hi]%find_row_Some. split; [|done]. by apply bool_decide_eq_true in Hn. Qed.

(** The rows of all other accounts. *)
Definition others (name : string) (db : database) : gmap Z account_authority_object :=
  filter (λ r, aa_account r.2 ≠ name) (rows db).
Lemma others_at name db i a : others name db !! i = Some a ↔ rows db !! i = Some a ∧ aa_account a ≠ name.
Proof. apply map_lookup_filter_Some. Qed.
Lemma others_found name db db' n :
  ids_ok (A := account_authority_object) db → ids_ok (A := account_authority_object) db' →
  others name db' = others name db → n ≠ name → find_authority n db' = find_authority n db.
Proof.
  intros Hdb Hdb' E1 Hn. destruct (find_authority n db) as [a|] eqn:Ea.
  - apply find_authority_Some in Ea as [Ha [i Hi]]. apply (find_authority_row _ _ i); [done| |done].
    apply (others_at name). rewrite E1. apply others_at. split; [done|congruence].
  - destruct (find_authority n db') as [a|] eqn:Ea'; [|done]. apply find_authority_Some in Ea' as [Ha [i Hi]].
    assert (others name db !! i = Some a) as [Hi' _]%others_at by (rewrite <- E1; apply others_at; split; [done|congruence]).
    by rewrite (find_authority_row _ _ _ _ Hdb Hi' Ha) in Ea.
Qed.
Lemma others_insert name db i a m :
  aa_account a = name → (∀ b, rows db !! i = Some b → aa_account b = name) → m = <[i := a]> (rows db) →
  filter (λ r : Z * account_authority_object, aa_account r.2 ≠ name) m = others name db.
Proof.
  intros Ha Hi ->. apply map_eq. intros j. apply option_eq. intros b. unfold others. rewrite !map_lookup_filter_Some. cbn [snd].
  rewrite lookup_insert_Some. naive_solver.
Qed.

(** The rows are filed under their ids, one for each account. *)
Notation filed := (ids_ok (A := account_authority_object)).

(** [Adds name m]: [m] only adds rows of the account [name]. *)
Class Adds {A} (name : string) (m : DB A) : Prop :=
  adds_run : ∀ db a db', filed db → m db = Ok (a, db') → filed db' ∧ rows db ⊆ rows db' ∧ others name db' = others name db.
#[export] Instance adds_keeps {A} name (m : DB A) : Keeps db_authorities m → Adds name m | 100.
Proof. intros Hm db a db' Hf H. unfold others, filed, ids_ok, trows in *. cbn [tbl authorities_table] in *. by rewrite (Hm _ _ _ H). Qed.
Lemma adds_bind {A B} name (m : DB A) (f : A → DB B) : Adds name m → (∀ a, Adds name (f a)) → Adds name (m ≫= f).
Proof.
  intros H1 H2 db b db' Hf (a & s & Hm & Hk)%bind_ok. destruct (H1 _ _ _ Hf Hm) as (F1 & S1 & E1).
  destruct (H2 _ _ _ _ F1 Hk) as (F2 & S2 & E2). split_and!; [done|by etrans|congruence].
Qed.
Lemma adds_create name (c : account_authority_object → account_authority_object) :
  (∀ j, let a := c (set_aa_id j account_authority_object_default) in aa_id a = j ∧ aa_account a = name) →
  Adds name (create account_authority_object_default c).
Proof.
  intros Hc db i db' Hf H. assert (filed db') as Hf'.
  { apply create_ok in H as (_ & m & Hm & ->). unfold ids_ok. rewrite trows_set. by eapply container_emplace_wf. }
  apply create_rows in H as [Hn E1]; [|intros j; apply (Hc j)]. rewrite E1. split_and!; [done|..].
  - by apply insert_subseteq.
  - unfold others. rewrite E1. eapply others_insert; [apply (Hc i)| |done]. by rewrite Hn.
Qed.
(** [Changes name m]: a row of [name] stays one, and those of the others stay as
    they are. *)
Definition belongs (name : string) (i : Z) (db : database) : Prop := ∃ a, rows db !! i = Some a ∧ aa_account a = name.
Class Changes {A} (name : string) (m : DB A) : Prop :=
  changes_run : ∀ db a db', filed db → m db = Ok (a, db') →
    filed db' ∧ (∀ i, belongs name i db → belongs name i db') ∧ others name db' = others name db.
#[export] Instance changes_keeps {A} name (m : DB A) : Keeps db_authorities m → Changes name m | 100.
Proof. intros Hm db a db' Hf H. unfold ids_ok, others, belongs, trows in *. cbn [tbl authorities_table] in *. by rewrite (Hm _ _ _ H). Qed.
Lemma changes_bind {A B} name (m : DB A) (f : A → DB B) : Changes name m → (∀ a, Changes name (f a)) → Changes name (m ≫= f).
Proof.
  intros H1 H2 db b db' Hf (a & s & Hm & Hk)%bind_ok. destruct (H1 _ _ _ Hf Hm) as (F1 & B1 & E1).
  destruct (H2 _ _ _ _ F1 Hk) as (F2 & B2 & E2). split_and!; [done|auto|congruence].
Qed.
Lemma changes_modify name db i (f : account_authority_object → result account_authority_object) u db' :
  (∀ x y, f x = Ok y → aa_id y = aa_id x ∧ aa_account y = aa_account x) → filed db → belongs name i db →
  modify i f db = Ok (u, db') →
  filed db' ∧ (∀ j, belongs name j db → belongs name j db') ∧ others name db' = others name db.
Proof.
  intros Hf Hid (x & Hx & Hn) (x' & y & m & Hx' & Hy & Hm & ->)%modify_ok. assert (x' = x) as -> by congruence.
  destruct (Hf _ _ Hy) as [E1 E2]. unfold ids_ok, belongs, others. rewrite trows_set. cbn [Abs.rows].
  assert (container_wf m) as Hwf by (eapply container_emplace_wf; [by apply container_wf_delete|exact Hm]).
  apply container_modify_Some in Hm as [_ ->]; [|cbn; rewrite E1; by apply (proj1 Hid)]. split_and!; [done|..].
  - intros j (z & Hz & Hzn). destruct (decide (i = j)) as [<-|Hij].
    + exists y. rewrite lookup_insert_eq. split; [done|congruence].
    + exists z. by rewrite lookup_insert_ne.
  - eapply others_insert; [|intros b Hb|done]; congruence.
Qed.
End authorities.

Section operations.
Context {F : Fc} {B : Boost} {D : DiffMatchPatch} {K : Crypto} {E : Equihash} {P : Plugins} {PL : PluginLaws}.
Notation rows := (trows (A := account_authority_object)).
Notation filed := (ids_ok (A := account_authority_object)).

#[local] Instance touch_ancestors_authorities n c d e : Keeps db_authorities (touch_ancestors n c d e).
Proof. revert c d e. induction n as [|n IH]; intros c d e; cbn [touch_ancestors]; keep. Qed.
#[local] Instance check_proxy_chain_authorities n a b : Keeps db_authorities (check_proxy_chain n a b).
Proof. revert b. induction n as [|n IH]; intros b; cbn [check_proxy_chain]; keep. Qed.
#[local] Instance match_loop_authorities n l : Keeps db_authorities (match_loop n l).
Proof.
  induction l as [|x l IH]; simpl; keep; unfold match_orders, fill_order, cancel_order, adjust_liquidity_reward; keep.
Qed.
#[local] Instance clear_witness_votes_authorities a : Keeps db_authorities (clear_witness_votes a).
Proof. unfold clear_witness_votes. keep. Qed.

#[local] Instance adjust_proxied_authorities a d : Keeps db_authorities (adjust_proxied_witness_votes a d).
Proof. unfold adjust_proxied_witness_votes. apply _. Qed.
#[local] Instance adjust_proxied_array_authorities a d : Keeps db_authorities (adjust_proxied_witness_votes_array a d).
Proof.
  unfold adjust_proxied_witness_votes_array. generalize STEEMIT_MAX_PROXY_RECURSION_DEPTH.
  intros n. revert a. induction n as [|n IH]; intros a; cbn [adjust_proxied_array]; keep.
Qed.

(** The account whose authorities an operation may change. *)
Definition subject (op : operation) : option string :=
  match op with
  | op_account_create o => Some (ac_new_account_name o)
  | op_account_create_with_delegation o => Some (acd_new_account_name o)
  | op_account_update o => Some (au_account o)
  | op_recover_account o => Some (ra_account_to_recover o)
  | op_pow o => Some (po_worker_account o)
  | op_pow2 o => Some (pow2_work_get_account (p2o_work o))
  | _ => None
  end.
Lemma operation_authorities op : subject op = None → Keeps db_authorities (apply_operation op).
Proof.
  intros Hs. destruct op; try discriminate Hs; cbn [apply_operation];
    try (apply keeps_read; intros ???; apply custom_json_own || apply custom_binary_own); keep_deep.
Qed.

Lemma account_create_adds o : Adds (ac_new_account_name o) (account_create_evaluator o).
Proof.
  unfold account_create_evaluator. repeat (apply adds_bind; [|intros ?]).
  all: first [apply adds_create; by intros j | apply adds_keeps; keep_deep].
Qed.
Lemma account_create_with_delegation_adds o : Adds (acd_new_account_name o) (account_create_with_delegation_evaluator o).
Proof.
  unfold account_create_with_delegation_evaluator. repeat (apply adds_bind; [|intros ?]).
  all: first [apply adds_create; by intros j | apply adds_keeps; keep_deep].
Qed.
Lemma create_miner_adds name key : Adds name (create_miner name key).
Proof.
  unfold create_miner. repeat (apply adds_bind; [|intros ?]).
  all: first [apply adds_create; by intros j | apply adds_keeps; keep_deep].
Qed.
Ltac adds1 :=
  match goal with
  | |- Adds _ (_ ≫= _) => apply adds_bind; [|intros ?]
  | |- Adds _ (match ?x with _ => _ end) => destruct x
  | |- Adds _ (create_miner _ _) => apply create_miner_adds
  | |- Adds _ _ => apply adds_keeps; solve [keep_deep]
  end.
Lemma pow_adds o : Adds (po_worker_account o) (pow_evaluator o).
Proof. unfold pow_evaluator, pow_apply. repeat adds1. Qed.
Lemma adds_throw_bind {A C} name e (f : A → DB C) : Adds name (throw e ≫= f).
Proof. intros db c db' _ (a & s & H & _)%bind_ok. discriminate H. Qed.
Lemma adds_ret_bind {A C} name x (f : A → DB C) : Adds name (f x) → Adds name (mret x ≫= f).
Proof. intros Hf db c db' Hdb (a & s & [= <- <-] & H)%bind_ok. by eapply Hf. Qed.
Lemma pow2_adds o : Adds (pow2_work_get_account (p2o_work o)) (pow2_evaluator o).
Proof.
  unfold pow2_evaluator. destruct (p2o_work o) as [w|w]; cbn [pow2_work_get_account];
    repeat first [apply adds_throw_bind | apply adds_ret_bind | adds1].
Qed.
Lemma changes_update name f :
  (∀ x y, f x = Ok y → aa_id y = aa_id x ∧ aa_account y = aa_account x) →
  Changes name (auth ← get_authority name; modify (aa_id auth) f).
Proof.
  intros Hf db u db' Hid (auth & s & [-> Ha]%get_by_ok & H)%bind_ok.
  eapply changes_modify; [exact Hf|done| |exact H]. apply find_authority_Some in Ha as [Hn [i Hi]].
  exists auth. split; [|done]. by rewrite (proj1 Hid _ _ Hi : aa_id auth = i).
Qed.
Lemma update_owner_authority_changes a o : Changes (acc_name a) (update_owner_authority a o).
Proof.
  unfold update_owner_authority. do 3 (apply changes_bind; [apply changes_keeps; keep_deep|intros ?]).
  apply changes_update. by intros x y [= <-].
Qed.
Ltac changes1 :=
  match goal with
  | |- Changes _ (_ ≫= _) => apply changes_bind; [|intros ?]
  | |- Changes _ (match ?x with _ => _ end) => destruct x
  | |- Changes _ (update_owner_authority _ _) => apply update_owner_authority_changes
  | |- Changes _ _ => apply changes_keeps; solve [keep_deep]
  end.
(** The same where the row [i] is known to be one of [name]. *)
Definition changes_at {A} (name : string) (i : Z) (m : DB A) : Prop :=
  ∀ db a db', filed db → belongs name i db → m db = Ok (a, db') →
    filed db' ∧ (∀ j, belongs name j db → belongs name j db') ∧ others name db' = others name db.
Lemma changes_at_any {A} name i (m : DB A) : Changes name m → changes_at name i m.
Proof. intros Hm db a db' Hf _. by apply Hm. Qed.
Lemma changes_at_bind {A C} name i (m : DB A) (f : A → DB C) :
  changes_at name i m → (∀ a, changes_at name i (f a)) → changes_at name i (m ≫= f).
Proof.
  intros H1 H2 db c db' Hf Hi (a & s & Hm & Hk)%bind_ok. destruct (H1 _ _ _ Hf Hi Hm) as (F1 & B1 & E1).
  destruct (H2 _ _ _ _ F1 (B1 _ Hi) Hk) as (F2 & B2 & E2). split_and!; [done|auto|congruence].
Qed.
Lemma account_update_changes o : Changes (au_account o) (account_update_evaluator o).
Proof.
  intros db u db' Hid H. unfold account_update_evaluator in H.
  apply bind_ok in H as ([] & s & [_ ->]%assert_ok & H). apply bind_ok in H as (v & s & H1 & H).
  assert (s = db) as ->. { unfold when_some in H1. destruct (au_posting o); [by apply lift_ok in H1 as [_ ->]|by injection H1]. }
  apply bind_ok in H as (account & s & [-> Hn]%get_by_ok & H). apply bind_ok in H as (auth & s & [-> Ha]%get_by_ok & H).
  apply find_row_Some in Hn as [Hn _]. unfold by_name in Hn. apply bool_decide_eq_true in Hn. rewrite <- Hn in *.
  assert (belongs (acc_name account) (aa_id auth) db) as Hb.
  { apply find_authority_Some in Ha as [Hn' [i Hi]]. exists auth. split; [|done]. by rewrite (proj1 Hid _ _ Hi : aa_id auth = i). }
  match type of H with ?m db = _ => refine ((_ : changes_at (acc_name account) (aa_id auth) m) db u db' Hid Hb H) end.
  clear. repeat (apply changes_at_bind; [apply changes_at_any; unfold when_some; repeat changes1|intros ?]).
  destruct (has _ || has _); [|apply changes_at_any, changes_keeps, keeps_read; intros; by inv_ok].
  intros db u db' Hid Hb H. eapply changes_modify; [|exact Hid|exact Hb|exact H].
  intros x y [= <-]. by destruct (au_posting o), (au_active o).
Qed.
Lemma recover_account_changes o : Changes (ra_account_to_recover o) (recover_account_evaluator o).
Proof.
  intros db u db' Hid H. unfold recover_account_evaluator in H.
  apply bind_ok in H as (account & s & [-> Hn]%get_by_ok & H).
  apply find_row_Some in Hn as [Hn _]. unfold by_name in Hn. apply bool_decide_eq_true in Hn. rewrite <- Hn.
  match type of H with ?m db = _ => refine ((_ : Changes (acc_name account) m) db u db' Hid H) end. clear H.
  repeat changes1.
Qed.

(** ** The rows agree with the authorities *)
Definition keys_of (name : string) (db : database) : gset string :=
  match find_authority name db with Some a => authority_keys a | None => ∅ end.
Definition exact_for (name : string) (db : database) (t : key_index) : Prop :=
  ∀ key, (key, name) ∈ lookups t ↔ key ∈ keys_of name db.

Lemma keeps_exact name db db' t : db_authorities db' = db_authorities db → exact_for name db t → exact_for name db' t.
Proof. unfold exact_for, keys_of, find_authority, find_row, trows. cbn [tbl authorities_table]. by intros ->. Qed.
Lemma update_account_other subject name db t key :
  name ≠ subject → (key, name) ∈ lookups (update_account subject db t) ↔ (key, name) ∈ lookups t.
Proof.
  intros Hn. unfold update_account. destruct (find_authority subject db) as [a|] eqn:Ea; [|done].
  apply find_authority_Some in Ea as [Ha _]. rewrite update_key_lookup_spec, decide_False; [done|congruence].
Qed.
Lemma compromised_exact l name db db' t t' :
  file_compromised l db' t = Ok t' → name ∉ l → exact_for name db t → exact_for name db t'.
Proof.
  revert t. induction l as [|acc l IH]; intros t; cbn [file_compromised]; [by intros [= ->]|].
  intros H [Hne Hn]%not_elem_of_cons Ht. destruct (find_row (by_name acc) db') as [a|] eqn:Ea; [|by eapply IH].
  destruct (decide _); [done|]. apply (IH _ H Hn). intros key. cbn [lookups]. rewrite <- (Ht key).
  apply find_row_Some in Ea as [Ha _]. unfold by_name in Ha. apply bool_decide_eq_true in Ha. set_solver.
Qed.
(** After an operation that adds authorities, with no keys remembered. *)
Lemma added_exact subject name db db' t :
  ids_ok (A := account_authority_object) db → ids_ok (A := account_authority_object) db' →
  rows db ⊆ rows db' → others subject db' = others subject db →
  exact_for name db t → exact_for name db' (update_account subject db' (clear_cache t)).
Proof.
  intros Hdb Hdb' Hsub Hoth Ht key. unfold keys_of. destruct (decide (name = subject)) as [->|Hn].
  - unfold update_account. specialize (Ht key). unfold keys_of in Ht.
    destruct (find_authority subject db') as [a'|] eqn:Ea'.
    + pose proof Ea' as [Hn _]%find_authority_Some. rewrite update_key_lookup_spec, decide_True by done. cbn [cached_keys lookups clear_cache].
      rewrite Ht. destruct (find_authority subject db) as [a|] eqn:Ea; [|set_solver].
      apply find_authority_Some in Ea as [Hna [i Hi]]. pose proof (lookup_weaken _ _ _ _ Hi Hsub) as Hi'.
      rewrite (find_authority_row _ _ _ _ Hdb' Hi' Hna) in Ea'. injection Ea' as ->. set_solver.
    + cbn [lookups clear_cache]. rewrite Ht. destruct (find_authority subject db) as [a|] eqn:Ea; [|done].
      apply find_authority_Some in Ea as [Hna [i Hi]]. pose proof (lookup_weaken _ _ _ _ Hi Hsub) as Hi'.
      by rewrite (find_authority_row _ _ _ _ Hdb' Hi' Hna) in Ea'.
  - rewrite update_account_other by done. rewrite (others_found subject db db') by done. apply Ht.
Qed.
(** After one that changes them, with the former keys remembered. *)
Lemma changed_exact subject name db db' t :
  ids_ok (A := account_authority_object) db → ids_ok (A := account_authority_object) db' →
  (∀ i, belongs subject i db → belongs subject i db') → others subject db' = others subject db →
  exact_for name db t → exact_for name db' (update_account subject db' (cache_account subject db (clear_cache t))).
Proof.
  intros Hdb Hdb' Hbel Hoth Ht key. unfold keys_of. destruct (decide (name = subject)) as [->|Hn].
  - unfold update_account, cache_account. specialize (Ht key). unfold keys_of in Ht.
    destruct (find_authority subject db) as [a|] eqn:Ea.
    + apply find_authority_Some in Ea as [Hna [i Hi]]. destruct (Hbel i) as (a' & Hi' & Hn'); [by exists a|].
      rewrite (find_authority_row _ _ _ _ Hdb' Hi' Hn'). rewrite update_key_lookup_spec, decide_True by done.
      cbn [cached_keys lookups clear_cache cache_auths]. rewrite Ht.
      rewrite (left_id_L ∅ (∪)). destruct (decide (key ∈ authority_keys a)), (decide (key ∈ authority_keys a')); tauto.
    + destruct (find_authority subject db') as [a'|] eqn:Ea'; [|exact Ht].
      pose proof Ea' as [Hn' _]%find_authority_Some. rewrite update_key_lookup_spec, decide_True by done.
      cbn [cached_keys lookups clear_cache]. rewrite Ht. set_solver.
  - rewrite update_account_other by done. rewrite (others_found subject db db') by done.
    unfold cache_account. destruct (find_authority subject db); apply Ht.
Qed.

(** One operation, with the plugin called before and after it. *)
Lemma operation_exact op db db' t t' name :
  filed db → apply_operation op db = Ok (tt, db') → post_key_operation db' op (pre_key_operation db op t) = Ok t' →
  filed db' ∧ (exact_for name db t → exact_for name db' t').
Proof.
  intros Hdb H Hpost. destruct (subject op) eqn:Es.
  2: { pose proof (operation_authorities op Es _ _ _ H) as Hk.
       split; [unfold ids_ok, trows in *; cbn [tbl authorities_table] in *; by rewrite Hk|].
       intros Ht. apply (keeps_exact _ _ _ _ Hk).
       destruct op; try discriminate Es; try discriminate H; by injection Hpost as <-. }
  destruct op; try discriminate Es; cbn [apply_operation pre_key_operation post_key_operation] in *; injection Hpost as <-.
  - destruct (account_create_adds _ _ _ _ Hdb H) as (? & ? & ?). split; [done|]. intros ?. by apply (added_exact _ _ db).
  - destruct (account_update_changes _ _ _ _ Hdb H) as (? & ? & ?). split; [done|]. intros ?. by apply (changed_exact _ _ db).
  - destruct (pow_adds _ _ _ _ Hdb H) as (? & ? & ?). split; [done|]. intros ?. by apply (added_exact _ _ db).
  - destruct (recover_account_changes _ _ _ _ Hdb H) as (? & ? & ?). split; [done|]. intros ?. by apply (changed_exact _ _ db).
  - destruct (pow2_adds _ _ _ _ Hdb H) as (? & ? & ?). split; [done|]. intros ?. by apply (added_exact _ _ db).
  - destruct (account_create_with_delegation_adds _ _ _ _ Hdb H) as (? & ? & ?). split; [done|]. intros ?. by apply (added_exact _ _ db).
Qed.

(** ** Genesis and the hardforks

    [Spares names m]: [m] leaves the authorities of all accounts alone but those of
    [names]. *)
Class Spares {A} (names : list string) (m : DB A) : Prop :=
  spares_run : ∀ db a db', filed db → m db = Ok (a, db') →
    filed db' ∧ ∀ name, name ∉ names → find_authority name db' = find_authority name db.
Lemma spares_keeps {A} names (m : DB A) : Keeps db_authorities m → Spares names m.
Proof.
  intros Hm db a db' Hf H. unfold find_authority, find_row, ids_ok, trows in *. cbn [tbl authorities_table] in *.
  by rewrite (Hm _ _ _ H).
Qed.
Lemma spares_bind {A C} names (m : DB A) (f : A → DB C) : Spares names m → (∀ a, Spares names (f a)) → Spares names (m ≫= f).
Proof.
  intros H1 H2 db c db' Hf (a & s & Hm & Hk)%bind_ok. destruct (H1 _ _ _ Hf Hm) as [F1 E1].
  destruct (H2 _ _ _ _ F1 Hk) as [F2 E2]. split; [done|]. intros name Hn. by rewrite E2, E1.
Qed.
Lemma spares_adds {A} names name (m : DB A) : name ∈ names → Adds name m → Spares names m.
Proof.
  intros Hin Hm db a db' Hf H. destruct (Hm _ _ _ Hf H) as (Hf' & _ & E1). split; [done|]. intros n Hn.
  apply (others_found name); [done..|]. congruence.
Qed.
Lemma spares_changes {A} names name (m : DB A) : name ∈ names → Changes name m → Spares names m.
Proof.
  intros Hin Hm db a db' Hf H. destruct (Hm _ _ _ Hf H) as (Hf' & _ & E1). split; [done|]. intros n Hn.
  apply (others_found name); [done..|]. congruence.
Qed.
Lemma spares_for_each {C} names (l : list C) (f : C → DB unit) : (∀ x, x ∈ l → Spares names (f x)) → Spares names (for_each l f).
Proof.
  induction l as [|x l IH]; intros Hf; cbn [for_each]; [apply spares_keeps; keep|].
  apply spares_bind; [apply Hf; left|]. intros _. apply IH. intros y Hy. apply Hf. by right.
Qed.

(** The accounts that have authorities without an operation: those of genesis, and
    those that the ninth hardfork gave a key. *)
Definition seeded_accounts : list string :=
  [STEEMIT_MINER_ACCOUNT; STEEMIT_NULL_ACCOUNT; STEEMIT_TEMP_ACCOUNT; STEEMIT_INIT_MINER_NAME] ++ compromised_accounts.

#[local] Ltac seeded := unfold seeded_accounts; apply elem_of_app; left; rewrite !elem_of_cons; tauto.

Lemma genesis_account_adds name threshold : Adds name (genesis_account name threshold).
Proof.
  unfold genesis_account. repeat (apply adds_bind; [|intros ?]).
  all: first [apply adds_create; by intros j | apply adds_keeps; keep_deep].
Qed.
Lemma genesis_miner_adds supply : Adds STEEMIT_INIT_MINER_NAME (genesis_miner supply 0).
Proof.
  unfold genesis_miner. change (STEEMIT_INIT_MINER_NAME +:+ _)%string with STEEMIT_INIT_MINER_NAME.
  repeat (apply adds_bind; [|intros ?]).
  all: first [apply adds_create; by intros j | apply adds_keeps; keep_deep].
Qed.
Lemma init_genesis_spares supply : Spares seeded_accounts (init_genesis supply).
Proof.
  unfold init_genesis.
  do 3 (apply spares_bind; [eapply spares_adds; [|apply genesis_account_adds]; seeded|intros _]).
  apply spares_bind; [|intros _; apply spares_keeps; by intros db u db' ->%create_singletons_ok].
  apply spares_for_each. intros i Hi. assert (i = 0%nat) as ->.
  { apply elem_of_seq in Hi. unfold STEEMIT_NUM_INIT_MINERS in Hi. lia. }
  eapply spares_adds; [|apply genesis_miner_adds]. seeded.
Qed.

#[local] Instance count_child_authorities n p : Keeps db_authorities (count_child n p).
Proof. revert p. induction n as [|n IH]; intros p; cbn [count_child]; keep. Qed.
Lemma open_posting_changes name : Changes name (open_posting name).
Proof. apply changes_update. by intros x y [= <-]. Qed.
Lemma reset_compromised_spares acc : acc ∈ seeded_accounts → Spares seeded_accounts (reset_compromised acc).
Proof.
  intros Hin db u db' Hf H. unfold reset_compromised in H. apply bind_ok in H as (found & s & H1 & H).
  unfold find_account, gets in H1. injection H1 as <- <-. destruct (find_row (by_name acc) db) as [account|] eqn:Ea.
  2: { injection H as _ <-. by split. }
  apply find_row_Some in Ea as [Hn _]. unfold by_name in Hn. apply bool_decide_eq_true in Hn. rewrite <- Hn in *.
  match type of H with ?m db = _ => refine ((_ : Spares seeded_accounts m) db u db' Hf H) end.
  apply (spares_changes _ _ _ Hin), changes_bind; [apply update_owner_authority_changes|intros _].
  apply changes_update. by intros x y [= <-].
Qed.
Lemma apply_hardfork_spares n : Spares seeded_accounts (apply_hardfork n).
Proof.
  unfold apply_hardfork. apply spares_bind; [|intros _; apply spares_keeps; keep_deep].
  unfold migrate. repeat case_match; lazymatch goal with
    | |- Spares _ (for_each compromised_accounts _) => idtac
    | |- Spares _ hardfork_12 => idtac
    | _ => apply spares_keeps; keep_deep
    end.
  - apply spares_for_each. intros acc Hacc. apply reset_compromised_spares. unfold seeded_accounts. apply elem_of_app. by right.
  - unfold hardfork_12. apply spares_bind; [apply spares_keeps; keep_deep|intros cs].
    apply spares_bind; [apply spares_keeps; keep_deep|intros _].
    repeat (apply spares_bind; [|intros _]); (eapply spares_changes; [|apply open_posting_changes]; seeded).
Qed.

(** The parts of a block other than its operations and hardforks leave the
    authorities alone. *)
#[local] Instance start_laps_authorities t l : Keeps db_authorities (start_laps t l).
Proof. induction l as [|w l IH]; cbn [start_laps]; keep. Qed.
#[local] Instance cashout_loop_authorities n st : Keeps db_authorities (cashout_loop n st).
Proof.
  revert st. induction n as [|n IH]; intros st; cbn [cashout_loop]; unfold cashout_from_fund, cashout_from_gpo; keep_deep.
Qed.
#[local] Instance write_funds_authorities i fs : Keeps db_authorities (write_funds i fs).
Proof. revert i. induction fs as [|f fs IH]; intros i; cbn [write_funds]; unfold write_fund; keep. Qed.
#[local] Instance withdrawal_loop_authorities n i : Keeps db_authorities (withdrawal_loop n i).
Proof. revert i. induction n as [|n IH]; intros [i|]; cbn [withdrawal_loop]; keep_deep. Qed.
Lemma rest_of_block_authorities skip b signing_witness :
  Keeps db_authorities
    (update_global_dynamic_data skip b;; update_signing_witness signing_witness b;; update_last_irreversible_block;;
     settle_block b;; clear_null_account_balance;;
     process_funds;; process_conversions;; process_comment_cashout;; process_vesting_withdrawals;;
     process_savings_withdraws;; pay_liquidity_reward;; update_virtual_supply;; account_recovery_processing;;
     expire_escrow_ratification;; process_decline_voting_rights).
Proof. unfold settle_block. keep_deep. Qed.
End operations.

(** ** The runs of a node with the plugin

    [plugin_run supply db t]: the chain and the plugin, which began together with
    an initial supply, may have come to the state [db] and the index [t]. *)
Section runs.
Context {F : Fc} {B : Boost} {D : DiffMatchPatch} {K : Crypto} {E : Equihash} {P : Plugins}.
Inductive plugin_run (init_supply : Z) : database → key_index → Prop :=
| run_genesis t :
    lookups t = ∅ → plugin_run init_supply (genesis init_supply) t
| run_operation op db t db' t' :
    plugin_run init_supply db t → apply_operation op db = Ok (tt, db') →
    post_key_operation db' op (pre_key_operation db op t) = Ok t' → plugin_run init_supply db' t'
(** The keys are filed up to the first account that has a row, where the
    exception of the plugin is caught and put on the log. *)
| run_hardfork n db t db' filed_accounts left_accounts t' :
    plugin_run init_supply db t → apply_hardfork n db = Ok (tt, db') →
    compromised_accounts = filed_accounts ++ left_accounts →
    file_compromised filed_accounts db' t = Ok t' → plugin_run init_supply db' t'
(** Everything else: the other parts of a block ([rest_of_block_authorities]), an
    operation that fails (the keys it left in the cache stay there), and the undo
    of a session, which brings an earlier state and index back under the cache. *)
| run_other db t db' t' :
    plugin_run init_supply db t → db_authorities db' = db_authorities db → lookups t' = lookups t →
    plugin_run init_supply db' t'.
End runs.

Section theorems.
Context {F : Fc} {B : Boost} {D : DiffMatchPatch} {K : Crypto} {E : Equihash} {P : Plugins} {PL : PluginLaws}.
Notation filed := (ids_ok (A := account_authority_object)).

Lemma genesis_authorities supply :
  filed (genesis supply) ∧ ∀ name, name ∉ seeded_accounts → find_authority name (genesis supply) = None.
Proof.
  destruct (init_genesis_spares supply empty_database tt (genesis supply)) as [Hf Hs].
  - apply (empty_table_ok (A := account_authority_object)).
  - apply genesis_run.
  - split; [done|]. intros name Hn. by rewrite Hs.
Qed.
Lemma run_exact supply db t :
  plugin_run supply db t → filed db ∧ ∀ name, name ∉ seeded_accounts → exact_for name db t.
Proof.
  induction 1 as [t Ht|op db t db' t' _ [Hf IH] H Hpost|n db t db' l1 l2 t' _ [Hf IH] H Hl Hpost|db t db' t' _ [Hf IH] H Ht].
  - destruct (genesis_authorities supply) as [Hf Hnone]. split; [done|]. intros name Hn key. unfold keys_of.
    rewrite Ht, Hnone by done. set_solver.
  - split; [by apply (operation_exact op _ _ _ _ EmptyString Hf H Hpost)|].
    intros name Hn. apply (operation_exact op _ _ _ _ name Hf H Hpost). by apply IH.
  - destruct (apply_hardfork_spares n _ _ _ Hf H) as [Hf' Hs]. split; [done|]. intros name Hn.
    eapply compromised_exact; [exact Hpost|..].
    + intros Hc. apply Hn. unfold seeded_accounts. rewrite Hl. apply elem_of_app. right. apply elem_of_app. by left.
    + intros key. unfold keys_of. rewrite Hs by done. by apply IH.
  - split; [unfold ids_ok, trows in *; cbn [tbl authorities_table] in *; by rewrite H|].
    intros name Hn. apply (keeps_exact _ _ _ _ H). intros key. rewrite Ht. by apply IH.
Qed.

(** C17: in every run of a chain with the plugin from genesis on, through operations,
    hardforks, failures and undone sessions, the plugin has exactly one row for
    each key in the authorities of an account and no other, so that it answers as
    a search through the authorities would.  The accounts left out are those
    that have authorities without an operation: the four of genesis, whose first
    keys have no rows ([genesis_keys_missing]), and the compromised accounts of
    the ninth hardfork, whose new key every hardfork files again. *)
Theorem keys_indexed init_supply db t name key :
  plugin_run init_supply db t → name ∉ seeded_accounts →
  (key, name) ∈ lookups t ↔ ∃ a, find_authority name db = Some a ∧ key ∈ authority_keys a.
Proof.
  intros Hrun Hn. destruct (run_exact _ _ _ Hrun) as [_ H]. rewrite (H name Hn key). unfold keys_of.
  destruct (find_authority name db) as [a|]; [naive_solver|set_solver].
Qed.
End theorems.

#[local] Existing Instance fc_model.
#[local] Existing Instances boost_model no_patches crypto_model no_mining no_plugins no_plugins_laws.

(** An account with two keys, one of which it has twice. *)
Definition create_alice : operation :=
  let key k := Authority 1 [] [(k, 1)] in
  op_account_create (AccountCreate (Asset 1000000 STEEM_SYMBOL) STEEMIT_INIT_MINER_NAME "alice" (key "k1"%string)
    (key "k2"%string) (key "k1"%string) "k3" EmptyString).
Definition no_rows : key_index := KeyIndex ∅ ∅.
Definition alice_created : database := match apply_operation create_alice (genesis 1000000000) with Ok (_, db) => db | Throw _ => empty_database end.
Definition alice_rows : key_index :=
  match post_key_operation alice_created create_alice no_rows with Ok t => t | Throw _ => no_rows end.
Lemma alice_run : plugin_run 1000000000 alice_created alice_rows.
Proof.
  apply (run_operation _ create_alice (genesis 1000000000) no_rows).
  - by apply run_genesis.
  - unfold alice_created. destruct (apply_operation create_alice (genesis 1000000000)) as [[[] db]|e] eqn:H; [done|].
    exfalso. cut (is_ok (apply_operation create_alice (genesis 1000000000)) = true); [by rewrite H|]. vm_compute. reflexivity.
  - unfold alice_rows. change (pre_key_operation _ create_alice no_rows) with no_rows. reflexivity.
Qed.
Lemma keys_indexed_witness :
  (∃ a, find_authority "alice" alice_created = Some a ∧ "k2"%string ∈ authority_keys a) ∧
  bool_decide (lookups alice_rows = {[("k1", "alice"); ("k2", "alice")]}%string) = true.
Proof.
  split; [|vm_compute; reflexivity].
  refine (proj1 (keys_indexed 1000000000 alice_created alice_rows "alice" "k2" alice_run _) _).
  - apply (bool_decide_unpack _). vm_compute. exact I.
  - apply (bool_decide_unpack _). vm_compute. exact I.
Defined.
(** The keys of the accounts of genesis have no rows: no operation creates them. *)
Example genesis_keys_missing : ¬ exact_for STEEMIT_INIT_MINER_NAME (genesis 1000) no_rows.
Proof.
  intros H. specialize (H STEEMIT_INIT_PUBLIC_KEY). cut ((STEEMIT_INIT_PUBLIC_KEY, STEEMIT_INIT_MINER_NAME) ∈ lookups no_rows).
  - by apply not_elem_of_empty.
  - apply H. apply (bool_decide_unpack _). vm_compute. exact I.
Qed.
