(* ===== verification/AccountHistory.v ===== *)
(** * The account_history plugin

    plugins/account_history: every operation is filed, before it is applied, in the
    history of the accounts that app/impacted.cpp names for it.  The accounts can
    be restricted to ranges of names and the operations to a list of types, which
    are arguments here; so is the name that fc has for the type of an operation.

    Not modelled: the reading of the options. *)
From S2P Require Import Prelude Fc Config Asset Chainbase ChainbaseSpec Objects Protocol BlockHeader Database.
From S2P Require Import Supply Votes Ledger Rewards Comments Cashout Genesis Transfers Market Inflation Escrow.
From S2P Require Import EscrowSpec Vesting Frames Proxies Delegations Accounts WitnessSchedule Soundness Hardforks.
From S2P Require Import SignState Mining Operations Transactions.

(** ** The accounts that an operation concerns *)
Definition virtual_impacted (op : virtual_operation) : gset string :=
  match op with
  | author_reward_operation author _ _ _ _ => {[author]}
  | curation_reward_operation curator _ _ _ => {[curator]}
  | liquidity_reward_operation owner _ => {[owner]}
  | interest_operation owner _ => {[owner]}
  | fill_convert_request_operation owner _ _ _ => {[owner]}
  | fill_vesting_withdraw_operation from_account to_account _ _ => {[from_account; to_account]}
  | shutdown_witness_operation owner => {[owner]}
  | fill_order_operation current_owner _ _ open_owner _ _ => {[current_owner; open_owner]}
  | fill_transfer_from_savings_operation from to _ _ _ => {[from; to]}
  | return_vesting_delegation_operation account _ => {[account]}
  | comment_benefactor_reward_operation benefactor author _ _ => {[benefactor; author]}
  | producer_reward_operation producer _ => {[producer]}
  | comment_reward_operation _ _ _ | comment_payout_update_operation _ _ | hardfork_operation _ => ∅
  end.
(** Operations without a case of their own concern the accounts whose authority
    they require. *)
Definition required_accounts {E : Equihash} (op : operation) : gset string :=
  let r := operation_get_required_authorities op in req_posting r ∪ req_active r ∪ req_owner r.
Definition pow2_worker {E : Equihash} (w : pow2_work) : string :=
  match w with
  | work_pow2 w => pi_worker_account (p2_input w)
  | work_equihash w => pi_worker_account (ep_input w)
  end.
Definition operation_get_impacted_accounts {E : Equihash} (op : operation) : gset string :=
  match op with
  | op_account_create o => {[ac_new_account_name o; ac_creator o]}
  | op_account_create_with_delegation o => {[acd_new_account_name o; acd_creator o]}
  | op_comment o =>
      {[cm_author o]} ∪ (if bool_decide (cm_parent_author o = EmptyString) then ∅ else {[cm_parent_author o]})
  | op_challenge_authority o => {[ca_challenger o; ca_challenged o]}
  | op_vote o => {[vt_voter o; vt_author o]}
  | op_transfer o => {[tr_from o; tr_to o]}
  | op_escrow_transfer o => {[et_from o; et_to o; et_agent o]}
  | op_escrow_approve o => {[ea_from o; ea_to o; ea_agent o]}
  | op_escrow_dispute o => {[ed_from o; ed_to o; ed_agent o]}
  | op_escrow_release o => {[er_from o; er_to o; er_agent o]}
  | op_transfer_to_vesting o =>
      {[tv_from o]} ∪
      (if bool_decide (tv_to o ≠ EmptyString) && bool_decide (tv_to o ≠ tv_from o) then {[tv_to o]} else ∅)
  | op_set_withdraw_vesting_route o => {[swr_from_account o; swr_to_account o]}
  | op_account_witness_vote o => {[awv_account o; awv_witness o]}
  | op_account_witness_proxy o => {[awp_account o; awp_proxy o]}
  | op_feed_publish o => {[fp_publisher o]}
  | op_pow o => {[po_worker_account o]}
  | op_pow2 o => {[pow2_worker (p2o_work o)]}
  | op_request_account_recovery o => {[rar_account_to_recover o; rar_recovery_account o]}
  | op_recover_account o => {[ra_account_to_recover o]}
  | op_change_recovery_account o => {[cra_account_to_recover o]}
  | op_transfer_to_savings o => {[tts_from o; tts_to o]}
  | op_transfer_from_savings o => {[tfs_from o; tfs_to o]}
  | op_delegate_vesting_shares o => {[dvs_delegator o; dvs_delegatee o]}
  | op_virtual o => virtual_impacted o
  | _ => required_accounts op
  end.
Definition transaction_get_impacted_accounts {E : Equihash} (ops : list operation) : gset string :=
  foldl (λ r op, r ∪ operation_get_impacted_accounts op) ∅ ops.

(** ** The history *)
Record operation_notification := OperationNotification {
  note_trx_id : string; note_block : Z; note_trx_in_block : Z; note_op_in_trx : Z; note_virtual_op : Z; note_op : operation }.
Record operation_object := OperationObject {
  oo_trx_id : string; oo_block : Z; oo_trx_in_block : Z; oo_op_in_trx : Z; oo_virtual_op : Z; oo_timestamp : Z;
  oo_serialized_op : string }.
(** The operations by id, and the ids by account and sequence number. *)
Record account_history := AccountHistory { operations : list operation_object; history : gmap (string * Z) Z }.

(** [lower_bound( item )] in the sorted map of ranges: the number of keys before. *)
Fixpoint lower_bound (l : list (string * string)) (item : string) : nat :=
  match l with [] => 0 | (from, _) :: l' => if String.ltb from item then S (lower_bound l' item) else 0 end.

Section history.
Context {K : Crypto} {E : Equihash}.
Context (_tracked_accounts : list (string * string)) (_filter_content _blacklist : bool) (_op_list : gset string).
Context (type_name : operation → string).

Definition is_tracked (item : string) : bool :=
  let itr := lower_bound _tracked_accounts item in
  let past := match _tracked_accounts !! itr with Some r => negb (bool_decide (r.1 = item)) | None => true end in
  let itr := if negb (itr =? 0)%nat && past then (itr - 1)%nat else itr in
  (length _tracked_accounts =? 0)%nat ||
  match _tracked_accounts !! itr with Some r => String.leb r.1 item && String.leb item r.2 | None => false end.

(** [operation_visitor_filter] *)
Definition is_logged (op : operation) : bool :=
  if _filter_content then (if decide (type_name op ∈ _op_list) then negb _blacklist else _blacklist) else true.

Definition sequences (account : string) (m : gmap (string * Z) Z) : list Z :=
  (λ e, e.1.2) <$> filter (λ e, e.1.1 = account) (map_to_list m).
Definition next_sequence (account : string) (m : gmap (string * Z) Z) : Z :=
  match sequences account m with [] => 0 | i :: l => to_uint32 (foldr Z.max i l + 1) end.
(** [operation_visitor]: the object of the operation is created for the first
    account that has it in its history. *)
Definition file_operation (now : Z) (note : operation_notification) (item : string) (new_obj : option Z)
    : M account_history (option Z) :=
  h ← gets id;
  let id := match new_obj with Some i => i | None => Z.of_nat (length (operations h)) end in
  when (match new_obj with Some _ => false | None => true end)
    (update (λ h, AccountHistory
      (operations h ++ [OperationObject (note_trx_id note) (note_block note) (note_trx_in_block note) (note_op_in_trx note)
         (note_virtual_op note) now (raw_pack (note_op note))]) (history h)));;
  let sequence := next_sequence item (history h) in
  if decide (is_Some (history h !! (item, sequence))) then throw uniqueness_error
  else
    update (λ h, AccountHistory (operations h) (<[(item, sequence) := id]> (history h)));;
    mret (Some id).
Definition file_for (now : Z) (note : operation_notification) (new_obj : option Z) (item : string)
    : M account_history (option Z) :=
  if is_tracked item && is_logged (note_op note) then file_operation now note item new_obj else mret new_obj.
Definition on_operation (now : Z) (note : operation_notification) : M account_history unit :=
  fold_m (in_order (operation_get_impacted_accounts (note_op note))) (file_for now note) None;;
  mret tt.
End history.

(** ** The ranges of names *)
Lemma leb_trans a b c : String.leb a b = true → String.leb b c = true → String.leb a c = true.
Proof.
  intros H1 H2. apply Is_true_true. apply Is_true_true in H1, H2. exact (transitivity (R := String.le) H1 H2).
Qed.
Lemma leb_refl a : String.leb a a = true.
Proof. apply Is_true_true. exact (reflexivity (R := String.le) a). Qed.
Lemma ltb_leb a b : String.ltb a b = negb (String.leb b a).
Proof. unfold String.ltb, String.leb. rewrite (String.compare_antisym a b). by destruct (String.compare b a). Qed.
Lemma ltb_weak a b : String.ltb a b = true → String.leb a b = true.
Proof. rewrite ltb_leb, negb_true_iff. intros H. by destruct (String.leb_total a b) as [|E]; [|rewrite E in H]. Qed.
Lemma lt_le_trans a b c : String.ltb a b = true → String.leb b c = true → String.ltb a c = true.
Proof.
  rewrite !ltb_leb, !negb_true_iff. intros H1 H2. apply not_true_iff_false. intros H3.
  by rewrite (leb_trans _ _ _ H2 H3) in H1.
Qed.

(** Ranges in order that do not meet. *)
Fixpoint ranges_ok (l : list (string * string)) : Prop :=
  match l with
  | [] => True
  | r :: l' => String.leb r.1 r.2 = true ∧ (∀ r', r' ∈ l' → String.ltb r.2 r'.1 = true) ∧ ranges_ok l'
  end.
Definition in_range (item : string) (r : string * string) : Prop := String.leb r.1 item = true ∧ String.leb item r.2 = true.

Lemma ranges_ok_app l1 l2 :
  ranges_ok (l1 ++ l2) → ranges_ok l1 ∧ ranges_ok l2 ∧ ∀ r r', r ∈ l1 → r' ∈ l2 → String.ltb r.2 r'.1 = true.
Proof.
  induction l1 as [|r l1 IH]; cbn; [intros H; split_and!; [done|done|]; by intros r r' ?%elem_of_nil|].
  intros (H1 & H2 & (IH1 & IH2 & IH3)%IH). split_and!; [done| |done|done|].
  - intros r' Hr'. apply H2, elem_of_app. by left.
  - intros r0 r' [->|Hr0]%elem_of_cons Hr'; [apply H2, elem_of_app; by right|by apply IH3].
Qed.
Lemma lower_bound_split l item :
  ranges_ok l → ∃ l1 l2, l = l1 ++ l2 ∧ lower_bound l item = length l1 ∧
    (∀ r, r ∈ l1 → String.ltb r.1 item = true) ∧ (∀ r, r ∈ l2 → String.leb item r.1 = true).
Proof.
  induction l as [|[from to] l IH]; cbn [ranges_ok lower_bound]; intros Hl.
  - exists [], []. split_and!; [done|done|by intros r ?%elem_of_nil|by intros r ?%elem_of_nil].
  - destruct Hl as (H1 & H2 & Hl). destruct (String.ltb from item) eqn:Ef.
    + destruct (IH Hl) as (l1 & l2 & -> & -> & B1 & B2). exists ((from, to) :: l1), l2. split_and!; [done|done| |done].
      intros r [->|Hr]%elem_of_cons; [done|by apply B1].
    + exists [], ((from, to) :: l). split_and!; [done|done|by intros r ?%elem_of_nil|].
      rewrite ltb_leb, negb_false_iff in Ef. intros r [->|Hr]%elem_of_cons; [done|].
      eapply leb_trans; [exact Ef|]. eapply leb_trans; [exact H1|]. apply ltb_weak. by apply H2.
Qed.
(** The ranges from the first one that does not begin before the name. *)
Lemma later_range l item r :
  ranges_ok l → (∀ r, r ∈ l → String.leb item r.1 = true) → r ∈ l → in_range item r → ∃ l', l = r :: l' ∧ r.1 = item.
Proof.
  intros Hl Hb Hr [H1 H2]. assert (r.1 = item) as Er by (apply String.leb_antisym; [done|by apply Hb]).
  destruct l as [|x l]; [by apply elem_of_nil in Hr|]. apply elem_of_cons in Hr as [->|Hr]; [by eexists|]. exfalso.
  destruct Hl as (Hx & Hlt & _). specialize (Hlt r Hr). rewrite Er, ltb_leb, negb_true_iff in Hlt.
  by rewrite (leb_trans item x.1 x.2 (Hb x ltac:(left)) Hx) in Hlt.
Qed.
Lemma is_tracked_spec l item :
  ranges_ok l → is_tracked l item = true ↔ l = [] ∨ ∃ r, r ∈ l ∧ in_range item r.
Proof.
  intros Hl. destruct (lower_bound_split l item Hl) as (l1 & l2 & -> & Hlb & B1 & B2).
  apply ranges_ok_app in Hl as (Hl1 & Hl2 & Hsep). unfold is_tracked. rewrite Hlb. rewrite (lookup_app_r l1 l2 (length l1)), Nat.sub_diag by lia.
  assert (∀ r, r ∈ l2 → in_range item r → l2 !! 0%nat = Some r ∧ r.1 = item) as Hat.
  { intros r Hr Hin. by destruct (later_range l2 item r Hl2 B2 Hr Hin) as (l' & -> & ?). }
  destruct (decide (fst <$> l2 !! 0%nat = Some item)) as [Eh|Eh].
  - destruct l2 as [|r2 l2]; [done|]. cbn in Eh. injection Eh as Eh. cbn [lookup list_lookup]. rewrite bool_decide_true by done.
    cbn [negb]. rewrite andb_false_r. replace (length (l1 ++ r2 :: l2) =? 0)%nat with false.
    2: { symmetry. apply Nat.eqb_neq. rewrite length_app. cbn. lia. }
    rewrite list_lookup_middle by lia. assert (in_range item r2) as [H1 H2].
    { split; rewrite <- Eh; [apply leb_refl|]. by destruct Hl2. }
    rewrite H1, H2. cbn. split; [|done]. intros _. right. exists r2. split; [set_solver|done].
  - assert (match l2 !! 0%nat with Some r => negb (bool_decide (r.1 = item)) | None => true end = true) as ->.
    { destruct (l2 !! 0%nat) as [r|]; [|done]. rewrite bool_decide_false; [done|]. intros Er. apply Eh. cbn. by rewrite Er. }
    assert (∀ r, r ∈ l2 → ¬ in_range item r) as Hno.
    { intros r Hr Hin. destruct (Hat r Hr Hin) as [E1 E2]. apply Eh. rewrite E1. cbn. by rewrite E2. }
    clear Hat. rewrite andb_true_r. destruct l1 as [|r1 l1 _] using rev_ind.
    + cbn [length Nat.eqb negb app]. destruct l2 as [|r2 l2]; [cbn; naive_solver|]. cbn [length Nat.eqb lookup list_lookup orb].
      split; [|intros [?|(r & Hr & Hin)]; [done|by destruct (Hno r Hr)]].
      intros [H1 H2]%andb_true_iff. by destruct (Hno r2 ltac:(left)).
    + pose proof (ltb_weak _ _ (B1 r1 ltac:(set_solver))) as H1. rewrite !length_app. cbn [length].
      replace (length l1 + 1 =? 0)%nat with false by (symmetry; apply Nat.eqb_neq; lia). cbn [negb].
      replace (length l1 + 1 + length l2 =? 0)%nat with false by (symmetry; apply Nat.eqb_neq; lia). cbn [orb].
      rewrite <- app_assoc. cbn [app]. rewrite list_lookup_middle by lia. rewrite H1. cbn [andb].
      apply ranges_ok_app in Hl1 as (_ & _ & Hl1). split; [intros H2; right; exists r1; split; [set_solver|done]|].
      intros [E0|(r & Hr & Hin)]; [by destruct l1|]. apply elem_of_app in Hr as [Hr|[->|Hr]%elem_of_cons]; [|apply Hin|by destruct (Hno r Hr)].
      exfalso. pose proof (lt_le_trans _ _ _ (Hl1 r r1 Hr ltac:(left)) H1) as Hlt. destruct Hin as [_ Hin].
      by rewrite ltb_leb, Hin in Hlt.
Qed.

(** ** The history of an account is a list of operations *)

(** [hs account] are the ids of the operations of [account], in order. *)
Definition histories (m : gmap (string * Z) Z) (hs : string → list Z) : Prop :=
  ∀ account s i, m !! (account, s) = Some i ↔ 0 ≤ s ∧ hs account !! Z.to_nat s = Some i.

Lemma elem_of_sequences account m s : s ∈ sequences account m ↔ ∃ i, m !! (account, s) = Some i.
Proof.
  unfold sequences. rewrite list_elem_of_fmap. split.
  - intros ([[a s'] i] & -> & [Ha Hin%elem_of_map_to_list]%list_elem_of_filter). cbn in *. subst a. by exists i.
  - intros [i Hi]. exists (account, s, i). split; [done|]. apply list_elem_of_filter. split; [done|]. by apply elem_of_map_to_list.
Qed.
Lemma next_sequence_ok m hs account :
  histories m hs → Z.of_nat (length (hs account)) < U32 → next_sequence account m = Z.of_nat (length (hs account)).
Proof.
  intros Hm Hlen. unfold next_sequence.
  assert (∀ s, s ∈ sequences account m ↔ 0 ≤ s < Z.of_nat (length (hs account))) as Hin.
  { intros s. rewrite elem_of_sequences. split.
    - intros [i [Hs Hi%lookup_lt_Some]%Hm]. lia.
    - intros Hs. destruct (lookup_lt_is_Some_2 (hs account) (Z.to_nat s)) as [i Hi]; [lia|]. exists i. apply Hm. split; [lia|done]. }
  destruct (sequences account m) as [|x l] eqn:El.
  - destruct (hs account) as [|y h]; [done|]. exfalso. apply (not_elem_of_nil (A := Z) 0), Hin. cbn. lia.
  - destruct (foldr_max_ge x l) as [H1 H2]. set (top := foldr Z.max x l) in *.
    assert (top ∈ x :: l) as Htop by (destruct (foldr_max_in x l) as [E1|E1]; unfold top; [rewrite E1; left|by right]).
    apply Hin in Htop. assert (Z.of_nat (length (hs account)) - 1 ≤ top).
    { assert (Z.of_nat (length (hs account)) - 1 ∈ x :: l) as [->|Hl]%elem_of_cons by (apply Hin; lia); [done|by apply H2]. }
    assert (top + 1 = Z.of_nat (length (hs account))) as -> by lia. apply Z.mod_small. lia.
Qed.
Lemma histories_append m hs account i :
  histories m hs →
  histories (<[(account, Z.of_nat (length (hs account))) := i]> m) (λ a, if decide (a = account) then hs a ++ [i] else hs a).
Proof.
  intros Hm a s j. rewrite lookup_insert_Some. rewrite (Hm a s j). destruct (decide (a = account)) as [->|Hne]; [|naive_solver].
  rewrite lookup_snoc_Some. split.
  - intros [[[= <-] <-]|[_ [Hs Hj]]]; [split; [lia|right; split; [lia|done]]|].
    split; [done|left]. split; [by eapply lookup_lt_Some|done].
  - intros [Hs [[Hlt Hj]|[Hlen ->]]]; [right|left].
    + split; [intros [= E1]; lia|done].
    + split; [f_equal; lia|done].
Qed.

Section filing.
Context {K : Crypto} {E : Equihash}.
Context (ranges : list (string * string)) (filter_content blacklist : bool) (op_list : gset string).
Context (type_name : operation → string) (now : Z) (note : operation_notification).

Definition note_object : operation_object :=
  OperationObject (note_trx_id note) (note_block note) (note_trx_in_block note) (note_op_in_trx note)
    (note_virtual_op note) now (raw_pack (note_op note)).
(** An account in whose history the operation is filed. *)
Definition files (account : string) : bool :=
  is_tracked ranges account && is_logged filter_content blacklist op_list type_name (note_op note).

Lemma file_operation_ok x new_obj h hs :
  histories (history h) hs → Z.of_nat (length (hs x)) < U32 →
  let n := match new_obj with Some i => i | None => Z.of_nat (length (operations h)) end in
  file_operation now note x new_obj h =
    Ok (Some n, AccountHistory (operations h ++ match new_obj with Some _ => [] | None => [note_object] end)
                  (<[(x, Z.of_nat (length (hs x))) := n]> (history h))).
Proof.
  intros Hh Hlen n. assert (history h !! (x, Z.of_nat (length (hs x))) = None) as Hnone.
  { destruct (history h !! _) as [i|] eqn:Ei; [|done]. apply Hh in Ei as [_ Hi%lookup_lt_Some]. lia. }
  unfold file_operation. rewrite m_bind_run. change (gets id h) with (Ok (h, h)). cbn beta iota zeta.
  rewrite (next_sequence_ok _ hs) by done. rewrite Hnone, decide_False by (by intros [? ?]).
  unfold n, note_object. destruct new_obj; [|done]. rewrite app_nil_r. by destruct h.
Qed.
Lemma fold_files l new_obj h hs :
  NoDup l → histories (history h) hs → (∀ a, a ∈ l → Z.of_nat (length (hs a)) < U32) →
  let n := match new_obj with Some i => i | None => Z.of_nat (length (operations h)) end in
  ∃ o h', fold_m l (file_for ranges filter_content blacklist op_list type_name now note) new_obj h = Ok (o, h') ∧
    histories (history h') (λ a, if decide (a ∈ l ∧ files a = true) then hs a ++ [n] else hs a) ∧
    operations h' = operations h ++ (match new_obj with Some _ => [] | None => if existsb files l then [note_object] else [] end).
Proof.
  revert new_obj h hs. induction l as [|x l IH]; intros new_obj h hs Hnd Hh Hlen; cbn zeta.
  - exists new_obj, h. split_and!; [done| |destruct new_obj; by rewrite app_nil_r].
    intros a s i. destruct (decide (a ∈ [] ∧ _)) as [[[]%elem_of_nil _]|_]. apply Hh.
  - apply NoDup_cons in Hnd as [Hx Hnd]. cbn [fold_m existsb]. rewrite m_bind_run.
    assert (∀ f g : string → list Z, (∀ a, f a = g a) → ∀ m, histories m f → histories m g) as Hext.
    { intros f g Hfg m Hm a s i. rewrite (Hm a s i). by rewrite Hfg. }
    unfold file_for at 1. fold (files x). destruct (files x) eqn:Ef.
    + rewrite (file_operation_ok x new_obj h hs) by (done || apply Hlen; left).
      set (n := match new_obj with Some i => i | None => Z.of_nat (length (operations h)) end). set (h1 := AccountHistory _ _).
      destruct (IH (Some n) h1 (λ a, if decide (a = x) then hs a ++ [n] else hs a)) as (o & h' & H1 & H2 & H3); [done| | |].
      { apply histories_append. exact Hh. }
      { intros a Ha. destruct (decide (a = x)) as [->|]; [done|]. apply Hlen. by right. }
      exists o, h'. split_and!; [exact H1| |rewrite H3, app_nil_r; by destruct new_obj].
      eapply Hext; [|exact H2]. intros a. cbn beta. destruct (decide (a = x)) as [->|Hne].
      * rewrite decide_False by (by intros [? _]). rewrite decide_True; [done|]. split; [left|done].
      * destruct (decide (a ∈ l ∧ files a = true)) as [[Ha Hfa]|Hn]; [rewrite decide_True; [done|]; split; [by right|done]|].
        rewrite decide_False; [done|]. intros [[Ha|Ha]%elem_of_cons Hfa]; [done|]. by apply Hn.
    + cbn [mret M_ret]. destruct (IH new_obj h hs) as (o & h' & H1 & H2 & H3); [done|done| |].
      { intros a Ha. apply Hlen. by right. }
      exists o, h'. split_and!; [exact H1| |exact H3]. eapply Hext; [|exact H2]. intros a. cbn beta.
      destruct (decide (a ∈ l ∧ files a = true)) as [[Ha Hfa]|Hn]; [rewrite decide_True; [done|]; split; [by right|done]|].
      rewrite decide_False; [done|]. intros [[Ha|Ha]%elem_of_cons Hfa]; [congruence|]. by apply Hn.
Qed.
End filing.

(** Every account whose authority a valid operation requires is impacted by it. *)
Lemma required_accounts_impacted {F : Fc} {B : Boost} {D : DiffMatchPatch} {K : Crypto} {E : Equihash} {P : Plugins} op :
  operation_validate op = Ok tt → required_accounts op ⊆ operation_get_impacted_accounts op.
Proof.
  intros Hv. unfold required_accounts.
  destruct op; cbn [operation_get_impacted_accounts operation_get_required_authorities operation_validate] in *; try done.
  all: try (repeat case_match; cbn [req_posting req_active req_owner require_posting require_active require_owner pow2_worker]; set_solver).
  - unfold escrow_dispute_validate in Hv. do 4 apply rbind_ok in Hv as (? & _ & Hv). apply FC_ASSERT_ok in Hv.
    rewrite orb_true_iff, !bool_decide_eq_true in Hv. cbn. set_solver.
  - unfold escrow_release_validate in Hv. do 5 apply rbind_ok in Hv as (? & _ & Hv). apply rbind_ok in Hv as (? & Hv%FC_ASSERT_ok & _).
    rewrite !orb_true_iff, !bool_decide_eq_true in Hv. cbn. set_solver.
  - unfold escrow_approve_validate in Hv. do 4 apply rbind_ok in Hv as (? & _ & Hv). apply FC_ASSERT_ok in Hv.
    rewrite orb_true_iff, !bool_decide_eq_true in Hv. cbn. set_solver.
Qed.

(** An account that the plugin tracks: all of them without ranges. *)
#[export] Instance in_range_dec item r : Decision (in_range item r).
Proof. unfold in_range. apply _. Defined.
Definition tracked_in (ranges : list (string * string)) (account : string) : Prop :=
  ranges = [] ∨ Exists (in_range account) ranges.
#[export] Instance tracked_in_dec ranges account : Decision (tracked_in ranges account).
Proof. unfold tracked_in. apply _. Defined.

Section theorems.
Context {F : Fc} {B : Boost} {D : DiffMatchPatch} {K : Crypto} {E : Equihash} {P : Plugins}.

(** C20: each operation is added, once, to the end of the history of exactly the
    impacted accounts that are in one of the ranges, if its type is logged, with
    consecutive sequence numbers; all accounts whose authority it requires are
    among the impacted ones. *)
Theorem operations_recorded ranges filter_content blacklist op_list type_name now note h hs :
  ranges_ok ranges → histories (history h) hs → (∀ a, Z.of_nat (length (hs a)) < U32) →
  let impacted := operation_get_impacted_accounts (note_op note) in
  let concerned a := a ∈ impacted ∧ tracked_in ranges a ∧
    is_logged filter_content blacklist op_list type_name (note_op note) = true in
  ∃ h', on_operation ranges filter_content blacklist op_list type_name now note h = Ok (tt, h') ∧
    histories (history h') (λ a, if decide (concerned a) then hs a ++ [Z.of_nat (length (operations h))] else hs a) ∧
    (∀ a, concerned a → operations h' = operations h ++ [note_object now note]) ∧
    (operation_validate (note_op note) = Ok tt → required_accounts (note_op note) ⊆ impacted).
Proof.
  intros Hr Hh Hlen impacted concerned.
  set (l := in_order impacted). assert (∀ a, a ∈ l ↔ a ∈ impacted) as Hl.
  { intros a. unfold l, in_order. by rewrite sort_by_elem, elem_of_elements. }
  assert (∀ a, concerned a ↔ a ∈ l ∧ files ranges filter_content blacklist op_list type_name note a = true) as Hc.
  { intros a. unfold concerned, files, tracked_in. rewrite Hl, andb_true_iff, (is_tracked_spec ranges a Hr), Exists_exists. done. }
  destruct (fold_files ranges filter_content blacklist op_list type_name now note l None h hs) as (o & h' & H1 & H2 & H3);
    [unfold l, in_order; rewrite sort_by_perm; apply NoDup_elements|done|auto|].
  exists h'. split_and!.
  - unfold on_operation. rewrite m_bind_run. fold impacted l. by rewrite H1.
  - intros a s i. rewrite (H2 a s i). destruct (decide (concerned a)) as [Ha|Ha].
    + by rewrite decide_True by by apply Hc.
    + by rewrite decide_False by by rewrite <- Hc.
  - intros a [Ha Hfa]%Hc. rewrite H3. rewrite (proj2 (existsb_exists _ _)); [done|]. exists a. split; [by apply list_elem_of_In|done].
  - apply required_accounts_impacted.
Qed.
End theorems.

#[local] Existing Instance fc_model.
#[local] Existing Instances boost_model no_patches crypto_model no_mining no_plugins.

(** A node that tracks the names from a to b. *)
Definition first_names : list (string * string) := [("a", "b"); ("t", "u")]%string.
Definition alice_pays : operation := op_transfer (Transfer "alice" "carol" (Asset 5 STEEM_SYMBOL) EmptyString).
Definition alice_note : operation_notification := OperationNotification EmptyString 1 0 0 0 alice_pays.
Definition no_history : account_history := AccountHistory [] ∅.
Definition after_payment : account_history :=
  match on_operation first_names false false ∅ (λ _, EmptyString) 10 alice_note no_history with
  | Ok (_, h) => h | Throw _ => no_history end.
Lemma operations_recorded_witness :
  ranges_ok first_names ∧ history after_payment !! ("alice"%string, 0) = Some 0 ∧
  ∃ h', on_operation first_names false false ∅ (λ _, EmptyString) 10 alice_note no_history = Ok (tt, h') ∧
    histories (history h') (λ a, if decide (a ∈ operation_get_impacted_accounts alice_pays ∧ tracked_in first_names a ∧ true = true)
                                 then [] ++ [0] else []).
Proof.
  assert (ranges_ok first_names) as Hr.
  { split; [reflexivity|]. split; [intros r' ->%list_elem_of_singleton; reflexivity|]. split; [reflexivity|].
    split; [by intros r' ?%elem_of_nil|exact I]. }
  split; [exact Hr|]. split; [vm_compute; reflexivity|].
  destruct (operations_recorded first_names false false ∅ (λ _, EmptyString) 10 alice_note no_history (λ _, []) Hr)
    as (h' & H1 & H2 & _).
  - intros a s i. cbn [history no_history]. rewrite lookup_empty. split; [done|]. by intros [_ ?].
  - intros a. reflexivity.
  - exists h'. split; [exact H1|exact H2].
Defined.
